(** * PG-Strom: GPU store chunks, their MVCC visibility, the transaction
      reclaimer, the GpuContext pool and its resource tracker

    A shallow embedding of [src/gstore_fdw.c] and [src/gpu_context.c].

    Conventions of the embedding.
    - C integers are [Z]; a pointer into a fixed shared array
      ([GpuStoreChunk *], [SharedGpuContext *]) is the index of its slot.
    - An intrusive [dlist_head] is the list of the slots linked on it, head
      first.  A node is linked on at most one list, so [dlist_delete] is
      the removal of the slot from the lists it can be linked on.
    - [elog(ERROR, ...)] / [ereport(ERROR, ...)] leave the function by
      [longjmp]; the functions below return the state reached at that point
      together with the error.  Writes to shared memory done before the
      error stay done.
    - A node of a list is always a slot of its array; where a function of
      the model is given a number that is no slot, it passes over it.
    - Where the C language leaves a call undefined (a [NULL] or dangling
      pointer, a failed [Assert]) the function returns the state at the
      point of the fault and says so.
    - Spinlocks are not modelled: every function below runs as one atomic
      step.
    - PostgreSQL and CUDA entry points that are called, but not defined, by
      the two source files are parameters of the model (records of oracle
      functions); the macros of [access/transam.h] and the freeing of
      preserved device memory are written out, and say so. *)

From Stdlib Require Import ZArith Lia Bool.
From Stdlib Require String.
From stdpp Require Import base option list.

Local Open Scope Z_scope.

(** ** PostgreSQL transaction primitives used by the sources *)

Module Xact.

Definition TransactionId := Z.
Definition CommandId := Z.
Definition Oid := Z.

(** [access/transam.h] *)
Definition InvalidTransactionId : TransactionId := 0.
Definition BootstrapTransactionId : TransactionId := 1.
Definition FrozenTransactionId : TransactionId := 2.
Definition FirstNormalTransactionId : TransactionId := 3.

Definition TransactionIdIsValid (xid : TransactionId) : bool :=
  negb (xid =? InvalidTransactionId).

Definition TransactionIdIsNormal (xid : TransactionId) : bool :=
  FirstNormalTransactionId <=? xid.

(** What the backend that runs the code knows about transactions.  Each
    field is the PostgreSQL function or global of the same name. *)
Record XactEnv := {
  MyDatabaseId : Oid;
  GetCurrentTransactionId : TransactionId;
  GetCurrentCommandId : CommandId;
  TransactionIdIsCurrentTransactionId : TransactionId -> bool;
  TransactionIdDidCommit : TransactionId -> bool;
  TransactionIdPrecedes : TransactionId -> TransactionId -> bool;
  (** [GetOldestXmin(NULL, true)] *)
  GetOldestXmin : TransactionId;
  (** [INIT_LEGACY_CRC32; COMP (database); COMP (table); FIN] *)
  legacy_crc32_oid2 : Oid -> Oid -> Z
}.

(** An MVCC snapshot: its [curcid], and [XidInMVCCSnapshot(xid, snapshot)]
    as the set of transactions the snapshot treats as in progress. *)
Record Snapshot := {
  curcid : CommandId;
  XidInMVCCSnapshot : TransactionId -> bool
}.

End Xact.

Import Xact.

(** ** How a C function of the sources ends *)

Module Elog.

Inductive ErrCode :=
| ERRCODE_INTERNAL_ERROR            (* what [elog(ERROR, ...)] raises *)
| ERRCODE_FEATURE_NOT_SUPPORTED
| ERRCODE_INSUFFICIENT_RESOURCES.

Inductive Fault :=
| NullDereference
| OutOfBounds
| AssertionFailure.

(** A function returns, raises an [ERROR] ([elog], [ereport], [werror]),
    ends the process ([elog(FATAL)], [wfatal]), or does something the
    language leaves undefined.  [Assert] is checked. *)
Inductive Outcome (A : Type) :=
| Return (a : A)
| Error (e : ErrCode)
| Fatal
| Undefined (u : Fault).
Arguments Return {A} a.
Arguments Error {A} e.
Arguments Fatal {A}.
Arguments Undefined {A} u.

End Elog.

Import Elog.

(** ** gstore_fdw.c: chunks and the visibility predicate *)

Module GStore.

(** [struct GpuStoreChunk], without its [chain] node. *)
Record GpuStoreChunk := {
  hash : Z;
  database_oid : Oid;
  table_oid : Oid;
  xmax : TransactionId;
  xmin : TransactionId;
  cid : CommandId;
  xmax_commited : bool;
  xmin_commited : bool;
  kds_nitems : Z;
  kds_length : Z;
  cuda_dindex : Z;
  ipc_mhandle : Z;
  dsm_handle : Z
}.

Definition set_xmax (v : TransactionId) (c : GpuStoreChunk) : GpuStoreChunk :=
  {| hash := hash c; database_oid := database_oid c;
     table_oid := table_oid c; xmax := v; xmin := xmin c; cid := cid c;
     xmax_commited := xmax_commited c; xmin_commited := xmin_commited c;
     kds_nitems := kds_nitems c; kds_length := kds_length c;
     cuda_dindex := cuda_dindex c; ipc_mhandle := ipc_mhandle c;
     dsm_handle := dsm_handle c |}.

Definition set_xmin (v : TransactionId) (c : GpuStoreChunk) : GpuStoreChunk :=
  {| hash := hash c; database_oid := database_oid c;
     table_oid := table_oid c; xmax := xmax c; xmin := v; cid := cid c;
     xmax_commited := xmax_commited c; xmin_commited := xmin_commited c;
     kds_nitems := kds_nitems c; kds_length := kds_length c;
     cuda_dindex := cuda_dindex c; ipc_mhandle := ipc_mhandle c;
     dsm_handle := dsm_handle c |}.

Definition set_cid (v : CommandId) (c : GpuStoreChunk) : GpuStoreChunk :=
  {| hash := hash c; database_oid := database_oid c;
     table_oid := table_oid c; xmax := xmax c; xmin := xmin c; cid := v;
     xmax_commited := xmax_commited c; xmin_commited := xmin_commited c;
     kds_nitems := kds_nitems c; kds_length := kds_length c;
     cuda_dindex := cuda_dindex c; ipc_mhandle := ipc_mhandle c;
     dsm_handle := dsm_handle c |}.

Definition set_xmax_commited (v : bool) (c : GpuStoreChunk) : GpuStoreChunk :=
  {| hash := hash c; database_oid := database_oid c;
     table_oid := table_oid c; xmax := xmax c; xmin := xmin c; cid := cid c;
     xmax_commited := v; xmin_commited := xmin_commited c;
     kds_nitems := kds_nitems c; kds_length := kds_length c;
     cuda_dindex := cuda_dindex c; ipc_mhandle := ipc_mhandle c;
     dsm_handle := dsm_handle c |}.

Definition set_xmin_commited (v : bool) (c : GpuStoreChunk) : GpuStoreChunk :=
  {| hash := hash c; database_oid := database_oid c;
     table_oid := table_oid c; xmax := xmax c; xmin := xmin c; cid := cid c;
     xmax_commited := xmax_commited c; xmin_commited := v;
     kds_nitems := kds_nitems c; kds_length := kds_length c;
     cuda_dindex := cuda_dindex c; ipc_mhandle := ipc_mhandle c;
     dsm_handle := dsm_handle c |}.

Definition set_dsm_handle (v : Z) (c : GpuStoreChunk) : GpuStoreChunk :=
  {| hash := hash c; database_oid := database_oid c;
     table_oid := table_oid c; xmax := xmax c; xmin := xmin c; cid := cid c;
     xmax_commited := xmax_commited c; xmin_commited := xmin_commited c;
     kds_nitems := kds_nitems c; kds_length := kds_length c;
     cuda_dindex := cuda_dindex c; ipc_mhandle := ipc_mhandle c;
     dsm_handle := v |}.

(** [gstore_fdw_satisfies_visibility], from the comment "by here, the
    inserting transaction has committed" to the end of the function.
    The result is the returned flag and the chunk as the call leaves it. *)
Definition visibility_of_delete (env : XactEnv) (gs_chunk : GpuStoreChunk)
    (snapshot : Snapshot) : bool * GpuStoreChunk :=
  if negb (TransactionIdIsValid (xmax gs_chunk)) then
    (true, gs_chunk)                       (* nobody deleted yet *)
  else if negb (xmax_commited gs_chunk) then
    if TransactionIdIsCurrentTransactionId env (xmax gs_chunk) then
      if curcid snapshot <=? cid gs_chunk then
        (true, gs_chunk)                   (* deleted after scan started *)
      else
        (false, gs_chunk)                  (* deleted before scan started *)
    else if XidInMVCCSnapshot snapshot (xmax gs_chunk) then
      (true, gs_chunk)
    else if negb (TransactionIdDidCommit env (xmax gs_chunk)) then
      (* it must have aborted or crashed *)
      (true, set_xmax InvalidTransactionId gs_chunk)
    else
      (* xmax transaction committed *)
      (false, set_xmax_commited true gs_chunk)
  else
    (* xmax is committed, but maybe not according to our snapshot *)
    if XidInMVCCSnapshot snapshot (xmax gs_chunk) then
      (true, gs_chunk)                     (* treat as still in progress *)
    else
      (false, gs_chunk).

(** [gstore_fdw_satisfies_visibility] *)
Definition gstore_fdw_satisfies_visibility (env : XactEnv)
    (gs_chunk : GpuStoreChunk) (snapshot : Snapshot)
    : bool * GpuStoreChunk :=
  if negb (xmin_commited gs_chunk) then
    if negb (TransactionIdIsValid (xmin gs_chunk)) then
      (false, gs_chunk)                    (* aborted or crashed *)
    else if TransactionIdIsCurrentTransactionId env (xmin gs_chunk) then
      if curcid snapshot <=? cid gs_chunk then
        (false, gs_chunk)                  (* inserted after scan started *)
      else if xmax gs_chunk =? InvalidTransactionId then
        (true, gs_chunk)                   (* nobody delete it yet *)
      else if negb (TransactionIdIsCurrentTransactionId env (xmax gs_chunk))
      then
        (* deleting subtransaction must have aborted *)
        (true, set_xmax InvalidTransactionId gs_chunk)
      else if curcid snapshot <=? cid gs_chunk then
        (true, gs_chunk)                   (* deleted after scan started *)
      else
        (false, gs_chunk)                  (* deleted before scan started *)
    else if XidInMVCCSnapshot snapshot (xmin gs_chunk) then
      (false, gs_chunk)
    else if TransactionIdDidCommit env (xmin gs_chunk) then
      visibility_of_delete env (set_xmin_commited true gs_chunk) snapshot
    else
      (* it must have aborted or crashed *)
      (false, set_xmin InvalidTransactionId gs_chunk)
  else
    (* xmin is committed, but maybe not according to our snapshot *)
    if negb (xmin gs_chunk =? FrozenTransactionId)
       && XidInMVCCSnapshot snapshot (xmin gs_chunk) then
      (false, gs_chunk)                    (* treat as still in progress *)
    else
      visibility_of_delete env gs_chunk snapshot.

(** The conditions under which [gstore_fdw_satisfies_visibility] reaches
    "by here, the inserting transaction has committed". *)
Definition insert_established (env : XactEnv) (gs_chunk : GpuStoreChunk)
    (snapshot : Snapshot) : bool :=
  if xmin_commited gs_chunk then
    negb (negb (xmin gs_chunk =? FrozenTransactionId)
          && XidInMVCCSnapshot snapshot (xmin gs_chunk))
  else
    TransactionIdIsValid (xmin gs_chunk)
    && negb (TransactionIdIsCurrentTransactionId env (xmin gs_chunk))
    && negb (XidInMVCCSnapshot snapshot (xmin gs_chunk))
    && TransactionIdDidCommit env (xmin gs_chunk).

(** *** The shared chunk store *)

Definition GSTORE_CHUNK_HASH_NSLOTS : Z := 97.

(** [GpuStoreHead].  [gs_chunks] is the flexible array of descriptors;
    [free_chunks] and the [active_chunks] buckets hold slot numbers. *)
Record GpuStoreHead := {
  has_warm_chunks : Z;
  free_chunks : list nat;
  active_chunks : list (list nat);
  gs_chunks : list GpuStoreChunk
}.

(** The state of the CUDA device as far as the store uses it:
    the live [gpuMemAllocPreserved] allocations (device index, IPC handle),
    the device pointers opened by [gpuIpcOpenMemHandle] and not closed,
    and the depth of the [cuCtxPushCurrent] stack. *)
Record DeviceState := {
  preserved : list (Z * Z);
  ipc_opened : list Z;
  ctx_depth : nat
}.

(** Shared memory, the process-local [gstore_maps] array ([dsm_seg] of a
    slot: the handle of the attached segment, [None] for [NULL]) and the
    device. *)
Record Machine := {
  gstore_head : GpuStoreHead;
  gstore_maps : list (option Z);
  device : DeviceState
}.

Definition with_chunks (h : GpuStoreHead) (cs : list GpuStoreChunk)
    : GpuStoreHead :=
  {| has_warm_chunks := has_warm_chunks h; free_chunks := free_chunks h;
     active_chunks := active_chunks h; gs_chunks := cs |}.

Definition with_head (m : Machine) (h : GpuStoreHead) : Machine :=
  {| gstore_head := h; gstore_maps := gstore_maps m; device := device m |}.

(** [hash % GSTORE_CHUNK_HASH_NSLOTS] *)
Definition hash_index (h : Z) : nat :=
  Z.to_nat (h mod GSTORE_CHUNK_HASH_NSLOTS).

(** The test of [gstore_fdw_lookup_chunk_nolock] before the visibility
    call. *)
Definition chunk_matches (env : XactEnv) (gstore_oid : Oid) (h : Z)
    (gs_temp : GpuStoreChunk) : bool :=
  (hash gs_temp =? h)
  && (database_oid gs_temp =? MyDatabaseId env)
  && (table_oid gs_temp =? gstore_oid).

(** The [dlist_foreach] loop of [gstore_fdw_lookup_chunk_nolock] over the
    nodes that remain, with the array and [gs_chunk] as they are.  A node
    is always a slot of [gs_chunks]; a number that is not is passed
    over. *)
Fixpoint lookup_scan (env : XactEnv) (gstore_oid : Oid) (h : Z)
    (snapshot : Snapshot) (nodes : list nat) (cs : list GpuStoreChunk)
    (gs_chunk : option nat) : list GpuStoreChunk * Outcome (option nat) :=
  match nodes with
  | [] => (cs, Return gs_chunk)
  | p :: rest =>
      match cs !! p with
      | None => lookup_scan env gstore_oid h snapshot rest cs gs_chunk
      | Some gs_temp =>
          if chunk_matches env gstore_oid h gs_temp then
            let r := gstore_fdw_satisfies_visibility env gs_temp snapshot in
            let cs' := <[p := snd r]> cs in
            if fst r then
              match gs_chunk with
              | None =>
                  lookup_scan env gstore_oid h snapshot rest cs' (Some p)
              | Some _ => (cs', Error ERRCODE_INTERNAL_ERROR)
              end
            else lookup_scan env gstore_oid h snapshot rest cs' gs_chunk
          else lookup_scan env gstore_oid h snapshot rest cs gs_chunk
      end
  end.

(** [gstore_fdw_lookup_chunk_nolock] *)
Definition gstore_fdw_lookup_chunk_nolock (env : XactEnv)
    (head : GpuStoreHead) (gstore_oid : Oid) (snapshot : Snapshot)
    : GpuStoreHead * Outcome (option nat) :=
  let h := legacy_crc32_oid2 env (MyDatabaseId env) gstore_oid in
  let index := hash_index h in
  let r := lookup_scan env gstore_oid h snapshot
             (active_chunks head !!! index) (gs_chunks head) None in
  (with_chunks head (fst r), snd r).

(** [gstore_fdw_lookup_chunk]: the same, and the spinlock released on
    both ways out. *)
Definition gstore_fdw_lookup_chunk (env : XactEnv) (head : GpuStoreHead)
    (gstore_oid : Oid) (snapshot : Snapshot)
    : GpuStoreHead * Outcome (option nat) :=
  gstore_fdw_lookup_chunk_nolock env head gstore_oid snapshot.

(** Whether the descriptor in slot [p] of the array [cs] is one of the
    table and passes the visibility predicate for the snapshot. *)
Definition passes (env : XactEnv) (gstore_oid : Oid) (h : Z)
    (snapshot : Snapshot) (cs : list GpuStoreChunk) (p : nat) : bool :=
  match cs !! p with
  | Some c =>
      chunk_matches env gstore_oid h c
      && fst (gstore_fdw_satisfies_visibility env c snapshot)
  | None => false
  end.

(** The descriptors of the table's bucket that are visible to the
    snapshot, in the order of the bucket. *)
Definition visible_chunks (env : XactEnv) (head : GpuStoreHead)
    (gstore_oid : Oid) (snapshot : Snapshot) : list nat :=
  let h := legacy_crc32_oid2 env (MyDatabaseId env) gstore_oid in
  List.filter (passes env gstore_oid h snapshot (gs_chunks head))
    (active_chunks head !!! hash_index h).

(** What a lookup has to answer when these are the visible descriptors
    met after [gs_chunk] was found. *)
Definition lookup_answer (gs_chunk : option nat) (visible : list nat)
    : Outcome (option nat) :=
  match gs_chunk, visible with
  | None, [] => Return None
  | None, [p] => Return (Some p)
  | Some q, [] => Return (Some q)
  | _, _ => Error ERRCODE_INTERNAL_ERROR
  end.

(** *** Releasing a chunk *)

Definition UINT_MAX : Z := 4294967295.

(** [dlist_delete(&node)], seen from one list: the node leaves it. *)
Definition dlist_delete (p : nat) (l : list nat) : list nat :=
  filter (λ q, q ≠ p) l.

(** The first allocation equal to [(dindex, handle)] leaves the list. *)
Fixpoint remove_alloc (dindex handle : Z) (l : list (Z * Z))
    : list (Z * Z) :=
  match l with
  | [] => []
  | a :: rest =>
      if (fst a =? dindex) && (snd a =? handle) then rest
      else a :: remove_alloc dindex handle rest
  end.

(** Modelled from the spec: [gpuMemFreePreserved] is not under src/; the
    device collaborator's "device memory free" gives the allocation
    back to the device. *)
Definition gpuMemFreePreserved (dindex handle : Z) (d : DeviceState)
    : DeviceState :=
  {| preserved := remove_alloc dindex handle (preserved d);
     ipc_opened := ipc_opened d; ctx_depth := ctx_depth d |}.

(** [gstore_fdw_release_chunk].  [memset(gs_chunk, 0, sizeof(GpuStoreMap))]
    clears the first pointer of the [chain] node only, which
    [dlist_push_head] sets again: the descriptor keeps its other fields. *)
Definition gstore_fdw_release_chunk (m : Machine) (p : nat) : Machine :=
  match gs_chunks (gstore_head m) !! p with
  | None => m
  | Some gs_chunk =>
      let head := gstore_head m in
      {| gstore_head :=
           {| has_warm_chunks := has_warm_chunks head;
              free_chunks := p :: dlist_delete p (free_chunks head);
              active_chunks := dlist_delete p <$> active_chunks head;
              gs_chunks :=
                <[p := set_dsm_handle UINT_MAX gs_chunk]> (gs_chunks head) |};
         gstore_maps := <[p := None]> (gstore_maps m);
         device :=
           if 0 <=? cuda_dindex gs_chunk then
             gpuMemFreePreserved (cuda_dindex gs_chunk)
               (ipc_mhandle gs_chunk) (device m)
           else device m |}
  end.

(** *** The transaction callback *)

Definition write_chunk (m : Machine) (p : nat) (c : GpuStoreChunk)
    : Machine :=
  with_head m (with_chunks (gstore_head m) (<[p := c]> (gs_chunks (gstore_head m)))).

(** [gstoreOnXactCallbackPerChunk]: the returned flag and the machine
    the call leaves. *)
Definition gstoreOnXactCallbackPerChunk (env : XactEnv) (is_commit : bool)
    (m : Machine) (p : nat) (oldestXmin : TransactionId)
    : bool * Machine :=
  match gs_chunks (gstore_head m) !! p with
  | None => (false, m)
  | Some c0 =>
      let c1 :=
        if TransactionIdIsCurrentTransactionId env (xmax c0) then
          if is_commit then set_xmax_commited true c0
          else set_xmax InvalidTransactionId c0
        else c0 in
      if TransactionIdIsCurrentTransactionId env (xmin c1)
         && negb is_commit then
        (false, gstore_fdw_release_chunk (write_chunk m p c1) p)
      else
        let gs_chunk :=
          if TransactionIdIsCurrentTransactionId env (xmin c1) then
            set_xmin_commited true c1
          else c1 in
        if TransactionIdIsValid (xmax gs_chunk) then
          (* someone tried to delete chunk, but not commited yet *)
          if negb (xmax_commited gs_chunk) then
            (true, write_chunk m p gs_chunk)
          else if negb (TransactionIdPrecedes env (xmax gs_chunk) oldestXmin)
          then
            (true, write_chunk m p gs_chunk)
          else
            (false, gstore_fdw_release_chunk (write_chunk m p gs_chunk) p)
        else if TransactionIdIsNormal (xmin gs_chunk) then
          (* someone tried to insert chunk, but not commited yet *)
          if negb (xmin_commited gs_chunk) then
            (true, write_chunk m p gs_chunk)
          else if negb (TransactionIdPrecedes env (xmin gs_chunk) oldestXmin)
          then
            (true, write_chunk m p gs_chunk)
          else
            (false,
             write_chunk m p (set_xmin FrozenTransactionId gs_chunk))
        else if negb (TransactionIdIsValid (xmin gs_chunk)) then
          (* GpuChunk insertion aborted *)
          (false, gstore_fdw_release_chunk (write_chunk m p gs_chunk) p)
        else
          (false, write_chunk m p gs_chunk)
  end.

(** Whether the call on slot [p], made on the machine [m], reports the
    chunk as still needing attention. *)
Definition needs_attention (env : XactEnv) (is_commit : bool)
    (oldestXmin : TransactionId) (m : Machine) (p : nat) : bool :=
  fst (gstoreOnXactCallbackPerChunk env is_commit m p oldestXmin).

Inductive XactEvent :=
| XACT_EVENT_COMMIT
| XACT_EVENT_ABORT
| XACT_EVENT_OTHER.

(** [dlist_foreach_modify] over one bucket: the next node is read before
    the body runs, and the body unlinks no node but the current one. *)
Fixpoint callback_nodes (env : XactEnv) (is_commit : bool)
    (oldestXmin : TransactionId) (nodes : list nat) (m : Machine)
    (meet_warm_chunks : bool) : bool * Machine :=
  match nodes with
  | [] => (meet_warm_chunks, m)
  | p :: rest =>
      let r := gstoreOnXactCallbackPerChunk env is_commit m p oldestXmin in
      callback_nodes env is_commit oldestXmin rest (snd r)
        (if fst r then true else meet_warm_chunks)
  end.

(** The [for] loop over the hash slots, for the slots that remain. *)
Fixpoint callback_slots (env : XactEnv) (is_commit : bool)
    (oldestXmin : TransactionId) (slots : list nat) (m : Machine)
    (meet_warm_chunks : bool) : bool * Machine :=
  match slots with
  | [] => (meet_warm_chunks, m)
  | i :: rest =>
      let r := callback_nodes env is_commit oldestXmin
                 (active_chunks (gstore_head m) !!! i) m meet_warm_chunks in
      callback_slots env is_commit oldestXmin rest (snd r) (fst r)
  end.

Definition set_has_warm_chunks (v : Z) (m : Machine) : Machine :=
  with_head m
    {| has_warm_chunks := v;
       free_chunks := free_chunks (gstore_head m);
       active_chunks := active_chunks (gstore_head m);
       gs_chunks := gs_chunks (gstore_head m) |}.

(** [gstoreXactCallback] *)
Definition gstoreXactCallback (env : XactEnv) (event : XactEvent)
    (m : Machine) : Machine :=
  let run (is_commit : bool) :=
    if has_warm_chunks (gstore_head m) =? 0 then m
    else
      let oldestXmin := GetOldestXmin env in
      let r := callback_slots env is_commit oldestXmin
                 (seq 0 (Z.to_nat GSTORE_CHUNK_HASH_NSLOTS)) m false in
      if negb (fst r) then set_has_warm_chunks 0 (snd r) else snd r in
  match event with
  | XACT_EVENT_COMMIT => run true
  | XACT_EVENT_ABORT => run false
  | XACT_EVENT_OTHER => m                  (* do nothing *)
  end.

(** The nodes linked on the buckets [slots], bucket after bucket. *)
Definition nodes_of (head : GpuStoreHead) (slots : list nat) : list nat :=
  concat ((λ i, active_chunks head !!! i) <$> slots).

(** The nodes linked on the hash slots of the store. *)
Definition active_nodes (head : GpuStoreHead) : list nat :=
  nodes_of head (seq 0 (Z.to_nat GSTORE_CHUNK_HASH_NSLOTS)).

(** *** INSERT: begin, and write-out at the end *)

(** The fields of [gstoreLoadState] the store itself reads: the device
    index of the [GpuContext] ([None] for [NULL]) and the row counters. *)
Record gstoreLoadState := {
  gcontext : option Z;
  nrooms : Z;
  nitems : Z
}.

(** [gstoreBeginForeignModify].  [pinning] is what
    [gstore_fdw_table_options] stored; [AllocGpuContext] stands for the
    calls of [AllocGpuContext] and [ActivateGpuContext], which raise or
    give a context on the device asked for. *)
Definition gstoreBeginForeignModify (env : XactEnv)
    (AllocGpuContext : Z -> Outcome Z) (m : Machine) (relid : Oid)
    (es_snapshot : Snapshot) (pinning : Z)
    : Machine * Outcome gstoreLoadState :=
  let acquired : Outcome (option Z) :=
    if 0 <=? pinning then
      match AllocGpuContext pinning with
      | Return g => Return (Some g)
      | Error e => Error e
      | Fatal => Fatal
      | Undefined u => Undefined u
      end
    else Return None in
  match acquired with
  | Error e => (m, Error e)
  | Fatal => (m, Fatal)
  | Undefined u => (m, Undefined u)
  | Return gcontext =>
      let r := gstore_fdw_lookup_chunk env (gstore_head m) relid
                 es_snapshot in
      let m' := with_head m (fst r) in
      match snd r with
      | Error e => (m', Error e)
      | Fatal => (m', Fatal)
      | Undefined u => (m', Undefined u)
      | Return (Some _) => (m', Error ERRCODE_FEATURE_NOT_SUPPORTED)
      | Return None =>
          (m', Return {| gcontext := gcontext;
                         nrooms := 10000;       (* tentative *)
                         nitems := 0 |})
      end
  end.

(** What the CUDA calls of one [gstore_fdw_load_gpu_preserved] answer:
    the handle [gpuMemAllocPreserved] gives ([None]: it failed), the
    device pointer of [gpuIpcOpenMemHandle], and whether each later call
    returned [CUDA_SUCCESS]. *)
Record CudaAnswers := {
  gpuMemAllocPreserved : option Z;
  gpuIpcOpenMemHandle : option Z;
  cuCtxPushCurrent : bool;
  cuMemcpyHtoD : bool;
  gpuIpcCloseMemHandle : bool;
  cuCtxPopCurrent : bool
}.

Definition with_preserved (d : DeviceState) (l : list (Z * Z))
    : DeviceState :=
  {| preserved := l; ipc_opened := ipc_opened d; ctx_depth := ctx_depth d |}.

(** The body of the [PG_TRY] block of [gstore_fdw_load_gpu_preserved]:
    the device it leaves and whether it ran to its end. *)
Definition load_gpu_preserved_try (cuda : CudaAnswers) (d : DeviceState)
    : DeviceState * bool :=
  match gpuIpcOpenMemHandle cuda with
  | None => (d, false)
  | Some m_deviceptr =>
      let d1 := {| preserved := preserved d;
                   ipc_opened := m_deviceptr :: ipc_opened d;
                   ctx_depth := ctx_depth d |} in
      if negb (cuCtxPushCurrent cuda) then (d1, false)
      else
        let d2 := {| preserved := preserved d1;
                     ipc_opened := ipc_opened d1;
                     ctx_depth := S (ctx_depth d1) |} in
        if negb (cuMemcpyHtoD cuda) then (d2, false)
        else if negb (gpuIpcCloseMemHandle cuda) then (d2, false)
        else
          let d3 := {| preserved := preserved d2;
                       ipc_opened := ipc_opened d;
                       ctx_depth := ctx_depth d2 |} in
          if negb (cuCtxPopCurrent cuda) then (d3, false)
          else
            ({| preserved := preserved d3; ipc_opened := ipc_opened d3;
                ctx_depth := ctx_depth d |}, true)
  end.

(** [gstore_fdw_load_gpu_preserved]: the device it leaves, and the IPC
    handle copied to [*ptr_mhandle] or the error raised. *)
Definition gstore_fdw_load_gpu_preserved (cuda : CudaAnswers)
    (cuda_dindex : Z) (d : DeviceState) : DeviceState * Outcome Z :=
  match gpuMemAllocPreserved cuda with
  | None => (d, Error ERRCODE_INTERNAL_ERROR)
  | Some handle =>
      let d0 := with_preserved d ((cuda_dindex, handle) :: preserved d) in
      let r := load_gpu_preserved_try cuda d0 in
      if snd r then (fst r, Return handle)
      else
        (* PG_CATCH *)
        (gpuMemFreePreserved cuda_dindex handle (fst r),
         Error ERRCODE_INTERNAL_ERROR)
  end.

Definition with_device (m : Machine) (d : DeviceState) : Machine :=
  {| gstore_head := gstore_head m; gstore_maps := gstore_maps m;
     device := d |}.

(** [pg_atomic_add_fetch_u32(&x, 1)] *)
Definition add_fetch_u32 (x : Z) : Z := (x + 1) mod 4294967296.

(** [gstore_fdw_writeout_pgstrom].  The chunk image is the encoding
    collaborator's: [dsm_seg] is the handle of the segment [dsm_create]
    gave and [kds_len], [kds_n] are [kds->length] and [kds->nitems] of the
    image built in it. *)
Definition gstore_fdw_writeout_pgstrom (env : XactEnv) (cuda : CudaAnswers)
    (m : Machine) (relid : Oid) (gs_lstate : gstoreLoadState)
    (dsm_seg kds_len kds_n : Z) : Machine * Outcome unit :=
  let cuda_dindex :=
    match gcontext gs_lstate with Some d => d | None => -1 end in
  (* allocation of device memory if 'pinning' mode *)
  let loaded :=
    match gcontext gs_lstate with
    | Some _ => gstore_fdw_load_gpu_preserved cuda cuda_dindex (device m)
    | None => (device m, Return 0)
    end in
  match snd loaded with
  | Error e => (with_device m (fst loaded), Error e)
  | Fatal => (with_device m (fst loaded), Fatal)
  | Undefined u => (with_device m (fst loaded), Undefined u)
  | Return mhandle =>
      let m1 := with_device m (fst loaded) in
      let h := legacy_crc32_oid2 env (MyDatabaseId env) relid in
      let head := gstore_head m1 in
      match free_chunks head with
      | [] =>
          let d :=
            match gcontext gs_lstate with
            | Some _ => gpuMemFreePreserved cuda_dindex mhandle (device m1)
            | None => device m1
            end in
          (with_device m1 d, Error ERRCODE_INSUFFICIENT_RESOURCES)
      | p :: free =>
          let gs_chunk :=
            {| hash := h;
               database_oid := MyDatabaseId env;
               table_oid := relid;
               xmax := InvalidTransactionId;
               xmin := GetCurrentTransactionId env;
               cid := GetCurrentCommandId env;
               xmax_commited := false;
               xmin_commited := false;
               kds_nitems := kds_n;
               kds_length := kds_len;
               cuda_dindex := cuda_dindex;
               ipc_mhandle := mhandle;
               dsm_handle := dsm_seg |} in
          let i := hash_index h in
          ({| gstore_head :=
                {| has_warm_chunks := add_fetch_u32 (has_warm_chunks head);
                   free_chunks := free;
                   active_chunks :=
                     <[i := (active_chunks head !!! i) ++ [p]]>
                       (active_chunks head);
                   gs_chunks := <[p := gs_chunk]> (gs_chunks head) |};
              gstore_maps := <[p := Some dsm_seg]> (gstore_maps m1);
              device := device m1 |},
           Return tt)
      end
  end.

(** *** DELETE without WHERE clause *)

(** [gstoreIterateDirectModify]; [es_processed] is the executor's row
    counter, returned as the call leaves it.  [Assert] is checked. *)
Definition gstoreIterateDirectModify (env : XactEnv) (m : Machine)
    (relid : Oid) (snapshot : Snapshot) (es_processed : Z)
    : Machine * Outcome Z :=
  let r := gstore_fdw_lookup_chunk env (gstore_head m) relid snapshot in
  let m1 := with_head m (fst r) in
  match snd r with
  | Error e => (m1, Error e)
  | Fatal => (m1, Fatal)
  | Undefined u => (m1, Undefined u)
  | Return None => (m1, Undefined NullDereference)
  | Return (Some p) =>
      match gs_chunks (gstore_head m1) !! p with
      | None => (m1, Undefined NullDereference)
      | Some gs_chunk =>
          if TransactionIdIsValid (xmax gs_chunk) then
            (m1, Undefined AssertionFailure)
          else
            let c := set_cid (GetCurrentCommandId env)
                       (set_xmax (GetCurrentTransactionId env) gs_chunk) in
            let head := gstore_head m1 in
            ({| gstore_head :=
                  {| has_warm_chunks :=
                       add_fetch_u32 (has_warm_chunks head);
                     free_chunks := free_chunks head;
                     active_chunks := active_chunks head;
                     gs_chunks := <[p := c]> (gs_chunks head) |};
                gstore_maps := <[p := None]> (gstore_maps m1);
                device := device m1 |},
             Return (es_processed + kds_nitems gs_chunk))
      end
  end.

(** *** Start-up of the store *)

(** The descriptor [memset(gs_chunk, 0, sizeof(GpuStoreChunk))] and
    [gs_chunk->dsm_handle = UINT_MAX] leave. *)
Definition startup_chunk : GpuStoreChunk :=
  {| hash := 0; database_oid := 0; table_oid := 0;
     xmax := 0; xmin := 0; cid := 0;
     xmax_commited := false; xmin_commited := false;
     kds_nitems := 0; kds_length := 0; cuda_dindex := 0; ipc_mhandle := 0;
     dsm_handle := UINT_MAX |}.

(** [pgstrom_startup_gstore_fdw]: the machine it leaves when it returns
    (it raises when the shared structure was found or [calloc] fails).
    The function does not write [has_warm_chunks]: [flag0] is what the new
    shared memory holds there.  [dlist_push_tail] puts the slots on the
    free list in their order. *)
Definition pgstrom_startup_gstore_fdw (gstore_max_relations : nat)
    (flag0 : Z) (d : DeviceState) : Machine :=
  {| gstore_head :=
       {| has_warm_chunks := flag0;
          free_chunks := seq 0 gstore_max_relations;
          active_chunks :=
            replicate (Z.to_nat GSTORE_CHUNK_HASH_NSLOTS) [];
          gs_chunks := replicate gstore_max_relations startup_chunk |};
     gstore_maps := replicate gstore_max_relations None;
     device := d |}.

(** *** DROP TABLE *)

(** The [dlist_foreach] loop of [gstore_fdw_post_drop] over the nodes
    that remain. *)
Fixpoint post_drop_scan (env : XactEnv) (relid : Oid) (h : Z)
    (nodes : list nat) (cs : list GpuStoreChunk) : list GpuStoreChunk :=
  match nodes with
  | [] => cs
  | p :: rest =>
      match cs !! p with
      | None => post_drop_scan env relid h rest cs
      | Some gs_chunk =>
          if chunk_matches env relid h gs_chunk
             && (xmax gs_chunk =? InvalidTransactionId) then
            post_drop_scan env relid h rest
              (<[p := set_xmax (GetCurrentTransactionId env) gs_chunk]> cs)
          else post_drop_scan env relid h rest cs
      end
  end.

(** [gstore_fdw_post_drop] *)
Definition gstore_fdw_post_drop (env : XactEnv) (m : Machine) (relid : Oid)
    : Machine :=
  let head := gstore_head m in
  let h := legacy_crc32_oid2 env (MyDatabaseId env) relid in
  with_head m
    {| has_warm_chunks := add_fetch_u32 (has_warm_chunks head);
       free_chunks := free_chunks head;
       active_chunks := active_chunks head;
       gs_chunks :=
         post_drop_scan env relid h (active_chunks head !!! hash_index h)
           (gs_chunks head) |}.

(** *** INSERT: one row *)

(** Addition of [size_t] values. *)
Definition size_add (a b : Z) : Z := (a + b) mod 18446744073709551616.

(** [gstoreExecForeignInsert], on the counters of [gs_lstate]: the state
    the call leaves, and the row index and the number of rooms it passes
    to [pgstrom_ccache_extract_row], which stores the row at that index
    of buffers that were sized for that number of rooms. *)
Definition gstoreExecForeignInsert (gs_lstate : gstoreLoadState)
    : gstoreLoadState * (Z * Z) :=
  let nrooms' :=
    (* expand local buffer on demand *)
    if nitems gs_lstate =? nrooms gs_lstate then
      size_add (nrooms gs_lstate) (size_add (nrooms gs_lstate) 5000)
    else nrooms gs_lstate in
  ({| gcontext := gcontext gs_lstate;
      nrooms := nrooms';
      nitems := size_add (nitems gs_lstate) 1 |},
   (nitems gs_lstate, nrooms')).

(** The load state after [n] rows were inserted. *)
Fixpoint insert_rows (n : nat) (gs_lstate : gstoreLoadState)
    : gstoreLoadState :=
  match n with
  | O => gs_lstate
  | S k => insert_rows k (fst (gstoreExecForeignInsert gs_lstate))
  end.

(** The value a [cl_uint] field holds after a [size_t] is assigned to
    it. *)
Definition to_cl_uint (x : Z) : Z := x mod 4294967296.

(** [gstoreEndForeignModify].  [dsm_seg] is the handle of the segment
    [dsm_create] gives to the write-out and [kds_len] is [kds->length] of
    the image built in it.  The write-out assigns [gs_lstate->nitems], a
    [size_t], to [kds->nitems], a [cl_uint], and copies that field to
    [kds_nitems]: the count is kept modulo [2^32].  [PutGpuContext] acts
    on the pool of gpu_context.c and leaves the store alone. *)
Definition gstoreEndForeignModify (env : XactEnv) (cuda : CudaAnswers)
    (m : Machine) (relid : Oid) (gs_lstate : gstoreLoadState)
    (dsm_seg kds_len : Z) : Machine * Outcome unit :=
  if 0 <? nitems gs_lstate then
    (* writeout by 'pgstrom' format *)
    gstore_fdw_writeout_pgstrom env cuda m relid gs_lstate dsm_seg kds_len
      (to_cl_uint (nitems gs_lstate))
  else (m, Return tt).

(** *** SQL functions that report on a table's chunk *)

(** The body shared by [pgstrom_gstore_fdw_height] and
    [pgstrom_gstore_fdw_rawsize]: [retval] is 0 unless the lookup finds
    a chunk, whose [field] it is then.  The result [None] is the SQL
    NULL. *)
Definition chunk_report (field : GpuStoreChunk -> Z) (env : XactEnv)
    (relation_is_gstore_fdw : bool) (head : GpuStoreHead) (gstore_oid : Oid)
    (active_snapshot : Snapshot) : GpuStoreHead * Outcome (option Z) :=
  if negb relation_is_gstore_fdw then (head, Return None)
  else
    let r := gstore_fdw_lookup_chunk env head gstore_oid active_snapshot in
    match snd r with
    | Error e => (fst r, Error e)
    | Fatal => (fst r, Fatal)
    | Undefined u => (fst r, Undefined u)
    | Return None => (fst r, Return (Some 0))
    | Return (Some p) =>
        match gs_chunks (fst r) !! p with
        | None => (fst r, Undefined NullDereference)
        | Some gs_chunk => (fst r, Return (Some (field gs_chunk)))
        end
    end.

(** [pgstrom_gstore_fdw_height] *)
Definition pgstrom_gstore_fdw_height := chunk_report kds_nitems.

(** [pgstrom_gstore_fdw_rawsize] *)
Definition pgstrom_gstore_fdw_rawsize := chunk_report kds_length.

(** [pgstrom_gstore_export_ipchandle]; [pinning] is what
    [gstore_fdw_table_options] stored and [None] is the SQL NULL. *)
Definition pgstrom_gstore_export_ipchandle (env : XactEnv)
    (relation_is_gstore_fdw : bool) (pinning numDevAttrs : Z)
    (head : GpuStoreHead) (gstore_oid : Oid) (active_snapshot : Snapshot)
    : GpuStoreHead * Outcome (option Z) :=
  if negb relation_is_gstore_fdw then (head, Error ERRCODE_INTERNAL_ERROR)
  else if pinning <? 0 then (head, Error ERRCODE_INTERNAL_ERROR)
  else if numDevAttrs <=? pinning then (head, Error ERRCODE_INTERNAL_ERROR)
  else
    let r := gstore_fdw_lookup_chunk env head gstore_oid active_snapshot in
    match snd r with
    | Error e => (fst r, Error e)
    | Fatal => (fst r, Fatal)
    | Undefined u => (fst r, Undefined u)
    | Return None => (fst r, Return None)
    | Return (Some p) =>
        match gs_chunks (fst r) !! p with
        | None => (fst r, Undefined NullDereference)
        | Some gs_chunk => (fst r, Return (Some (ipc_mhandle gs_chunk)))
        end
    end.

(** *** The store and the backends that use it *)

(** The shared head, the device, and the [gstore_maps] array of every
    backend. *)
Record StoreWorld := {
  store_shared : GpuStoreHead;
  store_device : DeviceState;
  store_maps : list (list (option Z))
}.

(** One call of an entry point of this file that writes the store. *)
Inductive StoreCall :=
| StoreLookup (relid : Oid) (snapshot : Snapshot)
| StoreBeginModify (AllocGpuContext : Z -> Outcome Z) (relid : Oid)
    (es_snapshot : Snapshot) (pinning : Z)
| StoreWriteout (cuda : CudaAnswers) (relid : Oid)
    (gs_lstate : gstoreLoadState) (dsm_seg kds_len kds_n : Z)
| StoreDirectModify (relid : Oid) (snapshot : Snapshot) (es_processed : Z)
| StoreXact (event : XactEvent)
| StorePostDrop (relid : Oid).

Definition store_call (env : XactEnv) (c : StoreCall) (m : Machine)
    : Machine :=
  match c with
  | StoreLookup relid snapshot =>
      with_head m
        (fst (gstore_fdw_lookup_chunk env (gstore_head m) relid snapshot))
  | StoreBeginModify alloc relid es_snapshot pinning =>
      fst (gstoreBeginForeignModify env alloc m relid es_snapshot pinning)
  | StoreWriteout cuda relid gs_lstate dsm_seg kds_len kds_n =>
      fst (gstore_fdw_writeout_pgstrom env cuda m relid gs_lstate dsm_seg
             kds_len kds_n)
  | StoreDirectModify relid snapshot es_processed =>
      fst (gstoreIterateDirectModify env m relid snapshot es_processed)
  | StoreXact event => gstoreXactCallback env event m
  | StorePostDrop relid => gstore_fdw_post_drop env m relid
  end.

(** The world after backend [pid], whose transaction state is [env],
    makes the call [c]; a number that is no backend changes nothing. *)
Definition store_step (w : StoreWorld) (pid : nat) (env : XactEnv)
    (c : StoreCall) : StoreWorld :=
  match store_maps w !! pid with
  | None => w
  | Some maps =>
      let m' := store_call env c
                  {| gstore_head := store_shared w; gstore_maps := maps;
                     device := store_device w |} in
      {| store_shared := gstore_head m';
         store_device := device m';
         store_maps := <[pid := gstore_maps m']> (store_maps w) |}
  end.

(** The world after a sequence of calls, first call first. *)
Fixpoint store_run (w : StoreWorld) (calls : list (nat * XactEnv * StoreCall))
    : StoreWorld :=
  match calls with
  | [] => w
  | (pid, env, c) :: rest => store_run (store_step w pid env c) rest
  end.

(** The world the postmaster leaves to [nprocs] backends. *)
Definition store_startup (gstore_max_relations nprocs : nat) (flag0 : Z)
    (d : DeviceState) : StoreWorld :=
  let m := pgstrom_startup_gstore_fdw gstore_max_relations flag0 d in
  {| store_shared := gstore_head m;
     store_device := device m;
     store_maps := replicate nprocs (gstore_maps m) |}.

(** *** What the store has to maintain *)

(** Every slot of the array is on the free list or on one bucket, once;
    and a slot on a bucket is on the bucket of its own hash value. *)
Record store_ok (capacity : nat) (head : GpuStoreHead) : Prop := {
  ok_chunks : length (gs_chunks head) = capacity;
  ok_buckets :
    length (active_chunks head) = Z.to_nat GSTORE_CHUNK_HASH_NSLOTS;
  ok_slots :
    free_chunks head ++ concat (active_chunks head) ≡ₚ seq 0 capacity;
  ok_hash : forall i p c,
    p ∈ active_chunks head !!! i ->
    gs_chunks head !! p = Some c ->
    hash_index (hash c) = i
}.

(** The fields of a descriptor that say which chunk it is and where its
    data lies, as opposed to the fields of its MVCC status. *)
Definition same_payload (c c' : GpuStoreChunk) : Prop :=
  hash c' = hash c
  /\ database_oid c' = database_oid c
  /\ table_oid c' = table_oid c
  /\ cid c' = cid c
  /\ kds_nitems c' = kds_nitems c
  /\ kds_length c' = kds_length c
  /\ cuda_dindex c' = cuda_dindex c
  /\ ipc_mhandle c' = ipc_mhandle c
  /\ dsm_handle c' = dsm_handle c.

(** Two backends of one database: they compute the same checksum for a
    table. *)
Definition same_database (env env' : XactEnv) : Prop :=
  MyDatabaseId env' = MyDatabaseId env
  /\ forall d t, legacy_crc32_oid2 env' d t = legacy_crc32_oid2 env d t.

(** The slot [p] is in the same state in two stores: its descriptor is
    the same, and it is linked on the same buckets. *)
Definition same_slot (p : nat) (h h' : GpuStoreHead) : Prop :=
  gs_chunks h' !! p = gs_chunks h !! p
  /\ forall i, p ∈ active_chunks h' !!! i <-> p ∈ active_chunks h !!! i.

End GStore.

Import GStore.

(** ** gstore_fdw.c: the options of a table and the tables a function is
    called with *)

Module Options.

Import String.StringSyntax.
Local Open Scope string_scope.

(** One [DefElem] of an options list: its [defname] and the string
    [defGetString] gives for it. *)
Record DefElem := {
  defname : String.string;
  defGetString : String.string
}.

(** The [errcode] of an [ereport(ERROR, ...)] of the option parsers. *)
Inductive SqlState :=
| ERRCODE_SYNTAX_ERROR
| ERRCODE_NUMERIC_VALUE_OUT_OF_RANGE.

(** What the parsers take from outside of the file: [atoi] of the C
    library, PostgreSQL's [pg_strcasecmp], the number of GPU devices and
    the format code of [pg_strom.h]. *)
Record OptionEnv := {
  atoi : String.string -> Z;
  pg_strcasecmp : String.string -> String.string -> Z;
  numDevAttrs : Z;
  GSTORE_FDW_FORMAT__PGSTROM : Z
}.

Definition GSTORE_COMPRESSION__NONE : Z := 1.
Definition GSTORE_COMPRESSION__PGLZ : Z := 2.

(** The [foreach] loop of [__gstore_fdw_table_options]: what it leaves in
    [pinning] and [format], or the error it raises. *)
Fixpoint table_options_loop (env : OptionEnv) (options : list DefElem)
    (pinning format : Z) : SqlState + (Z * Z) :=
  match options with
  | [] => inr (pinning, format)
  | defel :: rest =>
      if String.eqb (defname defel) "pinning" then
        if 0 <=? pinning then inl ERRCODE_SYNTAX_ERROR
        else
          let pinning := atoi env (defGetString defel) in
          if (pinning <? 0) || (numDevAttrs env <=? pinning)
          then inl ERRCODE_NUMERIC_VALUE_OUT_OF_RANGE
          else table_options_loop env rest pinning format
      else if String.eqb (defname defel) "format" then
        if 0 <=? format then inl ERRCODE_SYNTAX_ERROR
        else
          let format_name := defGetString defel in
          if String.eqb format_name "pgstrom"
             || String.eqb format_name "default"
          then table_options_loop env rest pinning
                 (GSTORE_FDW_FORMAT__PGSTROM env)
          else inl ERRCODE_SYNTAX_ERROR
      else inl ERRCODE_SYNTAX_ERROR
  end.

(** [__gstore_fdw_table_options]: the values for [*p_pinning] and
    [*p_format]. *)
Definition __gstore_fdw_table_options (env : OptionEnv)
    (options : list DefElem) : SqlState + (Z * Z) :=
  match table_options_loop env options (-1) (-1) with
  | inl e => inl e
  | inr (pinning, format) =>
      if pinning <? 0 then inl ERRCODE_SYNTAX_ERROR
      else
        (* put default if not specified *)
        inr (pinning,
             if format <? 0 then GSTORE_FDW_FORMAT__PGSTROM env else format)
  end.

(** The [foreach] loop of [__gstore_fdw_column_options]. *)
Fixpoint column_options_loop (env : OptionEnv) (options : list DefElem)
    (compression : Z) : SqlState + Z :=
  match options with
  | [] => inr compression
  | defel :: rest =>
      if String.eqb (defname defel) "compression" then
        if 0 <=? compression then inl ERRCODE_SYNTAX_ERROR
        else
          let temp := defGetString defel in
          if pg_strcasecmp env temp "none" =? 0
          then column_options_loop env rest GSTORE_COMPRESSION__NONE
          else if pg_strcasecmp env temp "pglz" =? 0
          then column_options_loop env rest GSTORE_COMPRESSION__PGLZ
          else inl ERRCODE_SYNTAX_ERROR
      else inl ERRCODE_SYNTAX_ERROR
  end.

(** [__gstore_fdw_column_options]: the value for [*p_compression]. *)
Definition __gstore_fdw_column_options (env : OptionEnv)
    (options : list DefElem) : SqlState + Z :=
  match column_options_loop env options (-1) with
  | inl e => inl e
  | inr compression =>
      inr (if compression <? 0 then GSTORE_COMPRESSION__NONE
           else compression)
  end.

(** The catalogs [pgstrom_gstore_fdw_validator] tells apart. *)
Inductive Catalog :=
| ForeignTableRelationId
| AttributeRelationId
| ForeignServerRelationId
| ForeignDataWrapperRelationId
| OtherRelationId.

(** [pgstrom_gstore_fdw_validator]: an [ereport] of a parser, or how the
    function ends otherwise. *)
Definition pgstrom_gstore_fdw_validator (env : OptionEnv)
    (options : list DefElem) (catalog : Catalog) : SqlState + Outcome unit :=
  match catalog with
  | ForeignTableRelationId =>
      match __gstore_fdw_table_options env options with
      | inl e => inl e
      | inr _ => inr (Return tt)
      end
  | AttributeRelationId =>
      match __gstore_fdw_column_options env options with
      | inl e => inl e
      | inr _ => inr (Return tt)
      end
  | ForeignServerRelationId
  | ForeignDataWrapperRelationId =>
      match options with
      | [] => inr (Return tt)
      | _ :: _ => inr (Error ERRCODE_INTERNAL_ERROR)
      end
  | OtherRelationId => inr (Error ERRCODE_INTERNAL_ERROR)
  end.

(** *** The tables among the arguments of a function *)

(** What the system catalogs answer: the OID of the type [reggstore],
    [relation_is_gstore_fdw] of a relation ([None]: it raises), and the
    [ftoptions] of the [pg_foreign_table] tuple of a table ([None]: there
    is no tuple; [Some None]: the attribute is null). *)
Record CatalogEnv := {
  REGGSTOREOID : Oid;
  relation_is_gstore_fdw : Oid -> option bool;
  ftoptions : Oid -> option (option (list DefElem))
}.

(** [gstore_fdw_table_options] *)
Definition gstore_fdw_table_options (env : OptionEnv) (cat : CatalogEnv)
    (gstore_oid : Oid) : SqlState + Outcome (Z * Z) :=
  match ftoptions cat gstore_oid with
  | None => inr (Error ERRCODE_INTERNAL_ERROR)
  | Some datum =>
      let options := match datum with Some l => l | None => [] end in
      match __gstore_fdw_table_options env options with
      | inl e => inl e
      | inr r => inr (Return r)
      end
  end.

(** The loop of [gstore_fdw_preferable_device] over the arguments, each the
    OID of its type in [proargtypes] and its value; [Assert] is checked. *)
Fixpoint preferable_device_loop (env : OptionEnv) (cat : CatalogEnv)
    (args : list (Oid * Oid)) (cuda_dindex : Z) : SqlState + Outcome Z :=
  match args with
  | [] => inr (Return cuda_dindex)
  | (argtype, gstore_oid) :: rest =>
      if negb (argtype =? REGGSTOREOID cat)
      then preferable_device_loop env cat rest cuda_dindex
      else
        match relation_is_gstore_fdw cat gstore_oid with
        | None | Some false => inr (Error ERRCODE_INTERNAL_ERROR)
        | Some true =>
            match gstore_fdw_table_options env cat gstore_oid with
            | inl e => inl e
            | inr (Error e) => inr (Error e)
            | inr Fatal => inr Fatal
            | inr (Undefined u) => inr (Undefined u)
            | inr (Return (pinning, _)) =>
                if 0 <=? pinning then
                  if negb (pinning <? numDevAttrs env)
                  then inr (Undefined AssertionFailure)
                  else if cuda_dindex <? 0
                  then preferable_device_loop env cat rest pinning
                  else if negb (cuda_dindex =? pinning)
                  then inr (Error ERRCODE_INTERNAL_ERROR)
                  else preferable_device_loop env cat rest cuda_dindex
                else preferable_device_loop env cat rest cuda_dindex
            end
        end
  end.

(** [gstore_fdw_preferable_device]; [proc_args] is [None] when the
    function has no [pg_proc] tuple. *)
Definition gstore_fdw_preferable_device (env : OptionEnv) (cat : CatalogEnv)
    (proc_args : option (list (Oid * Oid))) : SqlState + Outcome Z :=
  match proc_args with
  | None => inr (Error ERRCODE_INTERNAL_ERROR)
  | Some args => preferable_device_loop env cat args (-1)
  end.

(** [load_pinned_gstore_fdw] for a context on the device [gcontext_dindex]:
    the store and the device as the call leaves them, and the device
    pointer returned (0 for an empty table). *)
Definition load_pinned_gstore_fdw (xact : XactEnv) (cuda : CudaAnswers)
    (gcontext_dindex : Z) (st : GpuStoreHead * DeviceState) (relid : Oid)
    (active_snapshot : Snapshot)
    : (GpuStoreHead * DeviceState) * Outcome Z :=
  let r := gstore_fdw_lookup_chunk xact (fst st) relid active_snapshot in
  let d := snd st in
  match snd r with
  | Error e => ((fst r, d), Error e)
  | Fatal => ((fst r, d), Fatal)
  | Undefined u => ((fst r, d), Undefined u)
  | Return None => ((fst r, d), Return 0) (* empty GpuStore *)
  | Return (Some p) =>
      match gs_chunks (fst r) !! p with
      | None => ((fst r, d), Undefined NullDereference)
      | Some gs_chunk =>
          if negb (cuda_dindex gs_chunk =? gcontext_dindex)
          then ((fst r, d), Error ERRCODE_INTERNAL_ERROR)
          else if negb (cuCtxPushCurrent cuda)
          then ((fst r, d), Error ERRCODE_INTERNAL_ERROR)
          else
            let d1 := {| preserved := preserved d;
                         ipc_opened := ipc_opened d;
                         ctx_depth := S (ctx_depth d) |} in
            match gpuIpcOpenMemHandle cuda with
            | None => ((fst r, d1), Error ERRCODE_INTERNAL_ERROR)
            | Some m_deviceptr =>
                let d2 := {| preserved := preserved d1;
                             ipc_opened := m_deviceptr :: ipc_opened d1;
                             ctx_depth := ctx_depth d1 |} in
                if negb (cuCtxPopCurrent cuda)
                then ((fst r, d2), Error ERRCODE_INTERNAL_ERROR)
                else
                  ((fst r, {| preserved := preserved d2;
                              ipc_opened := ipc_opened d2;
                              ctx_depth := ctx_depth d |}),
                   Return m_deviceptr)
            end
      end
  end.

(** The three lists [gstore_fdw_load_function_args] builds. *)
Record LoadedArgs := {
  gstore_oid_list : list Oid;
  gstore_devptr_list : list Z;
  gstore_dindex_list : list Z
}.

(** The loop of [gstore_fdw_load_function_args].  [load_normal] stands for
    [load_normal_gstore_fdw], the loader of a table that is not pinned;
    [cuda] gives the answers of the CUDA calls made for a table. *)
Fixpoint load_function_args_loop
    (load_normal : GpuStoreHead * DeviceState -> Oid ->
                   (GpuStoreHead * DeviceState) * Outcome Z)
    (env : OptionEnv) (cat : CatalogEnv) (xact : XactEnv)
    (cuda : Oid -> CudaAnswers) (gcontext_dindex : Z)
    (active_snapshot : Snapshot) (args : list (Oid * Oid))
    (st : GpuStoreHead * DeviceState) (lists : LoadedArgs)
    : (GpuStoreHead * DeviceState) * (SqlState + Outcome LoadedArgs) :=
  match args with
  | [] => (st, inr (Return lists))
  | (argtype, gstore_oid) :: rest =>
      if negb (argtype =? REGGSTOREOID cat)
      then load_function_args_loop load_normal env cat xact cuda
             gcontext_dindex active_snapshot rest st lists
      else if existsb (Z.eqb gstore_oid) (gstore_oid_list lists)
      then (* already loaded *)
        load_function_args_loop load_normal env cat xact cuda
          gcontext_dindex active_snapshot rest st lists
      else
        match relation_is_gstore_fdw cat gstore_oid with
        | None | Some false => (st, inr (Error ERRCODE_INTERNAL_ERROR))
        | Some true =>
            match gstore_fdw_table_options env cat gstore_oid with
            | inl e => (st, inl e)
            | inr (Error e) => (st, inr (Error e))
            | inr Fatal => (st, inr Fatal)
            | inr (Undefined u) => (st, inr (Undefined u))
            | inr (Return (pinning, _)) =>
                if (0 <=? pinning) && negb (gcontext_dindex =? pinning)
                then (st, inr (Error ERRCODE_INTERNAL_ERROR))
                else
                  let r :=
                    if pinning <? 0 then load_normal st gstore_oid
                    else load_pinned_gstore_fdw xact (cuda gstore_oid)
                           gcontext_dindex st gstore_oid active_snapshot in
                  match snd r with
                  | Error e => (fst r, inr (Error e))
                  | Fatal => (fst r, inr Fatal)
                  | Undefined u => (fst r, inr (Undefined u))
                  | Return m_deviceptr =>
                      load_function_args_loop load_normal env cat xact cuda
                        gcontext_dindex active_snapshot rest (fst r)
                        {| gstore_oid_list :=
                             gstore_oid_list lists ++ [gstore_oid];
                           gstore_devptr_list :=
                             gstore_devptr_list lists ++ [m_deviceptr];
                           gstore_dindex_list :=
                             gstore_dindex_list lists ++ [pinning] |}
                  end
            end
        end
  end.

(** [gstore_fdw_load_function_args] *)
Definition gstore_fdw_load_function_args
    (load_normal : GpuStoreHead * DeviceState -> Oid ->
                   (GpuStoreHead * DeviceState) * Outcome Z)
    (env : OptionEnv) (cat : CatalogEnv) (xact : XactEnv)
    (cuda : Oid -> CudaAnswers) (gcontext_dindex : Z)
    (active_snapshot : Snapshot) (proc_args : option (list (Oid * Oid)))
    (st : GpuStoreHead * DeviceState)
    : (GpuStoreHead * DeviceState) * (SqlState + Outcome LoadedArgs) :=
  match proc_args with
  | None => (st, inr (Error ERRCODE_INTERNAL_ERROR))
  | Some args =>
      load_function_args_loop load_normal env cat xact cuda gcontext_dindex
        active_snapshot args st
        {| gstore_oid_list := []; gstore_devptr_list := [];
           gstore_dindex_list := [] |}
  end.

(** *** What the theorems on the options say *)

Definition is_pinning (d : DefElem) : bool :=
  String.eqb (defname d) "pinning".

Definition is_format (d : DefElem) : bool :=
  String.eqb (defname d) "format".

Definition known_format (d : DefElem) : bool :=
  String.eqb (defGetString d) "pgstrom"
  || String.eqb (defGetString d) "default".

(** An option the table parser has a branch for, with a value that branch
    can take whatever came before. *)
Definition table_option_ok (d : DefElem) : bool :=
  is_pinning d || (is_format d && known_format d).

(** The arguments of type [reggstore]. *)
Definition reggstore_args (cat : CatalogEnv) (args : list (Oid * Oid))
    : list Oid :=
  snd <$> List.filter (λ a, fst a =? REGGSTOREOID cat) args.

(** The first occurrences of the elements of a list, in their order. *)
Fixpoint first_occurrences (seen l : list Oid) : list Oid :=
  match l with
  | [] => []
  | x :: rest =>
      if existsb (Z.eqb x) seen then first_occurrences seen rest
      else x :: first_occurrences (seen ++ [x]) rest
  end.

End Options.

(** ** gstore_fdw.c: scanning a table *)

Module Scan.

(** [kern_colmeta] and [kern_data_store] of [pg_strom.h], as far as the
    scan reads them: [colmeta] has [ncols] entries, and [datum j i] is what
    [kern_get_datum_column(kds, j, i)] returns, [None] for [NULL]. *)
Record kern_colmeta := {
  attbyval : bool;
  attlen : Z
}.

Record kern_data_store := {
  nitems : Z;
  colmeta : list kern_colmeta;
  datum : nat -> Z -> option Z
}.

(** The dynamic shared memory and the memory of the process:
    [dsm_segment h] is the image in the segment of handle [h] ([None]:
    [dsm_attach] returns [NULL]), and [load addr size] the integer of
    [size] bytes at [addr]. *)
Record ScanEnv := {
  dsm_segment : Z -> option kern_data_store;
  load : Z -> Z -> Z
}.

(** What the scan stores into [tts_values]. *)
Inductive Datum :=
| PointerGetDatum (addr : Z)
| CharGetDatum (v : Z)
| Int16GetDatum (v : Z)
| Int32GetDatum (v : Z)
| Int64GetDatum (v : Z).

(** [gstore_fdw_mapped_chunk] for the chunk of slot [p]: the machine with
    the mapping of the slot, and the image at the address returned.
    [dsm_pin_mapping(NULL)] dereferences [NULL]. *)
Definition gstore_fdw_mapped_chunk (env : ScanEnv) (m : Machine) (p : nat)
    : Machine * Outcome kern_data_store :=
  match gs_chunks (gstore_head m) !! p, gstore_maps m !! p with
  | Some gs_chunk, Some dsm_seg =>
      let attach :=
        match dsm_segment env (dsm_handle gs_chunk) with
        | None =>
            ({| gstore_head := gstore_head m;
                gstore_maps := <[p := None]> (gstore_maps m);
                device := device m |},
             Undefined NullDereference)
        | Some kds =>
            ({| gstore_head := gstore_head m;
                gstore_maps :=
                  <[p := Some (dsm_handle gs_chunk)]> (gstore_maps m);
                device := device m |},
             Return kds)
        end in
      match dsm_seg with
      | None => attach
      | Some handle =>
          if negb (handle =? dsm_handle gs_chunk) then attach
          else
            match dsm_segment env handle with
            | None => (m, Undefined NullDereference)
            | Some kds => (m, Return kds)
            end
      end
  | _, _ => (m, Undefined OutOfBounds)
  end.

(** [gstoreScanState] *)
Record gstoreScanState := {
  gs_chunk : option nat;
  gs_index : Z
}.

(** [gstoreBeginForeignScan]: the [fdw_state] it leaves, [None] for the
    [NULL] of a plan that is only explained. *)
Definition gstoreBeginForeignScan (explain_only IsMVCCSnapshot : bool)
    : Outcome (option gstoreScanState) :=
  if explain_only then Return None
  else if negb IsMVCCSnapshot then Error ERRCODE_INTERNAL_ERROR
  else Return (Some {| gs_chunk := None; gs_index := 0 |}).

(** The loop over the columns of row [i], from column [j] on. *)
Fixpoint scan_columns (env : ScanEnv) (kds : kern_data_store) (i : Z)
    (j : nat) (cols : list kern_colmeta) : Outcome (list (option Datum)) :=
  match cols with
  | [] => Return []
  | cmeta :: rest =>
      let value :=
        match datum kds j i with
        | None => Return None
        | Some addr =>
            if negb (attbyval cmeta) then Return (Some (PointerGetDatum addr))
            else if attlen cmeta =? 1
            then Return (Some (CharGetDatum (load env addr 1)))
            else if attlen cmeta =? 2
            then Return (Some (Int16GetDatum (load env addr 2)))
            else if attlen cmeta =? 4
            then Return (Some (Int32GetDatum (load env addr 4)))
            else if attlen cmeta =? 8
            then Return (Some (Int64GetDatum (load env addr 8)))
            else Error ERRCODE_INTERNAL_ERROR
        end in
      match value with
      | Return v =>
          match scan_columns env kds i (S j) rest with
          | Return vs => Return (v :: vs)
          | Error e => Error e
          | Fatal => Fatal
          | Undefined u => Undefined u
          end
      | Error e => Error e
      | Fatal => Fatal
      | Undefined u => Undefined u
      end
  end.

(** The slot of row [i]: its columns, or the error of a column. *)
Definition scan_row (env : ScanEnv) (kds : kern_data_store) (i : Z)
    : Outcome (option (list (option Datum))) :=
  match scan_columns env kds i 0 (colmeta kds) with
  | Return row => Return (Some row)
  | Error e => Error e
  | Fatal => Fatal
  | Undefined u => Undefined u
  end.

(** [gstoreIterateForeignScan]: the machine and the scan state it leaves,
    and the slot returned, [None] for [NULL]. *)
Definition gstoreIterateForeignScan (env : ScanEnv) (xact : XactEnv)
    (relid : Oid) (snapshot : Snapshot) (st : Machine * gstoreScanState)
    : (Machine * gstoreScanState) * Outcome (option (list (option Datum))) :=
  let m := fst st in
  let gss_state := snd st in
  let looked :=
    match gs_chunk gss_state with
    | Some p => (gstore_head m, Return (Some p))
    | None => gstore_fdw_lookup_chunk xact (gstore_head m) relid snapshot
    end in
  let m1 := with_head m (fst looked) in
  match snd looked with
  | Error e => ((m1, gss_state), Error e)
  | Fatal => ((m1, gss_state), Fatal)
  | Undefined u => ((m1, gss_state), Undefined u)
  | Return None => ((m1, gss_state), Return None)
  | Return (Some p) =>
      let gss1 := {| gs_chunk := Some p; gs_index := gs_index gss_state |} in
      let mapped := gstore_fdw_mapped_chunk env m1 p in
      match snd mapped with
      | Error e => ((fst mapped, gss1), Error e)
      | Fatal => ((fst mapped, gss1), Fatal)
      | Undefined u => ((fst mapped, gss1), Undefined u)
      | Return kds =>
          if nitems kds <=? gs_index gss1
          then ((fst mapped, gss1), Return None)
          else
            let i := gs_index gss1 in
            ((fst mapped,
              {| gs_chunk := Some p;
                 gs_index := (i + 1) mod 18446744073709551616 |}),
             scan_row env kds i)
      end
  end.

(** [gstoreReScanForeignScan] *)
Definition gstoreReScanForeignScan (gss_state : gstoreScanState)
    : gstoreScanState :=
  {| gs_chunk := None; gs_index := 0 |}.

(** The machine and the scan state after [k] calls of
    [gstoreIterateForeignScan]. *)
Fixpoint scan_calls (env : ScanEnv) (xact : XactEnv) (relid : Oid)
    (snapshot : Snapshot) (k : nat) (st : Machine * gstoreScanState)
    : Machine * gstoreScanState :=
  match k with
  | O => st
  | S k' =>
      fst (gstoreIterateForeignScan env xact relid snapshot
             (scan_calls env xact relid snapshot k' st))
  end.

End Scan.

(** ** gpu_context.c: the resource tracker and the GpuContext pool *)

Module GpuContext.

Definition PGINVALID_SOCKET : Z := -1.
Definition ACTIVE_GPU_CONTEXT_NSLOTS : Z := 768.

Definition RESTRACK_CLASS__GPUMEMORY : Z := 2.
Definition RESTRACK_CLASS__GPUPROGRAM : Z := 3.
Definition RESTRACK_CLASS__IOMAPMEMORY : Z := 4.

(** The union [u] of [struct ResourceTracker]. *)
Inductive ResourceUnion :=
| devmem (ptr : Z) (extra : Z)
| program (program_id : Z).

(** [struct ResourceTracker], without its [chain] node. *)
Record ResourceTracker := {
  crc : Z;
  resclass : Z;
  u : ResourceUnion
}.

(** [tracker->u.devmem.ptr] and [tracker->u.devmem.extra]: [program_id]
    lies on the bytes of [ptr], and a tracker is zeroed before it is
    filled. *)
Definition u_devmem_ptr (t : ResourceTracker) : Z :=
  match u t with devmem p _ => p | program id => id end.

Definition u_devmem_extra (t : ResourceTracker) : Z :=
  match u t with devmem _ e => e | program _ => 0 end.

(** What [pg_strom.h] and [utils/pg_crc.h] fix for the tracker: the
    number of hash slots and the checksum
    [INIT_LEGACY_CRC32; COMP (resclass); COMP (data); FIN]. *)
Record TrackerEnv := {
  RESTRACK_HASHSIZE : Z;
  legacy_crc32 : Z -> Z -> Z
}.

(** [resource_tracker_hashval] *)
Definition resource_tracker_hashval (env : TrackerEnv) (resclass : Z)
    (data : Z) : Z :=
  legacy_crc32 env resclass data.

(** [crc % RESTRACK_HASHSIZE] *)
Definition restrack_index (env : TrackerEnv) (crc : Z) : nat :=
  Z.to_nat (crc mod RESTRACK_HASHSIZE env).

(** The local [GpuContext]; [addr] is the address [calloc] gave it. *)
Record GpuContext := {
  addr : nat;
  gpuserv_id : Z;
  sockfd : Z;
  resowner : Z;
  shgcon : nat;
  local_refcnt : Z;
  is_unlinked : Z;
  restrack : list (list ResourceTracker)
}.

Inductive Notice :=
| NotTracked (resclass : Z) (ptr : Z)     (* "Bug? ... was not tracked" *)
| LikelyLeaked (resclass : Z) (ptr : Z)   (* "... likely leaked" *)
| UnknownClass (resclass : Z)
| CloseFailed (fd : Z)                    (* "failed on close(%d) socket" *)
| FreeFailed (resclass : Z) (ptr : Z)     (* "failed on cuMemFree(%p)",
                                             "failed on gpuMemFreeIOMap(%p)" *)
| ContextRemained                         (* "GpuContext remained ..." *)
| ReferenceLeak (refcnt0 : Z).            (* "GpuContext reference leak" *)

(** Thread-local state: the length of [inactiveResourceTracker] (its
    nodes are zeroed structures) and what [wnotice] has written. *)
Record ThreadLocal := {
  inactiveResourceTracker : nat;
  notices : list Notice
}.

(** [wnotice] *)
Definition wnotice (tl : ThreadLocal) (n : Notice) : ThreadLocal :=
  {| inactiveResourceTracker := inactiveResourceTracker tl;
     notices := notices tl ++ [n] |}.

Definition with_restrack (g : GpuContext)
    (r : list (list ResourceTracker)) : GpuContext :=
  {| addr := addr g; gpuserv_id := gpuserv_id g; sockfd := sockfd g;
     resowner := resowner g; shgcon := shgcon g;
     local_refcnt := local_refcnt g; is_unlinked := is_unlinked g;
     restrack := r |}.

(** [resource_tracker_alloc]; [calloc_ok] tells whether [calloc] gives
    memory when it is asked.  [None] is [NULL]. *)
Definition resource_tracker_alloc (calloc_ok : bool) (tl : ThreadLocal)
    : option ThreadLocal :=
  match inactiveResourceTracker tl with
  | O => if calloc_ok then Some tl else None
  | S n => Some {| inactiveResourceTracker := n; notices := notices tl |}
  end.

(** [trackGpuMem] *)
Definition trackGpuMem (env : TrackerEnv) (calloc_ok : bool)
    (tl : ThreadLocal) (gcontext : GpuContext) (devptr extra : Z)
    : bool * ThreadLocal * GpuContext :=
  match resource_tracker_alloc calloc_ok tl with
  | None => (false, tl, gcontext)          (* out of memory *)
  | Some tl' =>
      let crc := resource_tracker_hashval env RESTRACK_CLASS__GPUMEMORY
                   devptr in
      let tracker := {| crc := crc;
                        resclass := RESTRACK_CLASS__GPUMEMORY;
                        u := devmem devptr extra |} in
      let i := restrack_index env crc in
      (true, tl',
       with_restrack gcontext
         (<[i := (restrack gcontext !!! i) ++ [tracker]]>
            (restrack gcontext)))
  end.

(** The test of the [dlist_foreach] loop of [untrackGpuMem]. *)
Definition gpumem_tracker_matches (crc0 devptr : Z) (t : ResourceTracker)
    : bool :=
  (crc t =? crc0)
  && (resclass t =? RESTRACK_CLASS__GPUMEMORY)
  && (u_devmem_ptr t =? devptr).

(** The loop of [untrackGpuMem] over one chain: the [extra] of the first
    tracker that passes the test and the chain without that tracker. *)
Fixpoint untrack_scan (crc0 devptr : Z) (l : list ResourceTracker)
    : option (Z * list ResourceTracker) :=
  match l with
  | [] => None
  | t :: rest =>
      if gpumem_tracker_matches crc0 devptr t then
        Some (u_devmem_extra t, rest)
      else
        match untrack_scan crc0 devptr rest with
        | Some (extra, rest') => Some (extra, t :: rest')
        | None => None
        end
  end.

(** [untrackGpuMem]; the result [0] is [NULL]. *)
Definition untrackGpuMem (env : TrackerEnv) (tl : ThreadLocal)
    (gcontext : GpuContext) (devptr : Z)
    : Z * ThreadLocal * GpuContext :=
  let crc := resource_tracker_hashval env RESTRACK_CLASS__GPUMEMORY
               devptr in
  let i := restrack_index env crc in
  match untrack_scan crc devptr (restrack gcontext !!! i) with
  | Some (extra, rest) =>
      (extra,
       {| inactiveResourceTracker := S (inactiveResourceTracker tl);
          notices := notices tl |},
       with_restrack gcontext (<[i := rest]> (restrack gcontext)))
  | None =>
      (0,
       {| inactiveResourceTracker := inactiveResourceTracker tl;
          notices :=
            notices tl ++ [NotTracked RESTRACK_CLASS__GPUMEMORY devptr] |},
       gcontext)
  end.

(** The context tracks the device memory at [devptr]. *)
Definition tracks_gpumem (g : GpuContext) (devptr : Z) : Prop :=
  exists t, t ∈ concat (restrack g)
            /\ resclass t = RESTRACK_CLASS__GPUMEMORY
            /\ u_devmem_ptr t = devptr.

Definition CUDA_SUCCESS : Z := 0.

(** What the calls of one [ReleaseLocalResources] answer: the result of
    [close] on the socket, whether [gpuserv_cuda_context] is set, and the
    [CUresult] of the destructor run for the [k]-th tracker the loops
    pop, from its arguments. *)
Record ReleaseAnswers := {
  close : Z -> Z;
  gpuserv_cuda_context : bool;
  gpuMemFreeExtra : nat -> Z -> Z -> Z;
  gpuMemFreeIOMap : nat -> Z -> Z
}.

(** The notice of the "likely leaked" kind for one tracker. *)
Definition leak_notice (normal_exit : bool) (t : ResourceTracker)
    : list Notice :=
  if normal_exit then [LikelyLeaked (resclass t) (u_devmem_ptr t)] else [].

(** The notices [ReleaseLocalResources] writes for the [k]-th tracker it
    pops: the [switch] on [tracker->resclass]. *)
Definition release_notice (ans : ReleaseAnswers) (normal_exit : bool)
    (k : nat) (t : ResourceTracker) : list Notice :=
  if resclass t =? RESTRACK_CLASS__GPUMEMORY then
    leak_notice normal_exit t
    ++ (* normal device memory should be already released once CUDA
          context is destroyed *)
       (if negb (gpuserv_cuda_context ans) then []
        else if gpuMemFreeExtra ans k (u_devmem_extra t) (u_devmem_ptr t)
                =? CUDA_SUCCESS then []
        else [FreeFailed (resclass t) (u_devmem_ptr t)])
  else if resclass t =? RESTRACK_CLASS__GPUPROGRAM then
    leak_notice normal_exit t
  else if resclass t =? RESTRACK_CLASS__IOMAPMEMORY then
    leak_notice normal_exit t
    ++ (if gpuMemFreeIOMap ans k (u_devmem_ptr t) =? CUDA_SUCCESS then []
        else [FreeFailed (resclass t) (u_devmem_ptr t)])
  else [UnknownClass (resclass t)].

(** The notice of the [close] of the socket, if the context has one. *)
Definition close_notice (ans : ReleaseAnswers) (g : GpuContext)
    : list Notice :=
  if sockfd g =? PGINVALID_SOCKET then []
  else if close ans (sockfd g) =? 0 then []
  else [CloseFailed (sockfd g)].

(** [ReleaseLocalResources]: the socket is closed, every chain is drained
    onto [inactiveResourceTracker], chain after chain and each from its
    head.  The destructors run on the device and on the program cache,
    which are not part of this state; what they return is [ans]. *)
Definition ReleaseLocalResources (ans : ReleaseAnswers) (tl : ThreadLocal)
    (g : GpuContext) (normal_exit : bool) : ThreadLocal * GpuContext :=
  let all := concat (restrack g) in
  ({| inactiveResourceTracker := length all + inactiveResourceTracker tl;
      notices :=
        notices tl ++ close_notice ans g
        ++ concat (imap (release_notice ans normal_exit) all) |},
   {| addr := addr g; gpuserv_id := gpuserv_id g;
      sockfd := PGINVALID_SOCKET;
      resowner := resowner g; shgcon := shgcon g;
      local_refcnt := local_refcnt g; is_unlinked := is_unlinked g;
      restrack := (λ _, []) <$> restrack g |}).

(** *** The pool of shared contexts *)

(** [SharedGpuContext], without its [chain] node; a [PGPROC *] is the
    number of the process, [None] is [NULL]. *)
Record SharedGpuContext := {
  refcnt : Z;
  backend : option nat;
  server : option nat;
  ParallelWorkerNumber : Z;
  in_termination : Z;
  num_async_tasks : Z;
  dma_buffer_list : list Z
}.

(** [SharedGpuContextHead]: the free list and [context_array]. *)
Record SharedGpuContextHead := {
  free_list : list nat;
  context_array : list SharedGpuContext
}.

(** One process: a backend or the GPU server. *)
Record Process := {
  IsGpuServerProcess : bool;
  MyProc : nat;
  brk : nat;                               (* the next address of calloc *)
  activeGpuContextSlot : list (list GpuContext);
  tls : ThreadLocal
}.

Record World := {
  sharedGpuContextHead : SharedGpuContextHead;
  processes : list Process
}.

Definition with_slots (pr : Process) (slots : list (list GpuContext))
    : Process :=
  {| IsGpuServerProcess := IsGpuServerProcess pr; MyProc := MyProc pr;
     brk := brk pr; activeGpuContextSlot := slots; tls := tls pr |}.

Definition with_tls (pr : Process) (tl : ThreadLocal) : Process :=
  {| IsGpuServerProcess := IsGpuServerProcess pr; MyProc := MyProc pr;
     brk := brk pr; activeGpuContextSlot := activeGpuContextSlot pr;
     tls := tl |}.

(** [calloc(1, sizeof(GpuContext))] that succeeds: a new address. *)
Definition bump (pr : Process) : Process :=
  {| IsGpuServerProcess := IsGpuServerProcess pr; MyProc := MyProc pr;
     brk := S (brk pr); activeGpuContextSlot := activeGpuContextSlot pr;
     tls := tls pr |}.

Definition with_local_refcnt (v : Z) (g : GpuContext) : GpuContext :=
  {| addr := addr g; gpuserv_id := gpuserv_id g; sockfd := sockfd g;
     resowner := resowner g; shgcon := shgcon g;
     local_refcnt := v; is_unlinked := is_unlinked g;
     restrack := restrack g |}.

Definition with_sockfd (v : Z) (g : GpuContext) : GpuContext :=
  {| addr := addr g; gpuserv_id := gpuserv_id g; sockfd := v;
     resowner := resowner g; shgcon := shgcon g;
     local_refcnt := local_refcnt g; is_unlinked := is_unlinked g;
     restrack := restrack g |}.

(** The context at an address, and the lists with the context at an
    address changed or unlinked ([dlist_delete]). *)
Definition context_at (a : nat) (slots : list (list GpuContext))
    : option GpuContext :=
  head (filter (λ g, addr g = a) (concat slots)).

Definition slots_update (a : nat) (f : GpuContext -> GpuContext)
    (slots : list (list GpuContext)) : list (list GpuContext) :=
  fmap (M := list) (λ g, if decide (addr g = a) then f g else g) <$> slots.

Definition slots_delete (a : nat) (slots : list (list GpuContext))
    : list (list GpuContext) :=
  filter (λ g, addr g ≠ a) <$> slots.

(** [dlist_push_head(&activeGpuContextSlot[k], &gcontext->chain)] *)
Definition slots_push_head (k : nat) (g : GpuContext)
    (slots : list (list GpuContext)) : list (list GpuContext) :=
  <[k := g :: (slots !!! k)]> slots.

(** [pg_atomic_fetch_add_u32(&refcnt, 1)] and
    [pg_atomic_sub_fetch_u32(&refcnt, 1)] leave these values. *)
Definition u32_incr (x : Z) : Z := (x + 1) mod 4294967296.
Definition u32_decr (x : Z) : Z := (x - 1) mod 4294967296.

(** The test of the lookup loop of [AllocGpuContext]. *)
Definition reusable (CurrentResourceOwner : Z) (with_connection : bool)
    (g : GpuContext) : bool :=
  (resowner g =? CurrentResourceOwner)
  && (if with_connection then negb (sockfd g =? PGINVALID_SOCKET)
      else sockfd g =? PGINVALID_SOCKET).

(** [AllocGpuContext], run by process [pr] on the shared head [sh].
    [calloc_ok]: [calloc] gives memory; [gpuservOpenConnection]: the
    socket that call stores in the context, or how it fails.  The result
    is the address of the context. *)
Definition AllocGpuContext (env : TrackerEnv) (pr : Process)
    (sh : SharedGpuContextHead)
    (CurrentResourceOwner ParallelWorkerNumber0 : Z)
    (with_connection calloc_ok : bool) (gpuservOpenConnection : Outcome Z)
    : Process * SharedGpuContextHead * Outcome nat :=
  if IsGpuServerProcess pr then (pr, sh, Fatal)
  else
    (* Lookup an existing active GpuContext *)
    match List.find (reusable CurrentResourceOwner with_connection)
            (activeGpuContextSlot pr !!! 0%nat) with
    | Some gcontext =>
        (with_slots pr
           (slots_update (addr gcontext)
              (λ g, with_local_refcnt (u32_incr (local_refcnt g)) g)
              (activeGpuContextSlot pr)),
         sh, Return (addr gcontext))
    | None =>
        (* Not found, let's create a new GpuContext *)
        if negb calloc_ok then (pr, sh, Error ERRCODE_INTERNAL_ERROR)
        else
          match free_list sh with
          | [] =>
              (* free(gcontext) *)
              (pr, sh, Error ERRCODE_INTERNAL_ERROR)
          | p :: free =>
              let shgcon0 :=
                {| refcnt := 1;
                   backend := Some (MyProc pr);
                   server := None;
                   ParallelWorkerNumber := ParallelWorkerNumber0;
                   in_termination := 0;
                   num_async_tasks := 0;
                   dma_buffer_list := [] |} in
              let sh' :=
                {| free_list := free;
                   context_array := <[p := shgcon0]> (context_array sh) |} in
              let gcontext :=
                {| addr := brk pr;
                   gpuserv_id := -1;
                   sockfd := PGINVALID_SOCKET;
                   resowner := CurrentResourceOwner;
                   shgcon := p;
                   local_refcnt := 1;
                   is_unlinked := 0;
                   restrack :=
                     replicate (Z.to_nat (RESTRACK_HASHSIZE env)) [] |} in
              let pr1 :=
                with_slots (bump pr)
                  (slots_push_head 0 gcontext (activeGpuContextSlot pr)) in
              if with_connection then
                match gpuservOpenConnection with
                | Return fd =>
                    (with_slots pr1
                       (slots_update (addr gcontext) (with_sockfd fd)
                          (activeGpuContextSlot pr1)),
                     sh', Return (addr gcontext))
                | Error e => (pr1, sh', Error e)
                | Fatal => (pr1, sh', Fatal)
                | Undefined f => (pr1, sh', Undefined f)
                end
              else (pr1, sh', Return (addr gcontext))
          end
    end.

(** [AttachGpuContext], run by process [pr]; [shgcon0] is the slot of the
    shared context and [epoll_ctl_ok] tells whether [epoll_ctl] returned 0
    for a descriptor that is one; on a negative number it fails
    ([EBADF]). *)
Definition AttachGpuContext (env : TrackerEnv) (pr : Process)
    (sh : SharedGpuContextHead) (sockfd0 : Z) (shgcon0 : nat)
    (CurrentResourceOwner gpuserv_cuda_dindex : Z)
    (calloc_ok epoll_ctl_ok : bool)
    : Process * SharedGpuContextHead * Outcome nat :=
  if negb (IsGpuServerProcess pr) then (pr, sh, Fatal)
  else if negb calloc_ok then (pr, sh, Error ERRCODE_INTERNAL_ERROR)
  else
    let gcontext :=
      {| addr := brk pr;
         gpuserv_id := gpuserv_cuda_dindex;
         sockfd := sockfd0;
         resowner := CurrentResourceOwner;
         shgcon := shgcon0;
         local_refcnt := 1;
         is_unlinked := 0;
         restrack := replicate (Z.to_nat (RESTRACK_HASHSIZE env)) [] |} in
    if negb epoll_ctl_ok || (sockfd0 <? 0) then
      (* free(gcontext) *)
      (pr, sh, Error ERRCODE_INTERNAL_ERROR)
    else
      match context_array sh !! shgcon0 with
      | None => (pr, sh, Undefined OutOfBounds)
      | Some s =>
          if negb ((0 <? refcnt s)
                   && bool_decide (backend s ≠ None)
                   && bool_decide (server s = None)
                   && (num_async_tasks s =? 0)) then
            (pr, sh, Undefined AssertionFailure)
          else
            let s' :=
              {| refcnt := refcnt s + 1;
                 backend := backend s;
                 server := Some (MyProc pr);
                 ParallelWorkerNumber := ParallelWorkerNumber s;
                 in_termination := in_termination s;
                 num_async_tasks := num_async_tasks s;
                 dma_buffer_list := dma_buffer_list s |} in
            (with_slots (bump pr)
               (slots_push_head
                  (Z.to_nat (sockfd0 mod ACTIVE_GPU_CONTEXT_NSLOTS))
                  gcontext (activeGpuContextSlot pr)),
             {| free_list := free_list sh;
                context_array := <[shgcon0 := s']> (context_array sh) |},
             Return (addr gcontext))
      end.

(** [GetGpuContext]; [a] is the address of the context.  The count is
    incremented before the old value is asserted positive. *)
Definition GetGpuContext (pr : Process) (a : nat) : Process * Outcome nat :=
  match context_at a (activeGpuContextSlot pr) with
  | None => (pr, Undefined NullDereference)
  | Some gcontext =>
      let oldcnt := local_refcnt gcontext in
      let pr' :=
        with_slots pr
          (slots_update a
             (λ g, with_local_refcnt (u32_incr (local_refcnt g)) g)
             (activeGpuContextSlot pr)) in
      if 0 <? oldcnt then (pr', Return a)
      else (pr', Undefined AssertionFailure)
  end.

(** [PutSharedGpuContext] on the slot [p], by a process that is the GPU
    server or not.  The [chain] node of a slot is linked exactly when the
    slot is on the free list; [dmaBufferFreeAll] empties
    [dma_buffer_list]. *)
Definition PutSharedGpuContext (is_server : bool)
    (sh : SharedGpuContextHead) (p : nat)
    : SharedGpuContextHead * Outcome unit :=
  match context_array sh !! p with
  | None => (sh, Undefined OutOfBounds)
  | Some s =>
      if negb (0 <? refcnt s) then (sh, Undefined AssertionFailure)
      else
        let s1 :=
          {| refcnt := refcnt s - 1;
             backend := if is_server then backend s else None;
             server := if is_server then None else server s;
             ParallelWorkerNumber := ParallelWorkerNumber s;
             in_termination := in_termination s;
             num_async_tasks := num_async_tasks s;
             dma_buffer_list := dma_buffer_list s |} in
        if 0 <? refcnt s1 then
          ({| free_list := free_list sh;
              context_array := <[p := s1]> (context_array sh) |},
           Return tt)
        else if negb (bool_decide (server s1 = None)
                      && bool_decide (backend s1 = None)) then
          ({| free_list := free_list sh;
              context_array := <[p := s1]> (context_array sh) |},
           Undefined AssertionFailure)
        else if bool_decide (p ∈ free_list sh) then
          ({| free_list := free_list sh;
              context_array := <[p := s1]> (context_array sh) |},
           Undefined AssertionFailure)
        else
          let s2 :=
            {| refcnt := refcnt s1; backend := backend s1;
               server := server s1;
               ParallelWorkerNumber := ParallelWorkerNumber s1;
               in_termination := in_termination s1;
               num_async_tasks := num_async_tasks s1;
               dma_buffer_list := [] |} in
          ({| free_list := p :: free_list sh;
              context_array := <[p := s2]> (context_array sh) |},
           Return tt)
  end.

(** [PutGpuContext]; [a] is the address of the context and [ans] is what
    the calls of [ReleaseLocalResources] answer if it runs. *)
Definition PutGpuContext (ans : ReleaseAnswers) (pr : Process)
    (sh : SharedGpuContextHead) (a : nat)
    : Process * SharedGpuContextHead * Outcome unit :=
  match context_at a (activeGpuContextSlot pr) with
  | None => (pr, sh, Undefined NullDereference)
  | Some gcontext =>
      let newcnt := u32_decr (local_refcnt gcontext) in
      if newcnt =? 0 then
        let pr1 := with_slots pr (slots_delete a (activeGpuContextSlot pr)) in
        let r := ReleaseLocalResources ans (tls pr1) gcontext true in
        let pr2 := with_tls pr1 (fst r) in
        let q := PutSharedGpuContext (IsGpuServerProcess pr) sh
                   (shgcon gcontext) in
        (* free(gcontext) *)
        (pr2, fst q, snd q)
      else
        (with_slots pr
           (slots_update a (with_local_refcnt newcnt)
              (activeGpuContextSlot pr)),
         sh, Return tt)
  end.

(** *** The system: start-up and the steps of its processes *)

Definition empty_shared : SharedGpuContext :=
  {| refcnt := 0; backend := None; server := None;
     ParallelWorkerNumber := 0; in_termination := 0;
     num_async_tasks := 0; dma_buffer_list := [] |}.

(** [pgstrom_startup_gpu_context], for [numGpuContexts] slots. *)
Definition startup_head (numGpuContexts : nat) : SharedGpuContextHead :=
  {| free_list := seq 0 numGpuContexts;
     context_array := replicate numGpuContexts empty_shared |}.

(** [pgstrom_init_gpu_context] in one process. *)
Definition init_process (is_server : bool) (proc : nat) : Process :=
  {| IsGpuServerProcess := is_server; MyProc := proc; brk := 0%nat;
     activeGpuContextSlot :=
       replicate (Z.to_nat ACTIVE_GPU_CONTEXT_NSLOTS) [];
     tls := {| inactiveResourceTracker := 0%nat; notices := [] |} |}.

(** Process number [i] of the start-up world is the GPU server when
    [servers i] holds. *)
Definition startup_world (numGpuContexts nprocs : nat)
    (servers : nat -> bool) : World :=
  {| sharedGpuContextHead := startup_head numGpuContexts;
     processes := (λ i, init_process (servers i) i) <$> seq 0 nprocs |}.

(** One call of this file's entry points by one process. *)
Inductive Call :=
| CallAlloc (CurrentResourceOwner ParallelWorkerNumber0 : Z)
    (with_connection calloc_ok : bool) (gpuservOpenConnection : Outcome Z)
| CallAttach (sockfd0 : Z) (shgcon0 : nat)
    (CurrentResourceOwner gpuserv_cuda_dindex : Z)
    (calloc_ok epoll_ctl_ok : bool)
| CallGet (a : nat)
| CallPut (a : nat) (ans : ReleaseAnswers).

Definition run_call (env : TrackerEnv) (c : Call) (pr : Process)
    (sh : SharedGpuContextHead) : Process * SharedGpuContextHead :=
  match c with
  | CallAlloc ro pw wc ok conn =>
      fst (AllocGpuContext env pr sh ro pw wc ok conn)
  | CallAttach fd p ro di ok ep =>
      fst (AttachGpuContext env pr sh fd p ro di ok ep)
  | CallGet a => (fst (GetGpuContext pr a), sh)
  | CallPut a ans => fst (PutGpuContext ans pr sh a)
  end.

(** The world after process [pid] makes the call [c]; a number that is no
    process changes nothing. *)
Definition step (env : TrackerEnv) (w : World) (pid : nat) (c : Call)
    : World :=
  match processes w !! pid with
  | None => w
  | Some pr =>
      let r := run_call env c pr (sharedGpuContextHead w) in
      {| sharedGpuContextHead := snd r;
         processes := <[pid := fst r]> (processes w) |}
  end.

(** The world after a sequence of calls, first call first. *)
Fixpoint run (env : TrackerEnv) (w : World) (calls : list (nat * Call))
    : World :=
  match calls with
  | [] => w
  | (pid, c) :: rest => run env (step env w pid c) rest
  end.

(** *** What the pool has to maintain *)

(** The contexts a process has linked on its slots. *)
Definition process_contexts (pr : Process) : list GpuContext :=
  concat (activeGpuContextSlot pr).

(** How many contexts of a list hold the shared slot [p]. *)
Definition holders_in (p : nat) (l : list GpuContext) : nat :=
  length (filter (λ g, shgcon g = p) l).

Definition process_holders (srv : bool) (p : nat) (pr : Process) : nat :=
  if bool_decide (IsGpuServerProcess pr = srv) then
    holders_in p (process_contexts pr)
  else 0%nat.

(** How many contexts of the GPU server processes ([srv] true), or of the
    backends ([srv] false), hold the shared slot [p]. *)
Definition holders (srv : bool) (procs : list Process) (p : nat) : nat :=
  sum_list_with (process_holders srv p) procs.

(** The shared slots with a positive reference count. *)
Definition is_live (sh : SharedGpuContextHead) (p : nat) : bool :=
  match context_array sh !! p with
  | Some s => 0 <? refcnt s
  | None => false
  end.

Definition live_slots (sh : SharedGpuContextHead) : list nat :=
  filter (λ p, is_live sh p = true) (seq 0 (length (context_array sh))).

(** The shared context a put that returns leaves in its slot. *)
Definition after_put (is_server : bool) (s : SharedGpuContext)
    : SharedGpuContext :=
  {| refcnt := refcnt s - 1;
     backend := if is_server then backend s else None;
     server := if is_server then None else server s;
     ParallelWorkerNumber := ParallelWorkerNumber s;
     in_termination := in_termination s;
     num_async_tasks := num_async_tasks s;
     dma_buffer_list :=
       if refcnt s =? 1 then [] else dma_buffer_list s |}.

Definition flag (o : option nat) : nat :=
  match o with Some _ => 1%nat | None => 0%nat end.

(** A process keeps its slots, gives every context an address of its own
    below [brk], and holds slots of the shared array only. *)
Definition process_ok (N : nat) (pr : Process) : Prop :=
  length (activeGpuContextSlot pr) = Z.to_nat ACTIVE_GPU_CONTEXT_NSLOTS
  /\ NoDup (addr <$> process_contexts pr)
  /\ (forall g, g ∈ process_contexts pr ->
        (addr g < brk pr)%nat /\ (shgcon g < N)%nat).

(** The invariant of a pool of [N] shared contexts. *)
Record pool_invariant (N : nat) (w : World) : Prop := {
  inv_length : length (context_array (sharedGpuContextHead w)) = N;
  inv_nodup : NoDup (free_list (sharedGpuContextHead w));
  inv_range : forall p, p ∈ free_list (sharedGpuContextHead w) ->
                        (p < N)%nat;
  inv_slot : forall p s,
    context_array (sharedGpuContextHead w) !! p = Some s ->
    refcnt s = Z.of_nat (flag (backend s) + flag (server s))
    /\ holders false (processes w) p = flag (backend s)
    /\ holders true (processes w) p = flag (server s)
    /\ (p ∈ free_list (sharedGpuContextHead w) <-> refcnt s = 0);
  inv_process : forall pid pr,
    processes w !! pid = Some pr -> process_ok N pr
}.

(** *** The trackers of CUDA programs and of I/O mapped memory *)

(** [tracker->u.program_id]: it lies on the bytes of [u.devmem.ptr]. *)
Definition u_program_id (t : ResourceTracker) : Z :=
  match u t with program id => id | devmem p _ => p end.

(** The loop of [untrackCudaProgram] and of [untrackIOMapMem] over one
    chain: the chain without the first tracker that passes the test. *)
Fixpoint restrack_remove (test : ResourceTracker -> bool)
    (l : list ResourceTracker) : option (list ResourceTracker) :=
  match l with
  | [] => None
  | t :: rest =>
      if test t then Some rest
      else
        match restrack_remove test rest with
        | Some rest' => Some (t :: rest')
        | None => None
        end
  end.

(** [trackCudaProgram] *)
Definition trackCudaProgram (env : TrackerEnv) (calloc_ok : bool)
    (tl : ThreadLocal) (gcontext : GpuContext) (program_id : Z)
    : bool * ThreadLocal * GpuContext :=
  match resource_tracker_alloc calloc_ok tl with
  | None => (false, tl, gcontext)          (* out of memory *)
  | Some tl' =>
      let crc := resource_tracker_hashval env RESTRACK_CLASS__GPUPROGRAM
                   program_id in
      let tracker := {| crc := crc;
                        resclass := RESTRACK_CLASS__GPUPROGRAM;
                        u := program program_id |} in
      let i := restrack_index env crc in
      (true, tl',
       with_restrack gcontext
         (<[i := (restrack gcontext !!! i) ++ [tracker]]>
            (restrack gcontext)))
  end.

(** The test of the loop of [untrackCudaProgram]. *)
Definition program_tracker_matches (crc0 program_id : Z)
    (t : ResourceTracker) : bool :=
  (crc t =? crc0)
  && (resclass t =? RESTRACK_CLASS__GPUPROGRAM)
  && (u_program_id t =? program_id).

(** [untrackCudaProgram] *)
Definition untrackCudaProgram (env : TrackerEnv) (tl : ThreadLocal)
    (gcontext : GpuContext) (program_id : Z) : ThreadLocal * GpuContext :=
  let crc := resource_tracker_hashval env RESTRACK_CLASS__GPUPROGRAM
               program_id in
  let i := restrack_index env crc in
  match restrack_remove (program_tracker_matches crc program_id)
          (restrack gcontext !!! i) with
  | Some rest =>
      ({| inactiveResourceTracker := S (inactiveResourceTracker tl);
          notices := notices tl |},
       with_restrack gcontext (<[i := rest]> (restrack gcontext)))
  | None =>
      ({| inactiveResourceTracker := inactiveResourceTracker tl;
          notices :=
            notices tl
            ++ [NotTracked RESTRACK_CLASS__GPUPROGRAM program_id] |},
       gcontext)
  end.

(** [trackIOMapMem] *)
Definition trackIOMapMem (env : TrackerEnv) (calloc_ok : bool)
    (tl : ThreadLocal) (gcontext : GpuContext) (devptr : Z)
    : bool * ThreadLocal * GpuContext :=
  match resource_tracker_alloc calloc_ok tl with
  | None => (false, tl, gcontext)          (* out of memory *)
  | Some tl' =>
      let crc := resource_tracker_hashval env RESTRACK_CLASS__IOMAPMEMORY
                   devptr in
      let tracker := {| crc := crc;
                        resclass := RESTRACK_CLASS__IOMAPMEMORY;
                        u := devmem devptr 0 |} in
      let i := restrack_index env crc in
      (true, tl',
       with_restrack gcontext
         (<[i := (restrack gcontext !!! i) ++ [tracker]]>
            (restrack gcontext)))
  end.

(** The test of the loop of [untrackIOMapMem]. *)
Definition iomap_tracker_matches (crc0 devptr : Z) (t : ResourceTracker)
    : bool :=
  (crc t =? crc0)
  && (resclass t =? RESTRACK_CLASS__IOMAPMEMORY)
  && (u_devmem_ptr t =? devptr).

(** [untrackIOMapMem] *)
Definition untrackIOMapMem (env : TrackerEnv) (tl : ThreadLocal)
    (gcontext : GpuContext) (devptr : Z) : ThreadLocal * GpuContext :=
  let crc := resource_tracker_hashval env RESTRACK_CLASS__IOMAPMEMORY
               devptr in
  let i := restrack_index env crc in
  match restrack_remove (iomap_tracker_matches crc devptr)
          (restrack gcontext !!! i) with
  | Some rest =>
      ({| inactiveResourceTracker := S (inactiveResourceTracker tl);
          notices := notices tl |},
       with_restrack gcontext (<[i := rest]> (restrack gcontext)))
  | None =>
      ({| inactiveResourceTracker := inactiveResourceTracker tl;
          notices :=
            notices tl ++ [NotTracked RESTRACK_CLASS__IOMAPMEMORY devptr] |},
       gcontext)
  end.

(** One call of the tracker on a context. *)
Inductive TrackerCall :=
| TrackGpuMem (calloc_ok : bool) (devptr extra : Z)
| UntrackGpuMem (devptr : Z)
| TrackCudaProgram (calloc_ok : bool) (program_id : Z)
| UntrackCudaProgram (program_id : Z)
| TrackIOMapMem (calloc_ok : bool) (devptr : Z)
| UntrackIOMapMem (devptr : Z).

Definition tracker_call (env : TrackerEnv) (c : TrackerCall)
    (tl : ThreadLocal) (g : GpuContext) : ThreadLocal * GpuContext :=
  match c with
  | TrackGpuMem ok devptr extra =>
      let r := trackGpuMem env ok tl g devptr extra in (snd (fst r), snd r)
  | UntrackGpuMem devptr =>
      let r := untrackGpuMem env tl g devptr in (snd (fst r), snd r)
  | TrackCudaProgram ok program_id =>
      let r := trackCudaProgram env ok tl g program_id in
      (snd (fst r), snd r)
  | UntrackCudaProgram program_id => untrackCudaProgram env tl g program_id
  | TrackIOMapMem ok devptr =>
      let r := trackIOMapMem env ok tl g devptr in (snd (fst r), snd r)
  | UntrackIOMapMem devptr => untrackIOMapMem env tl g devptr
  end.

(** The thread and the context after a sequence of calls, first call
    first. *)
Fixpoint tracker_run (env : TrackerEnv) (calls : list TrackerCall)
    (tl : ThreadLocal) (g : GpuContext) : ThreadLocal * GpuContext :=
  match calls with
  | [] => (tl, g)
  | c :: rest =>
      let r := tracker_call env c tl g in
      tracker_run env rest (fst r) (snd r)
  end.

(** The context tracks an entry of the class [class] under [key]. *)
Definition tracks (g : GpuContext) (class key : Z) : Prop :=
  exists t, t ∈ concat (restrack g)
            /\ resclass t = class
            /\ u_devmem_ptr t = key.

(** Every tracker of the context is one of a known class, carries the
    checksum of its class and key, and is on the chain of that
    checksum. *)
Definition trackers_placed (env : TrackerEnv) (g : GpuContext) : Prop :=
  length (restrack g) = Z.to_nat (RESTRACK_HASHSIZE env)
  /\ forall i t,
       t ∈ restrack g !!! i ->
       (resclass t = RESTRACK_CLASS__GPUMEMORY
        \/ resclass t = RESTRACK_CLASS__GPUPROGRAM
        \/ resclass t = RESTRACK_CLASS__IOMAPMEMORY)
       /\ crc t = resource_tracker_hashval env (resclass t) (u_devmem_ptr t)
       /\ restrack_index env (crc t) = i.

(** How many entries of the class [class] the context tracks under
    [key]. *)
Definition tracked_count (g : GpuContext) (class key : Z) : nat :=
  length (filter (λ t, resclass t = class /\ u_devmem_ptr t = key)
            (concat (restrack g))).

(** The class and the key a call is about, and whether it adds an entry
    or takes one away. *)
Definition call_key (c : TrackerCall) : Z * Z :=
  match c with
  | TrackGpuMem _ devptr _ | UntrackGpuMem devptr =>
      (RESTRACK_CLASS__GPUMEMORY, devptr)
  | TrackCudaProgram _ program_id | UntrackCudaProgram program_id =>
      (RESTRACK_CLASS__GPUPROGRAM, program_id)
  | TrackIOMapMem _ devptr | UntrackIOMapMem devptr =>
      (RESTRACK_CLASS__IOMAPMEMORY, devptr)
  end.

Definition call_adds (c : TrackerCall) : option bool :=
  match c with
  | TrackGpuMem ok _ _ | TrackCudaProgram ok _ | TrackIOMapMem ok _ =>
      Some ok
  | UntrackGpuMem _ | UntrackCudaProgram _ | UntrackIOMapMem _ => None
  end.

(** The test of the three untrack loops, for the class and the key. *)
Definition class_test (class crc0 key : Z) (t : ResourceTracker) : bool :=
  (crc t =? crc0) && (resclass t =? class) && (u_devmem_ptr t =? key).

Definition known_class (class : Z) : Prop :=
  class = RESTRACK_CLASS__GPUMEMORY
  \/ class = RESTRACK_CLASS__GPUPROGRAM
  \/ class = RESTRACK_CLASS__IOMAPMEMORY.

(** The notice of a destructor that fails on the [k]-th tracker of a
    release: [gpuMemFreeExtra] runs for device memory when the CUDA
    context of the server is set, [gpuMemFreeIOMap] for I/O mapped
    memory. *)
Definition free_failure (ans : ReleaseAnswers) (k : nat)
    (t : ResourceTracker) : list Notice :=
  let failed (rc : Z) :=
    if rc =? CUDA_SUCCESS then []
    else [FreeFailed (resclass t) (u_devmem_ptr t)] in
  if resclass t =? RESTRACK_CLASS__GPUMEMORY then
    if gpuserv_cuda_context ans then
      failed (gpuMemFreeExtra ans k (u_devmem_extra t) (u_devmem_ptr t))
    else []
  else if resclass t =? RESTRACK_CLASS__IOMAPMEMORY then
    failed (gpuMemFreeIOMap ans k (u_devmem_ptr t))
  else [].

(** [close] and the destructors all succeed. *)
Definition release_succeeds (ans : ReleaseAnswers) : Prop :=
  (forall fd, close ans fd = 0)
  /\ (forall k extra ptr, gpuMemFreeExtra ans k extra ptr = CUDA_SUCCESS)
  /\ (forall k ptr, gpuMemFreeIOMap ans k ptr = CUDA_SUCCESS).

(** *** Looking a context up by its socket *)

(** [GetGpuContextBySockfd].  [sockfd % ACTIVE_GPU_CONTEXT_NSLOTS] is the
    remainder of C, negative for most negative numbers; the result [None]
    is [NULL]. *)
Definition GetGpuContextBySockfd (pr : Process) (sockfd0 : Z)
    : Process * Outcome (option nat) :=
  if negb (IsGpuServerProcess pr) then (pr, Fatal)
  else if Z.rem sockfd0 ACTIVE_GPU_CONTEXT_NSLOTS <? 0 then
    (pr, Undefined OutOfBounds)
  else
    match List.find (λ g, sockfd g =? sockfd0)
            (activeGpuContextSlot pr
               !!! Z.to_nat (Z.rem sockfd0 ACTIVE_GPU_CONTEXT_NSLOTS)) with
    | Some gcontext =>
        let r := GetGpuContext pr (addr gcontext) in
        match snd r with
        | Return a => (fst r, Return (Some a))
        | Error e => (fst r, Error e)
        | Fatal => (fst r, Fatal)
        | Undefined f => (fst r, Undefined f)
        end
    | None => (pr, Return None)
    end.

(** *** Teardown at the end of a process or of a resource owner *)

(** [dlist_pop_head_node] on the first slot that is not empty: the loops
    of [ForcePutAllGpuContext] empty the slots in their order. *)
Fixpoint pop_first (slots : list (list GpuContext))
    : option (GpuContext * list (list GpuContext)) :=
  match slots with
  | [] => None
  | [] :: more =>
      match pop_first more with
      | Some (g, more') => Some (g, [] :: more')
      | None => None
      end
  | (g :: l) :: more => Some (g, l :: more)
  end.

(** The loops of [ForcePutAllGpuContext] for [n] more contexts; [ans]
    is what the calls of [ReleaseLocalResources] answer for the context
    at each address. *)
Fixpoint force_put_loop (ans : nat -> ReleaseAnswers) (n : nat)
    (pr : Process) (sh : SharedGpuContextHead)
    : Process * SharedGpuContextHead * Outcome unit :=
  match n with
  | O => (pr, sh, Return tt)
  | S k =>
      match pop_first (activeGpuContextSlot pr) with
      | None => (pr, sh, Return tt)
      | Some (gcontext, slots') =>
          let r := ReleaseLocalResources (ans (addr gcontext)) (tls pr)
                     gcontext false in
          let pr1 := with_tls (with_slots pr slots') (fst r) in
          let q := PutSharedGpuContext (IsGpuServerProcess pr) sh
                     (shgcon gcontext) in
          match snd q with
          | Return _ =>
              (* free(gcontext) *)
              force_put_loop ans k
                (with_tls (with_slots pr slots')
                   (wnotice (fst r) ContextRemained))
                (fst q)
          | Error e => (pr1, fst q, Error e)
          | Fatal => (pr1, fst q, Fatal)
          | Undefined f => (pr1, fst q, Undefined f)
          end
      end
  end.

(** [ForcePutAllGpuContext].  [IsGpuServerProcess()] is negative in a
    worker thread of the GPU server only; the processes here are
    single-threaded. *)
Definition ForcePutAllGpuContext (ans : nat -> ReleaseAnswers)
    (pr : Process) (sh : SharedGpuContextHead)
    : Process * SharedGpuContextHead * Outcome unit :=
  force_put_loop ans (length (concat (activeGpuContextSlot pr))) pr sh.

(** [pg_atomic_write_u32(&shgcon->in_termination, v)] *)
Definition with_in_termination (v : Z) (s : SharedGpuContext)
    : SharedGpuContext :=
  {| refcnt := refcnt s; backend := backend s; server := server s;
     ParallelWorkerNumber := ParallelWorkerNumber s;
     in_termination := v;
     num_async_tasks := num_async_tasks s;
     dma_buffer_list := dma_buffer_list s |}.

(** The [dlist_foreach_modify] loop of [gpucontext_cleanup_callback] over
    one slot: the contexts left on the slot, the thread-local state and
    the shared head; [ans] is what the calls of [ReleaseLocalResources]
    answer for the context at each address. *)
Fixpoint cleanup_slot (ans : nat -> ReleaseAnswers) (is_server : bool)
    (CurrentResourceOwner : Z)
    (isCommit : bool) (l : list GpuContext) (tl : ThreadLocal)
    (sh : SharedGpuContextHead)
    : list GpuContext * ThreadLocal * SharedGpuContextHead * Outcome unit :=
  match l with
  | [] => ([], tl, sh, Return tt)
  | gcontext :: rest =>
      if resowner gcontext =? CurrentResourceOwner then
        let tl0 :=
          if isCommit then
            wnotice tl (ReferenceLeak (local_refcnt gcontext))
          else tl in
        match context_array sh !! shgcon gcontext with
        | None => (rest, tl0, sh, Undefined OutOfBounds)
        | Some s =>
            (* discard any asynchronous GpuTasks *)
            let sh1 :=
              {| free_list := free_list sh;
                 context_array :=
                   <[shgcon gcontext := with_in_termination 2 s]>
                     (context_array sh) |} in
            let r := ReleaseLocalResources (ans (addr gcontext)) tl0
                       gcontext isCommit in
            let q := PutSharedGpuContext is_server sh1 (shgcon gcontext) in
            (* free(gcontext) *)
            match snd q with
            | Return _ =>
                cleanup_slot ans is_server CurrentResourceOwner isCommit
                  rest (fst r) (fst q)
            | Error e => (rest, fst r, fst q, Error e)
            | Fatal => (rest, fst r, fst q, Fatal)
            | Undefined f => (rest, fst r, fst q, Undefined f)
            end
        end
      else
        let r := cleanup_slot ans is_server CurrentResourceOwner isCommit
                   rest tl sh in
        (gcontext :: fst (fst (fst r)), snd (fst (fst r)), snd (fst r),
         snd r)
  end.

(** The [for] loop of [gpucontext_cleanup_callback] over the slots that
    remain to be visited. *)
Fixpoint cleanup_slots (ans : nat -> ReleaseAnswers) (is_server : bool)
    (CurrentResourceOwner : Z)
    (isCommit : bool) (slots : list (list GpuContext)) (tl : ThreadLocal)
    (sh : SharedGpuContextHead)
    : list (list GpuContext) * ThreadLocal * SharedGpuContextHead
      * Outcome unit :=
  match slots with
  | [] => ([], tl, sh, Return tt)
  | l :: more =>
      let r := cleanup_slot ans is_server CurrentResourceOwner isCommit l
                 tl sh in
      match snd r with
      | Return _ =>
          let r' := cleanup_slots ans is_server CurrentResourceOwner
                      isCommit more (snd (fst (fst r))) (snd (fst r)) in
          (fst (fst (fst r)) :: fst (fst (fst r')), snd (fst (fst r')),
           snd (fst r'), snd r')
      | o => (fst (fst (fst r)) :: more, snd (fst (fst r)), snd (fst r), o)
      end
  end.

(** [gpucontext_cleanup_callback]; [before_locks] tells whether [phase]
    is [RESOURCE_RELEASE_BEFORE_LOCKS]. *)
Definition gpucontext_cleanup_callback (ans : nat -> ReleaseAnswers)
    (pr : Process) (sh : SharedGpuContextHead) (CurrentResourceOwner : Z)
    (before_locks isCommit : bool)
    : Process * SharedGpuContextHead * Outcome unit :=
  if negb before_locks then (pr, sh, Return tt)
  else
    let n := if negb (IsGpuServerProcess pr) then 1%nat
             else Z.to_nat ACTIVE_GPU_CONTEXT_NSLOTS in
    let r := cleanup_slots ans (IsGpuServerProcess pr)
               CurrentResourceOwner isCommit
               (take n (activeGpuContextSlot pr)) (tls pr) sh in
    (with_tls
       (with_slots pr
          (fst (fst (fst r)) ++ drop n (activeGpuContextSlot pr)))
       (snd (fst (fst r))),
     snd (fst r), snd r).

(** [PutSharedGpuContext] for the contexts of a list, one after the
    other, each after [in_termination] of its shared context was set to 2
    when [discard] holds; the first put that does not return ends it. *)
Fixpoint put_list (is_server discard : bool) (l : list GpuContext)
    (sh : SharedGpuContextHead) : SharedGpuContextHead * Outcome unit :=
  match l with
  | [] => (sh, Return tt)
  | g :: rest =>
      let sh1 :=
        match context_array sh !! shgcon g with
        | Some s =>
            if discard then
              {| free_list := free_list sh;
                 context_array :=
                   <[shgcon g := with_in_termination 2 s]>
                     (context_array sh) |}
            else sh
        | None => sh
        end in
      let q := PutSharedGpuContext is_server sh1 (shgcon g) in
      match snd q with
      | Return _ => put_list is_server discard rest (fst q)
      | o => (fst q, o)
      end
  end.

(** No context linked on the slots has the address [a]. *)
Definition fresh_address (a : nat) (slots : list (list GpuContext)) : Prop :=
  forall g, g ∈ concat slots -> addr g ≠ a.

(** The process [pr] with the contexts of [l], all on its first slot, in
    place of its own. *)
Definition process_with (pr : Process) (l : list GpuContext) : Process :=
  with_slots pr
    (<[0%nat := l]> (replicate (Z.to_nat ACTIVE_GPU_CONTEXT_NSLOTS) [])).

End GpuContext.

(** ** Concrete data, for evaluating the model *)

Module Sample.

(** [TransactionIdPrecedes] as PostgreSQL's [transam.c] has it. *)
Definition pg_TransactionIdPrecedes (id1 id2 : TransactionId) : bool :=
  if negb (TransactionIdIsNormal id1) || negb (TransactionIdIsNormal id2)
  then id1 <? id2
  else 2147483648 <=? (id1 - id2) mod 4294967296.

(** A backend of database 1 that runs transaction 100, in its command 5.
    The transactions 3 to 99 are over; all of them committed but 90. *)
Definition backend : XactEnv :=
  {| MyDatabaseId := 1;
     GetCurrentTransactionId := 100;
     GetCurrentCommandId := 5;
     TransactionIdIsCurrentTransactionId := λ xid, xid =? 100;
     TransactionIdDidCommit :=
       λ xid, (3 <=? xid) && (xid <? 100) && negb (xid =? 90);
     TransactionIdPrecedes := pg_TransactionIdPrecedes;
     GetOldestXmin := 100;
     legacy_crc32_oid2 := λ d t, (d * 65599 + t) mod 4294967296 |}.

(** The snapshot of that command: transactions from 100 on are in
    progress for it. *)
Definition scan : Snapshot :=
  {| curcid := 5; XidInMVCCSnapshot := λ xid, 100 <=? xid |}.

Definition chunk_of (table : Oid) (xmin0 xmax0 : TransactionId)
    (cid0 : CommandId) (xmin_known xmax_known : bool) : GpuStoreChunk :=
  {| hash := legacy_crc32_oid2 backend 1 table;
     database_oid := 1; table_oid := table;
     xmax := xmax0; xmin := xmin0; cid := cid0;
     xmax_commited := xmax_known; xmin_commited := xmin_known;
     kds_nitems := 3; kds_length := 4096;
     cuda_dindex := 0; ipc_mhandle := 77; dsm_handle := 9 |}.

(** Inserted by the running transaction in its command 3. *)
Definition own_insert : GpuStoreChunk := chunk_of 7 100 0 3 false false.

(** Inserted by the running transaction in its command 3 and deleted by
    it in its command 6. *)
Definition own_insert_own_delete : GpuStoreChunk :=
  chunk_of 7 100 100 6 false false.

(** Inserted by transaction 50, deleted by transaction 60; the insert is
    marked committed, the delete is not. *)
Definition deleted_unmarked : GpuStoreChunk :=
  chunk_of 7 50 60 0 true false.

(** Inserted by transaction 50, marked committed, never deleted. *)
Definition old_insert : GpuStoreChunk := chunk_of 8 50 0 0 true false.

Definition unused : GpuStoreChunk :=
  {| hash := 0; database_oid := 0; table_oid := 0; xmax := 0; xmin := 0;
     cid := 0; xmax_commited := false; xmin_commited := false;
     kds_nitems := 0; kds_length := 0; cuda_dindex := 0; ipc_mhandle := 0;
     dsm_handle := UINT_MAX |}.

(** Table 7 hashes to bucket 34 and table 8 to bucket 35. *)
Definition store : GpuStoreHead :=
  {| has_warm_chunks := 1;
     free_chunks := [3%nat];
     active_chunks :=
       <[34%nat := [0%nat; 1%nat]]>
         (<[35%nat := [2%nat]]> (replicate 97 []));
     gs_chunks := [own_insert; deleted_unmarked; old_insert; unused] |}.

Definition idle_device : DeviceState :=
  {| preserved := [(0, 77)]; ipc_opened := []; ctx_depth := 0 |}.

Definition machine : Machine :=
  {| gstore_head := store;
     gstore_maps := [Some 9; Some 9; Some 9; None];
     device := idle_device |}.


(** CUDA calls that all succeed. *)
Definition cuda_ok : CudaAnswers :=
  {| gpuMemAllocPreserved := Some 78;
     gpuIpcOpenMemHandle := Some 4096;
     cuCtxPushCurrent := true;
     cuMemcpyHtoD := true;
     gpuIpcCloseMemHandle := true;
     cuCtxPopCurrent := true |}.


(** A tracker of 53 chains and a context that tracks nothing. *)
Definition tracker_env : GpuContext.TrackerEnv :=
  {| GpuContext.RESTRACK_HASHSIZE := 53;
     GpuContext.legacy_crc32 := λ c d, (c * 65599 + d) mod 4294967296 |}.

Definition fresh_context : GpuContext.GpuContext :=
  {| GpuContext.addr := 0%nat; GpuContext.gpuserv_id := -1;
     GpuContext.sockfd := GpuContext.PGINVALID_SOCKET;
     GpuContext.resowner := 1; GpuContext.shgcon := 0%nat;
     GpuContext.local_refcnt := 1; GpuContext.is_unlinked := 0;
     GpuContext.restrack := replicate 53 [] |}.

Definition fresh_thread : GpuContext.ThreadLocal :=
  {| GpuContext.inactiveResourceTracker := 0%nat;
     GpuContext.notices := [] |}.

(** The context after the device pointer 4096 was tracked with the extra
    1, and after it was tracked once more with the extra 2. *)
Definition tracked_once : GpuContext.GpuContext :=
  snd (GpuContext.trackGpuMem tracker_env true fresh_thread fresh_context
         4096 1).

Definition tracked_twice : GpuContext.GpuContext :=
  snd (GpuContext.trackGpuMem tracker_env true fresh_thread tracked_once
         4096 2).

(** A release in the GPU server whose calls all succeed, and one whose
    [gpuMemFreeIOMap] returns [CUDA_ERROR_INVALID_VALUE]. *)
Definition release_ok : GpuContext.ReleaseAnswers :=
  {| GpuContext.close := λ _, 0;
     GpuContext.gpuserv_cuda_context := true;
     GpuContext.gpuMemFreeExtra := λ _ _ _, 0;
     GpuContext.gpuMemFreeIOMap := λ _ _, 0 |}.

Definition release_iomap_fails : GpuContext.ReleaseAnswers :=
  {| GpuContext.close := λ _, 0;
     GpuContext.gpuserv_cuda_context := true;
     GpuContext.gpuMemFreeExtra := λ _ _ _, 0;
     GpuContext.gpuMemFreeIOMap := λ _ _, 1 |}.

(** The snapshot of the next command of transaction 100. *)
Definition later_scan : Snapshot :=
  {| curcid := 6; XidInMVCCSnapshot := λ xid, 100 <=? xid |}.

(** A second backend of database 1, which runs transaction 101. *)
Definition backend2 : XactEnv :=
  {| MyDatabaseId := 1;
     GetCurrentTransactionId := 101;
     GetCurrentCommandId := 0;
     TransactionIdIsCurrentTransactionId := λ xid, xid =? 101;
     TransactionIdDidCommit :=
       λ xid, (3 <=? xid) && (xid <? 100) && negb (xid =? 90);
     TransactionIdPrecedes := pg_TransactionIdPrecedes;
     GetOldestXmin := 100;
     legacy_crc32_oid2 := λ d t, (d * 65599 + t) mod 4294967296 |}.

(** A third backend of database 1, in transaction 102, which starts after
    the transactions 100 and 101 committed, and its snapshot. *)
Definition reader : XactEnv :=
  {| MyDatabaseId := 1;
     GetCurrentTransactionId := 102;
     GetCurrentCommandId := 0;
     TransactionIdIsCurrentTransactionId := λ xid, xid =? 102;
     TransactionIdDidCommit :=
       λ xid, (3 <=? xid) && (xid <? 102) && negb (xid =? 90);
     TransactionIdPrecedes := pg_TransactionIdPrecedes;
     GetOldestXmin := 102;
     legacy_crc32_oid2 := λ d t, (d * 65599 + t) mod 4294967296 |}.

Definition reader_scan : Snapshot :=
  {| curcid := 0; XidInMVCCSnapshot := λ xid, 102 <=? xid |}.

(** A store of four descriptors as the start-up leaves it. *)
Definition started : Machine := pgstrom_startup_gstore_fdw 4 0 idle_device.

(** Three rows loaded for a table pinned to device 0. *)
Definition loaded : gstoreLoadState :=
  {| gcontext := Some 0; nrooms := 10000; nitems := 3 |}.

(** The started store after transaction 100 wrote those rows for table 7,
    and after transaction 101 wrote two more for the same table. *)
Definition written : Machine :=
  fst (gstore_fdw_writeout_pgstrom backend cuda_ok started 7 loaded 11 4096
         3).

(** The descriptor of that first chunk. *)
Definition chunk_written : GpuStoreChunk :=
  {| hash := legacy_crc32_oid2 backend 1 7;
     database_oid := 1; table_oid := 7;
     xmax := 0; xmin := 100; cid := 5;
     xmax_commited := false; xmin_commited := false;
     kds_nitems := 3; kds_length := 4096;
     cuda_dindex := 0; ipc_mhandle := 78; dsm_handle := 11 |}.

Definition written_twice : Machine :=
  fst (gstore_fdw_writeout_pgstrom backend2 cuda_ok written 7
         {| gcontext := Some 0; nrooms := 10000; nitems := 2 |} 12 2048 2).

(** The sample store where transaction 60, now the running one, deleted
    the chunk of slot 1. *)
Definition deleter : XactEnv :=
  {| MyDatabaseId := 1;
     GetCurrentTransactionId := 60;
     GetCurrentCommandId := 1;
     TransactionIdIsCurrentTransactionId := λ xid, xid =? 60;
     TransactionIdDidCommit := λ xid, (3 <=? xid) && (xid <? 60);
     TransactionIdPrecedes := pg_TransactionIdPrecedes;
     GetOldestXmin := 100;
     legacy_crc32_oid2 := λ d t, (d * 65599 + t) mod 4294967296 |}.

(** A frozen chunk of table 8. *)
Definition frozen : GpuStoreChunk := chunk_of 8 2 0 0 true false.

(** A pool of two shared contexts with a backend, process 0, and the GPU
    server, process 1; the backend acquired a context for its resource
    owner 1, and the server attached to it over socket 5. *)
Definition pool_start : GpuContext.World :=
  GpuContext.startup_world 2 2 (λ pid, Nat.eqb pid 1).

Definition pool_alloc : GpuContext.World :=
  GpuContext.run tracker_env pool_start
    [(0%nat, GpuContext.CallAlloc 1 0 false true (Return 0))].

Definition pool_world : GpuContext.World :=
  GpuContext.run tracker_env pool_alloc
    [(1%nat, GpuContext.CallAttach 5 0%nat 2 0 true true)].

Definition pool_backend : GpuContext.Process :=
  fst (fst (GpuContext.AllocGpuContext tracker_env
              (GpuContext.init_process false 0) (GpuContext.startup_head 2)
              1 0 false true (Return 0))).

Definition pool_server : GpuContext.Process :=
  fst (fst (GpuContext.AttachGpuContext tracker_env
              (GpuContext.init_process true 1)
              (GpuContext.sharedGpuContextHead pool_alloc) 5 0%nat 2 0 true
              true)).

Import String.StringSyntax.
Local Open Scope string_scope.

(** Two devices, the format code 50, [atoi] on decimal digits, and a
    [pg_strcasecmp] that tells equal strings from others. *)
Fixpoint decimal (s : String.string) (acc : Z) : Z :=
  match s with
  | String.EmptyString => acc
  | String.String c rest =>
      let n := Z.of_nat (Ascii.nat_of_ascii c) - 48 in
      if (0 <=? n) && (n <=? 9) then decimal rest (10 * acc + n) else acc
  end.

Definition option_env : Options.OptionEnv :=
  {| Options.atoi := λ s, decimal s 0;
     Options.pg_strcasecmp := λ a b, if String.eqb a b then 0 else 1;
     Options.numDevAttrs := 2;
     Options.GSTORE_FDW_FORMAT__PGSTROM := 50 |}.

(** [OPTIONS (pinning '1', format 'pgstrom')] *)
Definition table_options : list Options.DefElem :=
  [ {| Options.defname := "pinning"; Options.defGetString := "1" |};
    {| Options.defname := "format"; Options.defGetString := "pgstrom" |} ].

(** The image of the segment 9: three rows of an [int4] column and a
    column passed by reference, whose value is null in the last row. *)
Definition kds : Scan.kern_data_store :=
  {| Scan.nitems := 3;
     Scan.colmeta := [ {| Scan.attbyval := true; Scan.attlen := 4 |};
                       {| Scan.attbyval := false; Scan.attlen := -1 |} ];
     Scan.datum := λ j i,
       if Nat.eqb j 1 && (i =? 2) then None
       else Some (1000 + 100 * Z.of_nat j + i) |}.

Definition scan_env : Scan.ScanEnv :=
  {| Scan.dsm_segment := λ h, if h =? 9 then Some kds else None;
     Scan.load := λ addr size, addr mod 2 ^ (8 * size) |}.

Definition scan_start : Machine * Scan.gstoreScanState :=
  (machine, {| Scan.gs_chunk := None; Scan.gs_index := 0 |}).

End Sample.

(** * Properties *)

(** ** Proof steps used throughout *)

Ltac chunk_simpl :=
  cbn [xmin xmax cid xmin_commited xmax_commited set_xmax set_xmin set_cid
       set_xmax_commited set_xmin_commited set_dsm_handle fst snd
       andb orb negb] in *.

Ltac case_if :=
  match goal with
  | |- context [if ?b then _ else _] => destruct b eqn:?
  end.

(** ** Lists of lists *)

Lemma elem_of_concat {A : Type} (x : A) (ls : list (list A)) :
  x ∈ concat ls <-> exists l : list A, x ∈ l /\ l ∈ ls.
Proof.
  induction ls as [|l0 ls IH]; simpl.
  - split; [intros H; inversion H | intros (l & _ & H); inversion H].
  - rewrite elem_of_app, IH. split.
    + intros [H | (l & Hx & Hl)].
      * exists l0. split; [exact H | left].
      * exists l. split; [exact Hx | right; exact Hl].
    + intros (l & Hx & Hl). apply elem_of_cons in Hl.
      destruct Hl as [-> | Hl]; [left; exact Hx | right; eauto].
Qed.

(** A bucket read from an array of buckets is one of them, or empty. *)
Lemma total_lookup_bucket {A : Type} (ls : list (list A)) (i : nat) :
  ls !!! i = [] \/ ls !!! i ∈ ls.
Proof.
  revert i. induction ls as [|l ls IH]; intros i; [left; reflexivity|].
  destruct i as [|i]; simpl.
  - right. left.
  - destruct (IH i) as [H | H]; [left; exact H | right; right; exact H].
Qed.

(** ** The visibility predicate *)

Section Visibility.

Variable env : XactEnv.
Variable snapshot : Snapshot.

(** When the insert is established as committed, the predicate is decided
    by the delete side, run on the chunk with the insert marked. *)
Lemma visibility_insert_established (c : GpuStoreChunk) :
  insert_established env c snapshot = true ->
  gstore_fdw_satisfies_visibility env c snapshot
  = visibility_of_delete env (set_xmin_commited true c) snapshot.
Proof.
  unfold insert_established, gstore_fdw_satisfies_visibility.
  destruct c as [h d t xa xi ci xac xic n l di ih dh]; simpl.
  destruct xic; simpl.
  - intros H. apply negb_true_iff in H. rewrite H. reflexivity.
  - intros H. repeat (apply andb_true_iff in H; destruct H as [H ?]).
    rewrite H. simpl.
    match goal with Hc : negb _ = true |- _ =>
      apply negb_true_iff in Hc; rewrite Hc end.
    match goal with Hc : negb _ = true |- _ =>
      apply negb_true_iff in Hc; rewrite Hc end.
    match goal with Hc : TransactionIdDidCommit _ _ = true |- _ =>
      rewrite Hc end.
    reflexivity.
Qed.

(** Conversely the delete side is reached only then. *)
Lemma visibility_not_established (c : GpuStoreChunk) :
  insert_established env c snapshot = false ->
  fst (gstore_fdw_satisfies_visibility env c snapshot) = true ->
  xmin_commited c = false
  /\ TransactionIdIsCurrentTransactionId env (xmin c) = true.
Proof.
  unfold insert_established, gstore_fdw_satisfies_visibility.
  destruct (xmin_commited c); simpl.
  - intros H. apply negb_false_iff in H. rewrite H. simpl. discriminate.
  - destruct (TransactionIdIsValid (xmin c)); simpl; [|discriminate].
    destruct (TransactionIdIsCurrentTransactionId env (xmin c)); simpl;
      [tauto|].
    destruct (XidInMVCCSnapshot snapshot (xmin c)); simpl; [discriminate|].
    destruct (TransactionIdDidCommit env (xmin c)); simpl; discriminate.
Qed.

(** C2.  A chunk whose insert is not marked committed and whose [xmin] is
    the caller's own transaction is visible only if its command id is
    strictly before the snapshot's [curcid]; and it is invisible when it
    also carries a delete by the caller's transaction with a command id
    equal to or after [curcid]. *)
Theorem own_insert_visibility (c : GpuStoreChunk) :
  xmin_commited c = false ->
  TransactionIdIsCurrentTransactionId env (xmin c) = true ->
  (fst (gstore_fdw_satisfies_visibility env c snapshot) = true ->
   cid c < curcid snapshot)
  /\ (TransactionIdIsValid (xmax c) = true ->
      TransactionIdIsCurrentTransactionId env (xmax c) = true ->
      curcid snapshot <= cid c ->
      fst (gstore_fdw_satisfies_visibility env c snapshot) = false).
Proof.
  intros Hxc Hown. unfold gstore_fdw_satisfies_visibility.
  rewrite Hxc, Hown. simpl.
  destruct (TransactionIdIsValid (xmin c)); simpl.
  - destruct (Z.leb_spec (curcid snapshot) (cid c)) as [Hle|Hlt]; simpl.
    + split; [discriminate | reflexivity].
    + split; [intros _; exact Hlt | intros _ _ Hle; lia].
  - split; [discriminate | reflexivity].
Qed.

(** The same chunks, decided exactly: visible when inserted by an earlier
    command and not deleted by the caller's transaction. *)
Lemma own_insert_exact (c : GpuStoreChunk) :
  xmin_commited c = false ->
  TransactionIdIsValid (xmin c) = true ->
  TransactionIdIsCurrentTransactionId env (xmin c) = true ->
  fst (gstore_fdw_satisfies_visibility env c snapshot)
  = ((cid c <? curcid snapshot)
     && ((xmax c =? InvalidTransactionId)
         || negb (TransactionIdIsCurrentTransactionId env (xmax c)))).
Proof.
  intros Hxc Hv Hown. unfold gstore_fdw_satisfies_visibility.
  rewrite Hxc, Hv, Hown. simpl.
  destruct (Z.leb_spec (curcid snapshot) (cid c)) as [Hle|Hlt]; simpl.
  - assert ((cid c <? curcid snapshot) = false) as -> by lia. reflexivity.
  - assert ((cid c <? curcid snapshot) = true) as -> by lia. simpl.
    destruct (xmax c =? InvalidTransactionId); simpl; [reflexivity|].
    destruct (TransactionIdIsCurrentTransactionId env (xmax c));
      reflexivity.
Qed.

(** C3.  A chunk whose insert is established as committed and whose
    [xmax] is set, the delete not being marked committed:
    - deleted by the caller's transaction, it is invisible exactly when
      the delete's command id is before [curcid], and is left as it is;
    - deleted by a transaction in progress for the snapshot (marked or
      not), it is visible;
    - deleted by a transaction that committed, it is invisible and
      [xmax_commited] is set;
    - deleted by a transaction that did not commit, it is visible and
      [xmax] is reset to [InvalidTransactionId]. *)
Theorem delete_side_visibility (c : GpuStoreChunk) :
  insert_established env c snapshot = true ->
  TransactionIdIsValid (xmax c) = true ->
  let r := gstore_fdw_satisfies_visibility env c snapshot in
  (xmax_commited c = false ->
   TransactionIdIsCurrentTransactionId env (xmax c) = true ->
   (fst r = false <-> cid c < curcid snapshot)
   /\ snd r = set_xmin_commited true c)
  /\ ((xmax_commited c = false ->
       TransactionIdIsCurrentTransactionId env (xmax c) = false) ->
      XidInMVCCSnapshot snapshot (xmax c) = true ->
      fst r = true /\ snd r = set_xmin_commited true c)
  /\ (xmax_commited c = false ->
      TransactionIdIsCurrentTransactionId env (xmax c) = false ->
      XidInMVCCSnapshot snapshot (xmax c) = false ->
      TransactionIdDidCommit env (xmax c) = true ->
      fst r = false
      /\ snd r = set_xmax_commited true (set_xmin_commited true c))
  /\ (xmax_commited c = false ->
      TransactionIdIsCurrentTransactionId env (xmax c) = false ->
      XidInMVCCSnapshot snapshot (xmax c) = false ->
      TransactionIdDidCommit env (xmax c) = false ->
      fst r = true
      /\ snd r = set_xmax InvalidTransactionId
                   (set_xmin_commited true c)).
Proof.
  intros Hest Hv r. subst r.
  rewrite (visibility_insert_established c Hest).
  unfold visibility_of_delete. simpl. rewrite Hv. simpl.
  split; [|split; [|split]].
  - intros Hm Hown. rewrite Hm, Hown. simpl.
    destruct (Z.leb_spec (curcid snapshot) (cid c)); simpl.
    + split; [split; [discriminate | lia] | reflexivity].
    + split; [split; [intros _; assumption | reflexivity] | reflexivity].
  - intros Hnot Hin. destruct (xmax_commited c); simpl.
    + rewrite Hin. split; reflexivity.
    + rewrite Hnot by reflexivity. rewrite Hin. split; reflexivity.
  - intros Hm Hnot Hin Hdid. rewrite Hm, Hnot, Hin, Hdid.
    split; reflexivity.
  - intros Hm Hnot Hin Hdid. rewrite Hm, Hnot, Hin, Hdid.
    split; reflexivity.
Qed.

End Visibility.

(** ** The chunk lookup *)

Section Lookup.

Variable env : XactEnv.
Variable gstore_oid : Oid.
Variable h : Z.
Variable snapshot : Snapshot.

Lemma passes_insert_ne (cs : list GpuStoreChunk) (p q : nat)
    (c : GpuStoreChunk) :
  p ≠ q ->
  passes env gstore_oid h snapshot (<[p := c]> cs) q
  = passes env gstore_oid h snapshot cs q.
Proof.
  intros Hne. unfold passes. rewrite list_lookup_insert_ne by exact Hne.
  reflexivity.
Qed.

Lemma filter_passes_insert (cs : list GpuStoreChunk) (p : nat)
    (c : GpuStoreChunk) (nodes : list nat) :
  p ∉ nodes ->
  List.filter (passes env gstore_oid h snapshot (<[p := c]> cs)) nodes
  = List.filter (passes env gstore_oid h snapshot cs) nodes.
Proof.
  intros Hnot. apply List.filter_ext_in. intros q Hq.
  apply passes_insert_ne. intros ->. apply Hnot.
  apply list_elem_of_In. exact Hq.
Qed.

Lemma lookup_answer_found (p : nat) (l : list nat) :
  lookup_answer None (p :: l) = lookup_answer (Some p) l.
Proof. destruct l; reflexivity. Qed.

(** The loop answers by the visible descriptors among the nodes it still
    has to visit, judged on the array as it stands. *)
Lemma lookup_scan_answer (nodes : list nat) :
  NoDup nodes ->
  forall (cs : list GpuStoreChunk) (gs_chunk : option nat),
    snd (lookup_scan env gstore_oid h snapshot nodes cs gs_chunk)
    = lookup_answer gs_chunk
        (List.filter (passes env gstore_oid h snapshot cs) nodes).
Proof.
  induction 1 as [|p rest Hp Hnd IH]; intros cs gs_chunk; simpl.
  - destruct gs_chunk; reflexivity.
  - unfold passes at 1. destruct (cs !! p) as [gs_temp|] eqn:Hcs.
    + destruct (chunk_matches env gstore_oid h gs_temp); simpl.
      * destruct (gstore_fdw_satisfies_visibility env gs_temp snapshot)
          as [vis c'] eqn:Hvis; simpl.
        destruct vis.
        -- destruct gs_chunk as [q|].
           ++ simpl. reflexivity.
           ++ rewrite IH. rewrite filter_passes_insert by exact Hp.
              symmetry. apply lookup_answer_found.
        -- rewrite IH. rewrite filter_passes_insert by exact Hp.
           reflexivity.
      * apply IH.
    + apply IH.
Qed.

(** The loop touches the descriptors only: the array keeps its length. *)
Lemma lookup_scan_length (nodes : list nat) :
  forall (cs : list GpuStoreChunk) (gs_chunk : option nat),
    length (fst (lookup_scan env gstore_oid h snapshot nodes cs gs_chunk))
    = length cs.
Proof.
  induction nodes as [|p rest IH]; intros cs gs_chunk; simpl;
    [reflexivity|].
  destruct (cs !! p) as [gs_temp|]; [|apply IH].
  destruct (chunk_matches env gstore_oid h gs_temp); [|apply IH].
  destruct (fst (gstore_fdw_satisfies_visibility env gs_temp snapshot)).
  - destruct gs_chunk; simpl.
    + apply length_insert.
    + rewrite IH. apply length_insert.
  - rewrite IH. apply length_insert.
Qed.

End Lookup.

(** What the lookup answers, by the visible descriptors of the bucket. *)
Lemma lookup_nolock_answer (env : XactEnv) (head : GpuStoreHead)
    (gstore_oid : Oid) (snapshot : Snapshot) :
  NoDup (active_chunks head
           !!! hash_index (legacy_crc32_oid2 env (MyDatabaseId env)
                             gstore_oid)) ->
  let r := gstore_fdw_lookup_chunk_nolock env head gstore_oid snapshot in
  let visible := visible_chunks env head gstore_oid snapshot in
  (visible = [] -> snd r = Return None)
  /\ (forall p, visible = [p] -> snd r = Return (Some p))
  /\ (2 <= length visible -> snd r = Error ERRCODE_INTERNAL_ERROR)%nat
  /\ free_chunks (fst r) = free_chunks head
  /\ active_chunks (fst r) = active_chunks head
  /\ has_warm_chunks (fst r) = has_warm_chunks head.
Proof.
  intros Hnd r visible. subst r visible.
  unfold gstore_fdw_lookup_chunk_nolock, visible_chunks. simpl.
  rewrite lookup_scan_answer by exact Hnd.
  repeat split.
  - intros ->. reflexivity.
  - intros p ->. reflexivity.
  - intros Hlen.
    destruct (List.filter _ _) as [|a [|b l]]; simpl in *; [lia|lia|].
    reflexivity.
Qed.

(** C1.  The lookup scans the bucket of the table's hash.  With [visible]
    the descriptors of that bucket that belong to the (database, table) pair
    and pass the visibility predicate for the snapshot: it returns none when
    there is none, the descriptor when there is one, and raises the internal
    error instead of returning when there are more.  It changes no list of
    the store. *)
Theorem lookup_single_visible (env : XactEnv) (head : GpuStoreHead)
    (gstore_oid : Oid) (snapshot : Snapshot) :
  NoDup (active_chunks head
           !!! hash_index (legacy_crc32_oid2 env (MyDatabaseId env)
                             gstore_oid)) ->
  let r := gstore_fdw_lookup_chunk_nolock env head gstore_oid snapshot in
  let visible := visible_chunks env head gstore_oid snapshot in
  (visible = [] -> snd r = Return None)
  /\ (forall p, visible = [p] -> snd r = Return (Some p))
  /\ (2 <= length visible -> snd r = Error ERRCODE_INTERNAL_ERROR)%nat
  /\ free_chunks (fst r) = free_chunks head
  /\ active_chunks (fst r) = active_chunks head
  /\ has_warm_chunks (fst r) = has_warm_chunks head.
Proof. exact (lookup_nolock_answer env head gstore_oid snapshot). Qed.


(** ** The transaction callback *)

Section Reclaimer.

Variable env : XactEnv.
Variable is_commit : bool.
Variable oldestXmin : TransactionId.

Lemma total_lookup_fmap_delete (p i : nat) (l : list (list nat)) :
  (dlist_delete p <$> l) !!! i = dlist_delete p (l !!! i).
Proof.
  revert i. induction l as [|b l IH]; intros [|i]; simpl; try reflexivity.
  apply IH.
Qed.

Lemma dlist_delete_notin (p : nat) (l : list nat) :
  p ∉ l -> dlist_delete p l = l.
Proof.
  intros Hnot. unfold dlist_delete. induction l as [|q l IH];
    [reflexivity|].
  rewrite filter_cons. destruct (decide (q ≠ p)) as [Hne|Heq].
  - f_equal. apply IH. intros Hin. apply Hnot. right. exact Hin.
  - exfalso. apply Hnot. apply dec_stable in Heq. subst. left.
Qed.

Lemma dlist_delete_gone (p : nat) (l : list nat) : p ∉ dlist_delete p l.
Proof.
  unfold dlist_delete. intros Hin. apply list_elem_of_filter in Hin.
  destruct Hin as [Hne _]. apply Hne. reflexivity.
Qed.

(** What [gstore_fdw_release_chunk] does to the lists and to the other
    descriptors. *)
Lemma release_chunk_lists (m : Machine) (p : nat) (c : GpuStoreChunk) :
  gs_chunks (gstore_head m) !! p = Some c ->
  let m' := gstore_fdw_release_chunk m p in
  free_chunks (gstore_head m')
  = p :: dlist_delete p (free_chunks (gstore_head m))
  /\ active_chunks (gstore_head m')
     = (dlist_delete p <$> active_chunks (gstore_head m))
  /\ gs_chunks (gstore_head m') !! p = Some (set_dsm_handle UINT_MAX c)
  /\ has_warm_chunks (gstore_head m') = has_warm_chunks (gstore_head m).
Proof.
  intros Hc. unfold gstore_fdw_release_chunk. rewrite Hc. simpl.
  repeat split. apply list_lookup_insert_eq.
  apply lookup_lt_Some in Hc. exact Hc.
Qed.

Lemma release_chunk_other (m : Machine) (p q : nat) :
  p ≠ q ->
  gs_chunks (gstore_head (gstore_fdw_release_chunk m p)) !! q
  = gs_chunks (gstore_head m) !! q.
Proof.
  intros Hne. unfold gstore_fdw_release_chunk.
  destruct (gs_chunks (gstore_head m) !! p); [|reflexivity]. simpl.
  apply list_lookup_insert_ne. exact Hne.
Qed.

Lemma release_chunk_bucket (m : Machine) (p i : nat) :
  active_chunks (gstore_head (gstore_fdw_release_chunk m p)) !!! i
  = dlist_delete p (active_chunks (gstore_head m) !!! i)
  \/ active_chunks (gstore_head (gstore_fdw_release_chunk m p)) !!! i
     = active_chunks (gstore_head m) !!! i.
Proof.
  unfold gstore_fdw_release_chunk.
  destruct (gs_chunks (gstore_head m) !! p); [|right; reflexivity].
  simpl. left. apply total_lookup_fmap_delete.
Qed.

Lemma write_chunk_lookup (m : Machine) (p : nat) (c c0 : GpuStoreChunk) :
  gs_chunks (gstore_head m) !! p = Some c0 ->
  gs_chunks (gstore_head (write_chunk m p c)) !! p = Some c.
Proof.
  intros Hc. simpl. apply list_lookup_insert_eq.
  apply lookup_lt_Some in Hc. exact Hc.
Qed.

(** The call on slot [p] leaves the other descriptors as they are. *)
Lemma per_chunk_other (m : Machine) (p q : nat) :
  p ≠ q ->
  gs_chunks (gstore_head
               (snd (gstoreOnXactCallbackPerChunk env is_commit m p
                       oldestXmin))) !! q
  = gs_chunks (gstore_head m) !! q.
Proof.
  intros Hne. unfold gstoreOnXactCallbackPerChunk.
  destruct (gs_chunks (gstore_head m) !! p) as [c0|]; [|reflexivity].
  repeat case_if; simpl snd;
    rewrite ?release_chunk_other by exact Hne;
    simpl; apply list_lookup_insert_ne; exact Hne.
Qed.

(** A bucket that does not hold [p] is left as it is. *)
Lemma per_chunk_bucket (m : Machine) (p i : nat) :
  p ∉ active_chunks (gstore_head m) !!! i ->
  active_chunks (gstore_head
                   (snd (gstoreOnXactCallbackPerChunk env is_commit m p
                           oldestXmin))) !!! i
  = active_chunks (gstore_head m) !!! i.
Proof.
  intros Hnot. unfold gstoreOnXactCallbackPerChunk.
  destruct (gs_chunks (gstore_head m) !! p) as [c0|]; [|reflexivity].
  repeat case_if; simpl snd; try reflexivity;
    match goal with
    | |- context [gstore_fdw_release_chunk ?m0 p] =>
        destruct (release_chunk_bucket m0 p i) as [-> | ->];
        simpl; [apply dlist_delete_notin; exact Hnot | reflexivity]
    end.
Qed.

(** The returned flag depends on the descriptor of the slot only. *)
Lemma per_chunk_flag_ext (m m' : Machine) (p : nat) :
  gs_chunks (gstore_head m) !! p = gs_chunks (gstore_head m') !! p ->
  fst (gstoreOnXactCallbackPerChunk env is_commit m p oldestXmin)
  = fst (gstoreOnXactCallbackPerChunk env is_commit m' p oldestXmin).
Proof.
  intros Heq. unfold gstoreOnXactCallbackPerChunk. rewrite Heq.
  destruct (gs_chunks (gstore_head m') !! p) as [c0|]; [|reflexivity].
  repeat case_if; reflexivity.
Qed.

End Reclaimer.

Section ReclaimerLoop.

Variable env : XactEnv.
Variable is_commit : bool.
Variable oldestXmin : TransactionId.

(** The loop over one bucket: the flag it leaves, the descriptors and the
    buckets it does not touch. *)
Lemma callback_nodes_spec (m0 : Machine) (nodes : list nat) :
  NoDup nodes ->
  forall (m : Machine) (meet : bool),
    (forall p, p ∈ nodes ->
       gs_chunks (gstore_head m) !! p = gs_chunks (gstore_head m0) !! p) ->
    let r := callback_nodes env is_commit oldestXmin nodes m meet in
    fst r = meet || existsb (needs_attention env is_commit oldestXmin m0) nodes
    /\ (forall q, q ∉ nodes ->
          gs_chunks (gstore_head (snd r)) !! q
          = gs_chunks (gstore_head m) !! q)
    /\ (forall i,
          (forall p, p ∈ nodes -> p ∉ active_chunks (gstore_head m) !!! i) ->
          active_chunks (gstore_head (snd r)) !!! i
          = active_chunks (gstore_head m) !!! i).
Proof.
  induction 1 as [|p rest Hp Hnd IH]; intros m meet Hsame; simpl.
  - split; [destruct meet; reflexivity | split; reflexivity].
  - set (r1 := gstoreOnXactCallbackPerChunk env is_commit m p oldestXmin).
    destruct (IH (snd r1) (if fst r1 then true else meet)) as (Hf & Hc & Hb).
    { intros q Hq. unfold r1. rewrite per_chunk_other.
      - apply Hsame. right. exact Hq.
      - intros ->. exact (Hp Hq). }
    split; [|split].
    + rewrite Hf. unfold needs_attention at 2.
      rewrite <- (per_chunk_flag_ext env is_commit oldestXmin m m0 p)
        by (apply Hsame; left).
      fold r1. destruct (fst r1), meet; reflexivity.
    + intros q Hq. rewrite Hc.
      * unfold r1. apply per_chunk_other. intros ->. apply Hq. left.
      * intros Hin. apply Hq. right. exact Hin.
    + intros i Hi. rewrite Hb.
      * unfold r1. apply per_chunk_bucket. apply Hi. left.
      * intros q Hq. unfold r1. rewrite per_chunk_bucket.
        -- apply Hi. right. exact Hq.
        -- apply Hi. left.
Qed.

(** The loop over the hash slots. *)
Lemma callback_slots_spec (m0 : Machine) (slots : list nat) :
  forall (m : Machine) (meet : bool),
    NoDup (nodes_of (gstore_head m) slots) ->
    (forall p, p ∈ nodes_of (gstore_head m) slots ->
       gs_chunks (gstore_head m) !! p = gs_chunks (gstore_head m0) !! p) ->
    fst (callback_slots env is_commit oldestXmin slots m meet)
    = meet || existsb (needs_attention env is_commit oldestXmin m0) (nodes_of (gstore_head m) slots).
Proof.
  induction slots as [|i rest IH]; intros m meet Hnd Hsame; simpl.
  - destruct meet; reflexivity.
  - unfold nodes_of in Hnd, Hsame. simpl in Hnd, Hsame.
    apply NoDup_app in Hnd. destruct Hnd as (Hnd1 & Hdisj & Hnd2).
    destruct (callback_nodes_spec m0 _ Hnd1 m meet) as (Hf & Hc & Hb).
    { intros p Hp. apply Hsame. apply elem_of_app. left. exact Hp. }
    set (r1 := callback_nodes env is_commit oldestXmin
                 (active_chunks (gstore_head m) !!! i) m meet) in *.
    assert (Hrest : nodes_of (gstore_head (snd r1)) rest
                    = nodes_of (gstore_head m) rest).
    { unfold nodes_of. f_equal. apply list_fmap_ext.
      intros k j Hj. simpl. apply Hb. intros p Hp Hin.
      apply (Hdisj p Hp). apply elem_of_concat.
      exists (active_chunks (gstore_head m) !!! j). split; [exact Hin|].
      apply list_elem_of_fmap. exists j. split; [reflexivity|].
      apply list_elem_of_lookup. exists k. exact Hj. }
    rewrite IH.
    + rewrite Hrest, Hf. unfold nodes_of at 2. simpl.
      rewrite existsb_app. fold (nodes_of (gstore_head m) rest).
      rewrite orb_assoc. reflexivity.
    + rewrite Hrest. exact Hnd2.
    + rewrite Hrest. intros p Hp. rewrite Hc.
      * apply Hsame. apply elem_of_app. right. exact Hp.
      * intros Hin. exact (Hdisj p Hin Hp).
Qed.

End ReclaimerLoop.

Section ReclaimerClaims.

Variable env : XactEnv.

Lemma per_chunk_has_warm (is_commit : bool) (oldestXmin : TransactionId)
    (m : Machine) (p : nat) :
  has_warm_chunks
    (gstore_head
       (snd (gstoreOnXactCallbackPerChunk env is_commit m p oldestXmin)))
  = has_warm_chunks (gstore_head m).
Proof.
  unfold gstoreOnXactCallbackPerChunk.
  destruct (gs_chunks (gstore_head m) !! p) as [c0|] eqn:Hc;
    [|reflexivity].
  repeat case_if; simpl snd; try reflexivity;
    match goal with
    | |- context [gstore_fdw_release_chunk (write_chunk m p ?c) p] =>
        destruct (release_chunk_lists (write_chunk m p c) p c
                    (write_chunk_lookup m p c c0 Hc)) as (_ & _ & _ & ->);
        reflexivity
    end.
Qed.

Lemma callback_nodes_has_warm (is_commit : bool)
    (oldestXmin : TransactionId) (nodes : list nat) :
  forall (m : Machine) (meet : bool),
    has_warm_chunks
      (gstore_head
         (snd (callback_nodes env is_commit oldestXmin nodes m meet)))
    = has_warm_chunks (gstore_head m).
Proof.
  induction nodes as [|p rest IH]; intros m meet; simpl; [reflexivity|].
  rewrite IH. apply per_chunk_has_warm.
Qed.

Lemma callback_slots_has_warm (is_commit : bool)
    (oldestXmin : TransactionId) (slots : list nat) :
  forall (m : Machine) (meet : bool),
    has_warm_chunks
      (gstore_head
         (snd (callback_slots env is_commit oldestXmin slots m meet)))
    = has_warm_chunks (gstore_head m).
Proof.
  induction slots as [|i rest IH]; intros m meet; simpl; [reflexivity|].
  rewrite IH. apply callback_nodes_has_warm.
Qed.

(** The flag after a commit or an abort: it is cleared exactly when no
    call on a linked chunk reported it as still needing attention. *)
Lemma xact_callback_flag (is_commit : bool) (m : Machine) :
  has_warm_chunks (gstore_head m) ≠ 0 ->
  NoDup (active_nodes (gstore_head m)) ->
  has_warm_chunks
    (gstore_head
       (gstoreXactCallback env
          (if is_commit then XACT_EVENT_COMMIT else XACT_EVENT_ABORT) m))
  = 0
  <-> (forall p, p ∈ active_nodes (gstore_head m) ->
         fst (gstoreOnXactCallbackPerChunk env is_commit m p
                (GetOldestXmin env)) = false).
Proof.
  intros Hwarm Hnd.
  assert (Hrun :
    gstoreXactCallback env
      (if is_commit then XACT_EVENT_COMMIT else XACT_EVENT_ABORT) m
    = let r := callback_slots env is_commit (GetOldestXmin env)
                 (seq 0 (Z.to_nat GSTORE_CHUNK_HASH_NSLOTS)) m false in
      if negb (fst r) then set_has_warm_chunks 0 (snd r) else snd r).
  { unfold gstoreXactCallback.
    apply Z.eqb_neq in Hwarm. rewrite Hwarm.
    destruct is_commit; reflexivity. }
  rewrite Hrun. clear Hrun. cbv zeta.
  rewrite (callback_slots_spec env is_commit (GetOldestXmin env) m)
    by (exact Hnd || reflexivity).
  rewrite orb_false_l. fold (active_nodes (gstore_head m)).
  unfold needs_attention.
  destruct (existsb _ (active_nodes (gstore_head m))) eqn:Hex;
    cbn [negb].
  - rewrite callback_slots_has_warm. split; [contradiction|].
    intros Hall. apply existsb_exists in Hex. destruct Hex as (p & Hp & Hw).
    apply list_elem_of_In in Hp. rewrite (Hall p Hp) in Hw. discriminate.
  - split; [|reflexivity]. intros _ p Hp.
    destruct (fst (gstoreOnXactCallbackPerChunk env is_commit m p
                     (GetOldestXmin env))) eqn:Hw; [|reflexivity].
    assert (existsb
              (λ q, fst (gstoreOnXactCallbackPerChunk env is_commit m q
                           (GetOldestXmin env)))
              (active_nodes (gstore_head m)) = true) as Hex'.
    { apply existsb_exists. exists p. split; [|exact Hw].
      apply list_elem_of_In. exact Hp. }
    rewrite Hex' in Hex. discriminate.
Qed.

(** An event that is neither the commit nor the abort changes nothing,
    and so does a commit or abort met with the flag down. *)
Lemma xact_callback_idle (event : XactEvent) (m : Machine) :
  event = XACT_EVENT_OTHER \/ has_warm_chunks (gstore_head m) = 0 ->
  gstoreXactCallback env event m = m.
Proof.
  intros [-> | H0]; [reflexivity|].
  unfold gstoreXactCallback. rewrite H0. destruct event; reflexivity.
Qed.

End ReclaimerClaims.

(** ** The end of the inserting transaction *)

Section LookupMembership.

Variable env : XactEnv.
Variable gstore_oid : Oid.
Variable h : Z.
Variable snapshot : Snapshot.

(** A slot the loop returns is a node of the bucket, or was found
    before. *)
Lemma lookup_scan_found (nodes : list nat) :
  forall (cs : list GpuStoreChunk) (gs_chunk : option nat) (p : nat),
    snd (lookup_scan env gstore_oid h snapshot nodes cs gs_chunk)
    = Return (Some p) ->
    p ∈ nodes \/ gs_chunk = Some p.
Proof.
  induction nodes as [|q rest IH]; intros cs gs_chunk p; simpl.
  - intros [= ->]. right. reflexivity.
  - assert (Hrest : forall cs' acc,
              snd (lookup_scan env gstore_oid h snapshot rest cs' acc)
              = Return (Some p) ->
              acc = gs_chunk \/ acc = Some q ->
              p ∈ q :: rest \/ gs_chunk = Some p).
    { intros cs' acc Hr Hacc. destruct (IH cs' acc p Hr) as [Hin | ->].
      - left. right. exact Hin.
      - destruct Hacc as [<- | [= ->]]; [right; reflexivity | left; left]. }
    destruct (cs !! q) as [gs_temp|]; [|intros Hr; eapply Hrest; eauto].
    destruct (chunk_matches env gstore_oid h gs_temp);
      [|intros Hr; eapply Hrest; eauto].
    destruct (fst (gstore_fdw_satisfies_visibility env gs_temp snapshot)).
    + destruct gs_chunk as [a|]; simpl; [discriminate|].
      intros Hr; eapply Hrest; eauto.
    + intros Hr; eapply Hrest; eauto.
Qed.

End LookupMembership.

(** A slot that is on no bucket is never the answer of a lookup. *)
Lemma lookup_unlinked (env : XactEnv) (head : GpuStoreHead)
    (gstore_oid : Oid) (snapshot : Snapshot) (p : nat) :
  (forall i, p ∉ active_chunks head !!! i) ->
  snd (gstore_fdw_lookup_chunk env head gstore_oid snapshot)
  ≠ Return (Some p).
Proof.
  intros Hnot Hr. unfold gstore_fdw_lookup_chunk,
    gstore_fdw_lookup_chunk_nolock in Hr. simpl in Hr.
  apply lookup_scan_found in Hr. destruct Hr as [Hin | [=]].
  exact (Hnot _ Hin).
Qed.

(** C4.  For a chunk whose [xmin] is the transaction that ends: on commit
    the call leaves the chunk with [xmin_commited] set; on abort it releases
    the chunk at once and does nothing else with it, the chunk is the head
    of the free list, is on no bucket, and no lookup, for any backend,
    table and snapshot, returns it. *)
Theorem inserter_ends (env : XactEnv) (oldestXmin : TransactionId)
    (m : Machine) (p : nat) (c : GpuStoreChunk) :
  gs_chunks (gstore_head m) !! p = Some c ->
  TransactionIdIsCurrentTransactionId env (xmin c) = true ->
  (exists c',
     gs_chunks (gstore_head
                  (snd (gstoreOnXactCallbackPerChunk env true m p
                          oldestXmin))) !! p = Some c'
     /\ xmin_commited c' = true)
  /\ let r := gstoreOnXactCallbackPerChunk env false m p oldestXmin in
     let c1 := if TransactionIdIsCurrentTransactionId env (xmax c)
               then set_xmax InvalidTransactionId c else c in
     r = (false, gstore_fdw_release_chunk (write_chunk m p c1) p)
     /\ free_chunks (gstore_head (snd r))
        = p :: dlist_delete p (free_chunks (gstore_head m))
     /\ (forall i, p ∉ active_chunks (gstore_head (snd r)) !!! i)
     /\ (forall env' gstore_oid snapshot,
           snd (gstore_fdw_lookup_chunk env' (gstore_head (snd r))
                  gstore_oid snapshot) ≠ Return (Some p)).
Proof.
  intros Hc Hown. split.
  - unfold gstoreOnXactCallbackPerChunk. rewrite Hc.
    assert (Hx : xmin (if TransactionIdIsCurrentTransactionId env (xmax c)
                       then set_xmax_commited true c else c) = xmin c)
      by (destruct (TransactionIdIsCurrentTransactionId env (xmax c));
          reflexivity).
    rewrite Hx, Hown. cbn [andb negb].
    set (c2 := set_xmin_commited true _).
    assert (Hc2 : xmin_commited c2 = true) by reflexivity.
    repeat case_if; simpl snd;
      try (eexists; split; [eapply write_chunk_lookup; exact Hc|];
           first [exact Hc2 | reflexivity]);
      try (destruct (release_chunk_lists (write_chunk m p c2) p c2
                       (write_chunk_lookup m p c2 c Hc))
             as (_ & _ & Hl & _);
           eexists; split; [exact Hl | reflexivity]).
  - cbv zeta.
    assert (Hr : gstoreOnXactCallbackPerChunk env false m p oldestXmin
                 = (false,
                    gstore_fdw_release_chunk
                      (write_chunk m p
                         (if TransactionIdIsCurrentTransactionId env (xmax c)
                          then set_xmax InvalidTransactionId c else c)) p)).
    { unfold gstoreOnXactCallbackPerChunk. rewrite Hc.
      destruct (TransactionIdIsCurrentTransactionId env (xmax c));
        cbn [xmin set_xmax]; rewrite Hown; reflexivity. }
    rewrite Hr. simpl snd.
    set (c1 := if TransactionIdIsCurrentTransactionId env (xmax c)
               then set_xmax InvalidTransactionId c else c).
    destruct (release_chunk_lists (write_chunk m p c1) p c1
                (write_chunk_lookup m p c1 c Hc)) as (Hf & Ha & _ & _).
    assert (Hgone : forall i,
              p ∉ active_chunks
                    (gstore_head
                       (gstore_fdw_release_chunk (write_chunk m p c1) p))
                  !!! i).
    { intros i. rewrite Ha, total_lookup_fmap_delete.
      apply dlist_delete_gone. }
    split; [reflexivity|]. split; [exact Hf|]. split; [exact Hgone|].
    intros env' gstore_oid snapshot. apply lookup_unlinked. exact Hgone.
Qed.

(** ** Chunks that wait for their insert to become old *)

(** One call on a chunk with no [xmax] and a normal [xmin], the abort of the
    chunk's own inserting transaction apart: with [committed] the insert
    flag after the commit of the inserting transaction is noted, the call
    keeps the chunk when the insert is not committed or [xmin] does not
    precede [oldestXmin], and freezes it otherwise; no list changes. *)
Lemma normal_insert_call (env : XactEnv) (is_commit : bool)
    (oldestXmin : TransactionId) (m : Machine) (p : nat)
    (c : GpuStoreChunk) :
  gs_chunks (gstore_head m) !! p = Some c ->
  TransactionIdIsValid (xmax c) = false ->
  TransactionIdIsNormal (xmin c) = true ->
  (TransactionIdIsCurrentTransactionId env (xmin c) = true ->
   is_commit = true) ->
  let committed :=
    xmin_commited c || TransactionIdIsCurrentTransactionId env (xmin c) in
  let keep :=
    negb committed || negb (TransactionIdPrecedes env (xmin c) oldestXmin) in
  let r := gstoreOnXactCallbackPerChunk env is_commit m p oldestXmin in
  fst r = keep
  /\ free_chunks (gstore_head (snd r)) = free_chunks (gstore_head m)
  /\ active_chunks (gstore_head (snd r)) = active_chunks (gstore_head m)
  /\ exists c',
       gs_chunks (gstore_head (snd r)) !! p = Some c'
       /\ xmin c' = (if keep then xmin c else FrozenTransactionId)
       /\ xmin_commited c' = committed.
Proof.
  intros Hc Hxmax Hnormal Hnot. cbv zeta.
  unfold gstoreOnXactCallbackPerChunk. rewrite Hc.
  assert (Hw : forall c', gs_chunks (gstore_head (write_chunk m p c')) !! p
                          = Some c')
    by (intros c'; eapply write_chunk_lookup; exact Hc).
  destruct (TransactionIdIsCurrentTransactionId env (xmin c)) eqn:Hown;
    [rewrite (Hnot eq_refl) | idtac];
    destruct (TransactionIdIsCurrentTransactionId env (xmax c));
    try destruct is_commit; chunk_simpl; rewrite ?Hown; chunk_simpl;
    rewrite ?Hxmax, ?Hnormal; chunk_simpl;
    destruct (xmin_commited c) eqn:Hk; chunk_simpl;
    destruct (TransactionIdPrecedes env (xmin c) oldestXmin); chunk_simpl;
    (split; [reflexivity|]); (split; [reflexivity|]);
    (split; [reflexivity|]);
    eexists; (split; [apply Hw|]); split; chunk_simpl; rewrite ?Hk;
    reflexivity.
Qed.

(** C5, as the code has it.  A chunk with no delete transaction id and a
    normal insert transaction id, which is not being released by the abort
    of its own inserting transaction, is kept by one pass when its insert
    is uncommitted, or committed but not older than the oldest active
    xmin, and is frozen otherwise; and a commit or abort that finds the
    flag up clears it exactly when no call on a linked chunk reported it
    as still needing attention. *)
Theorem normal_insert_pass (env : XactEnv) :
  (forall (is_commit : bool) (oldestXmin : TransactionId) (m : Machine)
          (p : nat) (c : GpuStoreChunk),
     gs_chunks (gstore_head m) !! p = Some c ->
     TransactionIdIsValid (xmax c) = false ->
     TransactionIdIsNormal (xmin c) = true ->
     (TransactionIdIsCurrentTransactionId env (xmin c) = true ->
      is_commit = true) ->
     let committed :=
       xmin_commited c
       || TransactionIdIsCurrentTransactionId env (xmin c) in
     let keep :=
       negb committed
       || negb (TransactionIdPrecedes env (xmin c) oldestXmin) in
     let r := gstoreOnXactCallbackPerChunk env is_commit m p oldestXmin in
     fst r = keep
     /\ free_chunks (gstore_head (snd r)) = free_chunks (gstore_head m)
     /\ active_chunks (gstore_head (snd r)) = active_chunks (gstore_head m)
     /\ exists c',
          gs_chunks (gstore_head (snd r)) !! p = Some c'
          /\ xmin c' = (if keep then xmin c else FrozenTransactionId)
          /\ xmin_commited c' = committed)
  /\ (forall (is_commit : bool) (m : Machine),
        has_warm_chunks (gstore_head m) ≠ 0 ->
        NoDup (active_nodes (gstore_head m)) ->
        has_warm_chunks
          (gstore_head
             (gstoreXactCallback env
                (if is_commit then XACT_EVENT_COMMIT else XACT_EVENT_ABORT)
                m)) = 0
        <-> (forall p, p ∈ active_nodes (gstore_head m) ->
               fst (gstoreOnXactCallbackPerChunk env is_commit m p
                      (GetOldestXmin env)) = false)).
Proof.
  split.
  - intros is_commit oldestXmin m p c. apply normal_insert_call.
  - intros is_commit m. apply xact_callback_flag.
Qed.

(** Not every chunk with no [xmax], a normal [xmin] and the insert
    uncommitted is kept by a pass: the chunk a transaction inserted is
    released by the pass of the abort of that transaction. *)
Lemma uncommitted_own_insert_not_kept :
  ~ (forall (env : XactEnv) (is_commit : bool) (oldestXmin : TransactionId)
            (m : Machine) (p : nat) (c : GpuStoreChunk),
       gs_chunks (gstore_head m) !! p = Some c ->
       TransactionIdIsValid (xmax c) = false ->
       TransactionIdIsNormal (xmin c) = true ->
       xmin_commited c = false ->
       fst (gstoreOnXactCallbackPerChunk env is_commit m p oldestXmin)
       = true).
Proof.
  intros H.
  specialize (H Sample.backend false 100 Sample.machine 0%nat
                Sample.own_insert eq_refl eq_refl eq_refl eq_refl).
  vm_compute in H. discriminate H.
Qed.

(** ** Beginning an INSERT *)

(** C6.  [gstoreBeginForeignModify] first acquires the device context of a
    pinned table: when that call raises, the begin ends the same way and
    the store is untouched.  Past it, on a table that has its visible
    chunk the begin fails with [ERRCODE_FEATURE_NOT_SUPPORTED]; with more
    than one visible chunk it fails with the internal error of the lookup;
    with none it returns the load state.  It never returns normally when
    a chunk of the table is visible to the snapshot; and whatever the end,
    no descriptor is taken from the free list or linked on a bucket. *)
Theorem begin_modify_not_empty (env : XactEnv)
    (AllocGpuContext : Z -> Outcome Z) (m : Machine) (relid : Oid)
    (es_snapshot : Snapshot) (pinning : Z) :
  NoDup (active_chunks (gstore_head m)
           !!! hash_index (legacy_crc32_oid2 env (MyDatabaseId env) relid)) ->
  let r := gstoreBeginForeignModify env AllocGpuContext m relid es_snapshot
             pinning in
  let visible := visible_chunks env (gstore_head m) relid es_snapshot in
  ((pinning < 0 \/ exists g, AllocGpuContext pinning = Return g) ->
   (forall p, visible = [p] -> snd r = Error ERRCODE_FEATURE_NOT_SUPPORTED)
   /\ ((1 < length visible)%nat -> snd r = Error ERRCODE_INTERNAL_ERROR)
   /\ (visible = [] -> exists st, snd r = Return st))
  /\ (0 <= pinning ->
      match AllocGpuContext pinning with
      | Return _ => True
      | Error e => r = (m, Error e)
      | Fatal => r = (m, Fatal)
      | Undefined u => r = (m, Undefined u)
      end)
  /\ (visible ≠ [] -> forall st, snd r ≠ Return st)
  /\ free_chunks (gstore_head (fst r)) = free_chunks (gstore_head m)
  /\ active_chunks (gstore_head (fst r)) = active_chunks (gstore_head m)
  /\ length (gs_chunks (gstore_head (fst r)))
     = length (gs_chunks (gstore_head m)).
Proof.
  intros Hnd r visible.
  destruct (lookup_nolock_answer env (gstore_head m) relid es_snapshot Hnd)
    as (Hnone & Hone & Hmany & Hfree & Hact & _).
  fold visible in Hnone, Hone, Hmany.
  assert (Hlen : length (gs_chunks
                   (fst (gstore_fdw_lookup_chunk env (gstore_head m) relid
                           es_snapshot)))
                 = length (gs_chunks (gstore_head m)))
    by apply lookup_scan_length.
  (* the call past the acquisition of the context *)
  assert (Hpast : forall gcontext0,
            let look := gstore_fdw_lookup_chunk env (gstore_head m) relid
                          es_snapshot in
            let m' := with_head m (fst look) in
            let past :=
              match snd look with
              | Error e => (m', Error e)
              | Fatal => (m', Fatal)
              | Undefined u => (m', Undefined u)
              | Return (Some _) => (m', Error ERRCODE_FEATURE_NOT_SUPPORTED)
              | Return None =>
                  (m', Return {| gcontext := gcontext0;
                                 nrooms := 10000; nitems := 0 |})
              end in
            ((forall p, visible = [p] ->
                snd past = Error ERRCODE_FEATURE_NOT_SUPPORTED)
             /\ ((1 < length visible)%nat ->
                 snd past = Error ERRCODE_INTERNAL_ERROR)
             /\ (visible = [] -> exists st, snd past = Return st))
            /\ (visible ≠ [] -> forall st, snd past ≠ Return st)
            /\ free_chunks (gstore_head (fst past))
               = free_chunks (gstore_head m)
            /\ active_chunks (gstore_head (fst past))
               = active_chunks (gstore_head m)
            /\ length (gs_chunks (gstore_head (fst past)))
               = length (gs_chunks (gstore_head m))).
  { intros gcontext0. cbv zeta. unfold gstore_fdw_lookup_chunk in *.
    destruct (snd (gstore_fdw_lookup_chunk_nolock env (gstore_head m) relid
                     es_snapshot)) as [[q|]| e | | u] eqn:Hlook;
      cbn [fst snd gstore_head with_head];
      (split; [split; [|split] | split; [|split; [|split]]]);
      try exact Hfree; try exact Hact; try exact Hlen;
      try (intros; discriminate).
    all: try (intros p Hp; specialize (Hone p Hp); congruence).
    all: try (intros Hm; specialize (Hmany ltac:(lia)); congruence).
    all: try (intros Hv; specialize (Hnone Hv); congruence).
    - intros _. eexists. reflexivity.
    - intros Hne st _. destruct visible as [|a [|b l]].
      + apply Hne. reflexivity.
      + specialize (Hone a eq_refl). congruence.
      + assert (Hm := Hmany ltac:(simpl; lia)). congruence. }
  cbv zeta in Hpast.
  unfold r, gstoreBeginForeignModify.
  destruct (0 <=? pinning) eqn:Hpin.
  - destruct (AllocGpuContext pinning) as [g | e | | u] eqn:Ha.
    + destruct (Hpast (Some g)) as (H1 & H2 & H3 & H4 & H5).
      split; [intros _; exact H1|]. split; [intros _; exact I|].
      repeat (split; [assumption|]). assumption.
    + split; [intros [Hneg | (g & Hg)]; [lia | discriminate Hg]|].
      split; [intros _; reflexivity|].
      split; [intros _ st; discriminate|].
      repeat split; reflexivity.
    + split; [intros [Hneg | (g & Hg)]; [lia | discriminate Hg]|].
      split; [intros _; reflexivity|].
      split; [intros _ st; discriminate|].
      repeat split; reflexivity.
    + split; [intros [Hneg | (g & Hg)]; [lia | discriminate Hg]|].
      split; [intros _; reflexivity|].
      split; [intros _ st; discriminate|].
      repeat split; reflexivity.
  - destruct (Hpast None) as (H1 & H2 & H3 & H4 & H5).
    split; [intros _; exact H1|]. split; [intros Hp; lia|].
    repeat (split; [assumption|]). assumption.
Qed.

(** Not every begin on a table with a chunk visible to the snapshot raises
    [ERRCODE_FEATURE_NOT_SUPPORTED].  Transaction 100 sees, in its next
    command, the chunk it wrote for table 7; the table is pinned to device
    0 and [AllocGpuContext] raises: the begin ends with that error.
    Transaction 102 sees two chunks of table 7, written by the
    transactions 100 and 101: its begin ends with the internal error of
    the lookup. *)
Lemma begin_modify_other_errors :
  (visible_chunks Sample.backend (gstore_head Sample.written) 7
     Sample.later_scan = [0%nat]
   /\ snd (gstoreBeginForeignModify Sample.backend
             (λ _, Error ERRCODE_INTERNAL_ERROR) Sample.written 7
             Sample.later_scan 0)
      = Error ERRCODE_INTERNAL_ERROR)
  /\ (visible_chunks Sample.reader (gstore_head Sample.written_twice) 7
        Sample.reader_scan = [0%nat; 1%nat]
      /\ snd (gstoreBeginForeignModify Sample.reader (λ d, Return d)
                Sample.written_twice 7 Sample.reader_scan (-1))
         = Error ERRCODE_INTERNAL_ERROR).
Proof. repeat split; vm_compute; reflexivity. Qed.

(** ** Writing a chunk out when the pool is exhausted *)

Lemma remove_alloc_head (dindex handle : Z) (l : list (Z * Z)) :
  remove_alloc dindex handle ((dindex, handle) :: l) = l.
Proof. simpl. rewrite !Z.eqb_refl. reflexivity. Qed.

(** The CUDA calls between allocation and hand-over never free or allocate
    preserved memory; when all succeed they leave the device as it was. *)
Lemma load_gpu_preserved_try_device (cuda : CudaAnswers) (d : DeviceState) :
  preserved (fst (load_gpu_preserved_try cuda d)) = preserved d
  /\ (snd (load_gpu_preserved_try cuda d) = true ->
      fst (load_gpu_preserved_try cuda d) = d).
Proof.
  unfold load_gpu_preserved_try. destruct d as [pr io cd].
  destruct (gpuIpcOpenMemHandle cuda); simpl; [|split; [reflexivity|discriminate]].
  repeat case_if; simpl; split; try reflexivity; discriminate.
Qed.





(** ** DELETE without WHERE clause *)

(** C10.  [gstoreIterateDirectModify] returns exactly when the lookup
    finds a chunk and that chunk, as the lookup leaves it, has no [xmax].
    When the lookup finds none, in particular when no chunk of the table is
    visible to the snapshot, the call dereferences [NULL]; when the chunk
    found carries an [xmax], the assertion fails. *)
Theorem direct_modify_precondition (env : XactEnv) (m : Machine)
    (relid : Oid) (snapshot : Snapshot) (es_processed : Z) :
  let look := gstore_fdw_lookup_chunk env (gstore_head m) relid snapshot in
  let r := gstoreIterateDirectModify env m relid snapshot es_processed in
  ((exists n, snd r = Return n)
   <-> (exists p c,
          snd look = Return (Some p)
          /\ gs_chunks (fst look) !! p = Some c
          /\ TransactionIdIsValid (xmax c) = false))
  /\ (snd look = Return None ->
      r = (with_head m (fst look), Undefined NullDereference))
  /\ (NoDup (active_chunks (gstore_head m)
               !!! hash_index (legacy_crc32_oid2 env (MyDatabaseId env)
                                 relid)) ->
      visible_chunks env (gstore_head m) relid snapshot = [] ->
      snd r = Undefined NullDereference)
  /\ (forall p c,
        snd look = Return (Some p) ->
        gs_chunks (fst look) !! p = Some c ->
        TransactionIdIsValid (xmax c) = true ->
        r = (with_head m (fst look), Undefined AssertionFailure)).
Proof.
  cbv zeta. unfold gstoreIterateDirectModify.
  set (look := gstore_fdw_lookup_chunk env (gstore_head m) relid snapshot).
  assert (Hnone : NoDup (active_chunks (gstore_head m)
                    !!! hash_index (legacy_crc32_oid2 env (MyDatabaseId env)
                                      relid)) ->
                  visible_chunks env (gstore_head m) relid snapshot = [] ->
                  snd look = Return None).
  { intros Hnd Hv.
    destruct (lookup_nolock_answer env (gstore_head m) relid snapshot Hnd)
      as (H0 & _). apply H0. exact Hv. }
  clearbody look.
  destruct (snd look) as [[p|]| e | | u] eqn:Hlook.
  - cbn [gs_chunks gstore_head with_head].
    destruct (gs_chunks (fst look) !! p) as [c|] eqn:Hc.
    + destruct (TransactionIdIsValid (xmax c)) eqn:Hv; simpl.
      * split; [split|].
        -- intros (n & Hn). discriminate Hn.
        -- intros (q & c' & [= <-] & Hc' & Hv'). congruence.
        -- split; [discriminate|]. split.
           ++ intros Hnd Hvis. specialize (Hnone Hnd Hvis). discriminate Hnone.
           ++ intros q c' [= <-] Hc' _. reflexivity.
      * split; [split|].
        -- intros _. exists p, c. auto.
        -- intros _. eexists. reflexivity.
        -- split; [discriminate|]. split.
           ++ intros Hnd Hvis. specialize (Hnone Hnd Hvis). discriminate Hnone.
           ++ intros q c' [= <-] Hc'. congruence.
    + simpl. split; [split|].
      * intros (n & Hn). discriminate Hn.
      * intros (q & c' & [= <-] & Hc' & _). congruence.
      * split; [discriminate|]. split.
        -- intros Hnd Hvis. specialize (Hnone Hnd Hvis). discriminate Hnone.
        -- intros q c' [= <-] Hc'. congruence.
  - simpl. split; [split|].
    + intros (n & Hn). discriminate Hn.
    + intros (q & c' & Hq & _). discriminate Hq.
    + split; [reflexivity|]. split; [reflexivity|].
      intros q c' Hq. discriminate Hq.
  - simpl. split; [split|].
    + intros (n & Hn). discriminate Hn.
    + intros (q & c' & Hq & _). discriminate Hq.
    + split; [discriminate|]. split.
      * intros Hnd Hvis. specialize (Hnone Hnd Hvis). discriminate Hnone.
      * intros q c' Hq. discriminate Hq.
  - simpl. split; [split|].
    + intros (n & Hn). discriminate Hn.
    + intros (q & c' & Hq & _). discriminate Hq.
    + split; [discriminate|]. split.
      * intros Hnd Hvis. specialize (Hnone Hnd Hvis). discriminate Hnone.
      * intros q c' Hq. discriminate Hq.
  - simpl. split; [split|].
    + intros (n & Hn). discriminate Hn.
    + intros (q & c' & Hq & _). discriminate Hq.
    + split; [discriminate|]. split.
      * intros Hnd Hvis. specialize (Hnone Hnd Hvis). discriminate Hnone.
      * intros q c' Hq. discriminate Hq.
Qed.

(** ** The resource tracker *)

Section Tracker.

Import GpuContext.

Variable env : TrackerEnv.

Lemma untrack_scan_none (crc0 devptr : Z) (l : list ResourceTracker) :
  (forall t, t ∈ l -> gpumem_tracker_matches crc0 devptr t = false) ->
  untrack_scan crc0 devptr l = None.
Proof.
  induction l as [|t l IH]; intros Hno; simpl; [reflexivity|].
  rewrite (Hno t) by left. rewrite IH; [reflexivity|].
  intros t' Ht'. apply Hno. right. exact Ht'.
Qed.

(** With no earlier match on the chain, the scan finds the tracker pushed
    at its tail and gives the chain back as it was. *)
Lemma untrack_scan_tail (crc0 devptr : Z) (l : list ResourceTracker)
    (t : ResourceTracker) :
  untrack_scan crc0 devptr l = None ->
  gpumem_tracker_matches crc0 devptr t = true ->
  untrack_scan crc0 devptr (l ++ [t]) = Some (u_devmem_extra t, l).
Proof.
  intros Hnone Ht. induction l as [|t0 l IH]; simpl in *.
  - rewrite Ht. reflexivity.
  - destruct (gpumem_tracker_matches crc0 devptr t0); [discriminate|].
    destruct (untrack_scan crc0 devptr l) as [[e r]|]; [discriminate|].
    rewrite IH by reflexivity. reflexivity.
Qed.

Lemma untracked_bucket (g : GpuContext) (devptr crc0 : Z) (i : nat) :
  ~ tracks_gpumem g devptr ->
  untrack_scan crc0 devptr (restrack g !!! i) = None.
Proof.
  intros Hno. apply untrack_scan_none. intros t Ht.
  destruct (gpumem_tracker_matches crc0 devptr t) eqn:Hm; [|reflexivity].
  exfalso. apply Hno. exists t.
  unfold gpumem_tracker_matches in Hm.
  apply andb_true_iff in Hm. destruct Hm as [Hm Hp].
  apply andb_true_iff in Hm. destruct Hm as [_ Hc].
  split; [|split; lia].
  destruct (total_lookup_bucket (restrack g) i) as [He | Hin].
  - rewrite He in Ht. inversion Ht.
  - apply elem_of_concat. eauto.
Qed.

(** A match on the chain is found before what is pushed at its tail. *)
Lemma untrack_scan_earlier (crc0 devptr : Z) (l l' : list ResourceTracker)
    (older : Z) (rest : list ResourceTracker) :
  untrack_scan crc0 devptr l = Some (older, rest) ->
  untrack_scan crc0 devptr (l ++ l') = Some (older, rest ++ l').
Proof.
  revert rest. induction l as [|t l IH]; intros rest H; simpl in *;
    [discriminate|].
  destruct (gpumem_tracker_matches crc0 devptr t).
  - injection H as <- <-. reflexivity.
  - destruct (untrack_scan crc0 devptr l) as [[e r]|]; [|discriminate].
    injection H as <- <-. rewrite (IH r eq_refl). reflexivity.
Qed.

(** C9.  On a context whose tracker has its [RESTRACK_HASHSIZE] chains.
    When it holds no entry for the device pointer: a [trackGpuMem] that
    succeeds, followed by [untrackGpuMem] of the same pointer, returns the
    recorded [extra] and leaves the chains exactly as they were before the
    track, with nothing logged; and [untrackGpuMem] of the pointer without
    the track returns [NULL], logs the notice and leaves the context as it
    is.  When the loop of [untrackGpuMem] finds an entry for the pointer
    already: after the [trackGpuMem] that succeeds, [untrackGpuMem]
    returns the [extra] of that older entry and unlinks it, and the entry
    just made stays at the tail of the chain. *)
Theorem track_untrack_gpumem (calloc_ok : bool) (tl : ThreadLocal)
    (g : GpuContext) (devptr extra : Z) :
  0 < RESTRACK_HASHSIZE env ->
  length (restrack g) = Z.to_nat (RESTRACK_HASHSIZE env) ->
  (~ tracks_gpumem g devptr ->
   (forall tl1 g1,
      trackGpuMem env calloc_ok tl g devptr extra = (true, tl1, g1) ->
      exists tl2,
        untrackGpuMem env tl1 g1 devptr = (extra, tl2, g)
        /\ notices tl2 = notices tl)
   /\ untrackGpuMem env tl g devptr
      = (0,
         {| inactiveResourceTracker := inactiveResourceTracker tl;
            notices :=
              notices tl ++ [NotTracked RESTRACK_CLASS__GPUMEMORY devptr] |},
         g))
  /\ (forall (older : Z) (rest : list ResourceTracker) tl1 g1,
        untrack_scan
          (resource_tracker_hashval env RESTRACK_CLASS__GPUMEMORY devptr)
          devptr
          (restrack g
             !!! restrack_index env
                   (resource_tracker_hashval env RESTRACK_CLASS__GPUMEMORY
                      devptr))
        = Some (older, rest) ->
        trackGpuMem env calloc_ok tl g devptr extra = (true, tl1, g1) ->
        exists tl2,
          untrackGpuMem env tl1 g1 devptr
          = (older, tl2,
             with_restrack g
               (<[restrack_index env
                    (resource_tracker_hashval env RESTRACK_CLASS__GPUMEMORY
                       devptr)
                  := rest
                     ++ [{| crc := resource_tracker_hashval env
                                     RESTRACK_CLASS__GPUMEMORY devptr;
                            resclass := RESTRACK_CLASS__GPUMEMORY;
                            u := devmem devptr extra |}]]>
                  (restrack g)))
          /\ notices tl2 = notices tl).
Proof.
  intros Hsize Hlen.
  set (crc0 := resource_tracker_hashval env RESTRACK_CLASS__GPUMEMORY
                 devptr).
  set (i := restrack_index env crc0).
  assert (Hi : (i < length (restrack g))%nat).
  { unfold i, restrack_index. rewrite Hlen.
    pose proof (Z.mod_pos_bound crc0 (RESTRACK_HASHSIZE env) Hsize).
    lia. }
  assert (Hnotice : forall tl',
            resource_tracker_alloc calloc_ok tl = Some tl' ->
            notices tl' = notices tl).
  { intros tl' Halloc. unfold resource_tracker_alloc in Halloc.
    destruct (inactiveResourceTracker tl);
      [destruct calloc_ok; [|discriminate]|];
      injection Halloc as <-; reflexivity. }
  split.
  - intros Hno. split.
    + intros tl1 g1. unfold trackGpuMem.
      destruct (resource_tracker_alloc calloc_ok tl) as [tl'|] eqn:Halloc;
        [|discriminate].
      intros [= <- <-]. unfold untrackGpuMem. fold crc0. fold i.
      cbn [restrack with_restrack].
      rewrite list_lookup_total_insert_eq by exact Hi.
      rewrite (untrack_scan_tail crc0 devptr (restrack g !!! i)).
      * cbn [u_devmem_extra u]. eexists. split.
        -- f_equal. unfold with_restrack.
           cbn [addr gpuserv_id sockfd resowner shgcon local_refcnt
                is_unlinked restrack].
           rewrite list_insert_insert_eq.
           rewrite list_insert_id
             by (apply list_lookup_lookup_total_lt; exact Hi).
           destruct g; reflexivity.
        -- cbn [notices]. apply Hnotice. reflexivity.
      * apply untracked_bucket. exact Hno.
      * unfold gpumem_tracker_matches, u_devmem_ptr. cbn [crc resclass u].
        rewrite !Z.eqb_refl. reflexivity.
    + unfold untrackGpuMem. rewrite untracked_bucket by exact Hno.
      reflexivity.
  - intros older rest tl1 g1 Hscan. unfold trackGpuMem.
    destruct (resource_tracker_alloc calloc_ok tl) as [tl'|] eqn:Halloc;
      [|discriminate].
    intros [= <- <-]. unfold untrackGpuMem. fold crc0. fold i.
    cbn [restrack with_restrack].
    rewrite list_lookup_total_insert_eq by exact Hi.
    rewrite (untrack_scan_earlier crc0 devptr _ _ older rest Hscan).
    eexists. split.
    + f_equal. unfold with_restrack.
      cbn [addr gpuserv_id sockfd resowner shgcon local_refcnt
           is_unlinked restrack].
      rewrite list_insert_insert_eq. reflexivity.
    + cbn [notices]. apply Hnotice. reflexivity.
Qed.

End Tracker.

(** Not every [untrackGpuMem] after a [trackGpuMem] returns the [extra]
    just stored.  The context tracks the device pointer 4096 with the
    extra 1; it is tracked again with the extra 2; [untrackGpuMem] returns
    1 and leaves the entry with the extra 2 on the chain. *)
Lemma track_untrack_older_entry :
  fst (fst (GpuContext.trackGpuMem Sample.tracker_env true
              Sample.fresh_thread Sample.tracked_once 4096 2)) = true
  /\ fst (fst (GpuContext.untrackGpuMem Sample.tracker_env
                 Sample.fresh_thread Sample.tracked_twice 4096)) = 1
  /\ GpuContext.u <$> concat
       (GpuContext.restrack
          (snd (GpuContext.untrackGpuMem Sample.tracker_env
                  Sample.fresh_thread Sample.tracked_twice 4096)))
     = [GpuContext.devmem 4096 2].
Proof. repeat split; vm_compute; reflexivity. Qed.

(** ** The GpuContext pool *)

Section PoolLists.

Import GpuContext.
Local Open Scope nat_scope.

Lemma list_filter_concat {A : Type} (P : A -> Prop) `{!forall x, Decision (P x)}
    (ls : list (list A)) :
  filter P (concat ls) = concat (filter P <$> ls).
Proof.
  induction ls as [|l ls IH]; simpl; [reflexivity|].
  rewrite filter_app, IH. reflexivity.
Qed.

Lemma list_fmap_concat {A B : Type} (f : A -> B) (ls : list (list A)) :
  f <$> concat ls = concat (fmap (M := list) f <$> ls).
Proof.
  induction ls as [|l ls IH]; simpl; [reflexivity|].
  rewrite fmap_app, IH. reflexivity.
Qed.

(** Pushing a node at the head of one of the slots adds it to the nodes
    linked on the slots. *)
Lemma concat_push_head {A : Type} (x : A) (ls : list (list A)) (k : nat) :
  k < length ls ->
  concat (<[k := x :: (ls !!! k)]> ls) ≡ₚ x :: concat ls.
Proof.
  revert k. induction ls as [|l ls IH]; intros k Hk; simpl in Hk; [lia|].
  destruct k as [|k]; simpl.
  - reflexivity.
  - rewrite IH by lia. symmetry. apply Permutation_middle.
Qed.

Lemma holders_in_perm (p : nat) (l k : list GpuContext) :
  l ≡ₚ k -> holders_in p l = holders_in p k.
Proof. intros H. unfold holders_in. rewrite H. reflexivity. Qed.

Lemma holders_in_cons (p : nat) (g : GpuContext) (l : list GpuContext) :
  holders_in p (g :: l)
  = (if decide (shgcon g = p) then 1 else 0) + holders_in p l.
Proof.
  unfold holders_in. rewrite filter_cons.
  destruct (decide (shgcon g = p)); reflexivity.
Qed.

Lemma holders_in_fmap (p : nat) (f : GpuContext -> GpuContext)
    (l : list GpuContext) :
  (forall g, shgcon (f g) = shgcon g) ->
  holders_in p (f <$> l) = holders_in p l.
Proof.
  intros Hf. induction l as [|g l IH]; [reflexivity|].
  rewrite fmap_cons, !holders_in_cons, Hf, IH. reflexivity.
Qed.

(** Unlinking the context at an address that one context [g] has removes
    that holder and no other. *)
Lemma holders_in_delete (p a : nat) (g : GpuContext)
    (l : list GpuContext) :
  NoDup (addr <$> l) ->
  g ∈ l ->
  addr g = a ->
  holders_in p (filter (λ g', addr g' ≠ a) l)
  + (if decide (shgcon g = p) then 1 else 0)
  = holders_in p l.
Proof.
  intros Hnd Hin Ha. induction l as [|g0 l IH]; [inversion Hin|].
  rewrite fmap_cons in Hnd. apply NoDup_cons in Hnd.
  destruct Hnd as [Hnot Hnd].
  rewrite filter_cons. apply elem_of_cons in Hin.
  destruct Hin as [<- | Hin].
  - destruct (decide (addr g ≠ a)) as [Hne|_]; [contradiction|].
    rewrite holders_in_cons.
    assert (Hsame : filter (λ g', addr g' ≠ a) l = l).
    { clear IH Hnd. induction l as [|g1 l IHl]; [reflexivity|].
      rewrite filter_cons. rewrite fmap_cons in Hnot.
      apply not_elem_of_cons in Hnot. destruct Hnot as [Hne Hnot].
      destruct (decide (addr g1 ≠ a)) as [_|Heq].
      - f_equal. apply IHl. exact Hnot.
      - exfalso. apply Heq. congruence. }
    rewrite Hsame. lia.
  - destruct (decide (addr g0 ≠ a)) as [Hne|Heq].
    + rewrite !holders_in_cons. rewrite <- (IH Hnd Hin). lia.
    + exfalso. apply Hnot. apply dec_stable in Heq.
      rewrite Heq, <- Ha. apply list_elem_of_fmap_2. exact Hin.
Qed.

(** Replacing one process in the list of processes. *)
Lemma sum_list_with_insert {A : Type} (f : A -> nat) (l : list A)
    (i : nat) (x y : A) :
  l !! i = Some y ->
  sum_list_with f (<[i := x]> l) + f y = sum_list_with f l + f x.
Proof.
  revert i. induction l as [|z l IH]; intros i Hi; [discriminate|].
  destruct i as [|i]; simpl in *.
  - injection Hi as ->. lia.
  - specialize (IH i Hi). lia.
Qed.

Lemma context_at_elem (a : nat) (slots : list (list GpuContext))
    (g : GpuContext) :
  context_at a slots = Some g -> g ∈ concat slots /\ addr g = a.
Proof.
  unfold context_at. intros H. apply head_Some_elem_of in H.
  apply list_elem_of_filter in H. tauto.
Qed.

End PoolLists.

Section PoolProcess.

Import GpuContext.
Local Open Scope nat_scope.

Variable N : nat.

(** A change of the context at an address that keeps its address and its
    shared slot. *)
Lemma process_update (pr : Process) (a : nat)
    (f : GpuContext -> GpuContext) :
  (forall g, addr (f g) = addr g /\ shgcon (f g) = shgcon g) ->
  process_ok N pr ->
  let pr' := with_slots pr (slots_update a f (activeGpuContextSlot pr)) in
  process_ok N pr'
  /\ (forall q, holders_in q (process_contexts pr')
                = holders_in q (process_contexts pr)).
Proof.
  intros Hf (Hlen & Hnd & Hb). cbv zeta.
  set (F := λ g : GpuContext, if decide (addr g = a) then f g else g).
  assert (HF : forall g, addr (F g) = addr g /\ shgcon (F g) = shgcon g).
  { intros g. unfold F. destruct (decide (addr g = a)); [apply Hf|auto]. }
  assert (Hc : process_contexts
                 (with_slots pr (slots_update a f (activeGpuContextSlot pr)))
               = F <$> process_contexts pr).
  { unfold process_contexts, slots_update. simpl.
    rewrite list_fmap_concat. reflexivity. }
  split; [split; [|split]|].
  - simpl. unfold slots_update. rewrite length_fmap. exact Hlen.
  - rewrite Hc, <- list_fmap_compose.
    rewrite (list_fmap_ext (addr ∘ F) addr); [exact Hnd|].
    intros i g _. simpl. apply HF.
  - rewrite Hc. intros g Hg. apply list_elem_of_fmap in Hg.
    destruct Hg as (g0 & -> & Hg0). destruct (HF g0) as [-> ->].
    simpl. apply Hb. exact Hg0.
  - intros q. rewrite Hc. apply holders_in_fmap. intros g. apply HF.
Qed.

(** A new context, at the address [calloc] gives, pushed on a slot. *)
Lemma process_push (pr : Process) (k : nat) (g : GpuContext) :
  k < Z.to_nat ACTIVE_GPU_CONTEXT_NSLOTS ->
  addr g = brk pr ->
  shgcon g < N ->
  process_ok N pr ->
  let pr' := with_slots (bump pr)
               (slots_push_head k g (activeGpuContextSlot pr)) in
  process_ok N pr'
  /\ (forall q, holders_in q (process_contexts pr')
                = (if decide (shgcon g = q) then 1 else 0)
                  + holders_in q (process_contexts pr)).
Proof.
  intros Hk Ha Hs (Hlen & Hnd & Hb). cbv zeta.
  assert (Hc : process_contexts
                 (with_slots (bump pr)
                    (slots_push_head k g (activeGpuContextSlot pr)))
               ≡ₚ g :: process_contexts pr).
  { unfold process_contexts, slots_push_head. simpl.
    apply concat_push_head. rewrite Hlen. exact Hk. }
  split; [split; [|split]|].
  - simpl. unfold slots_push_head. rewrite length_insert. exact Hlen.
  - rewrite Hc, fmap_cons. apply NoDup_cons. split; [|exact Hnd].
    intros Hin. apply list_elem_of_fmap in Hin.
    destruct Hin as (g0 & Heq & Hg0). destruct (Hb g0 Hg0) as [Hlt _].
    lia.
  - intros g0 Hg0. rewrite Hc in Hg0. apply elem_of_cons in Hg0.
    simpl. destruct Hg0 as [-> | Hg0].
    + split; [lia | exact Hs].
    + destruct (Hb g0 Hg0). split; [lia | assumption].
  - intros q. rewrite (holders_in_perm q _ _ Hc). apply holders_in_cons.
Qed.

(** The context at an address unlinked. *)
Lemma process_delete (pr : Process) (a : nat) (g : GpuContext) :
  context_at a (activeGpuContextSlot pr) = Some g ->
  process_ok N pr ->
  let pr' := with_slots pr (slots_delete a (activeGpuContextSlot pr)) in
  process_ok N pr'
  /\ (forall q, holders_in q (process_contexts pr')
                + (if decide (shgcon g = q) then 1 else 0)
                = holders_in q (process_contexts pr)).
Proof.
  intros Hat (Hlen & Hnd & Hb). cbv zeta.
  apply context_at_elem in Hat. destruct Hat as [Hin Ha].
  assert (Hc : process_contexts
                 (with_slots pr (slots_delete a (activeGpuContextSlot pr)))
               = filter (λ g', addr g' ≠ a) (process_contexts pr)).
  { unfold process_contexts, slots_delete. simpl.
    rewrite list_filter_concat. reflexivity. }
  split; [split; [|split]|].
  - simpl. unfold slots_delete. rewrite length_fmap. exact Hlen.
  - rewrite Hc. apply (sublist_NoDup _ _ Hnd).
    apply fmap_sublist. apply sublist_filter.
  - rewrite Hc. intros g0 Hg0. apply list_elem_of_filter in Hg0.
    simpl. apply Hb. tauto.
  - intros q. rewrite Hc. apply holders_in_delete; assumption.
Qed.

(** Replacing a process by one of the same kind changes the holders of a
    slot by what the process holds of it. *)
Lemma holders_insert (procs : list Process) (pid : nat)
    (pr pr' : Process) (srv : bool) (q : nat) :
  procs !! pid = Some pr ->
  holders srv (<[pid := pr']> procs) q + process_holders srv q pr
  = holders srv procs q + process_holders srv q pr'.
Proof. intros H. unfold holders. apply sum_list_with_insert. exact H. Qed.

End PoolProcess.

Section PoolInvariant.

Import GpuContext.
Local Open Scope nat_scope.

Variable N : nat.

Lemma holders_same (procs : list Process) (pid : nat) (pr pr' : Process) :
  procs !! pid = Some pr ->
  IsGpuServerProcess pr' = IsGpuServerProcess pr ->
  (forall q, holders_in q (process_contexts pr')
             = holders_in q (process_contexts pr)) ->
  forall srv q, holders srv (<[pid := pr']> procs) q = holders srv procs q.
Proof.
  intros Hpr Hflag Hsame srv q.
  pose proof (holders_insert procs pid pr pr' srv q Hpr) as H.
  unfold process_holders in H. rewrite Hflag, Hsame in H. lia.
Qed.

Lemma holders_add (procs : list Process) (pid : nat) (pr pr' : Process)
    (p : nat) :
  procs !! pid = Some pr ->
  IsGpuServerProcess pr' = IsGpuServerProcess pr ->
  (forall q, holders_in q (process_contexts pr')
             = (if decide (p = q) then 1 else 0)
               + holders_in q (process_contexts pr)) ->
  forall srv q,
    holders srv (<[pid := pr']> procs) q
    = holders srv procs q
      + (if decide (p = q) then
           if bool_decide (IsGpuServerProcess pr = srv) then 1 else 0
         else 0).
Proof.
  intros Hpr Hflag Hadd srv q.
  pose proof (holders_insert procs pid pr pr' srv q Hpr) as H.
  unfold process_holders in H. rewrite Hflag, Hadd in H.
  destruct (decide (p = q));
    destruct (bool_decide (IsGpuServerProcess pr = srv)); lia.
Qed.

Lemma holders_remove (procs : list Process) (pid : nat)
    (pr pr' : Process) (p : nat) :
  procs !! pid = Some pr ->
  IsGpuServerProcess pr' = IsGpuServerProcess pr ->
  (forall q, holders_in q (process_contexts pr')
             + (if decide (p = q) then 1 else 0)
             = holders_in q (process_contexts pr)) ->
  forall srv q,
    holders srv (<[pid := pr']> procs) q
    + (if decide (p = q) then
         if bool_decide (IsGpuServerProcess pr = srv) then 1 else 0
       else 0)
    = holders srv procs q.
Proof.
  intros Hpr Hflag Hrem srv q.
  pose proof (holders_insert procs pid pr pr' srv q Hpr) as H.
  unfold process_holders in H. rewrite Hflag, <- (Hrem q) in H.
  destruct (decide (p = q));
    destruct (bool_decide (IsGpuServerProcess pr = srv)); lia.
Qed.

Lemma processes_insert_ok (procs : list Process) (pid : nat)
    (pr' : Process) :
  (forall i pr, procs !! i = Some pr -> process_ok N pr) ->
  process_ok N pr' ->
  forall i pr, <[pid := pr']> procs !! i = Some pr -> process_ok N pr.
Proof.
  intros Hall Hok i pr Hi. apply list_lookup_insert_Some in Hi.
  destruct Hi as [(_ & <- & _) | (_ & Hi)]; [exact Hok | eauto].
Qed.

(** A process changes its contexts without changing what it holds. *)
Lemma invariant_same (w : World) (pid : nat) (pr pr' : Process) :
  pool_invariant N w ->
  processes w !! pid = Some pr ->
  IsGpuServerProcess pr' = IsGpuServerProcess pr ->
  process_ok N pr' ->
  (forall q, holders_in q (process_contexts pr')
             = holders_in q (process_contexts pr)) ->
  pool_invariant N
    {| sharedGpuContextHead := sharedGpuContextHead w;
       processes := <[pid := pr']> (processes w) |}.
Proof.
  intros [Hlen Hnd Hrange Hslot Hproc] Hpr Hflag Hok Hsame.
  constructor; simpl; try assumption.
  - intros p s Hp. rewrite !(holders_same _ _ _ _ Hpr Hflag Hsame).
    apply Hslot. exact Hp.
  - apply processes_insert_ok; assumption.
Qed.

(** A backend takes the head of the free list for a new context. *)
Lemma invariant_alloc (w : World) (pid : nat) (pr pr' : Process)
    (p : nat) (free : list nat) (s0 : SharedGpuContext) :
  pool_invariant N w ->
  processes w !! pid = Some pr ->
  IsGpuServerProcess pr = false ->
  IsGpuServerProcess pr' = false ->
  free_list (sharedGpuContextHead w) = p :: free ->
  process_ok N pr' ->
  (forall q, holders_in q (process_contexts pr')
             = (if decide (p = q) then 1 else 0)
               + holders_in q (process_contexts pr)) ->
  refcnt s0 = 1%Z -> is_Some (backend s0) -> server s0 = None ->
  pool_invariant N
    {| sharedGpuContextHead :=
         {| free_list := free;
            context_array :=
              <[p := s0]> (context_array (sharedGpuContextHead w)) |};
       processes := <[pid := pr']> (processes w) |}.
Proof.
  intros [Hlen Hnd Hrange Hslot Hproc] Hpr Hf Hf' Hfree Hok Hadd
    Hr (b & Hb) Hs.
  rewrite Hfree in Hnd, Hrange, Hslot.
  apply NoDup_cons in Hnd. destruct Hnd as [Hp Hnd].
  assert (HpN : p < N) by (apply Hrange; left).
  assert (Hflag : IsGpuServerProcess pr' = IsGpuServerProcess pr)
    by congruence.
  constructor; simpl.
  - rewrite length_insert. exact Hlen.
  - exact Hnd.
  - intros q Hq. apply Hrange. right. exact Hq.
  - intros q s Hq.
    rewrite !(holders_add _ _ _ _ p Hpr Hflag Hadd). rewrite Hf.
    destruct (decide (p = q)) as [<- | Hne].
    + rewrite list_lookup_insert_eq in Hq by lia. injection Hq as <-.
      destruct (lookup_lt_is_Some_2 (context_array (sharedGpuContextHead w))
                  p ltac:(lia)) as (s1 & Hs1).
      destruct (Hslot p s1 Hs1) as (Hr1 & Hb1 & Hv1 & Hin1).
      assert (Hz : refcnt s1 = 0%Z) by (apply Hin1; left).
      rewrite Hb, Hs, Hr. simpl. rewrite Hb1, Hv1.
      split; [reflexivity|]. split; [lia|]. split; [lia|].
      split; [contradiction | lia].
    + rewrite list_lookup_insert_ne in Hq by exact Hne.
      destruct (Hslot q s Hq) as (Hr1 & Hb1 & Hv1 & Hin1).
      rewrite Hb1, Hv1. split; [exact Hr1|]. split; [lia|].
      split; [lia|]. split.
      * intros Hin. apply Hin1. right. exact Hin.
      * intros Hz. apply Hin1 in Hz. apply elem_of_cons in Hz.
        destruct Hz as [-> | Hz]; [contradiction | exact Hz].
  - apply processes_insert_ok; assumption.
Qed.

(** A server process attaches to a slot that a backend holds. *)
Lemma invariant_attach (w : World) (pid : nat) (pr pr' : Process)
    (p : nat) (s s' : SharedGpuContext) :
  pool_invariant N w ->
  processes w !! pid = Some pr ->
  IsGpuServerProcess pr = true ->
  IsGpuServerProcess pr' = true ->
  context_array (sharedGpuContextHead w) !! p = Some s ->
  (0 < refcnt s)%Z -> server s = None ->
  process_ok N pr' ->
  (forall q, holders_in q (process_contexts pr')
             = (if decide (p = q) then 1 else 0)
               + holders_in q (process_contexts pr)) ->
  refcnt s' = (refcnt s + 1)%Z -> backend s' = backend s ->
  is_Some (server s') ->
  pool_invariant N
    {| sharedGpuContextHead :=
         {| free_list := free_list (sharedGpuContextHead w);
            context_array :=
              <[p := s']> (context_array (sharedGpuContextHead w)) |};
       processes := <[pid := pr']> (processes w) |}.
Proof.
  intros [Hlen Hnd Hrange Hslot Hproc] Hpr Hf Hf' Hp Hpos Hsrv Hok Hadd
    Hr Hb (v & Hv).
  assert (Hflag : IsGpuServerProcess pr' = IsGpuServerProcess pr)
    by congruence.
  constructor; simpl.
  - rewrite length_insert. exact Hlen.
  - exact Hnd.
  - exact Hrange.
  - intros q s1 Hq.
    rewrite !(holders_add _ _ _ _ p Hpr Hflag Hadd). rewrite Hf.
    destruct (decide (p = q)) as [<- | Hne].
    + rewrite list_lookup_insert_eq in Hq
        by (apply lookup_lt_Some in Hp; lia).
      injection Hq as <-.
      destruct (Hslot p s Hp) as (Hr1 & Hb1 & Hv1 & Hin1).
      rewrite Hsrv in Hr1, Hv1. simpl in Hr1, Hv1.
      rewrite Hr, Hb, Hv, Hb1, Hv1. simpl.
      split; [lia|]. split; [lia|]. split; [lia|].
      split; [intros Hin; apply Hin1 in Hin; lia | lia].
    + rewrite list_lookup_insert_ne in Hq by exact Hne.
      destruct (Hslot q s1 Hq) as (Hr1 & Hb1 & Hv1 & Hin1).
      rewrite Hb1, Hv1. split; [exact Hr1|]. split; [lia|].
      split; [lia | exact Hin1].
  - apply processes_insert_ok; assumption.
Qed.

End PoolInvariant.

Section PoolPut.

Import GpuContext.
Local Open Scope nat_scope.

Variable N : nat.

(** [PutSharedGpuContext] on a slot with a positive count that is not on
    the free list and whose other side, at the last reference, is gone:
    the assertions hold, the count goes down by one, and the slot is
    pushed on the free list exactly when the count reaches zero. *)
Lemma put_shared_spec (is_server : bool) (sh : SharedGpuContextHead)
    (p : nat) (s : SharedGpuContext) :
  context_array sh !! p = Some s ->
  (0 < refcnt s)%Z ->
  (refcnt s = 1%Z -> (if is_server then backend s else server s) = None) ->
  p ∉ free_list sh ->
  PutSharedGpuContext is_server sh p
  = ({| free_list := if (refcnt s =? 1)%Z then p :: free_list sh
                     else free_list sh;
        context_array := <[p := after_put is_server s]> (context_array sh) |},
     Return tt).
Proof.
  intros Hp Hpos Hlast Hfree. unfold PutSharedGpuContext. rewrite Hp.
  assert ((0 <? refcnt s)%Z = true) as -> by lia. cbn [negb refcnt].
  destruct (Z.eqb_spec (refcnt s) 1) as [H1 | H1].
  - assert ((0 <? refcnt s - 1)%Z = false) as -> by lia.
    cbn [server backend]. specialize (Hlast H1).
    assert (Hboth : (if is_server then @None nat else server s) = None
                    /\ (if is_server then backend s else @None nat) = None)
      by (destruct is_server; auto).
    destruct Hboth as [-> ->].
    rewrite !bool_decide_eq_true_2 by reflexivity. cbn [andb negb].
    rewrite bool_decide_eq_false_2 by exact Hfree.
    unfold after_put.
    assert ((refcnt s =? 1)%Z = true) as -> by lia.
    destruct is_server; rewrite ?Hlast; reflexivity.
  - assert ((0 <? refcnt s - 1)%Z = true) as -> by lia.
    unfold after_put.
    assert ((refcnt s =? 1)%Z = false) as -> by lia.
    reflexivity.
Qed.

(** A process drops its last reference to a context. *)
Lemma invariant_put (w : World) (pid : nat) (pr pr' : Process)
    (g : GpuContext) :
  pool_invariant N w ->
  processes w !! pid = Some pr ->
  IsGpuServerProcess pr' = IsGpuServerProcess pr ->
  g ∈ process_contexts pr ->
  process_ok N pr' ->
  (forall q, holders_in q (process_contexts pr')
             + (if decide (shgcon g = q) then 1 else 0)
             = holders_in q (process_contexts pr)) ->
  let r := PutSharedGpuContext (IsGpuServerProcess pr)
             (sharedGpuContextHead w) (shgcon g) in
  snd r = Return tt
  /\ pool_invariant N
       {| sharedGpuContextHead := fst r;
          processes := <[pid := pr']> (processes w) |}
  /\ exists s,
       context_array (sharedGpuContextHead w) !! shgcon g = Some s
       /\ (0 < refcnt s)%Z
       /\ free_list (fst r)
          = if (refcnt s =? 1)%Z
            then shgcon g :: free_list (sharedGpuContextHead w)
            else free_list (sharedGpuContextHead w).
Proof.
  intros [Hlen Hnd Hrange Hslot Hproc] Hpr Hflag Hg Hok Hrem. cbv zeta.
  set (p := shgcon g) in *.
  assert (HpN : p < N).
  { destruct (Hproc pid pr Hpr) as (_ & _ & Hb). apply Hb. exact Hg. }
  destruct (lookup_lt_is_Some_2 (context_array (sharedGpuContextHead w))
              p ltac:(lia)) as (s & Hs).
  destruct (Hslot p s Hs) as (Hr & Hb & Hv & Hin).
  pose proof (holders_remove (processes w) pid pr pr' p Hpr Hflag Hrem)
    as Hh.
  assert (Hheld : 1 <= holders (IsGpuServerProcess pr) (processes w) p).
  { specialize (Hh (IsGpuServerProcess pr) p).
    rewrite decide_True in Hh by reflexivity.
    rewrite bool_decide_eq_true_2 in Hh by reflexivity. lia. }
  assert (Hpos : (0 < refcnt s)%Z).
  { destruct (IsGpuServerProcess pr); [rewrite Hv in Hheld
                                      | rewrite Hb in Hheld]; lia. }
  assert (Hnot : p ∉ free_list (sharedGpuContextHead w)).
  { intros Hp. apply Hin in Hp. lia. }
  assert (Hlast : refcnt s = 1%Z ->
                  (if IsGpuServerProcess pr then backend s else server s)
                  = None).
  { intros H1. destruct (IsGpuServerProcess pr);
      [rewrite Hv in Hheld | rewrite Hb in Hheld];
      destruct (backend s), (server s); simpl in *; try reflexivity; lia. }
  rewrite (put_shared_spec _ _ _ _ Hs Hpos Hlast Hnot). cbn [fst snd].
  split; [reflexivity|]. split; [|exists s; auto].
  constructor; cbn [sharedGpuContextHead processes free_list context_array].
  - rewrite length_insert. exact Hlen.
  - destruct (refcnt s =? 1)%Z; [|exact Hnd].
    apply NoDup_cons. split; assumption.
  - intros q Hq. destruct (refcnt s =? 1)%Z; [|apply Hrange; exact Hq].
    apply elem_of_cons in Hq. destruct Hq as [-> | Hq];
      [exact HpN | apply Hrange; exact Hq].
  - intros q s1 Hq. pose proof (Hh false q) as Hhf.
    pose proof (Hh true q) as Hht.
    destruct (decide (p = q)) as [<- | Hne].
    + rewrite list_lookup_insert_eq in Hq by lia. injection Hq as <-.
      unfold after_put. cbn [refcnt backend server].
      destruct (IsGpuServerProcess pr) eqn:Hsrv.
      * rewrite bool_decide_eq_false_2 in Hhf by discriminate.
        rewrite bool_decide_eq_true_2 in Hht by reflexivity.
        rewrite Hv in Hheld.
        destruct (backend s), (server s); cbn [flag] in *; try lia;
          (split; [lia|]); (split; [lia|]); (split; [lia|]);
          destruct (Z.eqb_spec (refcnt s) 1) as [H1|H1]; try lia;
          (split; [intros Hp; try contradiction; lia | intros Hz; try lia]);
          try left.
      * rewrite bool_decide_eq_true_2 in Hhf by reflexivity.
        rewrite bool_decide_eq_false_2 in Hht by discriminate.
        rewrite Hb in Hheld.
        destruct (backend s), (server s); cbn [flag] in *; try lia;
          (split; [lia|]); (split; [lia|]); (split; [lia|]);
          destruct (Z.eqb_spec (refcnt s) 1) as [H1|H1]; try lia;
          (split; [intros Hp; try contradiction; lia | intros Hz; try lia]);
          try left.
    + rewrite list_lookup_insert_ne in Hq by exact Hne.
      destruct (Hslot q s1 Hq) as (Hr1 & Hb1 & Hv1 & Hin1).
      split; [exact Hr1|]. split; [lia|]. split; [lia|].
      destruct (refcnt s =? 1)%Z; [|exact Hin1].
      rewrite <- Hin1. rewrite elem_of_cons. split.
      * intros [-> | Hq']; [contradiction | exact Hq'].
      * intros Hq'. right. exact Hq'.
  - apply processes_insert_ok; assumption.
Qed.

End PoolPut.

Section PoolSteps.

Import GpuContext.
Local Open Scope nat_scope.

Variable env : TrackerEnv.
Variable N : nat.

Lemma invariant_idle (w : World) (pid : nat) (pr : Process) :
  pool_invariant N w ->
  processes w !! pid = Some pr ->
  pool_invariant N
    {| sharedGpuContextHead := sharedGpuContextHead w;
       processes := <[pid := pr]> (processes w) |}.
Proof.
  intros Hinv Hpr. apply (invariant_same N w pid pr pr Hinv Hpr eq_refl).
  - exact (inv_process N w Hinv pid pr Hpr).
  - reflexivity.
Qed.

Lemma invariant_update (w : World) (pid : nat) (pr : Process) (a : nat)
    (f : GpuContext -> GpuContext) :
  (forall g, addr (f g) = addr g /\ shgcon (f g) = shgcon g) ->
  pool_invariant N w ->
  processes w !! pid = Some pr ->
  pool_invariant N
    {| sharedGpuContextHead := sharedGpuContextHead w;
       processes :=
         <[pid := with_slots pr
                    (slots_update a f (activeGpuContextSlot pr))]>
           (processes w) |}.
Proof.
  intros Hf Hinv Hpr.
  destruct (process_update N pr a f Hf (inv_process N w Hinv pid pr Hpr))
    as (Hok & Hsame).
  exact (invariant_same N w pid pr
           (with_slots pr (slots_update a f (activeGpuContextSlot pr)))
           Hinv Hpr eq_refl Hok Hsame).
Qed.

Lemma alloc_invariant (w : World) (pid : nat) (pr : Process)
    (ro pw : Z) (wc ok : bool) (conn : Outcome Z) :
  pool_invariant N w ->
  processes w !! pid = Some pr ->
  let r := fst (AllocGpuContext env pr (sharedGpuContextHead w) ro pw wc
                  ok conn) in
  pool_invariant N
    {| sharedGpuContextHead := snd r;
       processes := <[pid := fst r]> (processes w) |}.
Proof.
  intros Hinv Hpr. cbv zeta. unfold AllocGpuContext.
  destruct (IsGpuServerProcess pr) eqn:Hsrv;
    [exact (invariant_idle w pid pr Hinv Hpr)|].
  destruct (List.find _ _) as [g0|].
  { apply invariant_update; [intros g; split; reflexivity | | ];
      assumption. }
  destruct ok; cbn [negb]; [|exact (invariant_idle w pid pr Hinv Hpr)].
  destruct (free_list (sharedGpuContextHead w)) as [|p free] eqn:Hfree;
    [exact (invariant_idle w pid pr Hinv Hpr)|].
  assert (HpN : p < N).
  { apply (inv_range N w Hinv). rewrite Hfree. left. }
  set (g := {| addr := brk pr; gpuserv_id := -1;
               sockfd := PGINVALID_SOCKET; resowner := ro; shgcon := p;
               local_refcnt := 1; is_unlinked := 0;
               restrack := replicate (Z.to_nat (RESTRACK_HASHSIZE env)) []
            |}).
  set (s0 := {| refcnt := 1; backend := Some (MyProc pr); server := None;
                ParallelWorkerNumber := pw; in_termination := 0;
                num_async_tasks := 0; dma_buffer_list := [] |}).
  destruct (process_push N pr 0 g ltac:(vm_compute; lia) eq_refl HpN
              (inv_process N w Hinv pid pr Hpr)) as (Hok1 & Hadd1).
  set (pr1 := with_slots (bump pr)
                (slots_push_head 0 g (activeGpuContextSlot pr))) in *.
  assert (Hnew : forall pr',
            IsGpuServerProcess pr' = false ->
            process_ok N pr' ->
            (forall q, holders_in q (process_contexts pr')
                       = holders_in q (process_contexts pr1)) ->
            pool_invariant N
              {| sharedGpuContextHead :=
                   {| free_list := free;
                      context_array :=
                        <[p := s0]>
                          (context_array (sharedGpuContextHead w)) |};
                 processes := <[pid := pr']> (processes w) |}).
  { intros pr' Hf' Hok' Hsame.
    apply (invariant_alloc N w pid pr pr' p free s0 Hinv Hpr Hsrv Hf'
             Hfree Hok').
    - intros q. rewrite Hsame, Hadd1. reflexivity.
    - reflexivity.
    - eexists. reflexivity.
    - reflexivity. }
  destruct wc; [destruct conn as [fd | e | | u]|]; cbn [fst snd];
    try (apply Hnew; [exact Hsrv | exact Hok1 | reflexivity]).
  destruct (process_update N pr1 (addr g) (with_sockfd fd)
              ltac:(intros g'; split; reflexivity) Hok1)
    as (Hok2 & Hsame2).
  apply Hnew; [exact Hsrv | exact Hok2 | exact Hsame2].
Qed.

Lemma attach_invariant (w : World) (pid : nat) (pr : Process)
    (fd : Z) (p : nat) (ro di : Z) (ok ep : bool) :
  pool_invariant N w ->
  processes w !! pid = Some pr ->
  let r := fst (AttachGpuContext env pr (sharedGpuContextHead w) fd p ro
                  di ok ep) in
  pool_invariant N
    {| sharedGpuContextHead := snd r;
       processes := <[pid := fst r]> (processes w) |}.
Proof.
  intros Hinv Hpr. cbv zeta. unfold AttachGpuContext.
  destruct (IsGpuServerProcess pr) eqn:Hsrv; cbn [negb];
    [|exact (invariant_idle w pid pr Hinv Hpr)].
  destruct ok; cbn [negb]; [|exact (invariant_idle w pid pr Hinv Hpr)].
  destruct (negb ep || (fd <? 0)%Z);
    [exact (invariant_idle w pid pr Hinv Hpr)|].
  destruct (context_array (sharedGpuContextHead w) !! p) as [s|] eqn:Hs;
    [|exact (invariant_idle w pid pr Hinv Hpr)].
  destruct ((0 <? refcnt s)%Z && bool_decide (backend s ≠ None)
            && bool_decide (server s = None) && (num_async_tasks s =? 0)%Z)
    eqn:Hassert; cbn [negb];
    [|exact (invariant_idle w pid pr Hinv Hpr)].
  cbn [fst snd].
  apply andb_true_iff in Hassert. destruct Hassert as [Hassert _].
  apply andb_true_iff in Hassert. destruct Hassert as [Hassert Hserver].
  apply andb_true_iff in Hassert. destruct Hassert as [Hpos _].
  apply bool_decide_eq_true_1 in Hserver.
  assert (HpN : p < N).
  { apply lookup_lt_Some in Hs. rewrite (inv_length N w Hinv) in Hs.
    exact Hs. }
  set (g := {| addr := brk pr; gpuserv_id := di; sockfd := fd;
               resowner := ro; shgcon := p; local_refcnt := 1;
               is_unlinked := 0;
               restrack := replicate (Z.to_nat (RESTRACK_HASHSIZE env)) []
            |}).
  assert (Hk : Z.to_nat (fd mod ACTIVE_GPU_CONTEXT_NSLOTS)
               < Z.to_nat ACTIVE_GPU_CONTEXT_NSLOTS).
  { pose proof (Z.mod_pos_bound fd ACTIVE_GPU_CONTEXT_NSLOTS
                  ltac:(reflexivity)). lia. }
  destruct (process_push N pr _ g Hk eq_refl HpN
              (inv_process N w Hinv pid pr Hpr)) as (Hok1 & Hadd1).
  apply (invariant_attach N w pid pr
           (with_slots (bump pr)
              (slots_push_head
                 (Z.to_nat (fd mod ACTIVE_GPU_CONTEXT_NSLOTS)) g
                 (activeGpuContextSlot pr)))
           p s _ Hinv Hpr Hsrv Hsrv Hs);
    try assumption; try reflexivity.
  - lia.
  - eexists. reflexivity.
Qed.

Lemma get_invariant (w : World) (pid : nat) (pr : Process) (a : nat) :
  pool_invariant N w ->
  processes w !! pid = Some pr ->
  pool_invariant N
    {| sharedGpuContextHead := sharedGpuContextHead w;
       processes := <[pid := fst (GetGpuContext pr a)]> (processes w) |}.
Proof.
  intros Hinv Hpr. unfold GetGpuContext.
  destruct (context_at a (activeGpuContextSlot pr)) as [g|];
    [|exact (invariant_idle w pid pr Hinv Hpr)].
  cbv zeta. destruct (0 <? local_refcnt g)%Z; cbn [fst];
    (apply invariant_update; [intros g'; split; reflexivity | |]; assumption).
Qed.

(** A put of a linked context returns, and keeps the invariant. *)
Lemma put_invariant (ans : ReleaseAnswers) (w : World) (pid : nat)
    (pr : Process) (a : nat) :
  pool_invariant N w ->
  processes w !! pid = Some pr ->
  let r := PutGpuContext ans pr (sharedGpuContextHead w) a in
  pool_invariant N
    {| sharedGpuContextHead := snd (fst r);
       processes := <[pid := fst (fst r)]> (processes w) |}
  /\ (is_Some (context_at a (activeGpuContextSlot pr)) ->
      snd r = Return tt).
Proof.
  intros Hinv Hpr. cbv zeta. unfold PutGpuContext.
  destruct (context_at a (activeGpuContextSlot pr)) as [g|] eqn:Hat.
  2:{ split; [exact (invariant_idle w pid pr Hinv Hpr)|].
      intros [x Hx]. discriminate Hx. }
  destruct (u32_decr (local_refcnt g) =? 0)%Z; cbn [fst snd].
  - destruct (process_delete N pr a g Hat
                (inv_process N w Hinv pid pr Hpr)) as (Hok & Hrem).
    destruct (context_at_elem a _ g Hat) as [Hg _].
    destruct (invariant_put N w pid pr
                (with_tls
                   (with_slots pr
                      (slots_delete a (activeGpuContextSlot pr)))
                   (fst (ReleaseLocalResources ans
                           (tls (with_slots pr
                                   (slots_delete a
                                      (activeGpuContextSlot pr))))
                           g true)))
                g Hinv Hpr eq_refl Hg Hok Hrem) as (Hret & Hinv' & _).
    split; [exact Hinv' | intros _; exact Hret].
  - split; [|reflexivity].
    apply invariant_update; [intros g'; split; reflexivity | |];
      assumption.
Qed.

(** Every call keeps the invariant. *)
Lemma step_invariant (w : World) (pid : nat) (c : Call) :
  pool_invariant N w -> pool_invariant N (step env w pid c).
Proof.
  intros Hinv. unfold step.
  destruct (processes w !! pid) as [pr|] eqn:Hpr; [|exact Hinv].
  destruct c; cbn [run_call].
  - apply alloc_invariant; assumption.
  - apply attach_invariant; assumption.
  - apply get_invariant; assumption.
  - apply put_invariant; assumption.
Qed.

Lemma run_invariant (calls : list (nat * Call)) :
  forall w, pool_invariant N w -> pool_invariant N (run env w calls).
Proof.
  induction calls as [|[pid c] calls IH]; intros w Hinv; simpl;
    [exact Hinv|].
  apply IH. apply step_invariant. exact Hinv.
Qed.

End PoolSteps.

Section PoolClaim.

Import GpuContext.
Local Open Scope nat_scope.

Variable env : TrackerEnv.
Variable N : nat.

Lemma concat_replicate_nil {A : Type} (n : nat) :
  concat (replicate n (@nil A)) = [].
Proof. induction n as [|n IH]; [reflexivity | exact IH]. Qed.

Lemma holders_none (srv : bool) (procs : list Process) (p : nat) :
  (forall pr, pr ∈ procs -> process_contexts pr = []) ->
  holders srv procs p = 0.
Proof.
  intros Hall. unfold holders. induction procs as [|pr procs IH];
    [reflexivity|].
  simpl. rewrite IH by (intros pr' Hin; apply Hall; right; exact Hin).
  unfold process_holders. rewrite (Hall pr) by left.
  destruct (bool_decide _); reflexivity.
Qed.

(** [pgstrom_startup_gpu_context] establishes the invariant. *)
Lemma startup_invariant (nprocs : nat) (servers : nat -> bool) :
  pool_invariant N (startup_world N nprocs servers).
Proof.
  assert (Hempty : forall pr,
            pr ∈ processes (startup_world N nprocs servers) ->
            process_contexts pr = []).
  { intros pr Hin. simpl in Hin. apply list_elem_of_fmap in Hin.
    destruct Hin as (i & -> & _). apply concat_replicate_nil. }
  constructor; simpl.
  - apply length_replicate.
  - apply NoDup_seq.
  - intros p Hp. apply elem_of_seq in Hp. lia.
  - intros p s Hp. apply lookup_replicate in Hp. destruct Hp as [-> Hp].
    fold (processes (startup_world N nprocs servers)).
    rewrite !holders_none by exact Hempty. simpl.
    split; [reflexivity|]. split; [reflexivity|]. split; [reflexivity|].
    split; [reflexivity|]. intros _. apply elem_of_seq. lia.
  - intros pid pr Hpr. apply list_lookup_fmap_Some in Hpr.
    destruct Hpr as (i & -> & _). unfold process_ok.
    replace (process_contexts (init_process (servers i) i))
      with (@nil GpuContext) by (symmetry; apply concat_replicate_nil).
    split; [apply length_replicate|]. split; [constructor|].
    intros g Hg. inversion Hg.
Qed.

(** Under the invariant the slot of a linked context has a positive
    count, is not on the free list, and at its last reference has no
    other side. *)
Lemma held_slot (w : World) (pid : nat) (pr : Process) (g : GpuContext) :
  pool_invariant N w ->
  processes w !! pid = Some pr ->
  g ∈ process_contexts pr ->
  exists s,
    context_array (sharedGpuContextHead w) !! shgcon g = Some s
    /\ (0 < refcnt s)%Z
    /\ (shgcon g ∉ free_list (sharedGpuContextHead w))
    /\ (refcnt s = 1%Z ->
        (if IsGpuServerProcess pr then backend s else server s) = None).
Proof.
  intros [Hlen Hnd Hrange Hslot Hproc] Hpr Hg.
  assert (HpN : shgcon g < N).
  { destruct (Hproc pid pr Hpr) as (_ & _ & Hb). apply Hb. exact Hg. }
  destruct (lookup_lt_is_Some_2 (context_array (sharedGpuContextHead w))
              (shgcon g) ltac:(lia)) as (s & Hs).
  destruct (Hslot _ s Hs) as (Hr & Hb & Hv & Hin).
  assert (Hheld : 1 <= holders (IsGpuServerProcess pr) (processes w)
                         (shgcon g)).
  { unfold holders.
    etransitivity;
      [|apply (sum_list_with_in pr); apply list_elem_of_lookup; eauto].
    unfold process_holders.
    rewrite bool_decide_eq_true_2 by reflexivity.
    apply list_elem_of_split in Hg. destruct Hg as (l1 & l2 & ->).
    unfold holders_in. rewrite filter_app, length_app, filter_cons.
    rewrite decide_True by reflexivity. simpl. lia. }
  exists s. split; [exact Hs|].
  destruct (IsGpuServerProcess pr);
    [rewrite Hv in Hheld | rewrite Hb in Hheld];
    (split; [lia|]); (split; [intros Hp; apply Hin in Hp; lia|]);
    intros H1; destruct (backend s), (server s); simpl in *;
    try reflexivity; lia.
Qed.

(** The slots with a count of zero are the slots of the free list. *)
Lemma free_list_length (w : World) :
  pool_invariant N w ->
  length (live_slots (sharedGpuContextHead w))
  + length (free_list (sharedGpuContextHead w)) = N.
Proof.
  intros [Hlen Hnd Hrange Hslot Hproc].
  set (sh := sharedGpuContextHead w) in *.
  assert (Hperm : free_list sh
                  ≡ₚ filter (λ p, ¬ (is_live sh p = true))
                       (seq 0 (length (context_array sh)))).
  { apply NoDup_Permutation.
    - exact Hnd.
    - apply NoDup_filter, NoDup_seq.
    - intros p. rewrite list_elem_of_filter, elem_of_seq. unfold is_live.
      split.
      + intros Hp. pose proof (Hrange p Hp) as HpN.
        destruct (lookup_lt_is_Some_2 (context_array sh) p ltac:(lia))
          as (s & Hs).
        rewrite Hs. destruct (Hslot p s Hs) as (_ & _ & _ & Hin).
        apply Hin in Hp. split; [|lia].
        intros Hlive. apply Z.ltb_lt in Hlive. lia.
      + intros (Hdead & _ & HpN).
        destruct (lookup_lt_is_Some_2 (context_array sh) p ltac:(lia))
          as (s & Hs).
        rewrite Hs in Hdead. destruct (Hslot p s Hs) as (Hr & _ & _ & Hin).
        apply Hin. destruct (Z.ltb_spec 0 (refcnt s)); [|lia].
        exfalso. apply Hdead. reflexivity. }
  rewrite Hperm. unfold live_slots. rewrite <- length_app.
  rewrite filter_app_complement. rewrite length_seq. exact Hlen.
Qed.

(** C8.  After any sequence of acquire, attach, get and put calls of any
    processes on a pool started with [N] shared contexts:
    - no reference count is negative, and a slot is on the free list
      exactly when its count is zero; the free list has no slot twice;
    - the live slots and the free slots are [N] together, so there are
      never more than [N] live shared contexts;
    - the shared context of every linked local context has a positive
      count: the decrement of [PutSharedGpuContext] starts from a value
      greater than zero, its assertions hold, and it pushes the slot on
      the free list exactly when the count was one;
    - [PutGpuContext] of a linked context returns normally. *)
Theorem pool_reference_counts (nprocs : nat) (servers : nat -> bool)
    (calls : list (nat * Call)) :
  let w := run env (startup_world N nprocs servers) calls in
  let sh := sharedGpuContextHead w in
  (forall p s, context_array sh !! p = Some s ->
     (0 <= refcnt s)%Z /\ (p ∈ free_list sh <-> refcnt s = 0%Z))
  /\ NoDup (free_list sh)
  /\ length (context_array sh) = N
  /\ length (live_slots sh) + length (free_list sh) = N
  /\ length (live_slots sh) <= N
  /\ (forall pid pr g,
        processes w !! pid = Some pr ->
        g ∈ process_contexts pr ->
        let q := PutSharedGpuContext (IsGpuServerProcess pr) sh
                   (shgcon g) in
        exists s,
          context_array sh !! shgcon g = Some s
          /\ (0 < refcnt s)%Z
          /\ snd q = Return tt
          /\ free_list (fst q)
             = if (refcnt s =? 1)%Z then shgcon g :: free_list sh
               else free_list sh)
  /\ (forall pid pr a ans,
        processes w !! pid = Some pr ->
        is_Some (context_at a (activeGpuContextSlot pr)) ->
        snd (PutGpuContext ans pr sh a) = Return tt).
Proof.
  cbv zeta.
  pose proof (run_invariant env N calls _
                (startup_invariant nprocs servers)) as Hinv.
  set (w := run env (startup_world N nprocs servers) calls) in *.
  pose proof (free_list_length w Hinv) as Hcount.
  split; [|split; [|split; [|split; [|split; [|split]]]]].
  - intros p s Hp. destruct (inv_slot N w Hinv p s Hp) as (Hr & _ & _ & Hin).
    split; [lia | exact Hin].
  - exact (inv_nodup N w Hinv).
  - exact (inv_length N w Hinv).
  - exact Hcount.
  - lia.
  - intros pid pr g Hpr Hg.
    destruct (held_slot w pid pr g Hinv Hpr Hg)
      as (s & Hs & Hpos & Hnot & Hlast).
    exists s. rewrite (put_shared_spec _ _ _ _ Hs Hpos Hlast Hnot).
    auto.
  - intros pid pr a ans Hpr Hat.
    destruct (put_invariant N ans w pid pr a Hinv Hpr) as (_ & Hret).
    apply Hret. exact Hat.
Qed.

End PoolClaim.

(** * The claims evaluated on concrete data *)

(** The sample store: of the two chunks of table 7 only the one the running
    transaction inserted is visible, and the lookup returns it. *)
Lemma lookup_single_visible_witness :
  snd (gstore_fdw_lookup_chunk_nolock Sample.backend Sample.store 7
         Sample.scan)
  = Return (Some 0%nat).
Proof.
  destruct (lookup_single_visible Sample.backend Sample.store 7 Sample.scan)
    as (_ & H & _).
  - apply (bool_decide_unpack _). vm_compute. exact I.
  - apply H. vm_compute. reflexivity.
Defined.

(** A chunk the running transaction inserted in command 3 and deleted in
    command 6, seen by its command 5, is invisible. *)
Lemma own_insert_visibility_witness :
  fst (gstore_fdw_satisfies_visibility Sample.backend
         Sample.own_insert_own_delete Sample.scan) = false.
Proof.
  apply (own_insert_visibility Sample.backend Sample.scan
           Sample.own_insert_own_delete eq_refl eq_refl).
  - reflexivity.
  - reflexivity.
  - vm_compute. discriminate.
Defined.

(** A chunk deleted by transaction 60, which committed: it is invisible and
    the commit is noted in the chunk. *)
Lemma delete_side_visibility_witness :
  fst (gstore_fdw_satisfies_visibility Sample.backend
         Sample.deleted_unmarked Sample.scan) = false
  /\ snd (gstore_fdw_satisfies_visibility Sample.backend
            Sample.deleted_unmarked Sample.scan)
     = set_xmax_commited true
         (set_xmin_commited true Sample.deleted_unmarked).
Proof.
  destruct (delete_side_visibility Sample.backend Sample.scan
              Sample.deleted_unmarked eq_refl eq_refl) as (_ & _ & H & _).
  apply H; reflexivity.
Defined.

(** The chunk of slot 0, inserted by the transaction that aborts, is
    released. *)
Lemma inserter_ends_witness :
  gstoreOnXactCallbackPerChunk Sample.backend false Sample.machine 0%nat 100
  = (false,
     gstore_fdw_release_chunk
       (write_chunk Sample.machine 0%nat Sample.own_insert) 0%nat).
Proof.
  destruct (inserter_ends Sample.backend 100 Sample.machine 0%nat
              Sample.own_insert eq_refl eq_refl) as (_ & H & _).
  exact H.
Defined.

(** The chunk of slot 2, inserted by transaction 50, which precedes the
    oldest xmin 100: the pass does not keep it. *)
Lemma normal_insert_pass_witness :
  fst (gstoreOnXactCallbackPerChunk Sample.backend true Sample.machine 2%nat
         100) = false.
Proof.
  destruct (proj1 (normal_insert_pass Sample.backend) true 100
              Sample.machine 2%nat Sample.old_insert
              eq_refl eq_refl eq_refl) as (H & _).
  - vm_compute. discriminate.
  - exact H.
Defined.

(** An INSERT into table 8 of the sample store, which has its visible
    chunk, is refused. *)
Lemma begin_modify_not_empty_witness :
  snd (gstoreBeginForeignModify Sample.backend (λ d, Return d)
         Sample.machine 8 Sample.scan 0)
  = Error ERRCODE_FEATURE_NOT_SUPPORTED.
Proof.
  destruct (begin_modify_not_empty Sample.backend (λ d, Return d)
              Sample.machine 8 Sample.scan 0) as (H & _).
  - apply (bool_decide_unpack _). vm_compute. exact I.
  - destruct H as (H & _).
    + right. exists 0. reflexivity.
    + apply (H 2%nat). vm_compute. reflexivity.
Defined.


(** Device memory tracked and untracked on a context that tracks nothing
    else. *)
Lemma track_untrack_gpumem_witness :
  GpuContext.untrackGpuMem Sample.tracker_env Sample.fresh_thread
    (snd (GpuContext.trackGpuMem Sample.tracker_env true Sample.fresh_thread
            Sample.fresh_context 4096 17))
    4096
  = (17, {| GpuContext.inactiveResourceTracker := 1%nat;
            GpuContext.notices := [] |}, Sample.fresh_context).
Proof.
  destruct (track_untrack_gpumem Sample.tracker_env true Sample.fresh_thread
              Sample.fresh_context 4096 17) as (H & _).
  - reflexivity.
  - reflexivity.
  - destruct H as (H & _).
    + intros (t & Ht & _). vm_compute in Ht. inversion Ht.
    + destruct (H Sample.fresh_thread
                  (snd (GpuContext.trackGpuMem Sample.tracker_env true
                          Sample.fresh_thread Sample.fresh_context 4096 17))
                  eq_refl) as (tl2 & Hu & _).
      rewrite Hu. vm_compute in Hu. injection Hu as <-. reflexivity.
Defined.

(** A DELETE on table 9 of the sample store, which has no chunk. *)
Lemma direct_modify_precondition_witness :
  gstoreIterateDirectModify Sample.backend Sample.machine 9 Sample.scan 0
  = (with_head Sample.machine
       (fst (gstore_fdw_lookup_chunk Sample.backend Sample.store 9
               Sample.scan)),
     Undefined NullDereference).
Proof.
  destruct (direct_modify_precondition Sample.backend Sample.machine 9
              Sample.scan 0) as (_ & H & _).
  apply H. vm_compute. reflexivity.
Defined.

(** * More of the two files *)

(** ** The store keeps its slots *)

Section StoreLists.

Local Open Scope nat_scope.

Lemma perm_remove (p : nat) (l : list nat) :
  NoDup l -> p ∈ l -> p :: dlist_delete p l ≡ₚ l.
Proof.
  intros Hnd Hin. apply NoDup_Permutation.
  - constructor.
    + apply dlist_delete_gone.
    + apply NoDup_filter. exact Hnd.
  - exact Hnd.
  - intros q. rewrite elem_of_cons. unfold dlist_delete.
    rewrite list_elem_of_filter. split.
    + intros [-> | [_ Hq]]; assumption.
    + intros Hq. destruct (decide (q = p)) as [-> | Hne]; auto.
Qed.

Lemma concat_push_tail {A : Type} (x : A) (ls : list (list A)) (k : nat) :
  k < length ls ->
  concat (<[k := (ls !!! k) ++ [x]]> ls) ≡ₚ x :: concat ls.
Proof.
  revert k. induction ls as [|l ls IH]; intros k Hk; simpl in Hk.
  - lia.
  - destruct k as [|k]; simpl.
    + rewrite <- app_assoc. simpl. rewrite <- Permutation_middle.
      reflexivity.
    + change ((l :: ls) !!! S k) with (ls !!! k).
      rewrite IH by lia. rewrite <- Permutation_middle. reflexivity.
Qed.

Lemma elem_of_bucket {A : Type} (x : A) (ls : list (list A)) (i : nat) :
  x ∈ ls !!! i -> x ∈ concat ls.
Proof.
  intros Hx. apply elem_of_concat.
  destruct (total_lookup_bucket ls i) as [Hnil | Hin].
  - rewrite Hnil in Hx. inversion Hx.
  - eauto.
Qed.

End StoreLists.

Section Payload.

Variable env : XactEnv.

Lemma same_payload_refl (c : GpuStoreChunk) : same_payload c c.
Proof. repeat split. Qed.

Lemma same_payload_trans (c1 c2 c3 : GpuStoreChunk) :
  same_payload c1 c2 -> same_payload c2 c3 -> same_payload c1 c3.
Proof.
  unfold same_payload. intros H1 H2.
  destruct H1 as (?&?&?&?&?&?&?&?&?), H2 as (?&?&?&?&?&?&?&?&?).
  repeat split; congruence.
Qed.

Lemma visibility_of_delete_payload (snapshot : Snapshot) (c : GpuStoreChunk) :
  same_payload c (snd (visibility_of_delete env c snapshot)).
Proof.
  unfold visibility_of_delete. repeat case_if; repeat split.
Qed.

Lemma visibility_payload (snapshot : Snapshot) (c : GpuStoreChunk) :
  same_payload c (snd (gstore_fdw_satisfies_visibility env c snapshot)).
Proof.
  unfold gstore_fdw_satisfies_visibility.
  repeat case_if; try (repeat split; fail);
    try apply visibility_of_delete_payload.
  eapply same_payload_trans; [|apply visibility_of_delete_payload].
  repeat split.
Qed.

Lemma lookup_scan_payload (gstore_oid : Oid) (h : Z) (snapshot : Snapshot)
    (nodes : list nat) :
  forall (cs : list GpuStoreChunk) (gs_chunk : option nat) (q : nat)
         (c' : GpuStoreChunk),
    fst (lookup_scan env gstore_oid h snapshot nodes cs gs_chunk) !! q
    = Some c' ->
    exists c, cs !! q = Some c /\ same_payload c c'.
Proof.
  induction nodes as [|p rest IH]; intros cs g q c' Hq; simpl in Hq.
  - exists c'. split; [exact Hq | apply same_payload_refl].
  - destruct (cs !! p) as [gs_temp|] eqn:Hp; [|eauto].
    destruct (chunk_matches env gstore_oid h gs_temp); [|eauto].
    assert (Hstep : forall c1,
              <[p := snd (gstore_fdw_satisfies_visibility env gs_temp
                            snapshot)]> cs !! q = Some c1 ->
              exists c, cs !! q = Some c /\ same_payload c c1).
    { intros c1 Hc1. destruct (decide (p = q)) as [<- | Hne].
      - rewrite list_lookup_insert_eq in Hc1
          by (apply lookup_lt_is_Some; eauto).
        inversion Hc1; subst c1. exists gs_temp. split; [exact Hp|].
        apply visibility_payload.
      - rewrite list_lookup_insert_ne in Hc1 by exact Hne.
        exists c1. split; [exact Hc1 | apply same_payload_refl]. }
    destruct (fst (gstore_fdw_satisfies_visibility env gs_temp snapshot)).
    + destruct g as [g0|].
      * simpl in Hq. apply Hstep. exact Hq.
      * apply IH in Hq. destruct Hq as (c1 & Hc1 & Hpay).
        destruct (Hstep c1 Hc1) as (c & Hc & Hpay').
        exists c. split; [exact Hc|].
        eapply same_payload_trans; eauto.
    + apply IH in Hq. destruct Hq as (c1 & Hc1 & Hpay).
      destruct (Hstep c1 Hc1) as (c & Hc & Hpay').
      exists c. split; [exact Hc|].
      eapply same_payload_trans; eauto.
Qed.

Lemma lookup_chunk_payload (head : GpuStoreHead) (gstore_oid : Oid)
    (snapshot : Snapshot) (q : nat) (c' : GpuStoreChunk) :
  gs_chunks (fst (gstore_fdw_lookup_chunk env head gstore_oid snapshot)) !! q
  = Some c' ->
  exists c, gs_chunks head !! q = Some c /\ same_payload c c'.
Proof.
  unfold gstore_fdw_lookup_chunk, gstore_fdw_lookup_chunk_nolock.
  cbn [fst gs_chunks with_chunks]. apply lookup_scan_payload.
Qed.

Lemma lookup_chunk_length (head : GpuStoreHead) (gstore_oid : Oid)
    (snapshot : Snapshot) :
  length (gs_chunks (fst (gstore_fdw_lookup_chunk env head gstore_oid
                            snapshot)))
  = length (gs_chunks head).
Proof.
  unfold gstore_fdw_lookup_chunk, gstore_fdw_lookup_chunk_nolock.
  cbn [fst gs_chunks with_chunks]. apply lookup_scan_length.
Qed.

Lemma post_drop_scan_payload (relid : Oid) (h : Z) (nodes : list nat) :
  forall (cs : list GpuStoreChunk) (q : nat) (c' : GpuStoreChunk),
    post_drop_scan env relid h nodes cs !! q = Some c' ->
    exists c, cs !! q = Some c /\ same_payload c c'.
Proof.
  induction nodes as [|p rest IH]; intros cs q c' Hq; simpl in Hq.
  - exists c'. split; [exact Hq | apply same_payload_refl].
  - destruct (cs !! p) as [gs_chunk|] eqn:Hp; [|eauto].
    destruct (chunk_matches env relid h gs_chunk
              && (xmax gs_chunk =? InvalidTransactionId)); [|eauto].
    apply IH in Hq. destruct Hq as (c1 & Hc1 & Hpay).
    destruct (decide (p = q)) as [<- | Hne].
    + rewrite list_lookup_insert_eq in Hc1
        by (apply lookup_lt_is_Some; eauto).
      inversion Hc1; subst c1. exists gs_chunk. split; [exact Hp|].
      eapply same_payload_trans; [|exact Hpay]. repeat split.
    + rewrite list_lookup_insert_ne in Hc1 by exact Hne. eauto.
Qed.

Lemma post_drop_scan_length (relid : Oid) (h : Z) (nodes : list nat) :
  forall cs : list GpuStoreChunk,
    length (post_drop_scan env relid h nodes cs) = length cs.
Proof.
  induction nodes as [|p rest IH]; intros cs; simpl; [reflexivity|].
  destruct (cs !! p) as [gs_chunk|]; [|apply IH].
  destruct (chunk_matches env relid h gs_chunk
            && (xmax gs_chunk =? InvalidTransactionId)); [|apply IH].
  rewrite IH. apply length_insert.
Qed.

End Payload.

Section StoreInvariant.

Local Open Scope nat_scope.

Variable capacity : nat.

Lemma store_ok_slot (head : GpuStoreHead) (p : nat) :
  store_ok capacity head ->
  p < length (gs_chunks head) ->
  NoDup (free_chunks head ++ concat (active_chunks head))
  /\ p ∈ free_chunks head ++ concat (active_chunks head).
Proof.
  intros [Hlen Hb Hperm Hhash] Hp. split.
  - rewrite Hperm. apply NoDup_seq.
  - rewrite Hperm. apply elem_of_seq. lia.
Qed.

(** Descriptors rewritten in place, each keeping its hash value. *)
Lemma store_ok_chunks (head : GpuStoreHead) (flag : Z)
    (cs : list GpuStoreChunk) :
  store_ok capacity head ->
  length cs = length (gs_chunks head) ->
  (forall q c c', gs_chunks head !! q = Some c -> cs !! q = Some c' ->
                  hash c' = hash c) ->
  store_ok capacity
    {| has_warm_chunks := flag; free_chunks := free_chunks head;
       active_chunks := active_chunks head; gs_chunks := cs |}.
Proof.
  intros [Hlen Hb Hperm Hhash] Hcs Hsame.
  constructor; cbn [gs_chunks active_chunks free_chunks]; try assumption.
  - lia.
  - intros i p c' Hp Hc'.
    assert (Hlt : p < length (gs_chunks head)).
    { rewrite <- Hcs. apply lookup_lt_is_Some. eauto. }
    destruct (lookup_lt_is_Some_2 _ _ Hlt) as (c & Hc).
    rewrite (Hsame p c c' Hc Hc'). eapply Hhash; eauto.
Qed.

Lemma store_ok_payload (head : GpuStoreHead) (flag : Z)
    (cs : list GpuStoreChunk) :
  store_ok capacity head ->
  length cs = length (gs_chunks head) ->
  (forall q c', cs !! q = Some c' ->
     exists c, gs_chunks head !! q = Some c /\ same_payload c c') ->
  store_ok capacity
    {| has_warm_chunks := flag; free_chunks := free_chunks head;
       active_chunks := active_chunks head; gs_chunks := cs |}.
Proof.
  intros Hok Hlen Hpay. apply store_ok_chunks; try assumption.
  intros q c c' Hc Hc'. destruct (Hpay q c' Hc') as (c0 & Hc0 & Hp).
  rewrite Hc in Hc0. inversion Hc0; subst c0. apply Hp.
Qed.

Lemma write_chunk_store_ok (m : Machine) (p : nat) (c c0 : GpuStoreChunk) :
  store_ok capacity (gstore_head m) ->
  gs_chunks (gstore_head m) !! p = Some c0 ->
  hash c = hash c0 ->
  store_ok capacity (gstore_head (write_chunk m p c)).
Proof.
  intros Hok Hp Hh. unfold write_chunk, with_head, with_chunks.
  cbn [gstore_head].
  apply store_ok_chunks; [exact Hok | apply length_insert |].
  intros q c1 c2 Hc1 Hc2. destruct (decide (p = q)) as [<- | Hne].
  - rewrite list_lookup_insert_eq in Hc2
      by (apply lookup_lt_is_Some; eauto).
    congruence.
  - rewrite list_lookup_insert_ne in Hc2 by exact Hne. congruence.
Qed.

Lemma release_store_ok (m : Machine) (p : nat) :
  store_ok capacity (gstore_head m) ->
  store_ok capacity (gstore_head (gstore_fdw_release_chunk m p)).
Proof.
  intros Hok. unfold gstore_fdw_release_chunk.
  destruct (gs_chunks (gstore_head m) !! p) as [c|] eqn:Hp; [|exact Hok].
  cbn [gstore_head].
  assert (Hlt : p < length (gs_chunks (gstore_head m))).
  { apply lookup_lt_is_Some. eauto. }
  destruct (store_ok_slot _ p Hok Hlt) as (Hnd & Hin).
  destruct Hok as [Hlen Hb Hperm Hhash].
  constructor; cbn [gs_chunks active_chunks free_chunks].
  - rewrite length_insert. exact Hlen.
  - rewrite length_fmap. exact Hb.
  - rewrite <- Hperm.
    assert (Heq : dlist_delete p (free_chunks (gstore_head m))
                  ++ concat (dlist_delete p <$> active_chunks (gstore_head m))
                  = dlist_delete p (free_chunks (gstore_head m)
                                    ++ concat (active_chunks (gstore_head m)))).
    { unfold dlist_delete. rewrite filter_app, list_filter_concat.
      reflexivity. }
    simpl. rewrite Heq. apply (perm_remove p _ Hnd Hin).
  - intros i q c' Hq Hc'. rewrite total_lookup_fmap_delete in Hq.
    unfold dlist_delete in Hq. apply list_elem_of_filter in Hq.
    destruct Hq as (Hne & Hq).
    rewrite list_lookup_insert_ne in Hc' by congruence.
    eapply Hhash; eauto.
Qed.

Lemma per_chunk_store_ok (env : XactEnv) (is_commit : bool)
    (oldestXmin : TransactionId) (m : Machine) (p : nat) :
  store_ok capacity (gstore_head m) ->
  store_ok capacity
    (gstore_head
       (snd (gstoreOnXactCallbackPerChunk env is_commit m p oldestXmin))).
Proof.
  intros Hok. unfold gstoreOnXactCallbackPerChunk.
  destruct (gs_chunks (gstore_head m) !! p) as [c0|] eqn:Hp; [|exact Hok].
  set (c1 := if TransactionIdIsCurrentTransactionId env (xmax c0)
             then if is_commit then set_xmax_commited true c0
                  else set_xmax InvalidTransactionId c0
             else c0).
  assert (H1 : hash c1 = hash c0).
  { unfold c1. repeat case_if; reflexivity. }
  clearbody c1.
  destruct (TransactionIdIsCurrentTransactionId env (xmin c1)
            && negb is_commit).
  { cbn [snd]. apply release_store_ok.
    apply write_chunk_store_ok with c0; assumption. }
  set (c2 := if TransactionIdIsCurrentTransactionId env (xmin c1)
             then set_xmin_commited true c1 else c1).
  assert (H2 : hash c2 = hash c0).
  { unfold c2. case_if; [|exact H1]. exact H1. }
  clearbody c2.
  repeat case_if; cbn [snd];
    try apply release_store_ok;
    apply write_chunk_store_ok with c0; assumption.
Qed.

Lemma callback_nodes_store_ok (env : XactEnv) (is_commit : bool)
    (oldestXmin : TransactionId) (nodes : list nat) :
  forall (m : Machine) (meet : bool),
    store_ok capacity (gstore_head m) ->
    store_ok capacity
      (gstore_head
         (snd (callback_nodes env is_commit oldestXmin nodes m meet))).
Proof.
  induction nodes as [|p rest IH]; intros m meet Hok; simpl.
  - exact Hok.
  - apply IH. apply per_chunk_store_ok. exact Hok.
Qed.

Lemma callback_slots_store_ok (env : XactEnv) (is_commit : bool)
    (oldestXmin : TransactionId) (slots : list nat) :
  forall (m : Machine) (meet : bool),
    store_ok capacity (gstore_head m) ->
    store_ok capacity
      (gstore_head
         (snd (callback_slots env is_commit oldestXmin slots m meet))).
Proof.
  induction slots as [|i rest IH]; intros m meet Hok; simpl.
  - exact Hok.
  - apply IH. apply callback_nodes_store_ok. exact Hok.
Qed.

Lemma store_ok_flag (head : GpuStoreHead) (flag : Z) :
  store_ok capacity head ->
  store_ok capacity
    {| has_warm_chunks := flag; free_chunks := free_chunks head;
       active_chunks := active_chunks head; gs_chunks := gs_chunks head |}.
Proof.
  intros Hok. apply store_ok_chunks; [exact Hok | reflexivity |].
  intros q c c' Hc Hc'. congruence.
Qed.

Lemma xact_callback_store_ok (env : XactEnv) (event : XactEvent)
    (m : Machine) :
  store_ok capacity (gstore_head m) ->
  store_ok capacity (gstore_head (gstoreXactCallback env event m)).
Proof.
  intros Hok.
  assert (Hrun : forall is_commit,
            store_ok capacity
              (gstore_head
                 (if (has_warm_chunks (gstore_head m) =? 0)%Z then m
                  else
                    let r := callback_slots env is_commit (GetOldestXmin env)
                               (seq 0 (Z.to_nat GSTORE_CHUNK_HASH_NSLOTS)) m
                               false in
                    if negb (fst r) then set_has_warm_chunks 0 (snd r)
                    else snd r))).
  { intros is_commit.
    destruct (has_warm_chunks (gstore_head m) =? 0)%Z; [exact Hok|].
    cbv zeta.
    pose proof (callback_slots_store_ok env is_commit (GetOldestXmin env)
                  (seq 0 (Z.to_nat GSTORE_CHUNK_HASH_NSLOTS)) m false Hok)
      as Hs.
    destruct (negb _); [|exact Hs].
    unfold set_has_warm_chunks, with_head. cbn [gstore_head].
    apply store_ok_flag. exact Hs. }
  unfold gstoreXactCallback. destruct event; [apply Hrun | apply Hrun | exact Hok].
Qed.

Lemma lookup_store_ok (env : XactEnv) (head : GpuStoreHead) (relid : Oid)
    (snapshot : Snapshot) :
  store_ok capacity head ->
  store_ok capacity (fst (gstore_fdw_lookup_chunk env head relid snapshot)).
Proof.
  intros Hok.
  pose proof (lookup_chunk_length env head relid snapshot) as Hlen.
  pose proof (lookup_chunk_payload env head relid snapshot) as Hpay.
  unfold gstore_fdw_lookup_chunk, gstore_fdw_lookup_chunk_nolock in *.
  cbn [fst gs_chunks with_chunks] in *.
  apply store_ok_payload; assumption.
Qed.

Lemma post_drop_store_ok (env : XactEnv) (m : Machine) (relid : Oid) :
  store_ok capacity (gstore_head m) ->
  store_ok capacity (gstore_head (gstore_fdw_post_drop env m relid)).
Proof.
  intros Hok. unfold gstore_fdw_post_drop, with_head. cbn [gstore_head].
  apply store_ok_payload.
  - exact Hok.
  - apply post_drop_scan_length.
  - apply post_drop_scan_payload.
Qed.

Lemma begin_modify_store_ok (env : XactEnv) (alloc : Z -> Outcome Z)
    (m : Machine) (relid : Oid) (snapshot : Snapshot) (pinning : Z) :
  store_ok capacity (gstore_head m) ->
  store_ok capacity
    (gstore_head
       (fst (gstoreBeginForeignModify env alloc m relid snapshot pinning))).
Proof.
  intros Hok. unfold gstoreBeginForeignModify.
  pose proof (lookup_store_ok env (gstore_head m) relid snapshot Hok) as Hl.
  destruct (0 <=? pinning)%Z; [destruct (alloc pinning)|];
    try exact Hok;
    destruct (snd (gstore_fdw_lookup_chunk env (gstore_head m) relid
                     snapshot)) as [[q|]| | |];
    exact Hl.
Qed.

Lemma direct_modify_store_ok (env : XactEnv) (m : Machine) (relid : Oid)
    (snapshot : Snapshot) (es_processed : Z) :
  store_ok capacity (gstore_head m) ->
  store_ok capacity
    (gstore_head
       (fst (gstoreIterateDirectModify env m relid snapshot es_processed))).
Proof.
  intros Hok. unfold gstoreIterateDirectModify.
  pose proof (lookup_store_ok env (gstore_head m) relid snapshot Hok) as Hl.
  set (r := gstore_fdw_lookup_chunk env (gstore_head m) relid snapshot) in *.
  clearbody r. destruct (snd r) as [[p|]| | |]; try exact Hl.
  cbn [gstore_head with_head].
  destruct (gs_chunks (fst r) !! p) as [c|] eqn:Hp; [|exact Hl].
  destruct (TransactionIdIsValid (xmax c)); [exact Hl|].
  cbn [fst gstore_head].
  apply store_ok_chunks; [exact Hl | apply length_insert |].
  intros q c1 c2 Hc1 Hc2. destruct (decide (p = q)) as [<- | Hne].
  - rewrite list_lookup_insert_eq in Hc2
      by (apply lookup_lt_is_Some; eauto).
    rewrite Hp in Hc1. inversion Hc1; subst c1.
    inversion Hc2; subst c2. reflexivity.
  - rewrite list_lookup_insert_ne in Hc2 by exact Hne. congruence.
Qed.

Lemma writeout_store_ok (env : XactEnv) (cuda : CudaAnswers) (m : Machine)
    (relid : Oid) (gs_lstate : gstoreLoadState) (dsm_seg kds_len kds_n : Z) :
  store_ok capacity (gstore_head m) ->
  store_ok capacity
    (gstore_head
       (fst (gstore_fdw_writeout_pgstrom env cuda m relid gs_lstate dsm_seg
               kds_len kds_n))).
Proof.
  intros Hok. unfold gstore_fdw_writeout_pgstrom.
  set (loaded := match gcontext gs_lstate with
                 | Some _ => _
                 | None => _
                 end).
  clearbody loaded.
  destruct (snd loaded) as [mhandle| | |]; try exact Hok.
  cbn [gstore_head with_device].
  destruct (free_chunks (gstore_head m)) as [|p free] eqn:Hfree;
    [exact Hok|].
  cbn [fst gstore_head].
  set (h := legacy_crc32_oid2 env (MyDatabaseId env) relid).
  destruct Hok as [Hlen Hb Hperm Hhash].
  assert (Hi : hash_index h < length (active_chunks (gstore_head m))).
  { rewrite Hb. unfold hash_index, GSTORE_CHUNK_HASH_NSLOTS.
    pose proof (Z.mod_pos_bound h 97 ltac:(lia)). lia. }
  assert (Hnd : NoDup (p :: free ++ concat (active_chunks (gstore_head m)))).
  { rewrite Hfree in Hperm. simpl in Hperm. rewrite Hperm.
    apply NoDup_seq. }
  apply NoDup_cons in Hnd. destruct Hnd as (Hp & Hnd).
  rewrite elem_of_app in Hp.
  constructor; cbn [gs_chunks active_chunks free_chunks].
  - rewrite length_insert. exact Hlen.
  - rewrite length_insert. exact Hb.
  - rewrite concat_push_tail by exact Hi.
    rewrite <- Permutation_middle. rewrite <- Hperm, Hfree. reflexivity.
  - intros i q c Hq Hc. destruct (decide (i = hash_index h)) as [-> | Hi'].
    + rewrite list_lookup_total_insert_eq in Hq by exact Hi.
      apply elem_of_app in Hq. destruct Hq as [Hq | Hq].
      * assert (q ≠ p).
        { intros ->. apply Hp. right. exact (elem_of_bucket _ _ _ Hq). }
        rewrite list_lookup_insert_ne in Hc by congruence.
        eapply Hhash; eauto.
      * apply list_elem_of_singleton in Hq. subst q.
        pose proof (lookup_lt_Some _ _ _ Hc) as Hlt.
        rewrite length_insert in Hlt.
        rewrite list_lookup_insert_eq in Hc by exact Hlt.
        inversion Hc; subst c. reflexivity.
    + rewrite list_lookup_total_insert_ne in Hq by congruence.
      assert (q ≠ p).
      { intros ->. apply Hp. right. exact (elem_of_bucket _ _ _ Hq). }
      rewrite list_lookup_insert_ne in Hc by congruence.
      eapply Hhash; eauto.
Qed.

Lemma store_call_ok (env : XactEnv) (c : StoreCall) (m : Machine) :
  store_ok capacity (gstore_head m) ->
  store_ok capacity (gstore_head (store_call env c m)).
Proof.
  intros Hok. destruct c; cbn [store_call].
  - cbn [gstore_head with_head]. apply lookup_store_ok. exact Hok.
  - apply begin_modify_store_ok. exact Hok.
  - apply writeout_store_ok. exact Hok.
  - apply direct_modify_store_ok. exact Hok.
  - apply xact_callback_store_ok. exact Hok.
  - apply post_drop_store_ok. exact Hok.
Qed.

Lemma store_run_ok (calls : list (nat * XactEnv * StoreCall)) :
  forall w : StoreWorld,
    store_ok capacity (store_shared w) ->
    store_ok capacity (store_shared (store_run w calls)).
Proof.
  induction calls as [|[[pid env] c] rest IH]; intros w Hok; simpl.
  - exact Hok.
  - apply IH. unfold store_step.
    destruct (store_maps w !! pid) as [maps|]; [|exact Hok].
    cbn [store_shared]. apply store_call_ok. exact Hok.
Qed.

Lemma startup_store_ok (nprocs : nat) (flag0 : Z) (d : DeviceState) :
  store_ok capacity (store_shared (store_startup capacity nprocs flag0 d)).
Proof.
  unfold store_startup, pgstrom_startup_gstore_fdw.
  cbn [store_shared gstore_head].
  constructor; cbn [gs_chunks active_chunks free_chunks].
  - apply length_replicate.
  - apply length_replicate.
  - rewrite concat_replicate_nil. rewrite app_nil_r. reflexivity.
  - intros i p c Hp.
    destruct (total_lookup_bucket
                (replicate (Z.to_nat GSTORE_CHUNK_HASH_NSLOTS) (@nil nat)) i)
      as [Hnil | Hin].
    + rewrite Hnil in Hp. inversion Hp.
    + apply elem_of_replicate in Hin. destruct Hin as (Hnil & _).
      rewrite Hnil in Hp. inversion Hp.
Qed.

End StoreInvariant.

Section StoreReach.

Local Open Scope nat_scope.

Lemma fmap_total_lookup_seq {A : Type} `{!Inhabited A} (l : list A) (n : nat) :
  length l = n -> (λ i, l !!! i) <$> seq 0 n = l.
Proof.
  intros Hn. apply list_eq. intros i. rewrite list_lookup_fmap.
  destruct (decide (i < n)) as [Hlt | Hge].
  - rewrite lookup_seq_lt by exact Hlt. simpl.
    symmetry. apply list_lookup_lookup_total_lt. lia.
  - rewrite lookup_seq_ge by lia. simpl. symmetry.
    apply lookup_ge_None_2. lia.
Qed.

Lemma active_nodes_concat (head : GpuStoreHead) :
  length (active_chunks head) = Z.to_nat GSTORE_CHUNK_HASH_NSLOTS ->
  active_nodes head = concat (active_chunks head).
Proof.
  intros Hlen. unfold active_nodes, nodes_of.
  rewrite (fmap_total_lookup_seq _ _ Hlen). reflexivity.
Qed.

Lemma NoDup_concat_elem {A : Type} (ls : list (list A)) (l : list A) :
  NoDup (concat ls) -> l ∈ ls -> NoDup l.
Proof.
  induction ls as [|l0 ls IH]; intros Hnd Hin.
  - inversion Hin.
  - simpl in Hnd. apply NoDup_app in Hnd. destruct Hnd as (H0 & _ & Hrest).
    apply elem_of_cons in Hin. destruct Hin as [-> | Hin]; auto.
Qed.

Lemma NoDup_bucket {A : Type} (ls : list (list A)) (i : nat) :
  NoDup (concat ls) -> NoDup (ls !!! i).
Proof.
  intros Hnd. destruct (total_lookup_bucket ls i) as [-> | Hin].
  - constructor.
  - eapply NoDup_concat_elem; eauto.
Qed.

Lemma store_ok_bucket (capacity : nat) (head : GpuStoreHead) (i : nat) :
  store_ok capacity head -> NoDup (active_chunks head !!! i).
Proof.
  intros [_ _ Hperm _]. apply NoDup_bucket.
  assert (Hnd : NoDup (free_chunks head ++ concat (active_chunks head))).
  { rewrite Hperm. apply NoDup_seq. }
  apply NoDup_app in Hnd. tauto.
Qed.

(** X1.  Over every sequence of lookups, INSERT begins, write-outs, direct
    deletes, transaction callbacks and DROP marks that any backends make on
    a store started with [capacity] descriptors: the array keeps its
    length; every slot is on the free list or on one bucket, and there
    once, so the free and the linked slots are [capacity] together; no
    bucket holds a slot twice; and every linked descriptor is on the
    bucket its own hash value selects. *)
Theorem store_slots_conserved (capacity nprocs : nat) (flag0 : Z)
    (d : DeviceState) (calls : list (nat * XactEnv * StoreCall)) :
  let head :=
    store_shared (store_run (store_startup capacity nprocs flag0 d) calls) in
  length (gs_chunks head) = capacity
  /\ NoDup (free_chunks head ++ active_nodes head)
  /\ length (free_chunks head) + length (active_nodes head) = capacity
  /\ (forall p, p < capacity <->
                p ∈ free_chunks head \/ p ∈ active_nodes head)
  /\ (forall i, NoDup (active_chunks head !!! i))
  /\ (forall i p c,
        p ∈ active_chunks head !!! i ->
        gs_chunks head !! p = Some c ->
        i = hash_index (hash c)).
Proof.
  cbv zeta.
  pose proof (store_run_ok capacity calls _
                (startup_store_ok capacity nprocs flag0 d)) as Hok.
  set (head := store_shared _) in *. clearbody head.
  destruct Hok as [Hlen Hb Hperm Hhash].
  rewrite (active_nodes_concat head Hb).
  split; [exact Hlen|]. split; [rewrite Hperm; apply NoDup_seq|].
  split; [rewrite <- length_app, Hperm; apply length_seq|].
  split.
  { intros p. rewrite <- elem_of_app, Hperm, elem_of_seq. lia. }
  split.
  { intros i. apply NoDup_bucket.
    assert (Hnd : NoDup (free_chunks head ++ concat (active_chunks head))).
    { rewrite Hperm. apply NoDup_seq. }
    apply NoDup_app in Hnd. tauto. }
  intros i p c Hp Hc. symmetry. eapply Hhash; eauto.
Qed.

End StoreReach.

Section WriteRead.

Variable env : XactEnv.

Lemma lookup_with_tail (reader : XactEnv) (head : GpuStoreHead)
    (relid : Oid) (snapshot : Snapshot) (p : nat) (c : GpuStoreChunk)
    (bucket : list nat) :
  active_chunks head
    !!! hash_index (legacy_crc32_oid2 reader (MyDatabaseId reader) relid)
  = bucket ++ [p] ->
  NoDup (bucket ++ [p]) ->
  gs_chunks head !! p = Some c ->
  chunk_matches reader relid
    (legacy_crc32_oid2 reader (MyDatabaseId reader) relid) c = true ->
  List.filter
    (passes reader relid
       (legacy_crc32_oid2 reader (MyDatabaseId reader) relid) snapshot
       (gs_chunks head)) bucket = [] ->
  snd (gstore_fdw_lookup_chunk reader head relid snapshot)
  = if fst (gstore_fdw_satisfies_visibility reader c snapshot)
    then Return (Some p) else Return None.
Proof.
  intros Hb Hnd Hc Hm Hnone.
  destruct (lookup_nolock_answer reader head relid snapshot)
    as (H0 & H1 & _).
  { rewrite Hb. exact Hnd. }
  unfold gstore_fdw_lookup_chunk.
  assert (Hvis : visible_chunks reader head relid snapshot
                 = if fst (gstore_fdw_satisfies_visibility reader c snapshot)
                   then [p] else []).
  { unfold visible_chunks. rewrite Hb, List.filter_app, Hnone. simpl.
    unfold passes at 1. rewrite Hc, Hm. simpl.
    destruct (fst _); reflexivity. }
  destruct (fst (gstore_fdw_satisfies_visibility reader c snapshot)).
  - apply H1. exact Hvis.
  - apply H0. exact Hvis.
Qed.

End WriteRead.

(** ** Writing a chunk, then reading *)

Section WriteRead2.

Variable env : XactEnv.
Variable capacity : nat.

(** The descriptor a write-out registers. *)
Lemma writeout_registers (cuda : CudaAnswers) (m m' : Machine)
    (relid : Oid) (gs_lstate : gstoreLoadState) (dsm_seg kds_len kds_n : Z) :
  store_ok capacity (gstore_head m) ->
  gstore_fdw_writeout_pgstrom env cuda m relid gs_lstate dsm_seg kds_len
    kds_n = (m', Return tt) ->
  exists (p : nat) (c : GpuStoreChunk),
    head (free_chunks (gstore_head m)) = Some p
    /\ gs_chunks (gstore_head m') = <[p := c]> (gs_chunks (gstore_head m))
    /\ gs_chunks (gstore_head m') !! p = Some c
    /\ active_chunks (gstore_head m')
         !!! hash_index (legacy_crc32_oid2 env (MyDatabaseId env) relid)
       = (active_chunks (gstore_head m)
            !!! hash_index (legacy_crc32_oid2 env (MyDatabaseId env) relid))
         ++ [p]
    /\ (p ∉ active_chunks (gstore_head m)
              !!! hash_index (legacy_crc32_oid2 env (MyDatabaseId env) relid))
    /\ hash c = legacy_crc32_oid2 env (MyDatabaseId env) relid
    /\ database_oid c = MyDatabaseId env
    /\ table_oid c = relid
    /\ xmin c = GetCurrentTransactionId env
    /\ xmax c = InvalidTransactionId
    /\ cid c = GetCurrentCommandId env
    /\ xmin_commited c = false
    /\ xmax_commited c = false
    /\ kds_nitems c = kds_n
    /\ kds_length c = kds_len.
Proof.
  intros Hok Hw. unfold gstore_fdw_writeout_pgstrom in Hw.
  set (loaded := match gcontext gs_lstate with
                 | Some _ => _
                 | None => _
                 end) in Hw.
  clearbody loaded.
  destruct (snd loaded) as [mhandle| | |]; try discriminate Hw.
  cbn [gstore_head with_device] in Hw.
  destruct (free_chunks (gstore_head m)) as [|p free] eqn:Hfree;
    [discriminate Hw|].
  inversion Hw as [Hm']. clear Hw. cbn [gstore_head gs_chunks active_chunks].
  set (h := legacy_crc32_oid2 env (MyDatabaseId env) relid).
  destruct Hok as [Hlen Hb Hperm Hhash].
  assert (Hi : (hash_index h < length (active_chunks (gstore_head m)))%nat).
  { rewrite Hb. unfold hash_index, GSTORE_CHUNK_HASH_NSLOTS.
    pose proof (Z.mod_pos_bound h 97 ltac:(lia)). lia. }
  assert (Hnd : NoDup (p :: free ++ concat (active_chunks (gstore_head m)))).
  { rewrite Hfree in Hperm. simpl in Hperm. rewrite Hperm.
    apply NoDup_seq. }
  assert (Hplt : (p < length (gs_chunks (gstore_head m)))%nat).
  { rewrite Hlen. apply (elem_of_seq 0). rewrite <- Hperm, Hfree. left. }
  apply NoDup_cons in Hnd. destruct Hnd as (Hp & Hnd).
  rewrite elem_of_app in Hp.
  eexists p, _. split; [reflexivity|]. split; [reflexivity|].
  split; [apply list_lookup_insert_eq; exact Hplt|].
  split; [apply list_lookup_total_insert_eq; exact Hi|].
  split.
  { intros Hin. apply Hp. right. exact (elem_of_bucket _ _ _ Hin). }
  cbn. repeat split; reflexivity.
Qed.

(** What a lookup by [reader], a backend of the same database, answers
    after the write-out when it saw no chunk of the table before. *)
Lemma writeout_then_lookup (cuda : CudaAnswers) (m m' : Machine)
    (relid : Oid) (gs_lstate : gstoreLoadState) (dsm_seg kds_len kds_n : Z)
    (reader : XactEnv) (snapshot : Snapshot) :
  store_ok capacity (gstore_head m) ->
  gstore_fdw_writeout_pgstrom env cuda m relid gs_lstate dsm_seg kds_len
    kds_n = (m', Return tt) ->
  same_database env reader ->
  visible_chunks reader (gstore_head m) relid snapshot = [] ->
  exists (p : nat) (c : GpuStoreChunk),
    head (free_chunks (gstore_head m)) = Some p
    /\ gs_chunks (gstore_head m') !! p = Some c
    /\ xmin c = GetCurrentTransactionId env
    /\ xmax c = InvalidTransactionId
    /\ cid c = GetCurrentCommandId env
    /\ xmin_commited c = false
    /\ kds_nitems c = kds_n
    /\ kds_length c = kds_len
    /\ snd (gstore_fdw_lookup_chunk reader (gstore_head m') relid snapshot)
       = if fst (gstore_fdw_satisfies_visibility reader c snapshot)
         then Return (Some p) else Return None.
Proof.
  intros Hok Hw (Hdb & Hcrc) Hnone.
  destruct (writeout_registers _ _ _ _ _ _ _ _ Hok Hw)
    as (p & c & Hhead & Hcs & Hc & Hb & Hp & Hh & Hd & Ht & Hxmin & Hxmax
        & Hcid & Hmc & _ & Hn & Hl).
  assert (Hok' : store_ok capacity (gstore_head m')).
  { pose proof (writeout_store_ok capacity env cuda m relid gs_lstate
                  dsm_seg kds_len kds_n Hok) as H.
    rewrite Hw in H. exact H. }
  exists p, c. repeat (split; [assumption|]).
  assert (Hh' : legacy_crc32_oid2 reader (MyDatabaseId reader) relid
                = legacy_crc32_oid2 env (MyDatabaseId env) relid).
  { rewrite Hcrc, Hdb. reflexivity. }
  unfold visible_chunks in Hnone. rewrite Hh' in Hnone.
  eapply lookup_with_tail.
  - rewrite Hh'. exact Hb.
  - rewrite <- Hb. eapply store_ok_bucket. exact Hok'.
  - exact Hc.
  - unfold chunk_matches. rewrite Hh', Hh, Hd, Ht, Hdb, !Z.eqb_refl.
    reflexivity.
  - rewrite Hh', Hcs. rewrite filter_passes_insert by exact Hp.
    exact Hnone.
Qed.

Lemma chunk_report_found (field : GpuStoreChunk -> Z) (reader : XactEnv)
    (head : GpuStoreHead) (relid : Oid) (snapshot : Snapshot) (p : nat)
    (c : GpuStoreChunk) :
  gs_chunks head !! p = Some c ->
  (forall c', same_payload c c' -> field c' = field c) ->
  snd (gstore_fdw_lookup_chunk reader head relid snapshot)
  = Return (Some p) ->
  snd (chunk_report field reader true head relid snapshot)
  = Return (Some (field c)).
Proof.
  intros Hc Hf Hl. unfold chunk_report. cbn [negb]. rewrite Hl.
  pose proof (lookup_chunk_length reader head relid snapshot) as Hlen.
  pose proof (lookup_chunk_payload reader head relid snapshot p) as Hpay.
  destruct (gs_chunks (fst (gstore_fdw_lookup_chunk reader head relid
                              snapshot)) !! p) as [c'|] eqn:Hc'.
  - destruct (Hpay c' eq_refl) as (c0 & Hc0 & Hsame).
    rewrite Hc in Hc0. inversion Hc0; subst c0.
    cbn [snd]. rewrite (Hf c' Hsame). reflexivity.
  - exfalso. apply lookup_ge_None_1 in Hc'. apply lookup_lt_Some in Hc.
    lia.
Qed.

Lemma chunk_report_none (field : GpuStoreChunk -> Z) (reader : XactEnv)
    (head : GpuStoreHead) (relid : Oid) (snapshot : Snapshot) :
  snd (gstore_fdw_lookup_chunk reader head relid snapshot) = Return None ->
  snd (chunk_report field reader true head relid snapshot)
  = Return (Some 0).
Proof.
  intros Hl. unfold chunk_report. cbn [negb]. rewrite Hl. reflexivity.
Qed.

(** X2.  After a write-out that returns, made by a transaction with a valid
    id for a table of which the snapshot saw no chunk: for the writer,
    [pgstrom_gstore_fdw_height] and [pgstrom_gstore_fdw_rawsize] give the
    rows and the bytes written in every later command, and 0 in the command
    that wrote and in earlier ones; another backend of the database for
    whose snapshot the writer is in progress gets 0. *)
Theorem write_then_read (cuda : CudaAnswers) (m m' : Machine)
    (relid : Oid) (gs_lstate : gstoreLoadState) (dsm_seg kds_len kds_n : Z) :
  store_ok capacity (gstore_head m) ->
  gstore_fdw_writeout_pgstrom env cuda m relid gs_lstate dsm_seg kds_len
    kds_n = (m', Return tt) ->
  TransactionIdIsValid (GetCurrentTransactionId env) = true ->
  TransactionIdIsCurrentTransactionId env (GetCurrentTransactionId env)
  = true ->
  (forall snapshot,
     visible_chunks env (gstore_head m) relid snapshot = [] ->
     snd (pgstrom_gstore_fdw_height env true (gstore_head m') relid snapshot)
     = Return (Some (if curcid snapshot <=? GetCurrentCommandId env
                     then 0 else kds_n))
     /\ snd (pgstrom_gstore_fdw_rawsize env true (gstore_head m') relid
               snapshot)
        = Return (Some (if curcid snapshot <=? GetCurrentCommandId env
                        then 0 else kds_len)))
  /\ (forall reader snapshot,
        same_database env reader ->
        TransactionIdIsCurrentTransactionId reader
          (GetCurrentTransactionId env) = false ->
        XidInMVCCSnapshot snapshot (GetCurrentTransactionId env) = true ->
        visible_chunks reader (gstore_head m) relid snapshot = [] ->
        snd (pgstrom_gstore_fdw_height reader true (gstore_head m') relid
               snapshot)
        = Return (Some 0)).
Proof.
  intros Hok Hw Hvalid Hown. split.
  - intros snapshot Hnone.
    destruct (writeout_then_lookup _ _ _ _ _ _ _ _ env snapshot Hok Hw)
      as (p & c & _ & Hc & Hxmin & Hxmax & Hcid & Hmc & Hn & Hl & Hlook).
    { split; reflexivity. }
    { exact Hnone. }
    assert (Hvis : fst (gstore_fdw_satisfies_visibility env c snapshot)
                   = negb (curcid snapshot <=? GetCurrentCommandId env)).
    { unfold gstore_fdw_satisfies_visibility.
      rewrite Hmc, Hxmin, Hvalid, Hown, Hcid, Hxmax. cbn [negb].
      destruct (curcid snapshot <=? GetCurrentCommandId env); reflexivity. }
    rewrite Hvis in Hlook.
    unfold pgstrom_gstore_fdw_height, pgstrom_gstore_fdw_rawsize.
    destruct (curcid snapshot <=? GetCurrentCommandId env); cbn [negb] in Hlook.
    + split; apply chunk_report_none; exact Hlook.
    + split.
      * rewrite <- Hn. apply (chunk_report_found kds_nitems _ _ _ _ p c Hc);
          [|exact Hlook].
        intros c' Hs. apply Hs.
      * rewrite <- Hl. apply (chunk_report_found kds_length _ _ _ _ p c Hc);
          [|exact Hlook].
        intros c' Hs. apply Hs.
  - intros reader snapshot Hsame Hnot Hin Hnone.
    destruct (writeout_then_lookup _ _ _ _ _ _ _ _ reader snapshot Hok Hw
                Hsame Hnone)
      as (p & c & _ & Hc & Hxmin & Hxmax & Hcid & Hmc & Hn & Hl & Hlook).
    assert (Hvis : fst (gstore_fdw_satisfies_visibility reader c snapshot)
                   = false).
    { unfold gstore_fdw_satisfies_visibility.
      rewrite Hmc, Hxmin, Hvalid, Hnot, Hin. reflexivity. }
    rewrite Hvis in Hlook.
    apply chunk_report_none. exact Hlook.
Qed.

End WriteRead2.

(** ** Repeating the visibility test and the lookup *)

Section Idempotent.

Variable env : XactEnv.
Variable snapshot : Snapshot.

Lemma visibility_of_delete_again (c : GpuStoreChunk) :
  visibility_of_delete env (snd (visibility_of_delete env c snapshot))
    snapshot
  = visibility_of_delete env c snapshot.
Proof.
  unfold visibility_of_delete.
  destruct (TransactionIdIsValid (xmax c)) eqn:Hv; cbn [negb snd];
    [|rewrite Hv; reflexivity].
  destruct (xmax_commited c) eqn:Hc; cbn [negb].
  - destruct (XidInMVCCSnapshot snapshot (xmax c)) eqn:Hs; cbn [snd];
      rewrite Hv, Hc, Hs; reflexivity.
  - destruct (TransactionIdIsCurrentTransactionId env (xmax c)) eqn:Ho.
    + destruct (curcid snapshot <=? cid c) eqn:Hcid; cbn [snd negb];
        rewrite Hv, Hc, Ho, Hcid; reflexivity.
    + destruct (XidInMVCCSnapshot snapshot (xmax c)) eqn:Hs.
      * cbn [snd negb]. rewrite Hv, Hc, Ho, Hs. reflexivity.
      * destruct (TransactionIdDidCommit env (xmax c)) eqn:Hd;
          cbn [snd negb xmax xmax_commited set_xmax set_xmax_commited].
        -- rewrite Hv, Hs. reflexivity.
        -- reflexivity.
Qed.

Lemma visibility_of_delete_insert_side (c : GpuStoreChunk) :
  xmin (snd (visibility_of_delete env c snapshot)) = xmin c
  /\ xmin_commited (snd (visibility_of_delete env c snapshot))
     = xmin_commited c.
Proof.
  unfold visibility_of_delete. repeat case_if; split; reflexivity.
Qed.

Lemma visibility_again (c : GpuStoreChunk) :
  gstore_fdw_satisfies_visibility env
    (snd (gstore_fdw_satisfies_visibility env c snapshot)) snapshot
  = gstore_fdw_satisfies_visibility env c snapshot.
Proof.
  unfold gstore_fdw_satisfies_visibility at 2 3.
  destruct (xmin_commited c) eqn:Hmc; cbn [negb].
  - destruct (negb (xmin c =? FrozenTransactionId)
              && XidInMVCCSnapshot snapshot (xmin c)) eqn:Hs.
    + cbn [snd]. unfold gstore_fdw_satisfies_visibility.
      rewrite Hmc, Hs. reflexivity.
    + unfold gstore_fdw_satisfies_visibility.
      destruct (visibility_of_delete_insert_side c) as (-> & ->).
      rewrite Hmc, Hs. cbn [negb]. apply visibility_of_delete_again.
  - destruct (TransactionIdIsValid (xmin c)) eqn:Hv; cbn [negb].
    2:{ cbn [snd]. unfold gstore_fdw_satisfies_visibility.
        rewrite Hmc, Hv. reflexivity. }
    destruct (TransactionIdIsCurrentTransactionId env (xmin c)) eqn:Ho.
    + destruct (curcid snapshot <=? cid c) eqn:Hcid.
      { cbn [snd]. unfold gstore_fdw_satisfies_visibility.
        rewrite Hmc, Hv, Ho, Hcid. reflexivity. }
      destruct (xmax c =? InvalidTransactionId) eqn:Hx.
      { cbn [snd]. unfold gstore_fdw_satisfies_visibility.
        rewrite Hmc, Hv, Ho, Hcid, Hx. reflexivity. }
      destruct (TransactionIdIsCurrentTransactionId env (xmax c)) eqn:Hox;
        cbn [negb snd]; unfold gstore_fdw_satisfies_visibility;
        cbn [xmin xmax cid xmin_commited set_xmax];
        rewrite ?Hmc, ?Hv, ?Ho, ?Hcid, ?Hx, ?Hox; reflexivity.
    + destruct (XidInMVCCSnapshot snapshot (xmin c)) eqn:Hs.
      { cbn [snd]. unfold gstore_fdw_satisfies_visibility.
        rewrite Hmc, Hv, Ho, Hs. reflexivity. }
      destruct (TransactionIdDidCommit env (xmin c)) eqn:Hd.
      * unfold gstore_fdw_satisfies_visibility.
        destruct (visibility_of_delete_insert_side
                    (set_xmin_commited true c)) as (-> & ->).
        cbn [xmin xmin_commited set_xmin_commited negb]. rewrite Hs.
        rewrite andb_false_r. apply visibility_of_delete_again.
      * cbn [snd]. unfold gstore_fdw_satisfies_visibility.
        cbn [xmin xmin_commited set_xmin]. rewrite Hmc. reflexivity.
Qed.

Lemma lookup_scan_other (gstore_oid : Oid) (h : Z) (nodes : list nat) :
  forall (cs : list GpuStoreChunk) (gs_chunk : option nat) (q : nat),
    q ∉ nodes ->
    fst (lookup_scan env gstore_oid h snapshot nodes cs gs_chunk) !! q
    = cs !! q.
Proof.
  induction nodes as [|p rest IH]; intros cs g q Hq; simpl; [reflexivity|].
  apply not_elem_of_cons in Hq. destruct Hq as (Hne & Hq).
  destruct (cs !! p) as [gs_temp|] eqn:Hp; [|auto].
  destruct (chunk_matches env gstore_oid h gs_temp); [|auto].
  destruct (fst (gstore_fdw_satisfies_visibility env gs_temp snapshot)).
  - destruct g as [g0|]; cbn [fst].
    + apply list_lookup_insert_ne. congruence.
    + rewrite IH by exact Hq. apply list_lookup_insert_ne. congruence.
  - rewrite IH by exact Hq. apply list_lookup_insert_ne. congruence.
Qed.

Lemma lookup_scan_again (gstore_oid : Oid) (h : Z) (nodes : list nat) :
  NoDup nodes ->
  forall (cs : list GpuStoreChunk) (gs_chunk : option nat),
    lookup_scan env gstore_oid h snapshot nodes
      (fst (lookup_scan env gstore_oid h snapshot nodes cs gs_chunk))
      gs_chunk
    = lookup_scan env gstore_oid h snapshot nodes cs gs_chunk.
Proof.
  induction 1 as [|p rest Hp Hnd IH]; intros cs g; [reflexivity|].
  assert (Hstep : forall cs0 g0,
            lookup_scan env gstore_oid h snapshot (p :: rest) cs0 g0
            = match cs0 !! p with
              | None => lookup_scan env gstore_oid h snapshot rest cs0 g0
              | Some gs_temp =>
                  if chunk_matches env gstore_oid h gs_temp then
                    let r := gstore_fdw_satisfies_visibility env gs_temp
                               snapshot in
                    let cs' := <[p := snd r]> cs0 in
                    if fst r then
                      match g0 with
                      | None =>
                          lookup_scan env gstore_oid h snapshot rest cs'
                            (Some p)
                      | Some _ => (cs', Error ERRCODE_INTERNAL_ERROR)
                      end
                    else lookup_scan env gstore_oid h snapshot rest cs' g0
                  else lookup_scan env gstore_oid h snapshot rest cs0 g0
              end) by reflexivity.
  rewrite (Hstep cs g).
  destruct (cs !! p) as [gs_temp|] eqn:Hcp.
  2:{ rewrite Hstep. rewrite lookup_scan_other by exact Hp.
      rewrite Hcp. apply IH. }
  destruct (chunk_matches env gstore_oid h gs_temp) eqn:Hm.
  2:{ rewrite Hstep. rewrite lookup_scan_other by exact Hp.
      rewrite Hcp, Hm. apply IH. }
  cbv zeta.
  set (r := gstore_fdw_satisfies_visibility env gs_temp snapshot).
  assert (Hlt : (p < length cs)%nat) by (apply lookup_lt_is_Some; eauto).
  assert (Hm' : chunk_matches env gstore_oid h (snd r) = true).
  { destruct (visibility_payload env snapshot gs_temp)
      as (Hh & Hd & Ht & _).
    unfold chunk_matches in *. fold r in Hh, Hd, Ht.
    rewrite Hh, Hd, Ht. exact Hm. }
  assert (Hr : gstore_fdw_satisfies_visibility env (snd r) snapshot = r).
  { apply visibility_again. }
  assert (Hafter : forall g',
            fst (lookup_scan env gstore_oid h snapshot rest
                   (<[p := snd r]> cs) g') !! p = Some (snd r)).
  { intros g'. rewrite lookup_scan_other by exact Hp.
    apply list_lookup_insert_eq. exact Hlt. }
  destruct (fst r) eqn:Hf.
  - destruct g as [g0|].
    + cbn [fst]. rewrite Hstep.
      rewrite list_lookup_insert_eq by exact Hlt.
      rewrite Hm'. cbv zeta. rewrite Hr, Hf.
      rewrite list_insert_insert_eq. reflexivity.
    + rewrite Hstep, Hafter, Hm'. cbv zeta. rewrite Hr, Hf.
      rewrite list_insert_id by apply Hafter. apply IH.
  - rewrite Hstep, Hafter, Hm'. cbv zeta. rewrite Hr, Hf.
    rewrite list_insert_id by apply Hafter. apply IH.
Qed.

End Idempotent.

(** X3.  Evaluating the visibility predicate again on the chunk a first
    evaluation left, with the same snapshot, gives the same answer and
    changes the chunk no more; and a lookup repeated on the store a lookup
    left, for the same table and snapshot, returns the same result and
    leaves that store as it is. *)
Theorem lookup_again (env : XactEnv) (head : GpuStoreHead) (relid : Oid)
    (snapshot : Snapshot) :
  NoDup (active_chunks head
           !!! hash_index (legacy_crc32_oid2 env (MyDatabaseId env) relid)) ->
  (forall c,
     gstore_fdw_satisfies_visibility env
       (snd (gstore_fdw_satisfies_visibility env c snapshot)) snapshot
     = gstore_fdw_satisfies_visibility env c snapshot)
  /\ let r := gstore_fdw_lookup_chunk env head relid snapshot in
     gstore_fdw_lookup_chunk env (fst r) relid snapshot = r.
Proof.
  intros Hnd. split; [apply visibility_again|]. cbv zeta.
  unfold gstore_fdw_lookup_chunk, gstore_fdw_lookup_chunk_nolock.
  cbn [fst snd active_chunks gs_chunks with_chunks].
  rewrite lookup_scan_again by exact Hnd.
  reflexivity.
Qed.

Section ReclaimDelete.

Variable env : XactEnv.

Lemma write_chunk_twice (m : Machine) (p : nat) (a b : GpuStoreChunk) :
  write_chunk (write_chunk m p a) p b = write_chunk m p b.
Proof.
  unfold write_chunk, with_head, with_chunks.
  cbn [gstore_head gs_chunks gstore_maps device has_warm_chunks free_chunks
       active_chunks].
  rewrite list_insert_insert_eq. reflexivity.
Qed.

Lemma write_chunk_same (m : Machine) (p : nat) (c : GpuStoreChunk) :
  gs_chunks (gstore_head m) !! p = Some c -> write_chunk m p c = m.
Proof.
  intros Hc. destruct m as [[flag free active cs] maps dev].
  unfold write_chunk, with_head, with_chunks. cbn in *.
  rewrite list_insert_id by exact Hc. reflexivity.
Qed.

(** What releasing the chunk in slot [p] does. *)
Lemma release_chunk_effects (m : Machine) (p : nat) (c : GpuStoreChunk) :
  gs_chunks (gstore_head m) !! p = Some c ->
  let m' := gstore_fdw_release_chunk m p in
  free_chunks (gstore_head m')
  = p :: dlist_delete p (free_chunks (gstore_head m))
  /\ (forall i, p ∉ active_chunks (gstore_head m') !!! i)
  /\ gs_chunks (gstore_head m') !! p = Some (set_dsm_handle UINT_MAX c)
  /\ gstore_maps m' = <[p := None]> (gstore_maps m)
  /\ device m'
     = (if 0 <=? cuda_dindex c
        then gpuMemFreePreserved (cuda_dindex c) (ipc_mhandle c) (device m)
        else device m)
  /\ (forall reader gstore_oid snapshot,
        snd (gstore_fdw_lookup_chunk reader (gstore_head m') gstore_oid
               snapshot) ≠ Return (Some p)).
Proof.
  intros Hc. cbv zeta.
  destruct (release_chunk_lists m p c Hc) as (Hf & Ha & Hl & _).
  assert (Hgone : forall i,
            p ∉ active_chunks (gstore_head (gstore_fdw_release_chunk m p))
                  !!! i).
  { intros i. rewrite Ha, total_lookup_fmap_delete.
    apply dlist_delete_gone. }
  split; [exact Hf|]. split; [exact Hgone|]. split; [exact Hl|].
  split; [unfold gstore_fdw_release_chunk; rewrite Hc; reflexivity|].
  split; [unfold gstore_fdw_release_chunk; rewrite Hc; reflexivity|].
  intros reader gstore_oid snapshot. apply lookup_unlinked. exact Hgone.
Qed.

(** X4.  One call of [gstoreOnXactCallbackPerChunk] on a chunk that carries
    a delete transaction id, the abort of the deleting or of the inserting
    transaction apart: the delete counts as committed when it was marked so
    or the committing transaction is the deleter; the chunk is kept, with
    the lists, the mapping and the device as they were, while its delete is
    uncommitted or not older than [oldestXmin]; otherwise it is released:
    it heads the free list, is on no bucket, no lookup returns it, its
    mapping is dropped, its segment handle is [UINT_MAX], and the preserved
    device memory of a pinned chunk is given back. *)
Theorem deleted_chunk_pass (is_commit : bool) (oldestXmin : TransactionId)
    (m : Machine) (p : nat) (c : GpuStoreChunk) :
  gs_chunks (gstore_head m) !! p = Some c ->
  TransactionIdIsValid (xmax c) = true ->
  (TransactionIdIsCurrentTransactionId env (xmax c) = true ->
   is_commit = true) ->
  (TransactionIdIsCurrentTransactionId env (xmin c) = true ->
   is_commit = true) ->
  let committed :=
    xmax_commited c || TransactionIdIsCurrentTransactionId env (xmax c) in
  let keep :=
    negb committed || negb (TransactionIdPrecedes env (xmax c) oldestXmin) in
  let r := gstoreOnXactCallbackPerChunk env is_commit m p oldestXmin in
  fst r = keep
  /\ (keep = true ->
      free_chunks (gstore_head (snd r)) = free_chunks (gstore_head m)
      /\ active_chunks (gstore_head (snd r)) = active_chunks (gstore_head m)
      /\ gstore_maps (snd r) = gstore_maps m
      /\ device (snd r) = device m
      /\ exists c',
           gs_chunks (gstore_head (snd r)) !! p = Some c'
           /\ xmax c' = xmax c
           /\ xmax_commited c' = committed)
  /\ (keep = false ->
      free_chunks (gstore_head (snd r))
      = p :: dlist_delete p (free_chunks (gstore_head m))
      /\ (forall i, p ∉ active_chunks (gstore_head (snd r)) !!! i)
      /\ gstore_maps (snd r) = <[p := None]> (gstore_maps m)
      /\ device (snd r)
         = (if 0 <=? cuda_dindex c
            then gpuMemFreePreserved (cuda_dindex c) (ipc_mhandle c)
                   (device m)
            else device m)
      /\ (exists c',
            gs_chunks (gstore_head (snd r)) !! p = Some c'
            /\ dsm_handle c' = UINT_MAX)
      /\ (forall reader gstore_oid snapshot,
            snd (gstore_fdw_lookup_chunk reader (gstore_head (snd r))
                   gstore_oid snapshot) ≠ Return (Some p))).
Proof.
  intros Hc Hvalid Hdel Hins. cbv zeta.
  set (c1 := if TransactionIdIsCurrentTransactionId env (xmax c)
             then set_xmax_commited true c else c).
  set (c2 := if TransactionIdIsCurrentTransactionId env (xmin c)
             then set_xmin_commited true c1 else c1).
  assert (Hx2 : xmax c2 = xmax c /\ cuda_dindex c2 = cuda_dindex c
                /\ ipc_mhandle c2 = ipc_mhandle c
                /\ xmax_commited c2
                   = xmax_commited c
                     || TransactionIdIsCurrentTransactionId env (xmax c)).
  { unfold c2, c1.
    destruct (TransactionIdIsCurrentTransactionId env (xmin c)),
      (TransactionIdIsCurrentTransactionId env (xmax c));
      cbn; rewrite ?orb_true_r, ?orb_false_r; auto. }
  destruct Hx2 as (Hx & Hdi & Hmh & Hxc).
  assert (Hr : gstoreOnXactCallbackPerChunk env is_commit m p oldestXmin
               = if negb (xmax_commited c
                          || TransactionIdIsCurrentTransactionId env (xmax c))
                    || negb (TransactionIdPrecedes env (xmax c) oldestXmin)
                 then (true, write_chunk m p c2)
                 else (false,
                       gstore_fdw_release_chunk (write_chunk m p c2) p)).
  { unfold gstoreOnXactCallbackPerChunk. rewrite Hc.
    assert (H1 : (if TransactionIdIsCurrentTransactionId env (xmax c)
                  then if is_commit then set_xmax_commited true c
                       else set_xmax InvalidTransactionId c
                  else c) = c1).
    { unfold c1.
      destruct (TransactionIdIsCurrentTransactionId env (xmax c));
        [rewrite (Hdel eq_refl)|]; reflexivity. }
    rewrite H1.
    assert (Hxmin1 : xmin c1 = xmin c).
    { unfold c1.
      destruct (TransactionIdIsCurrentTransactionId env (xmax c));
        reflexivity. }
    rewrite Hxmin1.
    assert (H2 : TransactionIdIsCurrentTransactionId env (xmin c)
                 && negb is_commit = false).
    { destruct (TransactionIdIsCurrentTransactionId env (xmin c));
        [rewrite (Hins eq_refl)|]; reflexivity. }
    rewrite H2. fold c2. rewrite Hx, Hvalid, Hxc.
    destruct (xmax_commited c
              || TransactionIdIsCurrentTransactionId env (xmax c));
      cbn [negb orb]; [|reflexivity].
    destruct (TransactionIdPrecedes env (xmax c) oldestXmin);
      reflexivity. }
  rewrite Hr.
  assert (Hw : gs_chunks (gstore_head (write_chunk m p c2)) !! p = Some c2)
    by (eapply write_chunk_lookup; exact Hc).
  destruct (negb (xmax_commited c
                  || TransactionIdIsCurrentTransactionId env (xmax c))
            || negb (TransactionIdPrecedes env (xmax c) oldestXmin)).
  - split; [reflexivity|]. split; [|intros [=]]. intros _. cbn [snd].
    repeat (split; [reflexivity|]).
    exists c2. split; [exact Hw|]. split; [exact Hx | exact Hxc].
  - split; [reflexivity|]. split; [intros [=]|]. intros _. cbn [snd].
    destruct (release_chunk_effects (write_chunk m p c2) p c2 Hw)
      as (Hf & Hgone & Hl & Hmaps & Hdev & Hlook).
    split; [exact Hf|]. split; [exact Hgone|]. split; [exact Hmaps|].
    split; [rewrite Hdev, Hdi, Hmh; reflexivity|].
    split; [|exact Hlook].
    eexists. split; [exact Hl | reflexivity].
Qed.

(** X5.  The abort of the transaction [xid] undoes its delete mark: the call
    of [gstoreOnXactCallbackPerChunk] for the abort acts on a chunk that
    carries [xid] as its delete transaction id exactly as on the same chunk
    without the mark, whether the mark came with a command id (a direct
    DELETE) or without (DROP TABLE). *)
Theorem delete_rolled_back (oldestXmin : TransactionId) (m : Machine)
    (p : nat) (c : GpuStoreChunk) (xid : TransactionId) :
  gs_chunks (gstore_head m) !! p = Some c ->
  xmax c = InvalidTransactionId ->
  TransactionIdIsCurrentTransactionId env xid = true ->
  TransactionIdIsCurrentTransactionId env InvalidTransactionId = false ->
  (forall cid0,
     gstoreOnXactCallbackPerChunk env false
       (write_chunk m p (set_cid cid0 (set_xmax xid c))) p oldestXmin
     = gstoreOnXactCallbackPerChunk env false
         (write_chunk m p (set_cid cid0 c)) p oldestXmin)
  /\ gstoreOnXactCallbackPerChunk env false
       (write_chunk m p (set_xmax xid c)) p oldestXmin
     = gstoreOnXactCallbackPerChunk env false m p oldestXmin.
Proof.
  intros Hc Hx Hown Hinv.
  assert (Hgen : forall a b,
            (if TransactionIdIsCurrentTransactionId env (xmax a)
             then set_xmax InvalidTransactionId a else a)
            = (if TransactionIdIsCurrentTransactionId env (xmax b)
               then set_xmax InvalidTransactionId b else b) ->
            gstoreOnXactCallbackPerChunk env false (write_chunk m p a) p
              oldestXmin
            = gstoreOnXactCallbackPerChunk env false (write_chunk m p b) p
                oldestXmin).
  { intros a b Hab. unfold gstoreOnXactCallbackPerChunk.
    rewrite (write_chunk_lookup m p a c Hc),
      (write_chunk_lookup m p b c Hc).
    rewrite !write_chunk_twice. rewrite Hab. reflexivity. }
  split.
  - intros cid0. apply Hgen. cbn [xmax set_cid set_xmax].
    rewrite Hown, Hx, Hinv. destruct c. cbn in *. subst. reflexivity.
  - rewrite <- (write_chunk_same m p c Hc) at 2. apply Hgen.
    cbn [xmax set_xmax]. rewrite Hown, Hx, Hinv.
    destruct c. cbn in *. subst. reflexivity.
Qed.

(** X6.  A frozen chunk that nobody deleted is visible to every backend and
    snapshot, unchanged by the test; and a call of
    [gstoreOnXactCallbackPerChunk] on it, commit or abort, changes nothing
    and answers that it needs no more attention. *)
Theorem frozen_chunk_stays (c : GpuStoreChunk) :
  xmin c = FrozenTransactionId ->
  xmin_commited c = true ->
  xmax c = InvalidTransactionId ->
  (forall reader snapshot,
     gstore_fdw_satisfies_visibility reader c snapshot = (true, c))
  /\ (forall is_commit oldestXmin m p,
        gs_chunks (gstore_head m) !! p = Some c ->
        TransactionIdIsCurrentTransactionId env InvalidTransactionId
        = false ->
        TransactionIdIsCurrentTransactionId env FrozenTransactionId
        = false ->
        gstoreOnXactCallbackPerChunk env is_commit m p oldestXmin
        = (false, m)).
Proof.
  intros Hmin Hmc Hmax. split.
  - intros reader snapshot.
    unfold gstore_fdw_satisfies_visibility, visibility_of_delete.
    rewrite Hmc, Hmin, Hmax. reflexivity.
  - intros is_commit oldestXmin m p Hc H0 H2.
    unfold gstoreOnXactCallbackPerChunk.
    rewrite Hc, Hmax, H0, Hmin, H2, Hmax. cbn.
    rewrite write_chunk_same by exact Hc. rewrite Hmin. reflexivity.
Qed.

End ReclaimDelete.

(** ** DROP TABLE, and the rows of an INSERT *)

Section PostDrop.

Variable env : XactEnv.
Variable relid : Oid.

Lemma post_drop_scan_spec (h : Z) (nodes : list nat) :
  NoDup nodes ->
  forall (cs : list GpuStoreChunk) (q : nat),
    post_drop_scan env relid h nodes cs !! q
    = (λ c, if bool_decide (q ∈ nodes)
               && chunk_matches env relid h c
               && (xmax c =? InvalidTransactionId)
            then set_xmax (GetCurrentTransactionId env) c else c)
        <$> (cs !! q).
Proof.
  induction 1 as [|p rest Hp Hnd IH]; intros cs q.
  - simpl. destruct (cs !! q); reflexivity.
  - cbn [post_drop_scan].
    assert (Hrest : q ≠ p ->
              bool_decide (q ∈ p :: rest) = bool_decide (q ∈ rest)).
    { intros Hne. apply bool_decide_ext. rewrite elem_of_cons. tauto. }
    assert (Hhere : bool_decide (p ∈ p :: rest) = true).
    { apply bool_decide_eq_true_2. left. }
    assert (Hgone : bool_decide (p ∈ rest) = false).
    { apply bool_decide_eq_false_2. exact Hp. }
    destruct (cs !! p) as [gs_chunk|] eqn:Hcp.
    + destruct (chunk_matches env relid h gs_chunk
                && (xmax gs_chunk =? InvalidTransactionId)) eqn:Hcond.
      * rewrite IH. destruct (decide (q = p)) as [-> | Hne].
        -- rewrite list_lookup_insert_eq
             by (apply lookup_lt_is_Some; eauto).
           rewrite Hcp. cbn [fmap option_fmap option_map].
           rewrite Hgone, Hhere. cbn [andb].
           rewrite Hcond. reflexivity.
        -- rewrite list_lookup_insert_ne by congruence.
           rewrite (Hrest Hne). reflexivity.
      * rewrite IH. destruct (decide (q = p)) as [-> | Hne].
        -- rewrite Hcp. cbn [fmap option_fmap option_map].
           rewrite Hgone, Hhere. cbn [andb]. rewrite Hcond. reflexivity.
        -- rewrite (Hrest Hne). reflexivity.
    + rewrite IH. destruct (decide (q = p)) as [-> | Hne].
      * rewrite Hcp. reflexivity.
      * rewrite (Hrest Hne). reflexivity.
Qed.

(** X7.  [gstore_fdw_post_drop] writes the current transaction id as delete
    transaction id into the descriptors of the table's bucket that are of
    the table and carry none, and into no other descriptor; it leaves the
    free list, the buckets, the mappings and the device as they are and
    adds one to the attention counter. *)
Theorem post_drop_marks (m : Machine) :
  let h := legacy_crc32_oid2 env (MyDatabaseId env) relid in
  let bucket := active_chunks (gstore_head m) !!! hash_index h in
  let m' := gstore_fdw_post_drop env m relid in
  NoDup bucket ->
  free_chunks (gstore_head m') = free_chunks (gstore_head m)
  /\ active_chunks (gstore_head m') = active_chunks (gstore_head m)
  /\ has_warm_chunks (gstore_head m')
     = add_fetch_u32 (has_warm_chunks (gstore_head m))
  /\ gstore_maps m' = gstore_maps m
  /\ device m' = device m
  /\ forall q c,
       gs_chunks (gstore_head m) !! q = Some c ->
       gs_chunks (gstore_head m') !! q
       = Some (if bool_decide (q ∈ bucket)
                  && chunk_matches env relid h c
                  && (xmax c =? InvalidTransactionId)
               then set_xmax (GetCurrentTransactionId env) c else c).
Proof.
  cbv zeta. intros Hnd. unfold gstore_fdw_post_drop, with_head.
  cbn [gstore_head free_chunks active_chunks has_warm_chunks gstore_maps
       device gs_chunks].
  repeat (split; [reflexivity|]).
  intros q c Hc. rewrite post_drop_scan_spec by exact Hnd.
  rewrite Hc. reflexivity.
Qed.

End PostDrop.

Section InsertRows.

Lemma insert_rows_S (n : nat) :
  forall st, insert_rows (S n) st
             = fst (gstoreExecForeignInsert (insert_rows n st)).
Proof.
  induction n as [|n IH]; intros st; [reflexivity|].
  change (insert_rows (S (S n)) st)
    with (insert_rows (S n) (fst (gstoreExecForeignInsert st))).
  rewrite IH. reflexivity.
Qed.

Lemma insert_rows_counters (st0 : gstoreLoadState) (n : nat) :
  nitems st0 = 0 ->
  nrooms st0 = 10000 ->
  Z.of_nat n <= 4611686018427387904 ->
  let st := insert_rows n st0 in
  nitems st = Z.of_nat n
  /\ nitems st <= nrooms st
  /\ nrooms st <= Z.max 10000 (2 * Z.of_nat n + 5000)
  /\ gcontext st = gcontext st0.
Proof.
  intros Hi Hr. induction n as [|n IH]; intros Hn; cbv zeta.
  - cbn [insert_rows]. rewrite Hi, Hr. repeat split; lia.
  - rewrite insert_rows_S.
    destruct IH as (Hn1 & Hle & Hmax & Hg); [lia|].
    set (st := insert_rows n st0) in *. clearbody st.
    unfold gstoreExecForeignInsert, size_add.
    cbn [fst nitems nrooms gcontext].
    rewrite Hn1.
    rewrite (Z.mod_small (Z.of_nat n + 1)) by lia.
    split; [lia|].
    destruct (Z.of_nat n =? nrooms st) eqn:Hfull.
    + apply Z.eqb_eq in Hfull. rewrite <- Hfull.
      rewrite (Z.mod_small (Z.of_nat n + 5000)) by lia.
      rewrite Z.mod_small by lia.
      repeat split; try lia. exact Hg.
    + apply Z.eqb_neq in Hfull. repeat split; try lia. exact Hg.
Qed.


End InsertRows.

(** ** Deleting a chunk, then reading *)

Section DeleteRead.

Lemma filter_none {A : Type} (f : A -> bool) (l : list A) :
  (forall x, x ∈ l -> f x = false) -> List.filter f l = [].
Proof.
  induction l as [|x l IH]; intros H; simpl; [reflexivity|].
  rewrite (H x) by left. apply IH. intros y Hy. apply H. right. exact Hy.
Qed.

Lemma lookup_only_chunk (reader : XactEnv) (head : GpuStoreHead)
    (relid : Oid) (snapshot : Snapshot) (p : nat) (c : GpuStoreChunk) :
  let h := legacy_crc32_oid2 reader (MyDatabaseId reader) relid in
  let bucket := active_chunks head !!! hash_index h in
  NoDup bucket ->
  p ∈ bucket ->
  gs_chunks head !! p = Some c ->
  chunk_matches reader relid h c = true ->
  (forall q c', q ∈ bucket -> q ≠ p -> gs_chunks head !! q = Some c' ->
                chunk_matches reader relid h c' = false) ->
  snd (gstore_fdw_lookup_chunk reader head relid snapshot)
  = if fst (gstore_fdw_satisfies_visibility reader c snapshot)
    then Return (Some p) else Return None.
Proof.
  cbv zeta. intros Hnd Hin Hc Hm Hothers.
  destruct (lookup_nolock_answer reader head relid snapshot Hnd)
    as (H0 & H1 & _).
  unfold gstore_fdw_lookup_chunk.
  assert (Hvis : visible_chunks reader head relid snapshot
                 = if fst (gstore_fdw_satisfies_visibility reader c snapshot)
                   then [p] else []).
  { unfold visible_chunks.
    set (h := legacy_crc32_oid2 reader (MyDatabaseId reader) relid) in *.
    set (bucket := active_chunks head !!! hash_index h) in *.
    clearbody bucket.
    apply list_elem_of_split in Hin. destruct Hin as (l1 & l2 & ->).
    apply NoDup_app in Hnd. destruct Hnd as (_ & Hl1 & Hl2).
    apply NoDup_cons in Hl2. destruct Hl2 as (Hl2 & _).
    assert (Hout : forall q, q ∈ l1 ++ p :: l2 -> q ≠ p ->
              passes reader relid h snapshot (gs_chunks head) q = false).
    { intros q Hq Hne. unfold passes.
      destruct (gs_chunks head !! q) as [c'|] eqn:Hc'; [|reflexivity].
      rewrite (Hothers q c' Hq Hne Hc'). reflexivity. }
    rewrite List.filter_app. cbn [List.filter].
    rewrite (filter_none _ l1).
    2:{ intros q Hq. apply Hout.
        - apply elem_of_app. left. exact Hq.
        - intros ->. apply (Hl1 p Hq). left. }
    rewrite (filter_none _ l2).
    2:{ intros q Hq. apply Hout.
        - apply elem_of_app. right. right. exact Hq.
        - intros ->. exact (Hl2 Hq). }
    unfold passes at 1. rewrite Hc, Hm. cbn [andb app].
    destruct (fst _); reflexivity. }
  destruct (fst (gstore_fdw_satisfies_visibility reader c snapshot)).
  - apply H1. exact Hvis.
  - apply H0. exact Hvis.
Qed.

Lemma lookup_scan_found_matches (env : XactEnv) (gstore_oid : Oid) (h : Z)
    (snapshot : Snapshot) (nodes : list nat) :
  forall (cs : list GpuStoreChunk) (gs_chunk : option nat) (p : nat),
    snd (lookup_scan env gstore_oid h snapshot nodes cs gs_chunk)
    = Return (Some p) ->
    gs_chunk = Some p
    \/ (p ∈ nodes
        /\ exists c, cs !! p = Some c
                     /\ chunk_matches env gstore_oid h c = true).
Proof.
  induction nodes as [|q rest IH]; intros cs g p Hr; simpl in Hr.
  - inversion Hr. left. reflexivity.
  - assert (Hrest : forall cs' g',
              snd (lookup_scan env gstore_oid h snapshot rest cs' g')
              = Return (Some p) ->
              (forall c, cs' !! p = Some c ->
                 chunk_matches env gstore_oid h c = true ->
                 exists c0, cs !! p = Some c0
                            /\ chunk_matches env gstore_oid h c0 = true) ->
              g' = Some p
              \/ (p ∈ q :: rest
                  /\ exists c, cs !! p = Some c
                               /\ chunk_matches env gstore_oid h c = true)).
    { intros cs' g' Hr' Hback. destruct (IH cs' g' p Hr') as [Hg | (Hin & c & Hc & Hm)].
      - left. exact Hg.
      - right. split; [right; exact Hin|]. eapply Hback; eauto. }
    destruct (cs !! q) as [gs_temp|] eqn:Hq.
    2:{ destruct (Hrest cs g Hr) as [Hg | H]; eauto. }
    destruct (chunk_matches env gstore_oid h gs_temp) eqn:Hm.
    2:{ destruct (Hrest cs g Hr) as [Hg | H]; eauto. }
    assert (Hback : forall c,
              <[q := snd (gstore_fdw_satisfies_visibility env gs_temp
                            snapshot)]> cs !! p = Some c ->
              chunk_matches env gstore_oid h c = true ->
              exists c0, cs !! p = Some c0
                         /\ chunk_matches env gstore_oid h c0 = true).
    { intros c Hc Hmc. destruct (decide (q = p)) as [<- | Hne].
      - eauto.
      - rewrite list_lookup_insert_ne in Hc by exact Hne. eauto. }
    destruct (fst (gstore_fdw_satisfies_visibility env gs_temp snapshot)).
    + destruct g as [g0|]; [discriminate Hr|].
      destruct (Hrest _ _ Hr Hback) as [Hg | H]; [|right; exact H].
      inversion Hg; subst q. right. split; [left|]. eauto.
    + destruct (Hrest _ _ Hr Hback) as [Hg | H]; eauto.
Qed.

Lemma chunk_matches_payload (env : XactEnv) (relid : Oid) (h : Z)
    (c c' : GpuStoreChunk) :
  same_payload c c' ->
  chunk_matches env relid h c' = chunk_matches env relid h c.
Proof.
  intros (Hh & Hd & Ht & _). unfold chunk_matches.
  rewrite Hh, Hd, Ht. reflexivity.
Qed.

Variable env : XactEnv.

(** What a direct delete that returns has done. *)
Lemma direct_modify_returns (m m' : Machine) (relid : Oid)
    (snapshot : Snapshot) (es_processed total : Z) :
  gstoreIterateDirectModify env m relid snapshot es_processed
  = (m', Return total) ->
  let look := gstore_fdw_lookup_chunk env (gstore_head m) relid snapshot in
  exists (p : nat) (c : GpuStoreChunk),
    snd look = Return (Some p)
    /\ gs_chunks (fst look) !! p = Some c
    /\ xmax c = InvalidTransactionId
    /\ total = es_processed + kds_nitems c
    /\ gs_chunks (gstore_head m')
       = <[p := set_cid (GetCurrentCommandId env)
                  (set_xmax (GetCurrentTransactionId env) c)]>
           (gs_chunks (fst look))
    /\ free_chunks (gstore_head m') = free_chunks (gstore_head m)
    /\ active_chunks (gstore_head m') = active_chunks (gstore_head m)
    /\ has_warm_chunks (gstore_head m')
       = add_fetch_u32 (has_warm_chunks (gstore_head m))
    /\ gstore_maps m' = <[p := None]> (gstore_maps m)
    /\ device m' = device m.
Proof.
  intros Hd. cbv zeta. unfold gstoreIterateDirectModify in Hd.
  assert (Hlists :
            free_chunks (fst (gstore_fdw_lookup_chunk env (gstore_head m)
                                relid snapshot))
            = free_chunks (gstore_head m)
            /\ active_chunks (fst (gstore_fdw_lookup_chunk env
                                     (gstore_head m) relid snapshot))
               = active_chunks (gstore_head m)
            /\ has_warm_chunks (fst (gstore_fdw_lookup_chunk env
                                       (gstore_head m) relid snapshot))
               = has_warm_chunks (gstore_head m)).
  { unfold gstore_fdw_lookup_chunk, gstore_fdw_lookup_chunk_nolock.
    cbn. auto. }
  destruct Hlists as (Hf & Ha & Hw).
  set (r := gstore_fdw_lookup_chunk env (gstore_head m) relid snapshot) in *.
  clearbody r.
  destruct (snd r) as [[p|]| | |]; try discriminate Hd.
  cbn [gstore_head with_head] in Hd.
  destruct (gs_chunks (fst r) !! p) as [c|] eqn:Hc; [|discriminate Hd].
  destruct (TransactionIdIsValid (xmax c)) eqn:Hv; [discriminate Hd|].
  inversion Hd; subst. clear Hd.
  exists p, c. cbn [gstore_head gs_chunks free_chunks active_chunks
                    has_warm_chunks gstore_maps device with_head].
  split; [reflexivity|]. split; [exact Hc|].
  split.
  { unfold TransactionIdIsValid in Hv. apply negb_false_iff in Hv.
    apply Z.eqb_eq in Hv. exact Hv. }
  split; [reflexivity|]. split; [reflexivity|].
  split; [exact Hf|]. split; [exact Ha|]. split; [rewrite Hw; reflexivity|].
  split; reflexivity.
Qed.

(** X9.  A direct DELETE that returns found the chunk of the lookup, added
    its item count to the executor's counter and wrote the current
    transaction and command ids into it.  When that chunk is the only one
    of the table on the bucket and its delete was not marked committed:
    every later command of the deleting transaction sees an empty table (a
    height of 0) and a second direct DELETE there dereferences [NULL];
    another backend for whose snapshot the deleter is in progress still
    sees all the rows. *)
Theorem delete_then_read (m m' : Machine) (relid : Oid)
    (snapshot : Snapshot) (es_processed total : Z) :
  let h := legacy_crc32_oid2 env (MyDatabaseId env) relid in
  let bucket := active_chunks (gstore_head m) !!! hash_index h in
  let look := gstore_fdw_lookup_chunk env (gstore_head m) relid snapshot in
  NoDup bucket ->
  gstoreIterateDirectModify env m relid snapshot es_processed
  = (m', Return total) ->
  TransactionIdIsValid (GetCurrentTransactionId env) = true ->
  TransactionIdIsCurrentTransactionId env (GetCurrentTransactionId env)
  = true ->
  exists (p : nat) (c : GpuStoreChunk),
    snd look = Return (Some p)
    /\ gs_chunks (fst look) !! p = Some c
    /\ total = es_processed + kds_nitems c
    /\ gs_chunks (gstore_head m') !! p
       = Some (set_cid (GetCurrentCommandId env)
                 (set_xmax (GetCurrentTransactionId env) c))
    /\ ((forall q c', q ∈ bucket -> q ≠ p ->
           gs_chunks (gstore_head m) !! q = Some c' ->
           chunk_matches env relid h c' = false) ->
        xmax_commited c = false ->
        (forall later,
           GetCurrentCommandId env < curcid later ->
           snd (pgstrom_gstore_fdw_height env true (gstore_head m') relid
                  later) = Return (Some 0)
           /\ snd (gstoreIterateDirectModify env m' relid later total)
              = Undefined NullDereference)
        /\ (forall reader others,
              same_database env reader ->
              TransactionIdIsCurrentTransactionId reader
                (GetCurrentTransactionId env) = false ->
              XidInMVCCSnapshot others (GetCurrentTransactionId env)
              = true ->
              insert_established reader c others = true ->
              snd (pgstrom_gstore_fdw_height reader true (gstore_head m')
                     relid others)
              = Return (Some (kds_nitems c)))).
Proof.
  cbv zeta. intros Hnd Hd Hvalid Hown.
  destruct (direct_modify_returns m m' relid snapshot es_processed total Hd)
    as (p & c & Hlook & Hc & Hx & Htot & Hcs & Hf & Ha & Hw & Hmaps & Hdev).
  set (h := legacy_crc32_oid2 env (MyDatabaseId env) relid) in *.
  set (c2 := set_cid (GetCurrentCommandId env)
               (set_xmax (GetCurrentTransactionId env) c)) in *.
  assert (Hlt : (p < length (gs_chunks
                               (fst (gstore_fdw_lookup_chunk env
                                       (gstore_head m) relid snapshot))))%nat).
  { apply lookup_lt_is_Some. eauto. }
  assert (Hc2 : gs_chunks (gstore_head m') !! p = Some c2).
  { rewrite Hcs. apply list_lookup_insert_eq. exact Hlt. }
  exists p, c. split; [exact Hlook|]. split; [exact Hc|].
  split; [exact Htot|]. split; [exact Hc2|].
  intros Honly Hxc.
  (* the chunk found is on the bucket and is one of the table *)
  assert (Hfound : p ∈ active_chunks (gstore_head m) !!! hash_index h
                   /\ chunk_matches env relid h c = true).
  { unfold gstore_fdw_lookup_chunk, gstore_fdw_lookup_chunk_nolock in Hlook.
    cbn [snd] in Hlook. fold h in Hlook.
    apply lookup_scan_found_matches in Hlook.
    destruct Hlook as [Hg | (Hin & c0 & Hc0 & Hm0)]; [discriminate Hg|].
    split; [exact Hin|].
    destruct (lookup_chunk_payload env (gstore_head m) relid snapshot p c Hc)
      as (c0' & Hc0' & Hsame).
    rewrite Hc0 in Hc0'. inversion Hc0'; subst c0'.
    rewrite (chunk_matches_payload env relid h c0 c Hsame). exact Hm0. }
  destruct Hfound as (Hin & Hm).
  assert (Hm2 : forall reader, same_database env reader ->
            chunk_matches reader relid
              (legacy_crc32_oid2 reader (MyDatabaseId reader) relid) c2
            = true).
  { intros reader (Hdb & Hcrc). rewrite Hcrc, Hdb. fold h.
    unfold chunk_matches in *. cbn [hash database_oid table_oid c2 set_cid
                                   set_xmax].
    rewrite Hdb. exact Hm. }
  assert (Hothers : forall reader, same_database env reader ->
            forall q c', q ∈ active_chunks (gstore_head m') !!! hash_index
                             (legacy_crc32_oid2 reader (MyDatabaseId reader)
                                relid) ->
              q ≠ p ->
              gs_chunks (gstore_head m') !! q = Some c' ->
              chunk_matches reader relid
                (legacy_crc32_oid2 reader (MyDatabaseId reader) relid) c'
              = false).
  { intros reader (Hdb & Hcrc) q c' Hq Hne Hc'.
    rewrite Hcrc, Hdb in Hq |- *. fold h in Hq |- *. rewrite Ha in Hq.
    rewrite Hcs in Hc'. rewrite list_lookup_insert_ne in Hc' by congruence.
    destruct (lookup_chunk_payload env (gstore_head m) relid snapshot q c'
                Hc') as (c0 & Hc0 & Hsame).
    unfold chunk_matches. rewrite Hdb.
    change (chunk_matches env relid h c' = false).
    rewrite (chunk_matches_payload env relid h c0 c' Hsame).
    eapply Honly; eauto. }
  assert (Hanswer : forall reader others, same_database env reader ->
            snd (gstore_fdw_lookup_chunk reader (gstore_head m') relid others)
            = if fst (gstore_fdw_satisfies_visibility reader c2 others)
              then Return (Some p) else Return None).
  { intros reader others Hsame.
    pose proof Hsame as (Hdb & Hcrc).
    apply lookup_only_chunk.
    - rewrite Hcrc, Hdb. fold h. rewrite Ha. exact Hnd.
    - rewrite Hcrc, Hdb. fold h. rewrite Ha. exact Hin.
    - exact Hc2.
    - apply Hm2. exact Hsame.
    - apply Hothers. exact Hsame. }
  split.
  - intros later Hlater.
    assert (Hvis : fst (gstore_fdw_satisfies_visibility env c2 later)
                   = false).
    { assert (Hcid : (curcid later <=? GetCurrentCommandId env) = false)
        by (apply Z.leb_gt; exact Hlater).
      assert (Hxid : (GetCurrentTransactionId env =? InvalidTransactionId)
                     = false).
      { unfold TransactionIdIsValid in Hvalid.
        apply negb_true_iff in Hvalid. exact Hvalid. }
      unfold gstore_fdw_satisfies_visibility, visibility_of_delete.
      cbn [xmin xmax cid xmin_commited xmax_commited c2 set_cid set_xmax
           set_xmin_commited].
      rewrite Hxc, Hvalid, Hown, Hcid, Hxid. cbn [negb].
      repeat case_if; reflexivity. }
    assert (Hnone : snd (gstore_fdw_lookup_chunk env (gstore_head m') relid
                           later) = Return None).
    { rewrite (Hanswer env later) by (split; reflexivity).
      rewrite Hvis. reflexivity. }
    split.
    + apply chunk_report_none. exact Hnone.
    + unfold gstoreIterateDirectModify. rewrite Hnone. reflexivity.
  - intros reader others Hsame Hnot Hin' Hest.
    assert (Hvis : fst (gstore_fdw_satisfies_visibility reader c2 others)
                   = true).
    { rewrite visibility_insert_established by exact Hest.
      unfold visibility_of_delete.
      cbn [xmin xmax cid xmin_commited xmax_commited c2 set_cid set_xmax
           set_xmin_commited].
      rewrite Hxc, Hvalid, Hnot, Hin'. reflexivity. }
    unfold pgstrom_gstore_fdw_height.
    change (kds_nitems c) with (kds_nitems c2).
    apply (chunk_report_found kds_nitems reader _ _ _ p c2 Hc2).
    + intros c' Hs. apply Hs.
    + rewrite (Hanswer reader others Hsame), Hvis. reflexivity.
Qed.

End DeleteRead.

(** ** Two write-outs for one table *)

Section ConcurrentWriters.

Lemma filter_two {A : Type} (f : A -> bool) (l : list A) (x y : A) :
  x ∈ l -> y ∈ l -> x ≠ y -> f x = true -> f y = true ->
  (2 <= length (List.filter f l))%nat.
Proof.
  intros Hx Hy Hne Hfx Hfy.
  assert (Hone : forall z l', z ∈ l' -> f z = true ->
                              (1 <= length (List.filter f l'))%nat).
  { intros z l' Hz Hfz. induction l' as [|a l' IH]; [inversion Hz|].
    simpl. apply elem_of_cons in Hz. destruct Hz as [<- | Hz].
    - rewrite Hfz. simpl. lia.
    - specialize (IH Hz). destruct (f a); simpl; lia. }
  induction l as [|a l IH]; [inversion Hx|].
  apply elem_of_cons in Hx, Hy. simpl.
  destruct Hx as [<- | Hx], Hy as [<- | Hy].
  - contradiction.
  - rewrite Hfx. simpl. pose proof (Hone y l Hy Hfy). lia.
  - rewrite Hfy. simpl. pose proof (Hone x l Hx Hfx). lia.
  - specialize (IH Hx Hy). destruct (f a); simpl; lia.
Qed.

Variable capacity : nat.

(** A chunk whose insert committed before the snapshot and that nobody
    deleted passes the visibility test. *)
Lemma committed_insert_visible (reader : XactEnv) (snapshot : Snapshot)
    (c : GpuStoreChunk) :
  xmin_commited c = false ->
  xmax c = InvalidTransactionId ->
  TransactionIdIsValid (xmin c) = true ->
  TransactionIdIsCurrentTransactionId reader (xmin c) = false ->
  XidInMVCCSnapshot snapshot (xmin c) = false ->
  TransactionIdDidCommit reader (xmin c) = true ->
  fst (gstore_fdw_satisfies_visibility reader c snapshot) = true.
Proof.
  intros Hmc Hx Hv Ho Hs Hd.
  unfold gstore_fdw_satisfies_visibility, visibility_of_delete.
  rewrite Hmc, Hv, Ho, Hs, Hd. cbn [negb xmax set_xmin_commited].
  rewrite Hx. reflexivity.
Qed.

(** X10.  The store does not keep a table to one chunk: after two write-outs
    for the same table that both return, every backend of the database
    whose snapshot sees both inserting transactions as committed gets the
    internal error from the lookup, and so from
    [pgstrom_gstore_fdw_height]. *)
Theorem concurrent_writes_unreadable (env1 env2 reader : XactEnv)
    (cuda1 cuda2 : CudaAnswers) (m m1 m2 : Machine) (relid : Oid)
    (st1 st2 : gstoreLoadState) (seg1 len1 n1 seg2 len2 n2 : Z)
    (snapshot : Snapshot) :
  store_ok capacity (gstore_head m) ->
  same_database env1 env2 ->
  same_database env1 reader ->
  gstore_fdw_writeout_pgstrom env1 cuda1 m relid st1 seg1 len1 n1
  = (m1, Return tt) ->
  gstore_fdw_writeout_pgstrom env2 cuda2 m1 relid st2 seg2 len2 n2
  = (m2, Return tt) ->
  (forall xid,
     xid = GetCurrentTransactionId env1
     \/ xid = GetCurrentTransactionId env2 ->
     TransactionIdIsValid xid = true
     /\ TransactionIdIsCurrentTransactionId reader xid = false
     /\ XidInMVCCSnapshot snapshot xid = false
     /\ TransactionIdDidCommit reader xid = true) ->
  snd (gstore_fdw_lookup_chunk reader (gstore_head m2) relid snapshot)
  = Error ERRCODE_INTERNAL_ERROR
  /\ snd (pgstrom_gstore_fdw_height reader true (gstore_head m2) relid
            snapshot)
     = Error ERRCODE_INTERNAL_ERROR.
Proof.
  intros Hok (Hdb2 & Hcrc2) (Hdb3 & Hcrc3) Hw1 Hw2 Hboth.
  assert (Hok1 : store_ok capacity (gstore_head m1)).
  { pose proof (writeout_store_ok capacity env1 cuda1 m relid st1 seg1 len1
                  n1 Hok) as H. rewrite Hw1 in H. exact H. }
  assert (Hok2 : store_ok capacity (gstore_head m2)).
  { pose proof (writeout_store_ok capacity env2 cuda2 m1 relid st2 seg2 len2
                  n2 Hok1) as H. rewrite Hw2 in H. exact H. }
  destruct (writeout_registers env1 capacity _ _ _ _ _ _ _ _ Hok Hw1)
    as (p1 & c1 & _ & Hcs1 & Hc1 & Hb1 & _ & Hh1 & Hd1 & Ht1 & Hxmin1
        & Hxmax1 & _ & Hmc1 & _).
  destruct (writeout_registers env2 capacity _ _ _ _ _ _ _ _ Hok1 Hw2)
    as (p2 & c2 & _ & Hcs2 & Hc2 & Hb2 & Hnot2 & Hh2 & Hd2 & Ht2 & Hxmin2
        & Hxmax2 & _ & Hmc2 & _).
  set (h := legacy_crc32_oid2 env1 (MyDatabaseId env1) relid) in *.
  assert (Hh2' : legacy_crc32_oid2 env2 (MyDatabaseId env2) relid = h).
  { rewrite Hcrc2, Hdb2. reflexivity. }
  assert (Hh3' : legacy_crc32_oid2 reader (MyDatabaseId reader) relid = h).
  { rewrite Hcrc3, Hdb3. reflexivity. }
  rewrite Hh2' in Hb2, Hnot2, Hh2.
  assert (Hp1 : p1 ∈ active_chunks (gstore_head m1) !!! hash_index h).
  { rewrite Hb1. apply elem_of_app. right. left. }
  assert (Hne : p1 ≠ p2).
  { intros ->. exact (Hnot2 Hp1). }
  assert (Hc1' : gs_chunks (gstore_head m2) !! p1 = Some c1).
  { rewrite Hcs2. rewrite list_lookup_insert_ne by congruence. exact Hc1. }
  assert (Hpass : forall p c,
            gs_chunks (gstore_head m2) !! p = Some c ->
            hash c = h -> database_oid c = MyDatabaseId reader ->
            table_oid c = relid ->
            xmin_commited c = false -> xmax c = InvalidTransactionId ->
            (xmin c = GetCurrentTransactionId env1
             \/ xmin c = GetCurrentTransactionId env2) ->
            passes reader relid h snapshot (gs_chunks (gstore_head m2)) p
            = true).
  { intros p c Hc Hh Hd Ht Hmc Hx Hxid. unfold passes. rewrite Hc.
    destruct (Hboth (xmin c) Hxid) as (Hv & Ho & Hs & Hcm).
    rewrite (committed_insert_visible reader snapshot c Hmc Hx Hv Ho Hs Hcm).
    unfold chunk_matches. rewrite Hh, Hd, Ht, !Z.eqb_refl. reflexivity. }
  assert (Hlook : snd (gstore_fdw_lookup_chunk reader (gstore_head m2) relid
                         snapshot) = Error ERRCODE_INTERNAL_ERROR).
  { destruct (lookup_nolock_answer reader (gstore_head m2) relid snapshot)
      as (_ & _ & Hmany & _).
    { eapply store_ok_bucket. exact Hok2. }
    apply Hmany. unfold visible_chunks. rewrite Hh3'.
    apply (filter_two _ _ p1 p2).
    - rewrite Hb2. apply elem_of_app. left. exact Hp1.
    - rewrite Hb2. apply elem_of_app. right. left.
    - exact Hne.
    - apply (Hpass p1 c1 Hc1'); auto. rewrite Hdb3. exact Hd1.
    - apply (Hpass p2 c2 Hc2); auto. rewrite Hdb3, <- Hdb2. exact Hd2. }
  split; [exact Hlook|].
  unfold pgstrom_gstore_fdw_height, chunk_report. cbn [negb].
  rewrite Hlook. reflexivity.
Qed.

End ConcurrentWriters.

(** ** The device mirror of a pinned chunk *)

(** X11.  [gstore_fdw_load_gpu_preserved] returns the handle
    [gpuMemAllocPreserved] gave and then has added that one allocation and
    nothing else to the device state; when it raises, the allocation is
    given back; but a failure of [cuMemcpyHtoD] leaves the CUDA context
    pushed and the IPC handle opened. *)
Theorem load_gpu_preserved_outcomes (cuda : CudaAnswers) (dindex : Z)
    (d : DeviceState) :
  let r := gstore_fdw_load_gpu_preserved cuda dindex d in
  (forall handle,
     snd r = Return handle ->
     gpuMemAllocPreserved cuda = Some handle
     /\ fst r = with_preserved d ((dindex, handle) :: preserved d))
  /\ ((forall handle, snd r <> Return handle) ->
      snd r = Error ERRCODE_INTERNAL_ERROR
      /\ preserved (fst r) = preserved d)
  /\ (forall handle ptr,
        gpuMemAllocPreserved cuda = Some handle ->
        gpuIpcOpenMemHandle cuda = Some ptr ->
        cuCtxPushCurrent cuda = true ->
        cuMemcpyHtoD cuda = false ->
        snd r = Error ERRCODE_INTERNAL_ERROR
        /\ ctx_depth (fst r) = S (ctx_depth d)
        /\ ipc_opened (fst r) = ptr :: ipc_opened d).
Proof.
  cbv zeta. unfold gstore_fdw_load_gpu_preserved.
  destruct (gpuMemAllocPreserved cuda) as [handle|] eqn:Halloc.
  2:{ cbn [fst snd]. split; [intros h [=]|]. split; [auto|].
      intros h ptr [=]. }
  pose proof (load_gpu_preserved_try_device cuda
                (with_preserved d ((dindex, handle) :: preserved d)))
    as (Hpres & Hsame).
  destruct (snd (load_gpu_preserved_try cuda _)) eqn:Htry; cbn [fst snd].
  - split.
    { intros h [= <-]. split; [reflexivity|]. apply Hsame. reflexivity. }
    split.
    { intros Hno. exfalso. apply (Hno handle). reflexivity. }
    intros h ptr _ Hopen Hpush Hcopy. exfalso.
    unfold load_gpu_preserved_try in Htry.
    rewrite Hopen, Hpush, Hcopy in Htry. cbn in Htry. discriminate Htry.
  - split; [intros h [=]|]. split.
    { intros _. split; [reflexivity|].
      unfold gpuMemFreePreserved. cbn [preserved]. rewrite Hpres.
      cbn [preserved with_preserved]. apply remove_alloc_head. }
    intros h ptr _ Hopen Hpush Hcopy. split; [reflexivity|].
    unfold load_gpu_preserved_try. rewrite Hopen, Hpush, Hcopy.
    cbn. split; reflexivity.
Qed.

(** ** The tracker as a multiset *)

Section TrackerChains.

Import GpuContext.
Local Open Scope nat_scope.

Lemma count_insert {A : Type} (P : A -> Prop) `{!forall x, Decision (P x)}
    (ls : list (list A)) (i : nat) (l' : list A) :
  i < length ls ->
  length (filter P (concat (<[i := l']> ls))) + length (filter P (ls !!! i))
  = length (filter P (concat ls)) + length (filter P l').
Proof.
  revert i. induction ls as [|l ls IH]; intros i Hi; simpl in Hi; [lia|].
  destruct i as [|i]; simpl.
  - change ((l :: ls) !!! 0) with l.
    rewrite !filter_app, !length_app. lia.
  - change ((l :: ls) !!! S i) with (ls !!! i).
    rewrite !filter_app, !length_app.
    specialize (IH i ltac:(lia)). lia.
Qed.

Lemma elem_of_insert_chain {A : Type} (ls : list (list A)) (i j : nat)
    (l' : list A) (x : A) :
  x ∈ <[i := l']> ls !!! j ->
  (j = i /\ x ∈ l') \/ (j ≠ i /\ x ∈ ls !!! j).
Proof.
  intros Hx. destruct (decide (j = i)) as [-> | Hne].
  - destruct (decide (i < length ls)) as [Hlt | Hge].
    + rewrite list_lookup_total_insert_eq in Hx by exact Hlt. auto.
    + rewrite list_insert_ge in Hx by lia.
      rewrite list_lookup_total_alt, lookup_ge_None_2 in Hx by lia.
      inversion Hx.
  - rewrite list_lookup_total_insert_ne in Hx by congruence. auto.
Qed.

Lemma remove_split (test : ResourceTracker -> bool)
    (l l' : list ResourceTracker) :
  restrack_remove test l = Some l' ->
  exists t l1 l2, l = l1 ++ t :: l2 /\ l' = l1 ++ l2 /\ test t = true.
Proof.
  revert l'. induction l as [|t l IH]; intros l' H; simpl in H.
  - discriminate H.
  - destruct (test t) eqn:Ht.
    + inversion H; subst. exists t, [], l'. auto.
    + destruct (restrack_remove test l) as [r|]; [|discriminate H].
      inversion H; subst.
      destruct (IH r eq_refl) as (t0 & l1 & l2 & -> & -> & Ht0).
      exists t0, (t :: l1), l2. auto.
Qed.

Lemma remove_none (test : ResourceTracker -> bool)
    (l : list ResourceTracker) :
  restrack_remove test l = None -> forall t, t ∈ l -> test t = false.
Proof.
  induction l as [|t0 l IH]; intros H t Ht; simpl in H.
  - inversion Ht.
  - destruct (test t0) eqn:Ht0; [discriminate H|].
    destruct (restrack_remove test l) as [r|]; [discriminate H|].
    apply elem_of_cons in Ht. destruct Ht as [-> | Ht]; auto.
Qed.

Lemma untrack_scan_as_remove (crc0 devptr : Z) (l : list ResourceTracker) :
  snd <$> untrack_scan crc0 devptr l
  = restrack_remove (gpumem_tracker_matches crc0 devptr) l.
Proof.
  induction l as [|t l IH]; simpl; [reflexivity|].
  destruct (gpumem_tracker_matches crc0 devptr t); [reflexivity|].
  rewrite <- IH. destruct (untrack_scan crc0 devptr l) as [[e r]|];
    reflexivity.
Qed.

Lemma u_program_id_ptr (t : ResourceTracker) :
  u_program_id t = u_devmem_ptr t.
Proof. unfold u_program_id, u_devmem_ptr. destruct (u t); reflexivity. Qed.

End TrackerChains.

Section TrackerMultiset.

Import GpuContext.

Variable env : TrackerEnv.
Hypothesis Hsize : 0 < RESTRACK_HASHSIZE env.

Lemma index_lt (g : GpuContext) (crc0 : Z) :
  length (restrack g) = Z.to_nat (RESTRACK_HASHSIZE env) ->
  (restrack_index env crc0 < length (restrack g))%nat.
Proof.
  intros Hlen. unfold restrack_index. rewrite Hlen.
  pose proof (Z.mod_pos_bound crc0 (RESTRACK_HASHSIZE env) Hsize). lia.
Qed.

(** Pushing a tracker on the chain of its checksum. *)
Lemma push_effect (g : GpuContext) (t : ResourceTracker) :
  trackers_placed env g ->
  known_class (resclass t) ->
  crc t = resource_tracker_hashval env (resclass t) (u_devmem_ptr t) ->
  let i := restrack_index env (crc t) in
  let g' := with_restrack g
              (<[i := (restrack g !!! i) ++ [t]]> (restrack g)) in
  trackers_placed env g'
  /\ forall class key,
       tracked_count g' class key
       = ((if bool_decide ((class, key) = (resclass t, u_devmem_ptr t))
           then 1 else 0)
          + tracked_count g class key)%nat.
Proof.
  intros (Hlen & Hplaced) Hk Hcrc. cbv zeta.
  pose proof (index_lt g (crc t) Hlen) as Hi.
  split.
  - split.
    + cbn [restrack with_restrack]. rewrite length_insert. exact Hlen.
    + intros j x Hx. cbn [restrack with_restrack] in Hx.
      apply elem_of_insert_chain in Hx.
      destruct Hx as [(-> & Hx) | (Hne & Hx)]; [|apply Hplaced; exact Hx].
      apply elem_of_app in Hx. destruct Hx as [Hx | Hx];
        [apply Hplaced; exact Hx|].
      apply list_elem_of_singleton in Hx. subst x. auto.
  - intros class key. unfold tracked_count. cbn [restrack with_restrack].
    pose proof (count_insert
                  (λ t0, resclass t0 = class /\ u_devmem_ptr t0 = key)
                  (restrack g) (restrack_index env (crc t))
                  ((restrack g !!! restrack_index env (crc t)) ++ [t]) Hi)
      as Hc.
    rewrite filter_app, length_app in Hc.
    rewrite filter_cons, filter_nil in Hc.
    destruct (decide (resclass t = class /\ u_devmem_ptr t = key))
      as [(H1 & H2) | Hno].
    + rewrite bool_decide_eq_true_2 by (subst; reflexivity).
      simpl in Hc. lia.
    + rewrite bool_decide_eq_false_2.
      2:{ intros [= -> ->]. apply Hno. auto. }
      simpl in Hc. lia.
Qed.

(** Taking the first tracker that passes the test of a class and key from
    the chain of their checksum. *)
Lemma remove_effect (g : GpuContext) (class key : Z) :
  trackers_placed env g ->
  let crc0 := resource_tracker_hashval env class key in
  let i := restrack_index env crc0 in
  match restrack_remove (class_test class crc0 key) (restrack g !!! i) with
  | Some rest =>
      let g' := with_restrack g (<[i := rest]> (restrack g)) in
      trackers_placed env g'
      /\ (0 < tracked_count g class key)%nat
      /\ forall class' key',
           tracked_count g' class' key'
           = if bool_decide ((class', key') = (class, key))
             then Nat.pred (tracked_count g class' key')
             else tracked_count g class' key'
  | None => tracked_count g class key = 0%nat
  end.
Proof.
  intros (Hlen & Hplaced). cbv zeta.
  set (crc0 := resource_tracker_hashval env class key).
  set (i := restrack_index env crc0).
  pose proof (index_lt g crc0 Hlen) as Hi. fold i in Hi.
  destruct (restrack_remove (class_test class crc0 key) (restrack g !!! i))
    as [rest|] eqn:Hrem.
  - destruct (remove_split _ _ _ Hrem) as (t & l1 & l2 & Hchain & -> & Ht).
    unfold class_test in Ht.
    apply andb_true_iff in Ht. destruct Ht as (Ht & Hkey).
    apply andb_true_iff in Ht. destruct Ht as (_ & Hclass).
    apply Z.eqb_eq in Hkey, Hclass.
    assert (Hcount : forall class' key',
              (tracked_count
                 (with_restrack g (<[i := l1 ++ l2]> (restrack g)))
                 class' key'
               + (if bool_decide ((class', key') = (class, key))
                  then 1 else 0)
               = tracked_count g class' key')%nat).
    { intros class' key'. unfold tracked_count.
      cbn [restrack with_restrack].
      pose proof (count_insert
                    (λ t0, resclass t0 = class' /\ u_devmem_ptr t0 = key')
                    (restrack g) i (l1 ++ l2) Hi) as Hc.
      rewrite Hchain in Hc.
      rewrite !filter_app, !length_app, filter_cons in Hc.
      destruct (decide (resclass t = class' /\ u_devmem_ptr t = key'))
        as [(H1 & H2) | Hno].
      - rewrite bool_decide_eq_true_2 by (subst; reflexivity).
        simpl in Hc. lia.
      - rewrite bool_decide_eq_false_2.
        2:{ intros [= -> ->]. apply Hno. auto. }
        lia. }
    split; [|split].
    + split.
      * cbn [restrack with_restrack]. rewrite length_insert. exact Hlen.
      * intros j x Hx. cbn [restrack with_restrack] in Hx.
        apply elem_of_insert_chain in Hx.
        destruct Hx as [(-> & Hx) | (Hne & Hx)]; [|apply Hplaced; exact Hx].
        apply Hplaced. rewrite Hchain.
        apply elem_of_app in Hx. rewrite elem_of_app, elem_of_cons.
        tauto.
    + specialize (Hcount class key).
      rewrite bool_decide_eq_true_2 in Hcount by reflexivity. lia.
    + intros class' key'. specialize (Hcount class' key').
      destruct (bool_decide ((class', key') = (class, key))); lia.
  - unfold tracked_count.
    apply length_zero_iff_nil.
    destruct (filter _ _) as [|t l] eqn:Hf; [reflexivity|]. exfalso.
    assert (Ht : t ∈ filter (λ t0, resclass t0 = class
                                   /\ u_devmem_ptr t0 = key)
                   (concat (restrack g))).
    { rewrite Hf. left. }
    apply list_elem_of_filter in Ht. destruct Ht as ((Hc & Hk) & Hin).
    apply elem_of_concat in Hin. destruct Hin as (chain & Hin & Hchain).
    apply list_elem_of_lookup in Hchain. destruct Hchain as (j & Hj).
    assert (Hin' : t ∈ restrack g !!! j).
    { rewrite (list_lookup_total_correct _ _ _ Hj). exact Hin. }
    destruct (Hplaced j t Hin') as (_ & Hcrc & Hidx).
    assert (Hji : j = i).
    { rewrite <- Hidx. unfold i, crc0. rewrite Hcrc, Hc, Hk. reflexivity. }
    clear Hidx.
    rewrite Hji in Hin'.
    pose proof (remove_none _ _ Hrem t Hin') as Hfalse.
    unfold class_test, crc0 in Hfalse.
    rewrite Hcrc, Hc, Hk, !Z.eqb_refl in Hfalse. discriminate Hfalse.
Qed.

Lemma restrack_remove_ext (f f' : ResourceTracker -> bool)
    (l : list ResourceTracker) :
  (forall t, f t = f' t) -> restrack_remove f l = restrack_remove f' l.
Proof.
  intros Hext. induction l as [|t l IH]; simpl; [reflexivity|].
  rewrite Hext, IH. reflexivity.
Qed.

Lemma alloc_notices (ok : bool) (tl tl' : ThreadLocal) :
  resource_tracker_alloc ok tl = Some tl' -> notices tl' = notices tl.
Proof.
  unfold resource_tracker_alloc.
  destruct (inactiveResourceTracker tl); [destruct ok|]; intros [= <-];
    reflexivity.
Qed.

(** What one call does to a context whose trackers are placed. *)
Lemma call_effect (c : TrackerCall) (tl : ThreadLocal) (g : GpuContext) :
  trackers_placed env g ->
  let r := tracker_call env c tl g in
  let n := tracked_count g (fst (call_key c)) (snd (call_key c)) in
  trackers_placed env (snd r)
  /\ (forall class key,
        (class, key) ≠ call_key c ->
        tracked_count (snd r) class key = tracked_count g class key)
  /\ tracked_count (snd r) (fst (call_key c)) (snd (call_key c))
     = match call_adds c with
       | Some ok =>
           match resource_tracker_alloc ok tl with
           | Some _ => S n
           | None => n
           end
       | None => Nat.pred n
       end
  /\ notices (fst r)
     = match call_adds c with
       | Some _ => notices tl
       | None =>
           if Nat.eqb n 0
           then notices tl
                ++ [NotTracked (fst (call_key c)) (snd (call_key c))]
           else notices tl
       end.
Proof.
  intros Hplaced. cbv zeta.
  assert (Hpush : forall ok class key t,
            known_class class ->
            resclass t = class -> u_devmem_ptr t = key ->
            crc t = resource_tracker_hashval env class key ->
            let r :=
              match resource_tracker_alloc ok tl with
              | None => (tl, g)
              | Some tl' =>
                  (tl',
                   with_restrack g
                     (<[restrack_index env (crc t)
                        := (restrack g !!! restrack_index env (crc t))
                           ++ [t]]> (restrack g)))
              end in
            trackers_placed env (snd r)
            /\ (forall class' key',
                  (class', key') ≠ (class, key) ->
                  tracked_count (snd r) class' key'
                  = tracked_count g class' key')
            /\ tracked_count (snd r) class key
               = match resource_tracker_alloc ok tl with
                 | Some _ => S (tracked_count g class key)
                 | None => tracked_count g class key
                 end
            /\ notices (fst r) = notices tl).
  { intros ok class key t Hk Hc Hkey Hcrc. cbv zeta.
    destruct (resource_tracker_alloc ok tl) as [tl'|] eqn:Halloc.
    - destruct (push_effect g t Hplaced) as (Hp & Hcount).
      { rewrite Hc. exact Hk. }
      { rewrite Hc, Hkey. exact Hcrc. }
      rewrite Hc, Hkey in Hcount.
      cbn [fst snd]. split; [exact Hp|]. split; [|split].
      + intros class' key' Hne. rewrite Hcount.
        rewrite bool_decide_eq_false_2 by exact Hne. reflexivity.
      + rewrite Hcount. rewrite bool_decide_eq_true_2 by reflexivity.
        reflexivity.
      + eapply alloc_notices. exact Halloc.
    - cbn [fst snd]. auto. }
  assert (Hpop : forall class key,
            let crc0 := resource_tracker_hashval env class key in
            let i := restrack_index env crc0 in
            let r :=
              match restrack_remove (class_test class crc0 key)
                      (restrack g !!! i) with
              | Some rest =>
                  ({| inactiveResourceTracker :=
                        S (inactiveResourceTracker tl);
                      notices := notices tl |},
                   with_restrack g (<[i := rest]> (restrack g)))
              | None =>
                  ({| inactiveResourceTracker := inactiveResourceTracker tl;
                      notices := notices tl ++ [NotTracked class key] |},
                   g)
              end in
            trackers_placed env (snd r)
            /\ (forall class' key',
                  (class', key') ≠ (class, key) ->
                  tracked_count (snd r) class' key'
                  = tracked_count g class' key')
            /\ tracked_count (snd r) class key
               = Nat.pred (tracked_count g class key)
            /\ notices (fst r)
               = if Nat.eqb (tracked_count g class key) 0
                 then notices tl ++ [NotTracked class key]
                 else notices tl).
  { intros class key. cbv zeta.
    pose proof (remove_effect g class key Hplaced) as Hrem.
    cbv zeta in Hrem.
    destruct (restrack_remove _ _) as [rest|].
    - destruct Hrem as (Hp & Hpos & Hcount). cbn [fst snd notices].
      split; [exact Hp|]. split; [|split].
      + intros class' key' Hne. rewrite Hcount.
        rewrite bool_decide_eq_false_2 by exact Hne. reflexivity.
      + rewrite Hcount. rewrite bool_decide_eq_true_2 by reflexivity.
        reflexivity.
      + destruct (tracked_count g class key); [lia | reflexivity].
    - cbn [fst snd notices]. rewrite Hrem. auto. }
  destruct c as [ok devptr extra | devptr | ok program_id | program_id
                 | ok devptr | devptr];
    cbn [tracker_call call_key call_adds fst snd].
  - unfold trackGpuMem.
    specialize (Hpush ok RESTRACK_CLASS__GPUMEMORY devptr
                  {| crc := resource_tracker_hashval env
                              RESTRACK_CLASS__GPUMEMORY devptr;
                     resclass := RESTRACK_CLASS__GPUMEMORY;
                     u := devmem devptr extra |}
                  ltac:(left; reflexivity) eq_refl eq_refl eq_refl).
    cbv zeta in Hpush. cbn [crc] in Hpush.
    destruct (resource_tracker_alloc ok tl); exact Hpush.
  - unfold untrackGpuMem.
    specialize (Hpop RESTRACK_CLASS__GPUMEMORY devptr). cbv zeta in Hpop.
    pose proof (untrack_scan_as_remove
                  (resource_tracker_hashval env RESTRACK_CLASS__GPUMEMORY
                     devptr) devptr
                  (restrack g
                     !!! restrack_index env
                           (resource_tracker_hashval env
                              RESTRACK_CLASS__GPUMEMORY devptr))) as Hscan.
    change (gpumem_tracker_matches
              (resource_tracker_hashval env RESTRACK_CLASS__GPUMEMORY devptr)
              devptr)
      with (class_test RESTRACK_CLASS__GPUMEMORY
              (resource_tracker_hashval env RESTRACK_CLASS__GPUMEMORY devptr)
              devptr) in Hscan.
    rewrite <- Hscan in Hpop.
    destruct (untrack_scan _ _ _) as [[e rest]|]; exact Hpop.
  - unfold trackCudaProgram.
    specialize (Hpush ok RESTRACK_CLASS__GPUPROGRAM program_id
                  {| crc := resource_tracker_hashval env
                              RESTRACK_CLASS__GPUPROGRAM program_id;
                     resclass := RESTRACK_CLASS__GPUPROGRAM;
                     u := program program_id |}
                  ltac:(right; left; reflexivity) eq_refl eq_refl eq_refl).
    cbv zeta in Hpush. cbn [crc] in Hpush.
    destruct (resource_tracker_alloc ok tl); exact Hpush.
  - unfold untrackCudaProgram.
    specialize (Hpop RESTRACK_CLASS__GPUPROGRAM program_id).
    cbv zeta in Hpop.
    rewrite (restrack_remove_ext
               (program_tracker_matches
                  (resource_tracker_hashval env RESTRACK_CLASS__GPUPROGRAM
                     program_id) program_id)
               (class_test RESTRACK_CLASS__GPUPROGRAM
                  (resource_tracker_hashval env RESTRACK_CLASS__GPUPROGRAM
                     program_id) program_id)).
    2:{ intros t. unfold program_tracker_matches, class_test.
        rewrite u_program_id_ptr. reflexivity. }
    destruct (restrack_remove _ _); exact Hpop.
  - unfold trackIOMapMem.
    specialize (Hpush ok RESTRACK_CLASS__IOMAPMEMORY devptr
                  {| crc := resource_tracker_hashval env
                              RESTRACK_CLASS__IOMAPMEMORY devptr;
                     resclass := RESTRACK_CLASS__IOMAPMEMORY;
                     u := devmem devptr 0 |}
                  ltac:(right; right; reflexivity) eq_refl eq_refl eq_refl).
    cbv zeta in Hpush. cbn [crc] in Hpush.
    destruct (resource_tracker_alloc ok tl); exact Hpush.
  - unfold untrackIOMapMem.
    specialize (Hpop RESTRACK_CLASS__IOMAPMEMORY devptr). cbv zeta in Hpop.
    change (iomap_tracker_matches
              (resource_tracker_hashval env RESTRACK_CLASS__IOMAPMEMORY
                 devptr) devptr)
      with (class_test RESTRACK_CLASS__IOMAPMEMORY
              (resource_tracker_hashval env RESTRACK_CLASS__IOMAPMEMORY
                 devptr) devptr).
    destruct (restrack_remove _ _); exact Hpop.
Qed.

Lemma tracker_run_placed (calls : list TrackerCall) :
  forall tl g,
    trackers_placed env g ->
    trackers_placed env (snd (tracker_run env calls tl g)).
Proof.
  induction calls as [|c rest IH]; intros tl g Hp; simpl; [exact Hp|].
  apply IH. apply (call_effect c tl g Hp).
Qed.

Lemma fresh_placed (g : GpuContext) :
  restrack g = replicate (Z.to_nat (RESTRACK_HASHSIZE env)) [] ->
  trackers_placed env g.
Proof.
  intros Hg. split.
  - rewrite Hg. apply length_replicate.
  - intros i t Ht. rewrite Hg in Ht.
    destruct (total_lookup_bucket
                (replicate (Z.to_nat (RESTRACK_HASHSIZE env))
                   (@nil ResourceTracker)) i) as [Hnil | Hin].
    + rewrite Hnil in Ht. inversion Ht.
    + apply elem_of_replicate in Hin. destruct Hin as (Hnil & _).
      rewrite Hnil in Ht. inversion Ht.
Qed.

(** X12.  In every state a context reaches from empty chains by calls of the
    six track and untrack functions, one more call changes the number of
    entries of its own class and key only: a track that gets its tracker
    adds one, an untrack takes one away if there is one; and an untrack
    writes the notice "was not tracked" exactly when the context holds no
    entry of that class and key. *)
Theorem tracker_multiset (calls : list TrackerCall) (tl0 : ThreadLocal)
    (g0 : GpuContext) (c : TrackerCall) :
  restrack g0 = replicate (Z.to_nat (RESTRACK_HASHSIZE env)) [] ->
  let st := tracker_run env calls tl0 g0 in
  let r := tracker_call env c (fst st) (snd st) in
  let n := tracked_count (snd st) (fst (call_key c)) (snd (call_key c)) in
  (forall class key,
     (class, key) ≠ call_key c ->
     tracked_count (snd r) class key = tracked_count (snd st) class key)
  /\ tracked_count (snd r) (fst (call_key c)) (snd (call_key c))
     = match call_adds c with
       | Some ok =>
           match resource_tracker_alloc ok (fst st) with
           | Some _ => S n
           | None => n
           end
       | None => Nat.pred n
       end
  /\ notices (fst r)
     = match call_adds c with
       | Some _ => notices (fst st)
       | None =>
           if Nat.eqb n 0
           then notices (fst st)
                ++ [NotTracked (fst (call_key c)) (snd (call_key c))]
           else notices (fst st)
       end.
Proof.
  intros Hfresh. cbv zeta.
  pose proof (tracker_run_placed calls tl0 g0 (fresh_placed g0 Hfresh))
    as Hp.
  destruct (call_effect c (fst (tracker_run env calls tl0 g0))
              (snd (tracker_run env calls tl0 g0)) Hp) as (_ & H).
  exact H.
Qed.

End TrackerMultiset.

Section TrackerOrder.

Import GpuContext.

Variable env : TrackerEnv.

Lemma untrack_scan_app (crc0 devptr : Z) (l l' : list ResourceTracker) :
  untrack_scan crc0 devptr l = None ->
  untrack_scan crc0 devptr (l ++ l')
  = match untrack_scan crc0 devptr l' with
    | Some (extra, rest) => Some (extra, l ++ rest)
    | None => None
    end.
Proof.
  intros Hnone. induction l as [|t l IH]; simpl in *.
  - destruct (untrack_scan crc0 devptr l') as [[e r]|]; reflexivity.
  - destruct (gpumem_tracker_matches crc0 devptr t); [discriminate|].
    destruct (untrack_scan crc0 devptr l) as [[e r]|]; [discriminate|].
    rewrite IH by reflexivity.
    destruct (untrack_scan crc0 devptr l') as [[e r]|]; reflexivity.
Qed.

(** X13.  Two entries tracked for the same device pointer leave in the order
    they came: the first [untrackGpuMem] returns the [extra] of the first
    [trackGpuMem], the second that of the second, and the context is then
    as it was, with nothing logged. *)
Theorem track_twice_fifo (ok1 ok2 : bool) (tl : ThreadLocal)
    (g : GpuContext) (devptr extra1 extra2 : Z) :
  0 < RESTRACK_HASHSIZE env ->
  length (restrack g) = Z.to_nat (RESTRACK_HASHSIZE env) ->
  ~ tracks_gpumem g devptr ->
  forall tl1 g1 tl2 g2,
    trackGpuMem env ok1 tl g devptr extra1 = (true, tl1, g1) ->
    trackGpuMem env ok2 tl1 g1 devptr extra2 = (true, tl2, g2) ->
    exists tl3 g3 tl4,
      untrackGpuMem env tl2 g2 devptr = (extra1, tl3, g3)
      /\ untrackGpuMem env tl3 g3 devptr = (extra2, tl4, g)
      /\ notices tl4 = notices tl.
Proof.
  intros Hsize Hlen Hno tl1 g1 tl2 g2. unfold trackGpuMem.
  destruct (resource_tracker_alloc ok1 tl) as [tl1'|] eqn:Ha1;
    [|discriminate].
  intros [= <- <-].
  destruct (resource_tracker_alloc ok2 tl1') as [tl2'|] eqn:Ha2;
    [|discriminate].
  intros [= <- <-].
  set (crc0 := resource_tracker_hashval env RESTRACK_CLASS__GPUMEMORY
                 devptr).
  set (i := restrack_index env crc0).
  assert (Hi : (i < length (restrack g))%nat).
  { apply index_lt; assumption. }
  set (chain := restrack g !!! i).
  set (t1 := {| crc := crc0; resclass := RESTRACK_CLASS__GPUMEMORY;
                u := devmem devptr extra1 |}).
  set (t2 := {| crc := crc0; resclass := RESTRACK_CLASS__GPUMEMORY;
                u := devmem devptr extra2 |}).
  assert (Hm : forall e,
            gpumem_tracker_matches crc0 devptr
              {| crc := crc0; resclass := RESTRACK_CLASS__GPUMEMORY;
                 u := devmem devptr e |} = true).
  { intros e. unfold gpumem_tracker_matches, u_devmem_ptr.
    cbn [crc resclass u]. rewrite !Z.eqb_refl. reflexivity. }
  assert (Hnone : untrack_scan crc0 devptr chain = None).
  { apply untracked_bucket. exact Hno. }
  cbn [restrack with_restrack].
  rewrite list_lookup_total_insert_eq by exact Hi.
  rewrite list_insert_insert_eq.
  fold chain t1 t2.
  unfold untrackGpuMem at 1. fold crc0 i. cbn [restrack with_restrack].
  rewrite list_lookup_total_insert_eq by exact Hi.
  rewrite <- app_assoc.
  rewrite (untrack_scan_app crc0 devptr chain) by exact Hnone.
  cbn [app untrack_scan]. unfold t1 at 1. rewrite (Hm extra1).
  cbn [u_devmem_extra u].
  eexists _, _, _. split; [reflexivity|].
  unfold untrackGpuMem. fold crc0 i. cbn [restrack with_restrack].
  rewrite list_insert_insert_eq.
  rewrite list_lookup_total_insert_eq by exact Hi.
  rewrite (untrack_scan_tail crc0 devptr chain t2 Hnone (Hm extra2)).
  cbn [u_devmem_extra u t2]. split.
  - f_equal. unfold with_restrack.
    cbn [addr gpuserv_id sockfd resowner shgcon local_refcnt is_unlinked
         restrack].
    rewrite list_insert_insert_eq.
    rewrite list_insert_id
      by (apply list_lookup_lookup_total_lt; exact Hi).
    destruct g; reflexivity.
  - cbn [notices].
    rewrite (alloc_notices ok2 tl1' tl2' Ha2).
    apply (alloc_notices ok1 tl tl1' Ha1).
Qed.

End TrackerOrder.

(** ** Teardown of the contexts of a process *)

Section Teardown.

Import GpuContext.
Local Open Scope nat_scope.

Variable N : nat.

Lemma slots_nonzero : exists k, Z.to_nat ACTIVE_GPU_CONTEXT_NSLOTS = S k.
Proof. exists 767. reflexivity. Qed.

Lemma process_with_contexts (pr : Process) (l : list GpuContext) :
  process_contexts (process_with pr l) = l.
Proof.
  unfold process_contexts, process_with, with_slots.
  cbn [activeGpuContextSlot].
  destruct slots_nonzero as (k & ->). simpl.
  rewrite concat_replicate_nil. apply app_nil_r.
Qed.

Lemma process_with_ok (pr : Process) (l : list GpuContext) :
  NoDup (addr <$> l) ->
  (forall g, g ∈ l -> addr g < brk pr /\ shgcon g < N) ->
  process_ok N (process_with pr l).
Proof.
  intros Hnd Hb. split; [|split].
  - unfold process_with, with_slots. cbn [activeGpuContextSlot].
    rewrite length_insert. apply length_replicate.
  - rewrite process_with_contexts. exact Hnd.
  - rewrite process_with_contexts. exact Hb.
Qed.

Lemma invariant_in_termination (w : World) (p : nat) (s : SharedGpuContext)
    (v : Z) :
  pool_invariant N w ->
  context_array (sharedGpuContextHead w) !! p = Some s ->
  pool_invariant N
    {| sharedGpuContextHead :=
         {| free_list := free_list (sharedGpuContextHead w);
            context_array :=
              <[p := with_in_termination v s]>
                (context_array (sharedGpuContextHead w)) |};
       processes := processes w |}.
Proof.
  intros [Hlen Hnd Hrange Hslot Hproc] Hs.
  constructor; cbn [sharedGpuContextHead processes free_list context_array];
    try assumption.
  - rewrite length_insert. exact Hlen.
  - intros q s' Hq. destruct (decide (p = q)) as [<- | Hne].
    + rewrite list_lookup_insert_eq in Hq
        by (apply lookup_lt_is_Some; eauto).
      inversion Hq; subst s'. apply (Hslot p s Hs).
    + rewrite list_lookup_insert_ne in Hq by exact Hne.
      apply Hslot. exact Hq.
Qed.

(** The puts of some of the contexts of a process, the others being
    kept: every put returns, the invariant holds for the process left with
    the contexts kept, and each shared context has lost the references the
    contexts put held. *)
Lemma put_list_invariant (discard : bool) (removed : list GpuContext) :
  forall (w : World) (pid : nat) (pr : Process) (kept : list GpuContext),
    pool_invariant N w ->
    processes w !! pid = Some pr ->
    process_contexts pr ≡ₚ removed ++ kept ->
    let r := put_list (IsGpuServerProcess pr) discard removed
               (sharedGpuContextHead w) in
    snd r = Return tt
    /\ (forall pr',
          IsGpuServerProcess pr' = IsGpuServerProcess pr ->
          process_ok N pr' ->
          process_contexts pr' ≡ₚ kept ->
          pool_invariant N
            {| sharedGpuContextHead := fst r;
               processes := <[pid := pr']> (processes w) |})
    /\ (forall p s,
          context_array (sharedGpuContextHead w) !! p = Some s ->
          exists s',
            context_array (fst r) !! p = Some s'
            /\ refcnt s' = (refcnt s - Z.of_nat (holders_in p removed))%Z).
Proof.
  induction removed as [|g rest IH]; intros w pid pr kept Hinv Hpr Hperm;
    cbv zeta.
  - cbn [put_list fst snd]. split; [reflexivity|]. split.
    + intros pr' Hflag Hok Hkept.
      apply (invariant_same N w pid pr pr' Hinv Hpr Hflag Hok).
      intros q. apply holders_in_perm. rewrite Hkept, Hperm. reflexivity.
    + intros p s Hs. exists s. split; [exact Hs|].
      unfold holders_in. simpl. lia.
  - assert (Hg : g ∈ process_contexts pr).
    { rewrite Hperm. left. }
    destruct (held_slot N w pid pr g Hinv Hpr Hg)
      as (s & Hs & Hpos & Hnot & Hlast).
    cbn [put_list]. rewrite Hs.
    set (sh1 := if discard then _ else sharedGpuContextHead w).
    (* the world with [in_termination] written *)
    set (w0 := {| sharedGpuContextHead := sh1; processes := processes w |}).
    assert (Hinv0 : pool_invariant N w0).
    { unfold w0, sh1. destruct discard.
      - apply invariant_in_termination; assumption.
      - destruct w; exact Hinv. }
    assert (Hcount0 : forall p s0,
              context_array (sharedGpuContextHead w) !! p = Some s0 ->
              exists s1, context_array sh1 !! p = Some s1
                         /\ refcnt s1 = refcnt s0).
    { intros p s0 Hs0. unfold sh1. destruct discard; [|eauto].
      cbn [context_array]. destruct (decide (shgcon g = p)) as [<- | Hne].
      - rewrite list_lookup_insert_eq by (apply lookup_lt_is_Some; eauto).
        rewrite Hs in Hs0. inversion Hs0; subst s0. eauto.
      - rewrite list_lookup_insert_ne by exact Hne. eauto. }
    (* the process with [g] gone *)
    set (pr1 := process_with pr (rest ++ kept)).
    destruct (inv_process N w Hinv pid pr Hpr) as (Hlen & Hnd & Hb).
    assert (Hnd' : NoDup (addr <$> g :: rest ++ kept)).
    { rewrite <- Hperm. exact Hnd. }
    assert (Hok1 : process_ok N pr1).
    { apply process_with_ok.
      - rewrite fmap_cons in Hnd'. apply NoDup_cons in Hnd'. tauto.
      - intros g' Hg'. apply Hb. rewrite Hperm. right. exact Hg'. }
    assert (Hhold : forall q,
              holders_in q (process_contexts pr1)
              + (if decide (shgcon g = q) then 1 else 0)
              = holders_in q (process_contexts pr)).
    { intros q. unfold pr1. rewrite process_with_contexts.
      rewrite (holders_in_perm q _ _ Hperm).
      change ((g :: rest) ++ kept) with (g :: rest ++ kept).
      rewrite holders_in_cons. lia. }
    destruct (invariant_put N w0 pid pr pr1 g Hinv0 Hpr eq_refl Hg Hok1
                Hhold) as (Hret & Hinv1 & _).
    cbn [sharedGpuContextHead w0] in Hret, Hinv1.
    set (q := PutSharedGpuContext (IsGpuServerProcess pr) sh1 (shgcon g))
      in *.
    rewrite Hret.
    set (w1 := {| sharedGpuContextHead := fst q;
                  processes := <[pid := pr1]> (processes w) |}) in *.
    assert (Hpr1 : processes w1 !! pid = Some pr1).
    { cbn [processes w1]. apply list_lookup_insert_eq.
      apply lookup_lt_is_Some. eauto. }
    destruct (IH w1 pid pr1 kept Hinv1 Hpr1) as (Hret' & Hinv' & Hcount').
    { unfold pr1. rewrite process_with_contexts. reflexivity. }
    cbn [sharedGpuContextHead w1 processes] in Hret', Hinv', Hcount'.
    change (IsGpuServerProcess pr1) with (IsGpuServerProcess pr)
      in Hret', Hinv', Hcount'.
    split; [exact Hret'|]. split.
    + intros pr' Hflag Hok Hkept.
      specialize (Hinv' pr' Hflag Hok Hkept).
      rewrite list_insert_insert_eq in Hinv'. exact Hinv'.
    + intros p s0 Hs0.
      destruct (Hcount0 p s0 Hs0) as (s1 & Hs1 & Hr1).
      (* the put on [sh1] *)
      assert (Hs' : context_array sh1 !! shgcon g
                    = Some (if discard then with_in_termination 2 s
                            else s)).
      { unfold sh1. destruct discard; [|exact Hs].
        cbn [context_array]. apply list_lookup_insert_eq.
        apply lookup_lt_is_Some. eauto. }
      assert (Hput : q = ({| free_list :=
                               if (refcnt s =? 1)%Z
                               then shgcon g :: free_list sh1
                               else free_list sh1;
                             context_array :=
                               <[shgcon g
                                 := after_put (IsGpuServerProcess pr)
                                      (if discard
                                       then with_in_termination 2 s
                                       else s)]> (context_array sh1) |},
                          Return tt)).
      { unfold q.
        rewrite (put_shared_spec (IsGpuServerProcess pr) sh1 (shgcon g)
                   _ Hs').
        - destruct discard; reflexivity.
        - destruct discard; exact Hpos.
        - destruct discard; exact Hlast.
        - unfold sh1. destruct discard; exact Hnot. }
      assert (Hmid : exists s2,
                context_array (fst q) !! p = Some s2
                /\ refcnt s2
                   = (refcnt s0
                      - (if decide (shgcon g = p) then 1 else 0))%Z).
      { rewrite Hput. cbn [fst context_array].
        destruct (decide (shgcon g = p)) as [<- | Hne].
        - rewrite list_lookup_insert_eq
            by (apply lookup_lt_is_Some; eauto).
          eexists. split; [reflexivity|].
          rewrite Hs in Hs0. inversion Hs0; subst s0.
          destruct discard; reflexivity.
        - rewrite list_lookup_insert_ne by exact Hne.
          exists s1. split; [exact Hs1 | lia]. }
      destruct Hmid as (s2 & Hs2 & Hr2).
      destruct (Hcount' p s2 Hs2) as (s' & Hs'' & Hr').
      exists s'. split; [exact Hs''|].
      rewrite Hr', Hr2, holders_in_cons.
      destruct (decide (shgcon g = p)); lia.
Qed.

End Teardown.

Section TeardownLoops.

Import GpuContext.
Local Open Scope nat_scope.

Variable ans : nat -> ReleaseAnswers.

Lemma pop_first_some (slots slots' : list (list GpuContext))
    (g : GpuContext) :
  pop_first slots = Some (g, slots') ->
  concat slots = g :: concat slots' /\ length slots' = length slots.
Proof.
  revert slots'. induction slots as [|l more IH]; intros slots' H;
    simpl in H; [discriminate H|].
  destruct l as [|g0 l].
  - destruct (pop_first more) as [[g1 more']|]; [|discriminate H].
    inversion H; subst. destruct (IH more' eq_refl) as (Hc & Hl).
    simpl. rewrite Hc, Hl. auto.
  - inversion H; subst. simpl. auto.
Qed.

Lemma pop_first_none (slots : list (list GpuContext)) :
  pop_first slots = None -> (λ _, []) <$> slots = slots.
Proof.
  induction slots as [|l more IH]; intros H; simpl in H; [reflexivity|].
  destruct l as [|g0 l]; [|discriminate H].
  destruct (pop_first more) as [[g1 more']|]; [discriminate H|].
  rewrite fmap_cons, IH by reflexivity. reflexivity.
Qed.

Lemma concat_fmap_nil {A B : Type} (ls : list A) :
  concat ((λ _, @nil B) <$> ls) = [].
Proof.
  induction ls as [|l more IH]; [reflexivity|].
  rewrite fmap_cons. simpl. exact IH.
Qed.

Lemma fmap_const_length {A B : Type} (b : B) (l l' : list A) :
  length l = length l' -> (λ _, b) <$> l = (λ _, b) <$> l'.
Proof.
  revert l'. induction l as [|x l IH]; intros [|y l'] H; simpl in H;
    try discriminate H; [reflexivity|].
  rewrite !fmap_cons, (IH l') by lia. reflexivity.
Qed.

(** The loops of [ForcePutAllGpuContext] make the puts of the contexts
    of the process in the order of the slots and leave every slot empty. *)
Lemma force_put_loop_puts (n : nat) :
  forall (pr : Process) (sh : SharedGpuContextHead),
    length (process_contexts pr) <= n ->
    snd (put_list (IsGpuServerProcess pr) false (process_contexts pr) sh)
    = Return tt ->
    exists tl',
      force_put_loop ans n pr sh
      = (with_tls
           (with_slots pr ((λ _, []) <$> activeGpuContextSlot pr)) tl',
         fst (put_list (IsGpuServerProcess pr) false (process_contexts pr)
                sh),
         Return tt).
Proof.
  induction n as [|n IH]; intros pr sh Hn Hret.
  - unfold process_contexts in *.
    destruct (concat (activeGpuContextSlot pr)) as [|g l] eqn:Hc;
      [|simpl in Hn; lia].
    assert (Hempty : pop_first (activeGpuContextSlot pr) = None).
    { destruct (pop_first (activeGpuContextSlot pr)) as [[g s']|] eqn:Hp;
        [|reflexivity].
      apply pop_first_some in Hp. destruct Hp as (Hp & _).
      rewrite Hc in Hp. discriminate Hp. }
    exists (tls pr). cbn [force_put_loop put_list fst].
    rewrite (pop_first_none _ Hempty). destruct pr; reflexivity.
  - cbn [force_put_loop].
    destruct (pop_first (activeGpuContextSlot pr)) as [[g slots']|] eqn:Hp.
    + destruct (pop_first_some _ _ _ Hp) as (Hc & Hl).
      unfold process_contexts in *. rewrite Hc in Hret, Hn |- *.
      cbn [put_list] in Hret |- *.
      assert (Hsh1 : match context_array sh !! shgcon g with
                     | Some _ => sh
                     | None => sh
                     end = sh)
        by (destruct (context_array sh !! shgcon g); reflexivity).
      rewrite Hsh1 in Hret |- *.
      destruct (snd (PutSharedGpuContext (IsGpuServerProcess pr) sh
                       (shgcon g))) as [[]| | |] eqn:Hq;
        try discriminate Hret.
      set (pr1 := with_tls (with_slots pr slots') (wnotice _ _)).
      destruct (IH pr1 (fst (PutSharedGpuContext (IsGpuServerProcess pr) sh
                               (shgcon g)))) as (tl' & Heq).
      { unfold pr1, process_contexts. cbn [activeGpuContextSlot with_tls
                                            with_slots].
        simpl in Hn. lia. }
      { exact Hret. }
      exists tl'. rewrite Heq. unfold pr1.
      cbn [activeGpuContextSlot with_tls with_slots IsGpuServerProcess
           process_contexts].
      rewrite (fmap_const_length [] slots' (activeGpuContextSlot pr) Hl).
      reflexivity.
    + exists (tls pr).
      assert (Hc : concat (activeGpuContextSlot pr) = []).
      { rewrite <- (pop_first_none _ Hp). apply concat_fmap_nil. }
      unfold process_contexts. rewrite Hc. cbn [put_list fst].
      rewrite (pop_first_none _ Hp). destruct pr; reflexivity.
Qed.

End TeardownLoops.

Section TeardownClaims.

Import GpuContext.
Local Open Scope nat_scope.

Variable N : nat.
Variable ans : nat -> ReleaseAnswers.

Lemma holders_in_elem (p : nat) (g : GpuContext) (l : list GpuContext) :
  g ∈ l -> shgcon g = p -> 1 <= holders_in p l.
Proof.
  intros Hg Hp. apply list_elem_of_split in Hg.
  destruct Hg as (l1 & l2 & ->). unfold holders_in.
  rewrite filter_app, length_app, filter_cons.
  rewrite decide_True by exact Hp. simpl. lia.
Qed.

(** A shared context that lost its only reference is on the free list. *)
Lemma last_reference_freed (w' : World) (sh : SharedGpuContextHead)
    (removed : list GpuContext) :
  pool_invariant N w' ->
  (forall p s,
     context_array sh !! p = Some s ->
     exists s',
       context_array (sharedGpuContextHead w') !! p = Some s'
       /\ refcnt s' = (refcnt s - Z.of_nat (holders_in p removed))%Z) ->
  forall g s,
    g ∈ removed ->
    context_array sh !! shgcon g = Some s ->
    refcnt s = 1%Z ->
    shgcon g ∈ free_list (sharedGpuContextHead w').
Proof.
  intros Hinv Hcount g s Hg Hs Hone.
  destruct (Hcount _ s Hs) as (s' & Hs' & Hr).
  destruct (inv_slot N w' Hinv _ s' Hs') as (Hr' & _ & _ & Hfree).
  apply Hfree.
  pose proof (holders_in_elem (shgcon g) g removed Hg eq_refl). lia.
Qed.

(** X14.  [ForcePutAllGpuContext], in a pool that satisfies its invariant,
    returns with every slot of the process empty and the invariant kept;
    every shared context has lost exactly the references the process held
    on it, and one that the process held alone is on the free list. *)
Theorem force_put_all_teardown (w : World) (pid : nat) (pr : Process) :
  pool_invariant N w ->
  processes w !! pid = Some pr ->
  let r := ForcePutAllGpuContext ans pr (sharedGpuContextHead w) in
  let w' := {| sharedGpuContextHead := snd (fst r);
               processes := <[pid := fst (fst r)]> (processes w) |} in
  snd r = Return tt
  /\ process_contexts (fst (fst r)) = []
  /\ pool_invariant N w'
  /\ (forall p s,
        context_array (sharedGpuContextHead w) !! p = Some s ->
        exists s',
          context_array (snd (fst r)) !! p = Some s'
          /\ refcnt s'
             = (refcnt s - Z.of_nat (holders_in p (process_contexts pr)))%Z)
  /\ (forall g s,
        g ∈ process_contexts pr ->
        context_array (sharedGpuContextHead w) !! shgcon g = Some s ->
        refcnt s = 1%Z ->
        shgcon g ∈ free_list (snd (fst r))).
Proof.
  intros Hinv Hpr. cbv zeta.
  destruct (put_list_invariant N false (process_contexts pr) w pid pr []
              Hinv Hpr) as (Hret & Hinv' & Hcount).
  { rewrite app_nil_r. reflexivity. }
  unfold ForcePutAllGpuContext.
  destruct (force_put_loop_puts ans (length (process_contexts pr)) pr
              (sharedGpuContextHead w) (le_n _) Hret) as (tl' & Heq).
  unfold process_contexts in Heq at 1. rewrite Heq. cbn [fst snd].
  assert (Hnil : process_contexts
                   (with_tls
                      (with_slots pr ((λ _, []) <$> activeGpuContextSlot pr))
                      tl') = []).
  { unfold process_contexts. cbn [activeGpuContextSlot with_tls with_slots].
    apply concat_fmap_nil. }
  assert (Hinv2 : pool_invariant N
            {| sharedGpuContextHead :=
                 fst (put_list (IsGpuServerProcess pr) false
                        (process_contexts pr) (sharedGpuContextHead w));
               processes :=
                 <[pid := with_tls
                            (with_slots pr
                               ((λ _, []) <$> activeGpuContextSlot pr))
                            tl']> (processes w) |}).
  { apply Hinv'.
    - reflexivity.
    - destruct (inv_process N w Hinv pid pr Hpr) as (Hlen & _ & _).
      split; [|split].
      + cbn [activeGpuContextSlot with_tls with_slots].
        rewrite length_fmap. exact Hlen.
      + rewrite Hnil. constructor.
      + rewrite Hnil. intros g Hg. inversion Hg.
    - rewrite Hnil. reflexivity. }
  split; [reflexivity|]. split; [exact Hnil|]. split; [exact Hinv2|].
  split; [exact Hcount|].
  apply (last_reference_freed _ _ _ Hinv2 Hcount).
Qed.

Section Cleanup.

Variable is_server : bool.
Variable CurrentResourceOwner : Z.
Variable isCommit : bool.

Lemma put_list_app (discard : bool) (l1 l2 : list GpuContext) :
  forall sh,
    snd (put_list is_server discard (l1 ++ l2) sh) = Return tt ->
    snd (put_list is_server discard l1 sh) = Return tt
    /\ put_list is_server discard (l1 ++ l2) sh
       = put_list is_server discard l2
           (fst (put_list is_server discard l1 sh)).
Proof.
  induction l1 as [|g l1 IH]; intros sh Hret.
  - split; reflexivity.
  - cbn [app put_list] in Hret |- *.
    destruct (snd (PutSharedGpuContext is_server _ (shgcon g)))
      as [[]| | |]; try discriminate Hret.
    apply IH. exact Hret.
Qed.

Lemma cleanup_slot_puts (l : list GpuContext) :
  forall (tl : ThreadLocal) (sh : SharedGpuContextHead),
    snd (put_list is_server true
           (filter (λ g, resowner g = CurrentResourceOwner) l) sh)
    = Return tt ->
    exists tl',
      cleanup_slot ans is_server CurrentResourceOwner isCommit l tl sh
      = (filter (λ g, resowner g ≠ CurrentResourceOwner) l, tl',
         fst (put_list is_server true
                (filter (λ g, resowner g = CurrentResourceOwner) l) sh),
         Return tt).
Proof.
  induction l as [|g rest IH]; intros tl sh Hret.
  - exists tl. reflexivity.
  - cbn [cleanup_slot].
    destruct (Z.eqb_spec (resowner g) CurrentResourceOwner) as [Heq | Hne].
    + rewrite (filter_cons_True (λ g0, resowner g0 = CurrentResourceOwner))
        in Hret |- * by exact Heq.
      rewrite (filter_cons_False (λ g0, resowner g0 ≠ CurrentResourceOwner))
        by (intros H; apply H; exact Heq).
      cbn [put_list] in Hret |- *.
      destruct (context_array sh !! shgcon g) as [s|] eqn:Hs.
      * destruct (snd (PutSharedGpuContext is_server _ (shgcon g)))
          as [[]| | |] eqn:Hq; try discriminate Hret.
        apply IH. exact Hret.
      * unfold PutSharedGpuContext in Hret. rewrite Hs in Hret.
        discriminate Hret.
    + rewrite (filter_cons_False (λ g0, resowner g0 = CurrentResourceOwner))
        in Hret |- * by exact Hne.
      rewrite (filter_cons_True (λ g0, resowner g0 ≠ CurrentResourceOwner))
        by exact Hne.
      destruct (IH tl sh Hret) as (tl' & ->).
      exists tl'. reflexivity.
Qed.

Lemma cleanup_slots_puts (slots : list (list GpuContext)) :
  forall (tl : ThreadLocal) (sh : SharedGpuContextHead),
    snd (put_list is_server true
           (filter (λ g, resowner g = CurrentResourceOwner) (concat slots))
           sh) = Return tt ->
    exists tl',
      cleanup_slots ans is_server CurrentResourceOwner isCommit slots tl sh
      = (filter (λ g, resowner g ≠ CurrentResourceOwner) <$> slots, tl',
         fst (put_list is_server true
                (filter (λ g, resowner g = CurrentResourceOwner)
                   (concat slots)) sh),
         Return tt).
Proof.
  induction slots as [|l more IH]; intros tl sh Hret.
  - exists tl. reflexivity.
  - cbn [concat] in Hret |- *. rewrite filter_app in Hret |- *.
    destruct (put_list_app true _ _ sh Hret) as (Hret1 & Happ).
    rewrite Happ in Hret |- *.
    destruct (cleanup_slot_puts l tl sh Hret1) as (tl1 & Heq1).
    cbn [cleanup_slots]. rewrite Heq1. cbn [fst snd].
    destruct (IH tl1 _ Hret) as (tl' & ->).
    exists tl'. reflexivity.
Qed.

End Cleanup.

(** X15.  [gpucontext_cleanup_callback] before the locks are released, in a
    pool that satisfies its invariant: it returns; of the slots it visits
    (the first one in a backend, all in the GPU server) exactly the
    contexts of [CurrentResourceOwner] are gone, whatever their reference
    counts; the invariant is kept; every shared context has lost exactly
    the references of the contexts removed, and one held by such a context
    alone is on the free list. *)
Theorem cleanup_callback_teardown (w : World) (pid : nat) (pr : Process)
    (CurrentResourceOwner : Z) (isCommit : bool) :
  pool_invariant N w ->
  processes w !! pid = Some pr ->
  let n := if negb (IsGpuServerProcess pr) then 1
           else Z.to_nat ACTIVE_GPU_CONTEXT_NSLOTS in
  let scanned := take n (activeGpuContextSlot pr) in
  let removed :=
    filter (λ g, resowner g = CurrentResourceOwner) (concat scanned) in
  let r := gpucontext_cleanup_callback ans pr (sharedGpuContextHead w)
             CurrentResourceOwner true isCommit in
  let w' := {| sharedGpuContextHead := snd (fst r);
               processes := <[pid := fst (fst r)]> (processes w) |} in
  snd r = Return tt
  /\ activeGpuContextSlot (fst (fst r))
     = (filter (λ g, resowner g ≠ CurrentResourceOwner) <$> scanned)
       ++ drop n (activeGpuContextSlot pr)
  /\ pool_invariant N w'
  /\ (forall p s,
        context_array (sharedGpuContextHead w) !! p = Some s ->
        exists s',
          context_array (snd (fst r)) !! p = Some s'
          /\ refcnt s' = (refcnt s - Z.of_nat (holders_in p removed))%Z)
  /\ (forall g s,
        g ∈ removed ->
        context_array (sharedGpuContextHead w) !! shgcon g = Some s ->
        refcnt s = 1%Z ->
        shgcon g ∈ free_list (snd (fst r))).
Proof.
  intros Hinv Hpr. cbv zeta.
  set (n := if negb (IsGpuServerProcess pr) then 1
            else Z.to_nat ACTIVE_GPU_CONTEXT_NSLOTS).
  set (scanned := take n (activeGpuContextSlot pr)).
  set (removed := filter (λ g, resowner g = CurrentResourceOwner)
                    (concat scanned)).
  set (kept := concat (filter (λ g, resowner g ≠ CurrentResourceOwner)
                         <$> scanned)
               ++ concat (drop n (activeGpuContextSlot pr))).
  assert (Hperm : process_contexts pr ≡ₚ removed ++ kept).
  { unfold process_contexts, removed, kept.
    rewrite <- (take_drop n (activeGpuContextSlot pr)) at 1.
    rewrite concat_app. fold scanned. rewrite app_assoc.
    apply Permutation_app_tail.
    rewrite <- list_filter_concat.
    symmetry. apply filter_app_complement. }
  destruct (put_list_invariant N true removed w pid pr kept Hinv Hpr Hperm)
    as (Hret & Hinv' & Hcount).
  unfold gpucontext_cleanup_callback. cbn [negb]. fold n scanned.
  destruct (cleanup_slots_puts (IsGpuServerProcess pr) CurrentResourceOwner
              isCommit scanned (tls pr) (sharedGpuContextHead w) Hret)
    as (tl' & Heq).
  rewrite Heq. cbn [fst snd activeGpuContextSlot with_tls with_slots].
  set (pr' := with_tls (with_slots pr _) tl').
  assert (Hkept : process_contexts pr' = kept).
  { unfold process_contexts, pr', kept.
    cbn [activeGpuContextSlot with_tls with_slots].
    apply concat_app. }
  assert (Hinv2 : pool_invariant N
            {| sharedGpuContextHead :=
                 fst (put_list (IsGpuServerProcess pr) true removed
                        (sharedGpuContextHead w));
               processes := <[pid := pr']> (processes w) |}).
  { apply Hinv'.
    - reflexivity.
    - destruct (inv_process N w Hinv pid pr Hpr) as (Hlen & Hnd & Hb).
      split; [|split].
      + unfold pr'. cbn [activeGpuContextSlot with_tls with_slots].
        rewrite length_app, length_fmap. unfold scanned.
        rewrite length_take, length_drop. lia.
      + rewrite Hkept. rewrite Hperm, fmap_app in Hnd.
        apply NoDup_app in Hnd. tauto.
      + rewrite Hkept. intros g Hg. apply Hb. rewrite Hperm.
        apply elem_of_app. right. exact Hg.
    - rewrite Hkept. reflexivity. }
  split; [reflexivity|]. split; [reflexivity|]. split; [exact Hinv2|].
  split; [exact Hcount|].
  apply (last_reference_freed _ _ _ Hinv2 Hcount).
Qed.

End TeardownClaims.

(** ** Acquiring a context twice; attaching and looking up *)

Section FreshContext.

Import GpuContext.
Local Open Scope nat_scope.

Variable a : nat.

Lemma fresh_chain (slots : list (list GpuContext)) (k : nat) :
  fresh_address a slots -> forall g, g ∈ slots !!! k -> addr g ≠ a.
Proof.
  intros Hf g Hg. apply Hf. apply elem_of_concat.
  destruct (total_lookup_bucket slots k) as [Hnil | Hin].
  - rewrite Hnil in Hg. inversion Hg.
  - eauto.
Qed.

Lemma fmap_fresh (f : GpuContext -> GpuContext) (l : list GpuContext) :
  (forall g, g ∈ l -> addr g ≠ a) ->
  (λ g, if decide (addr g = a) then f g else g) <$> l = l.
Proof.
  induction l as [|g l IH]; intros H; [reflexivity|].
  rewrite fmap_cons, IH by (intros g' Hg'; apply H; right; exact Hg').
  rewrite decide_False by (apply H; left). reflexivity.
Qed.

Lemma filter_fresh (l : list GpuContext) :
  (forall g, g ∈ l -> addr g ≠ a) ->
  filter (λ g, addr g ≠ a) l = l.
Proof.
  induction l as [|g l IH]; intros H; [reflexivity|].
  rewrite filter_cons_True by (apply H; left).
  rewrite IH by (intros g' Hg'; apply H; right; exact Hg'). reflexivity.
Qed.

Lemma filter_fresh_none (l : list GpuContext) :
  (forall g, g ∈ l -> addr g ≠ a) ->
  filter (λ g, addr g = a) l = [].
Proof.
  induction l as [|g l IH]; intros H; [reflexivity|].
  rewrite filter_cons_False by (apply H; left).
  apply IH. intros g' Hg'. apply H. right. exact Hg'.
Qed.

Lemma slots_update_fresh (f : GpuContext -> GpuContext)
    (slots : list (list GpuContext)) :
  fresh_address a slots -> slots_update a f slots = slots.
Proof.
  unfold fresh_address, slots_update.
  induction slots as [|l more IH]; intros H; [reflexivity|].
  rewrite fmap_cons. rewrite IH.
  - rewrite fmap_fresh; [reflexivity|].
    intros g Hg. apply H. simpl. apply elem_of_app. left. exact Hg.
  - intros g Hg. apply H. simpl. apply elem_of_app. right. exact Hg.
Qed.

Lemma slots_delete_fresh (slots : list (list GpuContext)) :
  fresh_address a slots -> slots_delete a slots = slots.
Proof.
  unfold fresh_address, slots_delete.
  induction slots as [|l more IH]; intros H; [reflexivity|].
  rewrite fmap_cons. rewrite IH.
  - rewrite filter_fresh; [reflexivity|].
    intros g Hg. apply H. simpl. apply elem_of_app. left. exact Hg.
  - intros g Hg. apply H. simpl. apply elem_of_app. right. exact Hg.
Qed.

Lemma slots_update_push (f : GpuContext -> GpuContext)
    (slots : list (list GpuContext)) (k : nat) (g : GpuContext) :
  k < length slots ->
  fresh_address a slots ->
  addr g = a ->
  slots_update a f (slots_push_head k g slots)
  = slots_push_head k (f g) slots.
Proof.
  intros Hk Hf Ha. unfold slots_push_head, slots_update.
  rewrite list_fmap_insert. fold (slots_update a f slots).
  rewrite slots_update_fresh by exact Hf.
  rewrite fmap_cons, decide_True by exact Ha.
  rewrite fmap_fresh by (apply fresh_chain; exact Hf). reflexivity.
Qed.

Lemma slots_push_twice (slots : list (list GpuContext)) (k : nat)
    (g g' : GpuContext) :
  k < length slots ->
  <[k := g' :: (slots !!! k)]> (slots_push_head k g slots)
  = slots_push_head k g' slots.
Proof.
  intros Hk. unfold slots_push_head. apply list_insert_insert_eq.
Qed.

Lemma slots_delete_push (slots : list (list GpuContext)) (k : nat)
    (g : GpuContext) :
  k < length slots ->
  fresh_address a slots ->
  addr g = a ->
  slots_delete a (slots_push_head k g slots) = slots.
Proof.
  intros Hk Hf Ha. unfold slots_push_head, slots_delete.
  rewrite list_fmap_insert. fold (slots_delete a slots).
  rewrite slots_delete_fresh by exact Hf.
  rewrite filter_cons_False by (intros H; apply H; exact Ha).
  rewrite filter_fresh by (apply fresh_chain; exact Hf).
  apply list_insert_id. apply list_lookup_lookup_total_lt. exact Hk.
Qed.

Lemma concat_push_split (slots : list (list GpuContext)) (k : nat)
    (g : GpuContext) :
  k < length slots ->
  exists l1 l2,
    concat slots = l1 ++ l2
    /\ concat (slots_push_head k g slots) = l1 ++ g :: l2.
Proof.
  unfold slots_push_head. revert k.
  induction slots as [|l more IH]; intros k Hk; simpl in Hk; [lia|].
  destruct k as [|k].
  - exists [], (concat (l :: more)). split; reflexivity.
  - destruct (IH k ltac:(lia)) as (l1 & l2 & H1 & H2).
    exists (l ++ l1), l2. simpl.
    change ((l :: more) !!! S k) with (more !!! k).
    rewrite H1, H2, !app_assoc. split; reflexivity.
Qed.

Lemma context_at_push (slots : list (list GpuContext)) (k : nat)
    (g : GpuContext) :
  k < length slots ->
  fresh_address a slots ->
  addr g = a ->
  context_at a (slots_push_head k g slots) = Some g.
Proof.
  intros Hk Hf Ha. unfold context_at.
  destruct (concat_push_split slots k g Hk) as (l1 & l2 & H1 & ->).
  unfold fresh_address in Hf. rewrite H1 in Hf.
  rewrite filter_app, filter_cons_True by exact Ha.
  rewrite filter_fresh_none.
  - reflexivity.
  - intros g' Hg'. apply Hf. apply elem_of_app. left. exact Hg'.
Qed.

End FreshContext.

Section AllocRoundTrip.

Import GpuContext.
Local Open Scope nat_scope.

Variable env : TrackerEnv.
Variable N : nat.

Lemma process_ok_fresh (pr : Process) :
  process_ok N pr ->
  (0 < length (activeGpuContextSlot pr))
  /\ fresh_address (brk pr) (activeGpuContextSlot pr).
Proof.
  intros (Hlen & _ & Hb). split.
  - rewrite Hlen. destruct slots_nonzero as (k & ->). lia.
  - intros g Hg. destruct (Hb g Hg) as (Hlt & _). lia.
Qed.

(** A context without socket that tracks nothing is released without a
    call that could fail: nothing is written. *)
Lemma release_nothing (ans : ReleaseAnswers) (tl : ThreadLocal)
    (g : GpuContext) (n : nat) (normal_exit : bool) :
  sockfd g = PGINVALID_SOCKET ->
  restrack g = replicate n [] ->
  fst (ReleaseLocalResources ans tl g normal_exit) = tl.
Proof.
  intros Hfd Hg. unfold ReleaseLocalResources, close_notice. cbn [fst].
  rewrite Hfd, Z.eqb_refl, Hg, concat_replicate_nil. cbn.
  rewrite app_nil_r. destruct tl; reflexivity.
Qed.

(** X16.  In a backend with no reusable context, [AllocGpuContext] takes the
    head of the free list; a second [AllocGpuContext] for the same
    resource owner returns the same context and takes no shared slot; the
    first [PutGpuContext] leaves the shared head alone and the second gives
    the slot back: the free list, the slots of the process and its
    thread-local state are as before the first call, whatever the calls
    of the release would answer (the context has no socket and tracks
    nothing). *)
Theorem alloc_put_round_trip (pr : Process) (sh : SharedGpuContextHead)
    (ro pw pw' : Z) (ok' : bool) (conn conn' : Outcome Z) (p : nat)
    (free : list nat) (ans ans' : ReleaseAnswers) :
  process_ok N pr ->
  IsGpuServerProcess pr = false ->
  List.find (reusable ro false) (activeGpuContextSlot pr !!! 0) = None ->
  free_list sh = p :: free ->
  p ∉ free ->
  p < length (context_array sh) ->
  exists pr1 sh1 pr2 pr3 pr4 sh4,
    AllocGpuContext env pr sh ro pw false true conn
    = (pr1, sh1, Return (brk pr))
    /\ free_list sh1 = free
    /\ AllocGpuContext env pr1 sh1 ro pw' false ok' conn'
       = (pr2, sh1, Return (brk pr))
    /\ PutGpuContext ans pr2 sh1 (brk pr) = (pr3, sh1, Return tt)
    /\ PutGpuContext ans' pr3 sh1 (brk pr) = (pr4, sh4, Return tt)
    /\ free_list sh4 = p :: free
    /\ (exists s, context_array sh4 !! p = Some s /\ refcnt s = 0%Z)
    /\ activeGpuContextSlot pr4 = activeGpuContextSlot pr
    /\ tls pr4 = tls pr.
Proof.
  intros Hok Hback Hfind Hfree Hp Hlt.
  destruct (process_ok_fresh pr Hok) as (Hlen & Hfresh).
  set (a := brk pr) in *.
  set (g1 := {| addr := a; gpuserv_id := (-1)%Z; sockfd := PGINVALID_SOCKET;
                resowner := ro; shgcon := p; local_refcnt := 1%Z;
                is_unlinked := 0%Z;
                restrack := replicate (Z.to_nat (RESTRACK_HASHSIZE env)) []
             |}).
  set (s0 := {| refcnt := 1%Z; backend := Some (MyProc pr); server := None;
                ParallelWorkerNumber := pw; in_termination := 0%Z;
                num_async_tasks := 0%Z; dma_buffer_list := [] |}).
  set (sh1 := {| free_list := free;
                 context_array := <[p := s0]> (context_array sh) |}).
  set (slots := activeGpuContextSlot pr) in *.
  set (pr1 := with_slots (bump pr) (slots_push_head 0 g1 slots)).
  set (g2 := with_local_refcnt 2%Z g1).
  set (pr2 := with_slots pr1 (slots_push_head 0 g2 slots)).
  set (pr3 := with_slots pr2 (slots_push_head 0 g1 slots)).
  (* the first acquire *)
  assert (H1 : AllocGpuContext env pr sh ro pw false true conn
               = (pr1, sh1, Return a)).
  { unfold AllocGpuContext. rewrite Hback. fold slots. rewrite Hfind.
    cbn [negb]. rewrite Hfree. reflexivity. }
  (* the second acquire *)
  assert (Hslot1 : activeGpuContextSlot pr1 !!! 0 = g1 :: slots !!! 0).
  { unfold pr1, slots_push_head. cbn [activeGpuContextSlot with_slots].
    apply list_lookup_total_insert_eq. exact Hlen. }
  assert (H2 : AllocGpuContext env pr1 sh1 ro pw' false ok' conn'
               = (pr2, sh1, Return a)).
  { unfold AllocGpuContext.
    change (IsGpuServerProcess pr1) with (IsGpuServerProcess pr).
    rewrite Hback, Hslot1. cbn [List.find].
    assert (Hre : reusable ro false g1 = true).
    { unfold reusable, g1. cbn [resowner sockfd]. rewrite !Z.eqb_refl.
      reflexivity. }
    rewrite Hre. cbn [addr g1].
    unfold pr1 at 2. cbn [activeGpuContextSlot with_slots].
    rewrite (slots_update_push a) by (assumption || reflexivity).
    reflexivity. }
  (* the first put *)
  assert (H3 : PutGpuContext ans pr2 sh1 a = (pr3, sh1, Return tt)).
  { unfold PutGpuContext. unfold pr2 at 1.
    cbn [activeGpuContextSlot with_slots].
    rewrite (context_at_push a) by (assumption || reflexivity).
    cbn [local_refcnt g2 with_local_refcnt]. cbn [Z.eqb u32_decr].
    change (u32_decr 2 =? 0)%Z with false. cbn iota.
    unfold pr2 at 2. cbn [activeGpuContextSlot with_slots].
    rewrite (slots_update_push a) by (assumption || reflexivity).
    reflexivity. }
  (* the second put *)
  exists pr1, sh1, pr2, pr3.
  assert (Hs0 : context_array sh1 !! p = Some s0).
  { unfold sh1. cbn [context_array]. apply list_lookup_insert_eq.
    exact Hlt. }
  assert (Hput : PutSharedGpuContext false sh1 p
                 = ({| free_list := p :: free;
                       context_array :=
                         <[p := {| refcnt := 0%Z; backend := None;
                                   server := None;
                                   ParallelWorkerNumber := pw;
                                   in_termination := 0%Z;
                                   num_async_tasks := 0%Z;
                                   dma_buffer_list := [] |}]>
                           (context_array sh1) |},
                    Return tt)).
  { unfold PutSharedGpuContext. rewrite Hs0.
    cbn [refcnt s0 backend server ParallelWorkerNumber in_termination
         num_async_tasks dma_buffer_list].
    change (0 <? 1)%Z with true. change (0 <? 1 - 1)%Z with false.
    change (1 - 1)%Z with 0%Z. cbn [negb andb].
    rewrite !bool_decide_eq_true_2 by reflexivity. cbn [negb andb].
    change (free_list sh1) with free.
    rewrite bool_decide_eq_false_2 by exact Hp. reflexivity. }
  assert (H4 : exists pr4 sh4,
            PutGpuContext ans' pr3 sh1 a = (pr4, sh4, Return tt)
            /\ free_list sh4 = p :: free
            /\ (exists s, context_array sh4 !! p = Some s /\ refcnt s = 0%Z)
            /\ activeGpuContextSlot pr4 = slots
            /\ tls pr4 = tls pr).
  { unfold PutGpuContext. unfold pr3 at 1.
    cbn [activeGpuContextSlot with_slots].
    rewrite (context_at_push a) by (assumption || reflexivity).
    cbn [local_refcnt g1].
    change (u32_decr 1 =? 0)%Z with true. cbn iota.
    change (IsGpuServerProcess pr3) with (IsGpuServerProcess pr).
    rewrite Hback. cbn [shgcon g1]. rewrite Hput.
    eexists _, _. split; [reflexivity|]. cbn [fst snd].
    split; [reflexivity|]. split.
    { eexists. cbn [context_array]. split.
      - apply list_lookup_insert_eq. unfold sh1. cbn [context_array].
        rewrite length_insert. exact Hlt.
      - reflexivity. }
    split.
    - cbn [activeGpuContextSlot with_tls with_slots]. unfold pr3.
      cbn [activeGpuContextSlot with_slots].
      apply (slots_delete_push a); assumption || reflexivity.
    - cbn [tls with_tls with_slots].
      apply (release_nothing _ _ _ (Z.to_nat (RESTRACK_HASHSIZE env)));
        reflexivity. }
  destruct H4 as (pr4 & sh4 & H4 & Hf4 & Hs4 & Hslots4 & Htls4).
  exists pr4, sh4.
  repeat (split; [assumption || reflexivity|]). exact Htls4.
Qed.

End AllocRoundTrip.

Section AttachLookup.

Import GpuContext.
Local Open Scope nat_scope.

Variable env : TrackerEnv.
Variable N : nat.

(** X17.  After an [AttachGpuContext] that returns,
    [GetGpuContextBySockfd] for the same socket returns the context
    attached, whose reference count is then 2. *)
Theorem attach_then_lookup (pr pr1 : Process)
    (sh sh1 : SharedGpuContextHead) (fd : Z) (p : nat) (ro di : Z)
    (ok ep : bool) (a : nat) :
  process_ok N pr ->
  AttachGpuContext env pr sh fd p ro di ok ep = (pr1, sh1, Return a) ->
  a = brk pr
  /\ exists pr2 g,
       GetGpuContextBySockfd pr1 fd = (pr2, Return (Some a))
       /\ context_at a (activeGpuContextSlot pr2) = Some g
       /\ sockfd g = fd
       /\ shgcon g = p
       /\ local_refcnt g = 2%Z.
Proof.
  intros Hok Hat.
  destruct (process_ok_fresh N pr Hok) as (_ & Hfresh).
  destruct Hok as (Hlen & _ & _).
  unfold AttachGpuContext in Hat.
  destruct (IsGpuServerProcess pr) eqn:Hsrv; [|discriminate Hat].
  cbn [negb] in Hat.
  destruct ok; [|discriminate Hat]. cbn [negb] in Hat.
  destruct (negb ep || (fd <? 0)%Z) eqn:Hfd; [discriminate Hat|].
  apply orb_false_iff in Hfd. destruct Hfd as (_ & Hfd).
  apply Z.ltb_ge in Hfd.
  destruct (context_array sh !! p) as [s|]; [|discriminate Hat].
  destruct (negb _); [discriminate Hat|].
  inversion Hat as [[Hpr1 Hsh1 Ha]]. clear Hat.
  split; [reflexivity|].
  set (k := Z.to_nat (fd mod ACTIVE_GPU_CONTEXT_NSLOTS)).
  set (g := {| addr := brk pr; gpuserv_id := di; sockfd := fd;
               resowner := ro; shgcon := p; local_refcnt := 1%Z;
               is_unlinked := 0%Z;
               restrack := replicate (Z.to_nat (RESTRACK_HASHSIZE env)) []
            |}).
  assert (Hk : k < length (activeGpuContextSlot pr)).
  { rewrite Hlen. unfold k, ACTIVE_GPU_CONTEXT_NSLOTS.
    pose proof (Z.mod_pos_bound fd 768 ltac:(lia)). lia. }
  assert (Hrem : Z.rem fd ACTIVE_GPU_CONTEXT_NSLOTS
                 = (fd mod ACTIVE_GPU_CONTEXT_NSLOTS)%Z).
  { apply Z.rem_mod_nonneg; [exact Hfd|]. unfold ACTIVE_GPU_CONTEXT_NSLOTS.
    lia. }
  unfold GetGpuContextBySockfd.
  cbn [IsGpuServerProcess with_slots bump]. rewrite Hsrv. cbn [negb].
  rewrite Hrem.
  assert (Hneg : ((fd mod ACTIVE_GPU_CONTEXT_NSLOTS) <? 0)%Z = false).
  { apply Z.ltb_ge. unfold ACTIVE_GPU_CONTEXT_NSLOTS.
    pose proof (Z.mod_pos_bound fd 768 ltac:(lia)). lia. }
  rewrite Hneg. fold k. cbn [activeGpuContextSlot with_slots].
  unfold slots_push_head at 1.
  rewrite list_lookup_total_insert_eq by exact Hk.
  cbn [List.find sockfd]. fold g. cbn [sockfd g].
  rewrite Z.eqb_refl. cbn [addr g].
  unfold GetGpuContext. cbn [activeGpuContextSlot with_slots].
  rewrite (context_at_push (brk pr)) by (assumption || reflexivity).
  cbn [local_refcnt g]. change (0 <? 1)%Z with true. cbn iota.
  cbn [fst snd].
  eexists _, (with_local_refcnt 2%Z g). split; [reflexivity|].
  cbn [activeGpuContextSlot with_slots].
  rewrite (slots_update_push (brk pr)) by (assumption || reflexivity).
  split.
  - apply (context_at_push (brk pr)); assumption || reflexivity.
  - split; [reflexivity|]. split; reflexivity.
Qed.

End AttachLookup.

(** ** Writing a pinned chunk, then exporting its handle *)

Section WriteExport.

Variable env : XactEnv.
Variable capacity : nat.

(** The export for a table pinned to a device that exists, by the result
    of the lookup. *)
Lemma export_found (reader : XactEnv) (pinning numDevAttrs : Z)
    (head : GpuStoreHead) (relid : Oid) (snapshot : Snapshot) (p : nat)
    (c : GpuStoreChunk) :
  0 <= pinning < numDevAttrs ->
  gs_chunks head !! p = Some c ->
  snd (gstore_fdw_lookup_chunk reader head relid snapshot)
  = Return (Some p) ->
  snd (pgstrom_gstore_export_ipchandle reader true pinning numDevAttrs head
         relid snapshot)
  = Return (Some (ipc_mhandle c)).
Proof.
  intros (Hlo & Hhi) Hc Hl. unfold pgstrom_gstore_export_ipchandle.
  cbn [negb].
  destruct (pinning <? 0) eqn:H1; [apply Z.ltb_lt in H1; lia|].
  destruct (numDevAttrs <=? pinning) eqn:H2; [apply Z.leb_le in H2; lia|].
  cbv zeta. rewrite Hl.
  pose proof (lookup_chunk_payload reader head relid snapshot p) as Hpay.
  destruct (gs_chunks (fst (gstore_fdw_lookup_chunk reader head relid
                              snapshot)) !! p) as [c'|] eqn:Hc'.
  - destruct (Hpay c' eq_refl) as (c0 & Hc0 & Hsame).
    rewrite Hc in Hc0. inversion Hc0; subst c0.
    cbn [snd]. f_equal. f_equal. apply Hsame.
  - exfalso. apply lookup_ge_None_1 in Hc'. apply lookup_lt_Some in Hc.
    rewrite lookup_chunk_length in Hc'. lia.
Qed.

Lemma export_none (reader : XactEnv) (pinning numDevAttrs : Z)
    (head : GpuStoreHead) (relid : Oid) (snapshot : Snapshot) :
  0 <= pinning < numDevAttrs ->
  snd (gstore_fdw_lookup_chunk reader head relid snapshot) = Return None ->
  snd (pgstrom_gstore_export_ipchandle reader true pinning numDevAttrs head
         relid snapshot)
  = Return None.
Proof.
  intros (Hlo & Hhi) Hl. unfold pgstrom_gstore_export_ipchandle.
  cbn [negb].
  destruct (pinning <? 0) eqn:H1; [apply Z.ltb_lt in H1; lia|].
  destruct (numDevAttrs <=? pinning) eqn:H2; [apply Z.leb_le in H2; lia|].
  cbv zeta. rewrite Hl. reflexivity.
Qed.

(** A load that returns gave the handle of the allocation and left the
    device with that allocation more. *)
Lemma load_gpu_preserved_returns (cuda : CudaAnswers) (dindex : Z)
    (d : DeviceState) (handle : Z) :
  snd (gstore_fdw_load_gpu_preserved cuda dindex d) = Return handle ->
  gpuMemAllocPreserved cuda = Some handle
  /\ fst (gstore_fdw_load_gpu_preserved cuda dindex d)
     = with_preserved d ((dindex, handle) :: preserved d).
Proof.
  unfold gstore_fdw_load_gpu_preserved.
  destruct (gpuMemAllocPreserved cuda) as [h|]; [|discriminate].
  pose proof (load_gpu_preserved_try_device cuda
                (with_preserved d ((dindex, h) :: preserved d)))
    as (_ & Hsame).
  destruct (snd (load_gpu_preserved_try cuda _)); cbn [fst snd];
    [|discriminate].
  intros [= <-]. split; [reflexivity|]. apply Hsame. reflexivity.
Qed.

(** What a write-out for a pinned table does to the device, and the handle
    it stores. *)
Lemma writeout_handle (cuda : CudaAnswers) (m m' : Machine) (relid : Oid)
    (gs_lstate : gstoreLoadState) (dsm_seg kds_len kds_n dindex : Z) :
  gcontext gs_lstate = Some dindex ->
  gstore_fdw_writeout_pgstrom env cuda m relid gs_lstate dsm_seg kds_len
    kds_n = (m', Return tt) ->
  exists (handle : Z) (p : nat) (c : GpuStoreChunk),
    gpuMemAllocPreserved cuda = Some handle
    /\ device m'
       = with_preserved (device m) ((dindex, handle) :: preserved (device m))
    /\ head (free_chunks (gstore_head m)) = Some p
    /\ gs_chunks (gstore_head m') = <[p := c]> (gs_chunks (gstore_head m))
    /\ gstore_maps m' = <[p := Some dsm_seg]> (gstore_maps m)
    /\ ipc_mhandle c = handle
    /\ cuda_dindex c = dindex
    /\ dsm_handle c = dsm_seg.
Proof.
  intros Hpin Hw. unfold gstore_fdw_writeout_pgstrom in Hw.
  rewrite Hpin in Hw.
  destruct (snd (gstore_fdw_load_gpu_preserved cuda dindex (device m)))
    as [handle| | |] eqn:Hload; try discriminate Hw.
  destruct (load_gpu_preserved_returns cuda dindex (device m) handle Hload)
    as (Halloc & Hdev).
  cbn [gstore_head with_device gstore_maps device] in Hw.
  destruct (free_chunks (gstore_head m)) as [|p free] eqn:Hfree;
    [discriminate Hw|].
  inversion Hw as [Hm']. clear Hw.
  eexists handle, p, _. cbn [gstore_head gs_chunks gstore_maps device].
  split; [exact Halloc|]. split; [exact Hdev|].
  split; [reflexivity|]. split; [reflexivity|]. split; [reflexivity|].
  split; [reflexivity|]. split; reflexivity.
Qed.

(** X18.  After a write-out that returns, for a table pinned to the device
    [dindex] and of which the snapshot saw no chunk: the device holds one
    more preserved allocation, the one [gpuMemAllocPreserved] gave for
    [dindex]; in every later command of the writer
    [pgstrom_gstore_export_ipchandle] returns the handle of that
    allocation, and in the command that wrote it returns NULL. *)
Theorem write_then_export (cuda : CudaAnswers) (m m' : Machine)
    (relid : Oid) (gs_lstate : gstoreLoadState)
    (dsm_seg kds_len kds_n dindex numDevAttrs : Z) :
  store_ok capacity (gstore_head m) ->
  gcontext gs_lstate = Some dindex ->
  0 <= dindex < numDevAttrs ->
  gstore_fdw_writeout_pgstrom env cuda m relid gs_lstate dsm_seg kds_len
    kds_n = (m', Return tt) ->
  TransactionIdIsValid (GetCurrentTransactionId env) = true ->
  TransactionIdIsCurrentTransactionId env (GetCurrentTransactionId env)
  = true ->
  exists handle : Z,
    gpuMemAllocPreserved cuda = Some handle
    /\ device m'
       = with_preserved (device m) ((dindex, handle) :: preserved (device m))
    /\ forall snapshot,
         visible_chunks env (gstore_head m) relid snapshot = [] ->
         snd (pgstrom_gstore_export_ipchandle env true dindex numDevAttrs
                (gstore_head m') relid snapshot)
         = Return (if curcid snapshot <=? GetCurrentCommandId env
                   then None else Some handle).
Proof.
  intros Hok Hpin Hrange Hw Hvalid Hown.
  destruct (writeout_handle cuda m m' relid gs_lstate dsm_seg kds_len kds_n
              dindex Hpin Hw)
    as (handle & p & c & Halloc & Hdev & Hhead & Hcs & _ & Hh & _).
  exists handle. split; [exact Halloc|]. split; [exact Hdev|].
  intros snapshot Hnone.
  destruct (writeout_then_lookup env capacity _ _ _ _ _ _ _ _ env snapshot
              Hok Hw)
    as (p' & c' & Hhead' & Hc' & Hxmin & Hxmax & Hcid & Hmc & _ & _ & Hlook).
  { split; reflexivity. }
  { exact Hnone. }
  rewrite Hhead in Hhead'. injection Hhead' as <-.
  assert (Hcc : c' = c).
  { rewrite Hcs in Hc'.
    assert (Hlt : (p < length (gs_chunks (gstore_head m)))%nat).
    { apply lookup_lt_Some in Hc'. rewrite length_insert in Hc'. exact Hc'. }
    rewrite list_lookup_insert_eq in Hc' by exact Hlt.
    injection Hc' as ->. reflexivity. }
  subst c'.
  assert (Hvis : fst (gstore_fdw_satisfies_visibility env c snapshot)
                 = negb (curcid snapshot <=? GetCurrentCommandId env)).
  { unfold gstore_fdw_satisfies_visibility.
    rewrite Hmc, Hxmin, Hvalid, Hown, Hcid, Hxmax. cbn [negb].
    destruct (curcid snapshot <=? GetCurrentCommandId env); reflexivity. }
  rewrite Hvis in Hlook.
  destruct (curcid snapshot <=? GetCurrentCommandId env); cbn [negb] in Hlook.
  - apply export_none; assumption.
  - rewrite <- Hh. apply (export_found _ _ _ _ _ _ p c Hrange Hc' Hlook).
Qed.

End WriteExport.

(** ** The options of a table and of a column *)

Section TableOptions.

Import Options.
Import String.StringSyntax.
Local Open Scope string_scope.

Variable env : OptionEnv.

Lemma pinning_not_format (d : DefElem) :
  is_pinning d = true -> is_format d = false.
Proof.
  unfold is_pinning, is_format. intros H. apply String.eqb_eq in H.
  rewrite H. reflexivity.
Qed.

Lemma table_option_ok_spec (d : DefElem) :
  table_option_ok d = true
  <-> defname d = "pinning"
      \/ (defname d = "format"
          /\ (defGetString d = "pgstrom" \/ defGetString d = "default")).
Proof.
  unfold table_option_ok, is_pinning, is_format, known_format.
  rewrite orb_true_iff, andb_true_iff, orb_true_iff, !String.eqb_eq.
  reflexivity.
Qed.

(** What the loop leaves when it comes to its end. *)
Lemma table_options_loop_spec (options : list DefElem) :
  0 <= GSTORE_FDW_FORMAT__PGSTROM env ->
  forall pinning format p f,
    table_options_loop env options pinning format = inr (p, f)
    <-> forallb table_option_ok options = true
        /\ match List.filter is_pinning options with
           | [] => p = pinning
           | [d] => (0 <=? pinning) = false
                    /\ p = atoi env (defGetString d)
                    /\ 0 <= p < numDevAttrs env
           | _ => False
           end
        /\ match List.filter is_format options with
           | [] => f = format
           | [_] => (0 <=? format) = false
                    /\ f = GSTORE_FDW_FORMAT__PGSTROM env
           | _ => False
           end.
Proof.
  intros Hfmt. induction options as [|d rest IH]; intros pinning format p f.
  - cbn. split.
    + intros [= <- <-]. auto.
    + intros (_ & -> & ->). reflexivity.
  - cbn [table_options_loop forallb List.filter].
    fold (is_pinning d). fold (is_format d).
    unfold table_option_ok at 1.
    destruct (is_pinning d) eqn:Hp.
    + rewrite (pinning_not_format d Hp). cbn [orb andb].
      destruct (0 <=? pinning) eqn:Hpin.
      * split; [discriminate|].
        intros (_ & H & _).
        destruct (List.filter is_pinning rest) as [|? ?];
          [destruct H as (H & _); discriminate H | destruct H].
      * cbv zeta.
        destruct ((atoi env (defGetString d) <? 0)
                  || (numDevAttrs env <=? atoi env (defGetString d)))
          eqn:Hrange.
        -- split; [discriminate|].
           intros (_ & H & _).
           destruct (List.filter is_pinning rest) as [|? ?]; [|destruct H].
           destruct H as (_ & -> & H).
           apply orb_true_iff in Hrange.
           destruct Hrange as [Hr|Hr];
             [apply Z.ltb_lt in Hr | apply Z.leb_le in Hr]; lia.
        -- apply orb_false_iff in Hrange. destruct Hrange as (Hlo & Hhi).
           apply Z.ltb_ge in Hlo. apply Z.leb_gt in Hhi.
           rewrite IH.
           destruct (List.filter is_pinning rest) as [|d' [|? ?]].
           ++ split.
              ** intros (Hall & -> & Hf). repeat split; auto; lia.
              ** intros (Hall & (_ & -> & _) & Hf). auto.
           ++ split.
              ** intros (_ & (H & _) & _). apply Z.leb_gt in H. lia.
              ** intros (_ & [] & _).
           ++ split; intros (_ & [] & _).
    + cbn [orb]. destruct (is_format d) eqn:Hf; cbn [andb].
      * destruct (0 <=? format) eqn:Hfo.
        -- split; [discriminate|].
           intros (_ & _ & H).
           destruct (List.filter is_format rest) as [|? ?];
             [destruct H as (H & _); discriminate H | destruct H].
        -- cbv zeta. fold (known_format d).
           destruct (known_format d) eqn:Hk; cbn [andb].
           ++ rewrite IH.
              destruct (List.filter is_format rest) as [|d' [|? ?]].
              ** split.
                 --- intros (Hall & Hpn & ->). auto.
                 --- intros (Hall & Hpn & _ & ->). auto.
              ** split.
                 --- intros (_ & _ & H & _). apply Z.leb_gt in H. lia.
                 --- intros (_ & _ & []).
              ** split; intros (_ & _ & []).
           ++ split; [discriminate|]. intros (H & _). discriminate H.
      * split; [discriminate|]. intros (H & _). discriminate H.
Qed.

(** A pinning that comes out of the loop is the one it started with or the
    number of a device. *)
Lemma table_options_loop_range (options : list DefElem) :
  forall pinning format p f,
    table_options_loop env options pinning format = inr (p, f) ->
    p = pinning \/ 0 <= p < numDevAttrs env.
Proof.
  induction options as [|d rest IH]; intros pinning format p f.
  - cbn. intros [= <- <-]. left. reflexivity.
  - cbn [table_options_loop].
    destruct (String.eqb (defname d) "pinning").
    + destruct (0 <=? pinning); [discriminate|]. cbv zeta.
      destruct ((atoi env (defGetString d) <? 0)
                || (numDevAttrs env <=? atoi env (defGetString d)))
        eqn:Hrange; [discriminate|].
      apply orb_false_iff in Hrange. destruct Hrange as (Hlo & Hhi).
      apply Z.ltb_ge in Hlo. apply Z.leb_gt in Hhi.
      intros H. apply IH in H. right. destruct H as [-> | H]; lia.
    + destruct (String.eqb (defname d) "format"); [|discriminate].
      destruct (0 <=? format); [discriminate|]. cbv zeta.
      destruct (String.eqb (defGetString d) "pgstrom"
                || String.eqb (defGetString d) "default"); [|discriminate].
      apply IH.
Qed.

(** The pinning of options that parse is the number of a device. *)
Lemma table_options_range (options : list DefElem) (p f : Z) :
  __gstore_fdw_table_options env options = inr (p, f) ->
  0 <= p < numDevAttrs env.
Proof.
  unfold __gstore_fdw_table_options.
  destruct (table_options_loop env options (-1) (-1)) as [e|[p' f']] eqn:Hl;
    [discriminate|].
  destruct (p' <? 0) eqn:Hneg; [discriminate|].
  intros [= <- _]. apply Z.ltb_ge in Hneg.
  apply table_options_loop_range in Hl. destruct Hl as [-> | H]; lia.
Qed.

(** The error for a value out of range is raised for a [pinning] option
    only, whose value is no device number. *)
Lemma table_options_loop_out_of_range (options : list DefElem) :
  forall pinning format,
    table_options_loop env options pinning format
    = inl ERRCODE_NUMERIC_VALUE_OUT_OF_RANGE ->
    exists d, d ∈ options /\ defname d = "pinning"
              /\ ~ (0 <= atoi env (defGetString d) < numDevAttrs env).
Proof.
  induction options as [|d rest IH]; intros pinning format.
  - cbn. discriminate.
  - cbn [table_options_loop].
    destruct (String.eqb (defname d) "pinning") eqn:Hn.
    + destruct (0 <=? pinning); [discriminate|]. cbv zeta.
      destruct ((atoi env (defGetString d) <? 0)
                || (numDevAttrs env <=? atoi env (defGetString d)))
        eqn:Hrange.
      * intros _. exists d. split; [left|].
        split; [apply String.eqb_eq; exact Hn|].
        apply orb_true_iff in Hrange.
        destruct Hrange as [Hr|Hr];
          [apply Z.ltb_lt in Hr | apply Z.leb_le in Hr]; lia.
      * intros H. apply IH in H. destruct H as (d' & Hin & H).
        exists d'. split; [right; exact Hin | exact H].
    + destruct (String.eqb (defname d) "format"); [|discriminate].
      destruct (0 <=? format); [discriminate|]. cbv zeta.
      destruct (String.eqb (defGetString d) "pgstrom"
                || String.eqb (defGetString d) "default"); [|discriminate].
      intros H. apply IH in H. destruct H as (d' & Hin & H).
      exists d'. split; [right; exact Hin | exact H].
Qed.

Lemma forallb_table_option_ok (options : list DefElem) :
  forallb table_option_ok options = true
  <-> forall d, d ∈ options ->
        defname d = "pinning"
        \/ (defname d = "format"
            /\ (defGetString d = "pgstrom" \/ defGetString d = "default")).
Proof.
  rewrite forallb_forall. split.
  - intros H d Hd. apply table_option_ok_spec. apply H.
    apply list_elem_of_In. exact Hd.
  - intros H d Hd. apply table_option_ok_spec. apply H.
    apply list_elem_of_In. exact Hd.
Qed.

(** X19.  With a format code that is not negative, the options of a table
    parse exactly when every option is [pinning], or [format] with the
    value [pgstrom] or [default]; [pinning] is there once, with the number
    of a device; and [format] is there once at most.  The values returned
    are that device and the format code; the validator accepts the options
    of a foreign table in the same case; and the error for a value out of
    range is raised only for a [pinning] whose value is no device number.
    So no table is left unpinned. *)
Theorem table_options_parse (options : list DefElem) :
  0 <= GSTORE_FDW_FORMAT__PGSTROM env ->
  let accepted (p : Z) :=
    (forall d, d ∈ options ->
       defname d = "pinning"
       \/ (defname d = "format"
           /\ (defGetString d = "pgstrom" \/ defGetString d = "default")))
    /\ (exists d, List.filter is_pinning options = [d]
                  /\ p = atoi env (defGetString d))
    /\ 0 <= p < numDevAttrs env
    /\ (length (List.filter is_format options) <= 1)%nat in
  (forall p f,
     __gstore_fdw_table_options env options = inr (p, f)
     <-> accepted p /\ f = GSTORE_FDW_FORMAT__PGSTROM env)
  /\ (pgstrom_gstore_fdw_validator env options ForeignTableRelationId
      = inr (Return tt)
      <-> exists p, accepted p)
  /\ (__gstore_fdw_table_options env options
      = inl ERRCODE_NUMERIC_VALUE_OUT_OF_RANGE ->
      exists d, d ∈ options /\ defname d = "pinning"
                /\ ~ (0 <= atoi env (defGetString d) < numDevAttrs env)).
Proof.
  intros Hfmt. cbv zeta.
  assert (Hparse : forall p f,
            __gstore_fdw_table_options env options = inr (p, f)
            <-> ((forall d, d ∈ options ->
                    defname d = "pinning"
                    \/ (defname d = "format"
                        /\ (defGetString d = "pgstrom"
                            \/ defGetString d = "default")))
                 /\ (exists d, List.filter is_pinning options = [d]
                               /\ p = atoi env (defGetString d))
                 /\ 0 <= p < numDevAttrs env
                 /\ (length (List.filter is_format options) <= 1)%nat)
                /\ f = GSTORE_FDW_FORMAT__PGSTROM env).
  { intros p f. unfold __gstore_fdw_table_options.
    rewrite <- forallb_table_option_ok.
    destruct (table_options_loop env options (-1) (-1)) as [e|[p' f']]
      eqn:Hl.
    - split; [discriminate|].
      intros ((Hall & (d & Hd & Hp) & Hr & Hlen) & Hf). exfalso.
      assert (H : table_options_loop env options (-1) (-1)
                  = inr (p, if List.filter is_format options is [] then -1
                            else GSTORE_FDW_FORMAT__PGSTROM env)).
      { apply table_options_loop_spec; [exact Hfmt|].
        split; [exact Hall|]. rewrite Hd. split; [auto|].
        destruct (List.filter is_format options) as [|? [|? ?]];
          [reflexivity | auto | cbn in Hlen; lia]. }
      rewrite H in Hl. discriminate Hl.
    - apply (table_options_loop_spec options Hfmt) in Hl.
      destruct Hl as (Hall & Hpn & Hfo).
      destruct (p' <? 0) eqn:Hneg.
      + split; [discriminate|].
        intros ((_ & (d & Hd & Hp) & Hr & _) & _).
        rewrite Hd in Hpn. destruct Hpn as (_ & Hp' & _).
        apply Z.ltb_lt in Hneg. lia.
      + apply Z.ltb_ge in Hneg.
        destruct (List.filter is_pinning options) as [|d [|? ?]] eqn:Hd;
          [lia | | destruct Hpn].
        destruct Hpn as (_ & Hp' & Hr).
        assert (Hf' : (if f' <? 0 then GSTORE_FDW_FORMAT__PGSTROM env
                       else f') = GSTORE_FDW_FORMAT__PGSTROM env
                      /\ (length (List.filter is_format options) <= 1)%nat).
        { destruct (List.filter is_format options) as [|? [|? ?]];
            [| |destruct Hfo].
          - subst f'. split; [reflexivity | cbn; lia].
          - destruct Hfo as (_ & ->).
            split; [|cbn; lia].
            destruct (GSTORE_FDW_FORMAT__PGSTROM env <? 0); reflexivity. }
        destruct Hf' as (Hf' & Hlen). rewrite Hf'.
        split.
        * intros [= <- <-].
          split; [|reflexivity]. split; [exact Hall|].
          split; [exists d; auto|]. split; [exact Hr | exact Hlen].
        * intros ((_ & (d0 & Hd0 & Hp) & _) & ->).
          injection Hd0 as <-. subst p p'. reflexivity. }
  split; [exact Hparse|]. split.
  - unfold pgstrom_gstore_fdw_validator.
    destruct (__gstore_fdw_table_options env options) as [e|[p f]] eqn:Ht.
    + split; [discriminate|]. intros (p & Hacc). exfalso.
      assert (H : inl e = inr (p, GSTORE_FDW_FORMAT__PGSTROM env)
                  :> SqlState + (Z * Z)).
      { apply Hparse. split; [exact Hacc | reflexivity]. }
      discriminate H.
    + split; [|reflexivity]. intros _. exists p.
      apply (Hparse p f). reflexivity.
  - unfold __gstore_fdw_table_options.
    destruct (table_options_loop env options (-1) (-1)) as [e|[p' f']]
      eqn:Hl.
    + intros [= ->]. eapply table_options_loop_out_of_range. exact Hl.
    + destruct (p' <? 0); discriminate.
Qed.

End TableOptions.

Section ColumnOptions.

Import Options.
Import String.StringSyntax.
Local Open Scope string_scope.

Variable env : OptionEnv.

(** Once a compression is set, the loop accepts no further option. *)
Lemma column_options_loop_set (options : list DefElem) (compression : Z) :
  0 <= compression ->
  (exists c, column_options_loop env options compression = inr c) ->
  options = [].
Proof.
  intros Hc (c & H). destruct options as [|d rest]; [reflexivity|].
  cbn [column_options_loop] in H.
  destruct (String.eqb (defname d) "compression"); [|discriminate H].
  destruct (0 <=? compression) eqn:Hle; [discriminate H|].
  apply Z.leb_gt in Hle. lia.
Qed.

Lemma column_options_loop_error (options : list DefElem) :
  forall compression e,
    column_options_loop env options compression = inl e ->
    e = ERRCODE_SYNTAX_ERROR.
Proof.
  induction options as [|d rest IH]; intros compression e;
    cbn [column_options_loop]; [discriminate|].
  destruct (String.eqb (defname d) "compression");
    [|intros [= <-]; reflexivity].
  destruct (0 <=? compression); [intros [= <-]; reflexivity|]. cbv zeta.
  destruct (pg_strcasecmp env (defGetString d) "none" =? 0); [apply IH|].
  destruct (pg_strcasecmp env (defGetString d) "pglz" =? 0); [apply IH|].
  intros [= <-]. reflexivity.
Qed.

(** X20.  The options of a column parse in two cases only: there is none,
    which gives no compression; or there is one, named [compression],
    whose value [pg_strcasecmp] finds equal to [none] (no compression) or,
    if not, to [pglz].  Every other list, any list of two options among
    them, raises a syntax error and no other error; the validator accepts
    the options of a column in the same cases, and those of a server or of
    a foreign-data wrapper only when there is none. *)
Theorem column_options_parse (options : list DefElem) :
  let accepted (c : Z) :=
    (options = [] /\ c = GSTORE_COMPRESSION__NONE)
    \/ exists d,
         options = [d] /\ defname d = "compression"
         /\ ((pg_strcasecmp env (defGetString d) "none" = 0
              /\ c = GSTORE_COMPRESSION__NONE)
             \/ (pg_strcasecmp env (defGetString d) "none" <> 0
                 /\ pg_strcasecmp env (defGetString d) "pglz" = 0
                 /\ c = GSTORE_COMPRESSION__PGLZ)) in
  (forall c, __gstore_fdw_column_options env options = inr c <-> accepted c)
  /\ (forall e, __gstore_fdw_column_options env options = inl e ->
                e = ERRCODE_SYNTAX_ERROR)
  /\ (pgstrom_gstore_fdw_validator env options AttributeRelationId
      = inr (Return tt)
      <-> exists c, accepted c)
  /\ (forall catalog,
        catalog = ForeignServerRelationId
        \/ catalog = ForeignDataWrapperRelationId ->
        (pgstrom_gstore_fdw_validator env options catalog = inr (Return tt)
         <-> options = []))
  /\ (forall r, pgstrom_gstore_fdw_validator env options OtherRelationId
                <> inr (Return r)).
Proof.
  cbv zeta.
  assert (Hparse : forall c,
            __gstore_fdw_column_options env options = inr c
            <-> (options = [] /\ c = GSTORE_COMPRESSION__NONE)
                \/ exists d,
                     options = [d] /\ defname d = "compression"
                     /\ ((pg_strcasecmp env (defGetString d) "none" = 0
                          /\ c = GSTORE_COMPRESSION__NONE)
                         \/ (pg_strcasecmp env (defGetString d) "none" <> 0
                             /\ pg_strcasecmp env (defGetString d) "pglz" = 0
                             /\ c = GSTORE_COMPRESSION__PGLZ))).
  { intros c. unfold __gstore_fdw_column_options.
    destruct options as [|d rest].
    - cbn. split.
      + intros [= <-]. left. auto.
      + intros [(_ & ->) | (d & Hd & _)]; [reflexivity | discriminate Hd].
    - cbn [column_options_loop].
      destruct (String.eqb (defname d) "compression") eqn:Hn.
      2:{ split; [discriminate|].
          intros [(H & _) | (d0 & [= <- _] & Hn0 & _)]; [discriminate H|].
          apply String.eqb_eq in Hn0. congruence. }
      apply String.eqb_eq in Hn.
      change (0 <=? -1) with false. cbv zeta.
      destruct (pg_strcasecmp env (defGetString d) "none" =? 0) eqn:Hnone.
      + apply Z.eqb_eq in Hnone.
        destruct (column_options_loop env rest GSTORE_COMPRESSION__NONE)
          as [e|c'] eqn:Hl.
        * split; [discriminate|].
          intros [(H & _) | (d0 & [= <- ->] & _)]; [discriminate H|].
          cbn in Hl. discriminate Hl.
        * assert (Hrest : rest = []).
          { apply (column_options_loop_set rest GSTORE_COMPRESSION__NONE);
              [unfold GSTORE_COMPRESSION__NONE; lia | eauto]. }
          subst rest. cbn in Hl. injection Hl as <-.
          change (GSTORE_COMPRESSION__NONE <? 0) with false.
          split.
          -- intros [= <-]. right. exists d. repeat split; auto.
          -- intros [(H & _) | (d0 & [= <-] & _ & [(_ & ->) | (H & _)])];
               [discriminate H | reflexivity | contradiction].
      + apply Z.eqb_neq in Hnone.
        destruct (pg_strcasecmp env (defGetString d) "pglz" =? 0) eqn:Hpglz.
        * apply Z.eqb_eq in Hpglz.
          destruct (column_options_loop env rest GSTORE_COMPRESSION__PGLZ)
            as [e|c'] eqn:Hl.
          -- split; [discriminate|].
             intros [(H & _) | (d0 & [= <- ->] & _)]; [discriminate H|].
             cbn in Hl. discriminate Hl.
          -- assert (Hrest : rest = []).
             { apply (column_options_loop_set rest GSTORE_COMPRESSION__PGLZ);
                 [unfold GSTORE_COMPRESSION__PGLZ; lia | eauto]. }
             subst rest. cbn in Hl. injection Hl as <-.
             change (GSTORE_COMPRESSION__PGLZ <? 0) with false.
             split.
             ++ intros [= <-]. right. exists d. repeat split; auto.
             ++ intros [(H & _)
                       | (d0 & [= <-] & _ & [(H & _) | (_ & _ & ->)])];
                  [discriminate H | contradiction | reflexivity].
        * apply Z.eqb_neq in Hpglz. split; [discriminate|].
          intros [(H & _)
                 | (d0 & [= <- _] & _ & [(H & _) | (_ & H & _)])];
            [discriminate H | contradiction | contradiction]. }
  split; [exact Hparse|]. split.
  { intros e. unfold __gstore_fdw_column_options.
    destruct (column_options_loop env options (-1)) as [e'|c] eqn:Hl;
      [|discriminate].
    intros [= <-]. eapply column_options_loop_error. exact Hl. }
  split.
  { unfold pgstrom_gstore_fdw_validator.
    destruct (__gstore_fdw_column_options env options) as [e|c] eqn:Hc.
    - split; [discriminate|]. intros (c & Hacc).
      apply Hparse in Hacc. discriminate Hacc.
    - split; [|reflexivity]. intros _. exists c. apply Hparse. reflexivity. }
  split.
  { intros catalog [-> | ->]; cbn; destruct options; split;
      try reflexivity; discriminate. }
  intros r. cbn. discriminate.
Qed.

End ColumnOptions.

(** ** The tables a function is called with *)

Section FunctionArgs.

Import Options.

Variable env : OptionEnv.
Variable cat : CatalogEnv.

(** The catalog wrapper ends with the pinning and the format or raises an
    error, and a pinning it returns is the number of a device. *)
Lemma catalog_table_options_cases (gstore_oid : Oid) :
  (exists e, gstore_fdw_table_options env cat gstore_oid = inl e)
  \/ (exists e, gstore_fdw_table_options env cat gstore_oid = inr (Error e))
  \/ (exists p f,
        gstore_fdw_table_options env cat gstore_oid = inr (Return (p, f))
        /\ 0 <= p < numDevAttrs env).
Proof.
  unfold gstore_fdw_table_options.
  destruct (ftoptions cat gstore_oid) as [datum|]; [|right; left; eauto].
  destruct (__gstore_fdw_table_options env _) as [e|[p f]] eqn:Ht;
    [left; eauto|].
  right; right. exists p, f. split; [reflexivity|].
  eapply table_options_range. exact Ht.
Qed.

Lemma reggstore_args_cons (argtype gstore_oid : Oid)
    (rest : list (Oid * Oid)) :
  reggstore_args cat ((argtype, gstore_oid) :: rest)
  = if argtype =? REGGSTOREOID cat
    then gstore_oid :: reggstore_args cat rest
    else reggstore_args cat rest.
Proof.
  unfold reggstore_args. cbn [List.filter fst].
  destruct (argtype =? REGGSTOREOID cat); reflexivity.
Qed.

(** The loop of [gstore_fdw_preferable_device], started with no device or
    with the number of one. *)
Lemma preferable_device_loop_spec (args : list (Oid * Oid)) :
  forall c d,
    c = -1 \/ 0 <= c ->
    preferable_device_loop env cat args c = inr (Return d)
    <-> (forall oid, oid ∈ reggstore_args cat args ->
           relation_is_gstore_fdw cat oid = Some true
           /\ exists f,
                gstore_fdw_table_options env cat oid = inr (Return (d, f)))
        /\ (reggstore_args cat args = [] -> d = c)
        /\ (0 <= c -> d = c).
Proof.
  induction args as [|[argtype gstore_oid] rest IH]; intros c d Hc.
  - cbn. split.
    + intros [= <-]. split; [intros oid Hin; inversion Hin|]. auto.
    + intros (_ & H & _). rewrite (H eq_refl). reflexivity.
  - cbn [preferable_device_loop]. rewrite reggstore_args_cons.
    destruct (argtype =? REGGSTOREOID cat) eqn:Hty; cbn [negb];
      [|apply IH; exact Hc].
    destruct (relation_is_gstore_fdw cat gstore_oid) as [[|]|] eqn:Hrel.
    2,3: split; [discriminate|]; intros (H & _);
         destruct (H gstore_oid) as (H' & _); [left|]; congruence.
    destruct (catalog_table_options_cases gstore_oid)
      as [(e & Ht) | [(e & Ht) | (p & f & Ht & Hp)]]; rewrite Ht.
    1,2: split; [discriminate|]; intros (H & _);
         destruct (H gstore_oid) as (_ & f' & H'); [left|];
         rewrite Ht in H'; discriminate H'.
    assert (Hpin : (0 <=? p) = true) by (apply Z.leb_le; lia).
    assert (Hin : (p <? numDevAttrs env) = true) by (apply Z.ltb_lt; lia).
    rewrite Hpin, Hin. cbn [negb].
    assert (Hhead : forall d',
              (forall oid, oid ∈ gstore_oid :: reggstore_args cat rest ->
                 relation_is_gstore_fdw cat oid = Some true
                 /\ exists f',
                      gstore_fdw_table_options env cat oid
                      = inr (Return (d', f')))
              <-> d' = p
                  /\ forall oid, oid ∈ reggstore_args cat rest ->
                       relation_is_gstore_fdw cat oid = Some true
                       /\ exists f',
                            gstore_fdw_table_options env cat oid
                            = inr (Return (d', f'))).
    { intros d'. split.
      - intros H. split.
        + destruct (H gstore_oid) as (_ & f' & H'); [left|].
          rewrite Ht in H'. injection H' as -> _. reflexivity.
        + intros oid Hoid. apply H. right. exact Hoid.
      - intros (-> & H) oid Hoid.
        apply elem_of_cons in Hoid. destruct Hoid as [-> | Hoid];
          [|apply H; exact Hoid].
        split; [exact Hrel | exists f; exact Ht]. }
    rewrite Hhead.
    destruct (c <? 0) eqn:Hneg.
    + apply Z.ltb_lt in Hneg. rewrite IH by (right; lia). split.
      * intros (Hall & _ & Hd). specialize (Hd ltac:(lia)).
        split; [split; [exact Hd | exact Hall]|].
        split; [discriminate | lia].
      * intros ((Hd & Hall) & _). split; [exact Hall|]. split; auto.
    + apply Z.ltb_ge in Hneg.
      destruct (c =? p) eqn:Hcp; cbn [negb].
      * apply Z.eqb_eq in Hcp. subst p. rewrite IH by (right; lia). split.
        -- intros (Hall & _ & Hd). specialize (Hd Hneg).
           split; [split; [exact Hd | exact Hall]|].
           split; [discriminate | auto].
        -- intros ((Hd & Hall) & _). split; [exact Hall|]. split; auto.
      * apply Z.eqb_neq in Hcp. split; [discriminate|].
        intros ((Hd & _) & _ & Hd'). specialize (Hd' Hneg). lia.
Qed.

(** The loop ends by returning or by raising an error: the assertion on
    the pinning holds. *)
Lemma preferable_device_loop_ends (args : list (Oid * Oid)) :
  forall c,
    (exists d, preferable_device_loop env cat args c = inr (Return d))
    \/ (exists e, preferable_device_loop env cat args c = inl e)
    \/ (exists e, preferable_device_loop env cat args c = inr (Error e)).
Proof.
  induction args as [|[argtype gstore_oid] rest IH]; intros c.
  - left. eexists. reflexivity.
  - cbn [preferable_device_loop].
    destruct (negb (argtype =? REGGSTOREOID cat)); [apply IH|].
    destruct (relation_is_gstore_fdw cat gstore_oid) as [[|]|];
      [|right; right; eauto..].
    destruct (catalog_table_options_cases gstore_oid)
      as [(e & Ht) | [(e & Ht) | (p & f & Ht & Hp)]]; rewrite Ht;
      [right; left; eauto | right; right; eauto |].
    assert (Hpin : (0 <=? p) = true) by (apply Z.leb_le; lia).
    assert (Hin : (p <? numDevAttrs env) = true) by (apply Z.ltb_lt; lia).
    rewrite Hpin, Hin. cbn [negb].
    destruct (c <? 0); [apply IH|].
    destruct (negb (c =? p)); [right; right; eauto | apply IH].
Qed.

(** X21.  [gstore_fdw_preferable_device] returns, or raises an error: its
    assertion on the pinning never fails.  It returns the device [d]
    exactly when the function has its [pg_proc] tuple, every argument of
    type [reggstore] is a gstore_fdw table whose options parse with the
    pinning [d], and [d] is -1 if there is no such argument.  So it returns
    -1 only for a function with no [reggstore] argument, and the number of
    a device otherwise. *)
Theorem preferable_device_result (proc_args : option (list (Oid * Oid))) :
  let r := gstore_fdw_preferable_device env cat proc_args in
  ((exists d, r = inr (Return d))
   \/ (exists e, r = inl e) \/ (exists e, r = inr (Error e)))
  /\ (forall d,
        r = inr (Return d)
        <-> exists args,
              proc_args = Some args
              /\ (forall oid, oid ∈ reggstore_args cat args ->
                    relation_is_gstore_fdw cat oid = Some true
                    /\ exists f,
                         gstore_fdw_table_options env cat oid
                         = inr (Return (d, f)))
              /\ (reggstore_args cat args = [] -> d = -1))
  /\ (forall d args,
        r = inr (Return d) -> proc_args = Some args ->
        (d = -1 <-> reggstore_args cat args = [])
        /\ (d <> -1 -> 0 <= d < numDevAttrs env)).
Proof.
  cbv zeta. unfold gstore_fdw_preferable_device.
  destruct proc_args as [args|].
  2:{ split; [right; right; eauto|]. split.
      - intros d. split; [discriminate|]. intros (args & H & _).
        discriminate H.
      - intros d args H. discriminate H. }
  split; [apply preferable_device_loop_ends|]. split.
  - intros d. rewrite preferable_device_loop_spec by (left; reflexivity).
    split.
    + intros (Hall & Hnil & _). exists args. auto.
    + intros (args' & [= <-] & Hall & Hnil).
      split; [exact Hall|]. split; [exact Hnil | lia].
  - intros d args' Hr [= <-].
    apply preferable_device_loop_spec in Hr; [|left; reflexivity].
    destruct Hr as (Hall & Hnil & _).
    destruct (reggstore_args cat args) as [|oid l] eqn:Hargs.
    + rewrite (Hnil eq_refl). split; [tauto | intros H; contradiction].
    + destruct (Hall oid) as (_ & f & Ht); [left|].
      destruct (catalog_table_options_cases oid)
        as [(e & Ht') | [(e & Ht') | (p & f' & Ht' & Hp)]];
        rewrite Ht' in Ht; try discriminate Ht.
      injection Ht as -> _. split; [|intros _; exact Hp].
      split; [lia | discriminate].
Qed.

End FunctionArgs.

Section LoadFunctionArgs.

Import Options.

Variable env : OptionEnv.
Variable cat : CatalogEnv.
Variable xact : XactEnv.
Variable cuda : Oid -> CudaAnswers.
Variable gcontext_dindex : Z.
Variable active_snapshot : Snapshot.

Lemma existsb_eqb_elem (x : Oid) (l : list Oid) :
  existsb (Z.eqb x) l = true <-> x ∈ l.
Proof.
  rewrite existsb_exists. split.
  - intros (y & Hy & Heq). apply Z.eqb_eq in Heq. subst y.
    apply list_elem_of_In. exact Hy.
  - intros H. exists x. split; [apply list_elem_of_In; exact H|].
    apply Z.eqb_refl.
Qed.

Lemma first_occurrences_elem (l : list Oid) :
  forall seen x,
    x ∈ first_occurrences seen l <-> x ∈ l /\ x ∉ seen.
Proof.
  induction l as [|y l IH]; intros seen x; cbn [first_occurrences].
  - split; [intros H; inversion H | intros (H & _); inversion H].
  - destruct (existsb (Z.eqb y) seen) eqn:Hy.
    + apply existsb_eqb_elem in Hy. rewrite IH, elem_of_cons. split.
      * intros (H1 & H2). auto.
      * intros ([-> | H1] & H2); [contradiction | auto].
    + assert (Hy' : y ∉ seen).
      { intros H. apply existsb_eqb_elem in H. congruence. }
      rewrite !elem_of_cons, IH, elem_of_app, list_elem_of_singleton.
      split.
      * intros [-> | (H1 & H2)]; [auto|].
        split; [right; exact H1 | intros H; apply H2; left; exact H].
      * intros ([-> | H1] & H2); [left; reflexivity|].
        destruct (decide (x = y)) as [-> | Hne]; [left; reflexivity|].
        right. split; [exact H1|]. intros [H | H]; contradiction.
Qed.

Lemma first_occurrences_NoDup (l : list Oid) :
  forall seen, NoDup (first_occurrences seen l).
Proof.
  induction l as [|y l IH]; intros seen; cbn [first_occurrences].
  - constructor.
  - destruct (existsb (Z.eqb y) seen); [apply IH|].
    constructor; [|apply IH].
    rewrite first_occurrences_elem. intros (_ & H). apply H.
    apply elem_of_app. right. left.
Qed.

(** What a call of the loader of a pinned table that returns leaves. *)
Lemma load_pinned_effects (st st' : GpuStoreHead * DeviceState)
    (answers : CudaAnswers) (relid : Oid) (m_deviceptr : Z) :
  load_pinned_gstore_fdw xact answers gcontext_dindex st relid
    active_snapshot = (st', Return m_deviceptr) ->
  preserved (snd st') = preserved (snd st)
  /\ ctx_depth (snd st') = ctx_depth (snd st)
  /\ free_chunks (fst st') = free_chunks (fst st)
  /\ active_chunks (fst st') = active_chunks (fst st).
Proof.
  unfold load_pinned_gstore_fdw. cbv zeta.
  assert (Hlists :
            free_chunks (fst (gstore_fdw_lookup_chunk xact (fst st) relid
                                active_snapshot)) = free_chunks (fst st)
            /\ active_chunks (fst (gstore_fdw_lookup_chunk xact (fst st)
                                     relid active_snapshot))
               = active_chunks (fst st)).
  { unfold gstore_fdw_lookup_chunk, gstore_fdw_lookup_chunk_nolock.
    cbn [fst with_chunks free_chunks active_chunks]. auto. }
  destruct Hlists as (Hfree & Hact).
  destruct (snd (gstore_fdw_lookup_chunk xact (fst st) relid
                   active_snapshot)) as [[p|]| | |]; try discriminate.
  - destruct (gs_chunks _ !! p) as [gs_chunk|]; [|discriminate].
    destruct (negb (cuda_dindex gs_chunk =? gcontext_dindex));
      [discriminate|].
    destruct (negb (cuCtxPushCurrent answers)); [discriminate|].
    destruct (gpuIpcOpenMemHandle answers) as [ptr|]; [|discriminate].
    destruct (negb (cuCtxPopCurrent answers)); [discriminate|].
    intros [= <- _]. cbn [fst snd preserved ctx_depth]. auto.
  - intros [= <- _]. cbn [fst snd]. auto.
Qed.

(** The loop never calls the loader of a table that is not pinned. *)
Lemma load_function_args_loop_pinned
    (load_normal load_normal' : GpuStoreHead * DeviceState -> Oid ->
                                (GpuStoreHead * DeviceState) * Outcome Z)
    (args : list (Oid * Oid)) :
  forall st lists,
    load_function_args_loop load_normal' env cat xact cuda gcontext_dindex
      active_snapshot args st lists
    = load_function_args_loop load_normal env cat xact cuda gcontext_dindex
        active_snapshot args st lists.
Proof.
  induction args as [|[argtype gstore_oid] rest IH]; intros st lists;
    [reflexivity|].
  cbn [load_function_args_loop].
  destruct (negb (argtype =? REGGSTOREOID cat)); [apply IH|].
  destruct (existsb (Z.eqb gstore_oid) (gstore_oid_list lists)); [apply IH|].
  destruct (relation_is_gstore_fdw cat gstore_oid) as [[|]|];
    try reflexivity.
  destruct (catalog_table_options_cases env cat gstore_oid)
    as [(e & Ht) | [(e & Ht) | (p & f & Ht & Hp)]]; rewrite Ht;
    try reflexivity.
  destruct ((0 <=? p) && negb (gcontext_dindex =? p)); [reflexivity|].
  assert (Hneg : (p <? 0) = false) by (apply Z.ltb_ge; lia).
  rewrite Hneg. cbv zeta.
  destruct (snd (load_pinned_gstore_fdw xact (cuda gstore_oid)
                   gcontext_dindex st gstore_oid active_snapshot));
    try reflexivity.
  apply IH.
Qed.

(** What the loop has added to the three lists when it returns. *)
Lemma load_function_args_loop_spec
    (load_normal : GpuStoreHead * DeviceState -> Oid ->
                   (GpuStoreHead * DeviceState) * Outcome Z)
    (args : list (Oid * Oid)) :
  forall st lists st' lists',
    load_function_args_loop load_normal env cat xact cuda gcontext_dindex
      active_snapshot args st lists = (st', inr (Return lists')) ->
    let added :=
      first_occurrences (gstore_oid_list lists) (reggstore_args cat args) in
    gstore_oid_list lists' = gstore_oid_list lists ++ added
    /\ (exists ptrs,
          gstore_devptr_list lists' = gstore_devptr_list lists ++ ptrs
          /\ length ptrs = length added)
    /\ gstore_dindex_list lists'
       = gstore_dindex_list lists ++ replicate (length added) gcontext_dindex
    /\ (added <> [] -> 0 <= gcontext_dindex < numDevAttrs env)
    /\ preserved (snd st') = preserved (snd st)
    /\ ctx_depth (snd st') = ctx_depth (snd st)
    /\ free_chunks (fst st') = free_chunks (fst st)
    /\ active_chunks (fst st') = active_chunks (fst st).
Proof.
  induction args as [|[argtype gstore_oid] rest IH];
    intros st lists st' lists'; cbv zeta.
  - cbn. intros [= <- <-]. rewrite !app_nil_r.
    split; [reflexivity|]. split; [exists []; rewrite app_nil_r; auto|].
    split; [reflexivity|]. split; [intros H; contradiction|]. auto.
  - cbn [load_function_args_loop]. rewrite reggstore_args_cons.
    destruct (argtype =? REGGSTOREOID cat) eqn:Hty; cbn [negb];
      [|apply IH].
    cbn [first_occurrences].
    destruct (existsb (Z.eqb gstore_oid) (gstore_oid_list lists)) eqn:Hseen;
      [apply IH|].
    destruct (relation_is_gstore_fdw cat gstore_oid) as [[|]|];
      try discriminate.
    destruct (catalog_table_options_cases env cat gstore_oid)
      as [(e & Ht) | [(e & Ht) | (p & f & Ht & Hp)]]; rewrite Ht;
      try discriminate.
    destruct ((0 <=? p) && negb (gcontext_dindex =? p)) eqn:Hdev;
      [discriminate|].
    assert (Hgp : gcontext_dindex = p).
    { apply andb_false_iff in Hdev. destruct Hdev as [H | H].
      - apply Z.leb_gt in H. lia.
      - apply negb_false_iff in H. apply Z.eqb_eq in H. exact H. }
    assert (Hneg : (p <? 0) = false) by (apply Z.ltb_ge; lia).
    rewrite Hneg. cbv zeta.
    destruct (load_pinned_gstore_fdw xact (cuda gstore_oid) gcontext_dindex
                st gstore_oid active_snapshot) as [st1 o] eqn:Hload.
    cbn [fst snd]. destruct o as [ptr| | |]; try discriminate.
    intros Hloop. apply IH in Hloop. cbv zeta in Hloop.
    cbn [gstore_oid_list gstore_devptr_list gstore_dindex_list] in Hloop.
    destruct Hloop as (Hoids & (ptrs & Hptrs & Hlen) & Hdix & _ & Hdev').
    destruct (load_pinned_effects st st1 (cuda gstore_oid) gstore_oid ptr
                Hload) as (H1 & H2 & H3 & H4).
    split; [rewrite Hoids, <- app_assoc; reflexivity|].
    split.
    { exists (ptr :: ptrs). rewrite Hptrs, <- app_assoc.
      split; [reflexivity|]. cbn [length]. rewrite Hlen. reflexivity. }
    split.
    { rewrite Hdix, <- app_assoc. cbn [length replicate]. rewrite Hgp.
      reflexivity. }
    split; [intros _; rewrite Hgp; exact Hp|].
    destruct Hdev' as (H5 & H6 & H7 & H8).
    rewrite H5, H6, H7, H8. auto.
Qed.

(** X22.  [gstore_fdw_load_function_args] never calls
    [load_normal_gstore_fdw]: the options of a table always carry a
    pinning, so what the function does is the same whatever that loader
    would do.  When it returns, the list of tables holds each argument of
    type [reggstore] once, in the order of the first appearances; the
    lists of device pointers and of devices are as long; every device is
    the one of the context, and it exists; and the preserved device
    memory, the depth of the CUDA context stack, the free list and the
    buckets of the store are as before. *)
Theorem load_function_args_result
    (load_normal : GpuStoreHead * DeviceState -> Oid ->
                   (GpuStoreHead * DeviceState) * Outcome Z)
    (proc_args : option (list (Oid * Oid)))
    (st : GpuStoreHead * DeviceState) :
  (forall load_normal',
     gstore_fdw_load_function_args load_normal' env cat xact cuda
       gcontext_dindex active_snapshot proc_args st
     = gstore_fdw_load_function_args load_normal env cat xact cuda
         gcontext_dindex active_snapshot proc_args st)
  /\ forall st' lists,
       gstore_fdw_load_function_args load_normal env cat xact cuda
         gcontext_dindex active_snapshot proc_args st
       = (st', inr (Return lists)) ->
       exists args,
         proc_args = Some args
         /\ gstore_oid_list lists
            = first_occurrences [] (reggstore_args cat args)
         /\ NoDup (gstore_oid_list lists)
         /\ (forall oid,
               oid ∈ gstore_oid_list lists <-> oid ∈ reggstore_args cat args)
         /\ length (gstore_devptr_list lists)
            = length (gstore_oid_list lists)
         /\ gstore_dindex_list lists
            = replicate (length (gstore_oid_list lists)) gcontext_dindex
         /\ (gstore_oid_list lists <> [] ->
             0 <= gcontext_dindex < numDevAttrs env)
         /\ preserved (snd st') = preserved (snd st)
         /\ ctx_depth (snd st') = ctx_depth (snd st)
         /\ free_chunks (fst st') = free_chunks (fst st)
         /\ active_chunks (fst st') = active_chunks (fst st).
Proof.
  unfold gstore_fdw_load_function_args. split.
  - intros load_normal'. destruct proc_args as [args|]; [|reflexivity].
    apply load_function_args_loop_pinned.
  - intros st' lists. destruct proc_args as [args|]; [|discriminate].
    intros Hloop. apply load_function_args_loop_spec in Hloop.
    cbv zeta in Hloop.
    cbn [gstore_oid_list gstore_devptr_list gstore_dindex_list app]
      in Hloop.
    destruct Hloop as (Hoids & (ptrs & Hptrs & Hlen) & Hdix & Hrange & Hrest).
    exists args. split; [reflexivity|]. split; [exact Hoids|].
    split; [rewrite Hoids; apply first_occurrences_NoDup|].
    split.
    { intros oid. rewrite Hoids, first_occurrences_elem. split.
      - intros (H & _). exact H.
      - intros H. split; [exact H | intros H'; inversion H']. }
    split; [rewrite Hptrs, Hoids; exact Hlen|].
    split; [rewrite Hdix, Hoids; reflexivity|].
    split; [rewrite Hoids; exact Hrange | exact Hrest].
Qed.

End LoadFunctionArgs.

(** ** Scanning a table *)

Section ScanRows.

Import Scan.

Variable env : ScanEnv.
Variable xact : XactEnv.
Variable relid : Oid.
Variable snapshot : Snapshot.

(** Mapping a chunk whose segment exists. *)
Lemma mapped_chunk_spec (m : Machine) (p : nat) (c : GpuStoreChunk)
    (kds : kern_data_store) :
  gs_chunks (gstore_head m) !! p = Some c ->
  (p < length (gstore_maps m))%nat ->
  dsm_segment env (dsm_handle c) = Some kds ->
  gstore_fdw_mapped_chunk env m p
  = ({| gstore_head := gstore_head m;
        gstore_maps := <[p := Some (dsm_handle c)]> (gstore_maps m);
        device := device m |},
     Return kds).
Proof.
  intros Hc Hp Hseg. unfold gstore_fdw_mapped_chunk. rewrite Hc.
  destruct (gstore_maps m !! p) as [cur|] eqn:Hcur.
  2:{ apply lookup_ge_None_1 in Hcur. lia. }
  cbv zeta. rewrite Hseg.
  destruct cur as [handle|]; [|reflexivity].
  destruct (handle =? dsm_handle c) eqn:Hh; cbn [negb]; [|reflexivity].
  apply Z.eqb_eq in Hh. subst handle. rewrite Hseg.
  rewrite list_insert_id by exact Hcur. destruct m; reflexivity.
Qed.

(** The lookup keeps the segment handle of every chunk. *)
Lemma lookup_keeps_handle (head : GpuStoreHead) (p : nat)
    (c : GpuStoreChunk) :
  gs_chunks head !! p = Some c ->
  exists c1,
    gs_chunks (fst (gstore_fdw_lookup_chunk xact head relid snapshot)) !! p
    = Some c1
    /\ dsm_handle c1 = dsm_handle c.
Proof.
  intros Hc.
  pose proof (lookup_chunk_length xact head relid snapshot) as Hlen.
  destruct (gs_chunks (fst (gstore_fdw_lookup_chunk xact head relid
                              snapshot)) !! p) as [c1|] eqn:Hc1.
  - exists c1. split; [reflexivity|].
    destruct (lookup_chunk_payload xact head relid snapshot p c1 Hc1)
      as (c0 & Hc0 & Hsame).
    rewrite Hc in Hc0. injection Hc0 as <-.
    apply Hsame.
  - apply lookup_ge_None_1 in Hc1. apply lookup_lt_Some in Hc. lia.
Qed.

(** One call of the scan on a state whose chunk, cached or looked up, is
    that of slot [p]. *)
Lemma iterate_step (m : Machine) (gss : gstoreScanState) (p : nat)
    (c : GpuStoreChunk) (kds : kern_data_store) :
  let looked :=
    match gs_chunk gss with
    | Some q => (gstore_head m, Return (Some q))
    | None => gstore_fdw_lookup_chunk xact (gstore_head m) relid snapshot
    end in
  snd looked = Return (Some p) ->
  gs_chunks (fst looked) !! p = Some c ->
  (p < length (gstore_maps m))%nat ->
  dsm_segment env (dsm_handle c) = Some kds ->
  gstoreIterateForeignScan env xact relid snapshot (m, gss)
  = (({| gstore_head := fst looked;
         gstore_maps := <[p := Some (dsm_handle c)]> (gstore_maps m);
         device := device m |},
      {| gs_chunk := Some p;
         gs_index := if nitems kds <=? gs_index gss then gs_index gss
                     else (gs_index gss + 1) mod 18446744073709551616 |}),
     if nitems kds <=? gs_index gss then Return None
     else scan_row env kds (gs_index gss)).
Proof.
  cbv zeta. intros Hl Hc Hp Hseg. unfold gstoreIterateForeignScan.
  cbn [fst snd]. rewrite Hl. cbv zeta.
  rewrite (mapped_chunk_spec _ p c kds); cbn [gstore_head gstore_maps
    with_head device fst snd]; try assumption.
  cbn [gs_index gs_chunk].
  destruct (nitems kds <=? gs_index gss); reflexivity.
Qed.

(** The scan state after [k] calls. *)
Lemma scan_calls_state (m : Machine) (p : nat) (c : GpuStoreChunk)
    (kds : kern_data_store) :
  snd (gstore_fdw_lookup_chunk xact (gstore_head m) relid snapshot)
  = Return (Some p) ->
  gs_chunks (gstore_head m) !! p = Some c ->
  (p < length (gstore_maps m))%nat ->
  dsm_segment env (dsm_handle c) = Some kds ->
  0 <= nitems kds < 18446744073709551616 ->
  forall k : nat,
    scan_calls env xact relid snapshot (S k)
      (m, {| gs_chunk := None; gs_index := 0 |})
    = ({| gstore_head :=
            fst (gstore_fdw_lookup_chunk xact (gstore_head m) relid
                   snapshot);
          gstore_maps := <[p := Some (dsm_handle c)]> (gstore_maps m);
          device := device m |},
       {| gs_chunk := Some p;
          gs_index := Z.min (Z.of_nat (S k)) (nitems kds) |}).
Proof.
  intros Hl Hc Hp Hseg Hn.
  set (head1 := fst (gstore_fdw_lookup_chunk xact (gstore_head m) relid
                       snapshot)) in *.
  assert (Hc1 : exists c1, gs_chunks head1 !! p = Some c1
                           /\ dsm_handle c1 = dsm_handle c).
  { apply lookup_keeps_handle. exact Hc. }
  destruct Hc1 as (c1 & Hc1 & Hh1).
  induction k as [|k IH].
  - cbn [scan_calls].
    rewrite (iterate_step m _ p c1 kds); cbn [gs_chunk gs_index];
      try assumption; [|rewrite Hh1; exact Hseg].
    cbn [fst]. fold head1. rewrite Hh1. f_equal. f_equal.
    destruct (nitems kds <=? 0) eqn:H0.
    + apply Z.leb_le in H0. lia.
    + apply Z.leb_gt in H0. rewrite Z.mod_small by lia. lia.
  - change (scan_calls env xact relid snapshot (S (S k)) ?st)
      with (fst (gstoreIterateForeignScan env xact relid snapshot
                   (scan_calls env xact relid snapshot (S k) st))).
    rewrite IH.
    rewrite (iterate_step _ _ p c1 kds);
      cbn [gs_chunk gs_index gstore_head gstore_maps device fst snd];
      try assumption; try reflexivity.
    2:{ rewrite length_insert. exact Hp. }
    2:{ rewrite Hh1. exact Hseg. }
    rewrite Hh1, list_insert_insert_eq. f_equal. f_equal.
    destruct (nitems kds <=? Z.min (Z.of_nat (S k)) (nitems kds)) eqn:H0.
    + apply Z.leb_le in H0. lia.
    + apply Z.leb_gt in H0. rewrite Z.mod_small by lia. lia.
Qed.

(** What the call after [k] calls returns, and the state it finds. *)
Lemma scan_calls_outcome (m : Machine) (p : nat) (c : GpuStoreChunk)
    (kds : kern_data_store) :
  snd (gstore_fdw_lookup_chunk xact (gstore_head m) relid snapshot)
  = Return (Some p) ->
  gs_chunks (gstore_head m) !! p = Some c ->
  (p < length (gstore_maps m))%nat ->
  dsm_segment env (dsm_handle c) = Some kds ->
  0 <= nitems kds < 18446744073709551616 ->
  forall k : nat,
    let st := scan_calls env xact relid snapshot k
                (m, {| gs_chunk := None; gs_index := 0 |}) in
    snd (gstoreIterateForeignScan env xact relid snapshot st)
    = (if Z.of_nat k <? nitems kds then scan_row env kds (Z.of_nat k)
       else Return None)
    /\ gs_index (snd st) = Z.min (Z.of_nat k) (nitems kds)
    /\ device (fst st) = device m
    /\ ((0 < k)%nat ->
        gs_chunk (snd st) = Some p
        /\ gstore_head (fst st)
           = fst (gstore_fdw_lookup_chunk xact (gstore_head m) relid
                    snapshot)
        /\ gstore_maps (fst st)
           = <[p := Some (dsm_handle c)]> (gstore_maps m)).
Proof.
  intros Hl Hc Hp Hseg Hn k. cbv zeta.
  pose proof (scan_calls_state m p c kds Hl Hc Hp Hseg Hn k) as Hnext.
  change (scan_calls env xact relid snapshot (S k) ?st)
    with (fst (gstoreIterateForeignScan env xact relid snapshot
                 (scan_calls env xact relid snapshot k st))) in Hnext.
  destruct k as [|k].
  - cbn [scan_calls] in *. cbn [fst snd gs_index gs_chunk].
    split.
    2:{ split; [lia|]. split; [reflexivity | intros H; lia]. }
    destruct (lookup_keeps_handle (gstore_head m) p c Hc)
      as (c1 & Hc1 & Hh1).
    rewrite (iterate_step m _ p c1 kds); cbn [gs_chunk gs_index];
      try assumption; [|rewrite Hh1; exact Hseg].
    cbn [snd]. change (Z.of_nat 0) with 0.
    rewrite Z.leb_antisym. destruct (0 <? nitems kds); reflexivity.
  - rewrite (scan_calls_state m p c kds Hl Hc Hp Hseg Hn k) in *.
    cbn [fst snd gs_index gs_chunk gstore_head gstore_maps device].
    split.
    2:{ split; [reflexivity|]. split; [reflexivity|]. intros _. auto. }
    destruct (lookup_keeps_handle (gstore_head m) p c Hc)
      as (c1 & Hc1 & Hh1).
    rewrite (iterate_step _ _ p c1 kds);
      cbn [gs_chunk gs_index gstore_head gstore_maps device fst snd];
      try assumption; try reflexivity.
    2:{ rewrite length_insert. exact Hp. }
    2:{ rewrite Hh1. exact Hseg. }
    destruct (Z.of_nat (S k) <? nitems kds) eqn:Hk.
    + apply Z.ltb_lt in Hk. rewrite Z.min_l by lia.
      destruct (nitems kds <=? Z.of_nat (S k)) eqn:H0;
        [apply Z.leb_le in H0; lia | reflexivity].
    + apply Z.ltb_ge in Hk. rewrite Z.min_r by lia.
      rewrite Z.leb_refl. reflexivity.
Qed.

(** X23.  A scan of a table whose visible chunk has its segment, with
    [nitems] rows in it: the calls of [gstoreIterateForeignScan] return the
    rows 0, 1, ... in this order, each once, and [NULL] from the call after
    the last row on.  The chunk is looked up by the first call only and
    kept in the scan state, its segment stays mapped, and the device is
    left alone. *)
Theorem scan_returns_rows (m : Machine) (p : nat) (c : GpuStoreChunk)
    (kds : kern_data_store) :
  snd (gstore_fdw_lookup_chunk xact (gstore_head m) relid snapshot)
  = Return (Some p) ->
  gs_chunks (gstore_head m) !! p = Some c ->
  (p < length (gstore_maps m))%nat ->
  dsm_segment env (dsm_handle c) = Some kds ->
  0 <= nitems kds < 18446744073709551616 ->
  forall k : nat,
    let st := scan_calls env xact relid snapshot k
                (m, {| gs_chunk := None; gs_index := 0 |}) in
    snd (gstoreIterateForeignScan env xact relid snapshot st)
    = (if Z.of_nat k <? nitems kds then scan_row env kds (Z.of_nat k)
       else Return None)
    /\ gs_index (snd st) = Z.min (Z.of_nat k) (nitems kds)
    /\ device (fst st) = device m
    /\ ((0 < k)%nat ->
        gs_chunk (snd st) = Some p
        /\ gstore_head (fst st)
           = fst (gstore_fdw_lookup_chunk xact (gstore_head m) relid
                    snapshot)
        /\ gstore_maps (fst st)
           = <[p := Some (dsm_handle c)]> (gstore_maps m)).
Proof.
  intros Hl Hc Hp Hseg Hn k.
  exact (scan_calls_outcome m p c kds Hl Hc Hp Hseg Hn k).
Qed.

Lemma lookup_chunk_again (head : GpuStoreHead) :
  NoDup (active_chunks head
           !!! hash_index (legacy_crc32_oid2 xact (MyDatabaseId xact)
                             relid)) ->
  gstore_fdw_lookup_chunk xact
    (fst (gstore_fdw_lookup_chunk xact head relid snapshot)) relid snapshot
  = gstore_fdw_lookup_chunk xact head relid snapshot.
Proof.
  intros Hnd.
  unfold gstore_fdw_lookup_chunk, gstore_fdw_lookup_chunk_nolock.
  cbn [fst snd active_chunks gs_chunks with_chunks].
  rewrite lookup_scan_again by exact Hnd.
  reflexivity.
Qed.

(** X24.  A scan started again returns the same rows: after any number of
    calls, [gstoreReScanForeignScan] leaves a state from which the calls
    of [gstoreIterateForeignScan] again return the rows 0, 1, ... of the
    chunk, each once, and then [NULL]. *)
Theorem rescan_returns_rows (m : Machine) (p : nat) (c : GpuStoreChunk)
    (kds : kern_data_store) :
  NoDup (active_chunks (gstore_head m)
           !!! hash_index (legacy_crc32_oid2 xact (MyDatabaseId xact)
                             relid)) ->
  snd (gstore_fdw_lookup_chunk xact (gstore_head m) relid snapshot)
  = Return (Some p) ->
  gs_chunks (gstore_head m) !! p = Some c ->
  (p < length (gstore_maps m))%nat ->
  dsm_segment env (dsm_handle c) = Some kds ->
  0 <= nitems kds < 18446744073709551616 ->
  forall k j : nat,
    let st := scan_calls env xact relid snapshot k
                (m, {| gs_chunk := None; gs_index := 0 |}) in
    let again := (fst st, gstoreReScanForeignScan (snd st)) in
    snd (gstoreIterateForeignScan env xact relid snapshot
           (scan_calls env xact relid snapshot j again))
    = (if Z.of_nat j <? nitems kds then scan_row env kds (Z.of_nat j)
       else Return None).
Proof.
  intros Hnd Hl Hc Hp Hseg Hn k j. cbv zeta.
  unfold gstoreReScanForeignScan.
  destruct k as [|k].
  - cbn [scan_calls fst].
    apply (scan_calls_outcome m p c kds Hl Hc Hp Hseg Hn j).
  - rewrite (scan_calls_state m p c kds Hl Hc Hp Hseg Hn k). cbn [fst].
    destruct (lookup_keeps_handle (gstore_head m) p c Hc)
      as (c1 & Hc1 & Hh1).
    apply (scan_calls_outcome _ p c1 kds); cbn [gstore_head gstore_maps].
    + rewrite lookup_chunk_again by exact Hnd. exact Hl.
    + exact Hc1.
    + rewrite length_insert. exact Hp.
    + rewrite Hh1. exact Hseg.
    + exact Hn.
Qed.


End ScanRows.

(** ** An INSERT from its begin to its end *)

Section InsertStatement.

Variable env : XactEnv.
Variable capacity : nat.

(** The load state of an INSERT that began. *)
Lemma begin_modify_state (alloc : Z -> Outcome Z) (m m1 : Machine)
    (relid : Oid) (es_snapshot : Snapshot) (pinning : Z)
    (st0 : gstoreLoadState) :
  gstoreBeginForeignModify env alloc m relid es_snapshot pinning
  = (m1, Return st0) ->
  nitems st0 = 0 /\ nrooms st0 = 10000.
Proof.
  unfold gstoreBeginForeignModify. intros Hbegin.
  destruct (0 <=? pinning); [destruct (alloc pinning)|];
    try discriminate Hbegin;
    destruct (snd (gstore_fdw_lookup_chunk env (gstore_head m) relid
                     es_snapshot)) as [[q|]| | |];
    try discriminate Hbegin;
    injection Hbegin as _ <-; split; reflexivity.
Qed.

(** X25.  An INSERT of [n] rows, fewer than [2^62], whose begin and end
    return, seen from a later command of the inserting transaction, for
    which the table was empty before: [pgstrom_gstore_fdw_height] is [n]
    modulo [2^32], the descriptor keeping the count in 32 bits, and so [n]
    itself for fewer than [2^32] rows.  With no row the end writes nothing
    and leaves the store, the mappings and the device as the begin left
    them; with one row or more it takes one descriptor from the free
    list. *)
Theorem insert_statement_rows (alloc : Z -> Outcome Z) (cuda : CudaAnswers)
    (m m1 m2 : Machine) (relid : Oid) (es_snapshot : Snapshot)
    (pinning : Z) (st0 : gstoreLoadState) (n : nat) (dsm_seg kds_len : Z) :
  store_ok capacity (gstore_head m) ->
  gstoreBeginForeignModify env alloc m relid es_snapshot pinning
  = (m1, Return st0) ->
  Z.of_nat n < 4611686018427387904 ->
  gstoreEndForeignModify env cuda m1 relid (insert_rows n st0) dsm_seg
    kds_len = (m2, Return tt) ->
  TransactionIdIsValid (GetCurrentTransactionId env) = true ->
  TransactionIdIsCurrentTransactionId env (GetCurrentTransactionId env)
  = true ->
  (n = 0%nat -> m2 = m1)
  /\ ((0 < n)%nat ->
      exists p,
        free_chunks (gstore_head m1) = p :: free_chunks (gstore_head m2))
  /\ forall later,
       visible_chunks env (gstore_head m1) relid later = [] ->
       GetCurrentCommandId env < curcid later ->
       snd (pgstrom_gstore_fdw_height env true (gstore_head m2) relid later)
       = Return (Some (Z.of_nat n mod 4294967296))
       /\ (Z.of_nat n < 4294967296 ->
           snd (pgstrom_gstore_fdw_height env true (gstore_head m2) relid
                  later)
           = Return (Some (Z.of_nat n))).
Proof.
  intros Hok Hbegin Hn Hend Hvalid Hown.
  assert (Hsmall : forall o : Outcome (option Z),
            o = Return (Some (Z.of_nat n mod 4294967296)) ->
            o = Return (Some (Z.of_nat n mod 4294967296))
            /\ (Z.of_nat n < 4294967296 -> o = Return (Some (Z.of_nat n)))).
  { intros o ->. split; [reflexivity|]. intros Hlt.
    rewrite Z.mod_small by lia. reflexivity. }
  destruct (begin_modify_state alloc m m1 relid es_snapshot pinning st0
              Hbegin) as (Hi & Hr).
  destruct (insert_rows_counters st0 n Hi Hr ltac:(lia)) as (Hitems & _).
  assert (Hok1 : store_ok capacity (gstore_head m1)).
  { pose proof (begin_modify_store_ok capacity env alloc m relid es_snapshot
                  pinning Hok) as H.
    rewrite Hbegin in H. exact H. }
  unfold gstoreEndForeignModify in Hend. rewrite Hitems in Hend.
  destruct n as [|n].
  - change (0 <? Z.of_nat 0) with false in Hend. injection Hend as <-.
    split; [reflexivity|]. split; [intros H; lia|].
    intros later Hnone _. apply Hsmall.
    change (Z.of_nat 0 mod 4294967296) with 0.
    apply chunk_report_none.
    destruct (lookup_nolock_answer env (gstore_head m1) relid later)
      as (H & _).
    { eapply store_ok_bucket. exact Hok1. }
    apply H. exact Hnone.
  - assert (Hpos : (0 <? Z.of_nat (S n)) = true) by (apply Z.ltb_lt; lia).
    rewrite Hpos in Hend.
    split; [discriminate|]. split.
    + intros _.
      destruct (writeout_registers env capacity _ _ _ _ _ _ _ _ Hok1 Hend)
        as (p & c & Hhead & _).
      exists p. unfold gstore_fdw_writeout_pgstrom in Hend.
      destruct (snd _) as [mhandle| | |] in Hend; try discriminate Hend.
      cbn [gstore_head with_device] in Hend.
      destruct (free_chunks (gstore_head m1)) as [|q free] eqn:Hfree;
        [discriminate Hend|].
      injection Hend as <-. cbn [gstore_head free_chunks].
      cbn [head] in Hhead. injection Hhead as ->. reflexivity.
    + intros later Hnone Hlater. apply Hsmall.
      unfold to_cl_uint in Hend.
      destruct (writeout_then_lookup env capacity _ _ _ _ _ _ _ _ env later
                  Hok1 Hend)
        as (p & c & _ & Hc & Hxmin & Hxmax & Hcid & Hmc & Hkn & _ & Hlook).
      { split; reflexivity. }
      { exact Hnone. }
      assert (Hvis : fst (gstore_fdw_satisfies_visibility env c later)
                     = true).
      { unfold gstore_fdw_satisfies_visibility.
        rewrite Hmc, Hxmin, Hvalid, Hown, Hcid, Hxmax. cbn [negb].
        destruct (curcid later <=? GetCurrentCommandId env) eqn:Hle;
          [apply Z.leb_le in Hle; lia | reflexivity]. }
      rewrite Hvis in Hlook. rewrite <- Hkn.
      apply (chunk_report_found kds_nitems _ _ _ _ p c Hc); [|exact Hlook].
      intros c' Hs. apply Hs.
Qed.

End InsertStatement.

(** ** Releasing what a context tracks *)

Section TrackerRelease.

Import GpuContext.
Local Open Scope nat_scope.

Variable env : TrackerEnv.
Hypothesis Hsize : (0 < RESTRACK_HASHSIZE env)%Z.

Lemma length_concat_insert {A : Type} (ls : list (list A)) (i : nat)
    (l' : list A) :
  i < length ls ->
  length (concat (<[i := l']> ls)) + length (ls !!! i)
  = length (concat ls) + length l'.
Proof.
  revert i. induction ls as [|l ls IH]; intros i Hi; simpl in Hi; [lia|].
  destruct i as [|i]; simpl.
  - change ((l :: ls) !!! 0) with l. rewrite !length_app. lia.
  - change ((l :: ls) !!! S i) with (ls !!! i). rewrite !length_app.
    specialize (IH i ltac:(lia)). lia.
Qed.

Lemma remove_length (test : ResourceTracker -> bool)
    (l l' : list ResourceTracker) :
  restrack_remove test l = Some l' -> length l = S (length l').
Proof.
  intros H. destruct (remove_split test l l' H) as (t & l1 & l2 & -> & -> & _).
  rewrite !length_app. simpl. lia.
Qed.

(** The trackers a thread has, idle or in use by the context. *)
Lemma call_conserves (c : TrackerCall) (tl : ThreadLocal) (g : GpuContext) :
  length (restrack g) = Z.to_nat (RESTRACK_HASHSIZE env) ->
  let r := tracker_call env c tl g in
  length (restrack (snd r)) = length (restrack g)
  /\ inactiveResourceTracker tl + length (concat (restrack g))
     <= inactiveResourceTracker (fst r) + length (concat (restrack (snd r))).
Proof.
  intros Hlen. cbv zeta.
  assert (Hpush : forall ok t,
            let i := restrack_index env (crc t) in
            let r :=
              match resource_tracker_alloc ok tl with
              | None => (tl, g)
              | Some tl' =>
                  (tl',
                   with_restrack g
                     (<[i := (restrack g !!! i) ++ [t]]> (restrack g)))
              end in
            length (restrack (snd r)) = length (restrack g)
            /\ inactiveResourceTracker tl + length (concat (restrack g))
               <= inactiveResourceTracker (fst r)
                  + length (concat (restrack (snd r)))).
  { intros ok t. cbv zeta.
    pose proof (length_concat_insert (restrack g)
                  (restrack_index env (crc t))
                  ((restrack g !!! restrack_index env (crc t)) ++ [t])
                  (index_lt env Hsize g (crc t) Hlen)) as Hins.
    rewrite length_app in Hins. cbn [length] in Hins.
    unfold resource_tracker_alloc.
    destruct (inactiveResourceTracker tl) as [|n] eqn:Hin;
      [destruct ok|]; cbn [fst snd restrack with_restrack
                           inactiveResourceTracker];
      rewrite ?length_insert, ?Hin; split; try reflexivity; lia. }
  assert (Hpop : forall test i,
            i < length (restrack g) ->
            let r :=
              match restrack_remove test (restrack g !!! i) with
              | Some rest =>
                  ({| inactiveResourceTracker :=
                        S (inactiveResourceTracker tl);
                      notices := notices tl |},
                   with_restrack g (<[i := rest]> (restrack g)))
              | None => (tl, g)
              end in
            length (restrack (snd r)) = length (restrack g)
            /\ inactiveResourceTracker tl + length (concat (restrack g))
               <= inactiveResourceTracker (fst r)
                  + length (concat (restrack (snd r)))).
  { intros test i Hi. cbv zeta.
    destruct (restrack_remove test (restrack g !!! i)) as [rest|] eqn:Hrem;
      cbn [fst snd restrack with_restrack inactiveResourceTracker];
      [|split; [reflexivity | lia]].
    pose proof (length_concat_insert (restrack g) i rest Hi) as Hins.
    pose proof (remove_length _ _ _ Hrem) as Hl.
    rewrite length_insert. split; [reflexivity | lia]. }
  destruct c as [ok devptr extra | devptr | ok program_id | program_id
                 | ok devptr | devptr];
    cbn [tracker_call fst snd].
  - unfold trackGpuMem.
    specialize (Hpush ok
                  {| crc := resource_tracker_hashval env
                              RESTRACK_CLASS__GPUMEMORY devptr;
                     resclass := RESTRACK_CLASS__GPUMEMORY;
                     u := devmem devptr extra |}).
    cbv zeta in Hpush. cbn [crc] in Hpush.
    destruct (resource_tracker_alloc ok tl); exact Hpush.
  - unfold untrackGpuMem.
    specialize (Hpop (gpumem_tracker_matches
                        (resource_tracker_hashval env
                           RESTRACK_CLASS__GPUMEMORY devptr) devptr)
                  (restrack_index env
                     (resource_tracker_hashval env RESTRACK_CLASS__GPUMEMORY
                        devptr))
                  (index_lt env Hsize g _ Hlen)).
    cbv zeta in Hpop. rewrite <- untrack_scan_as_remove in Hpop.
    destruct (untrack_scan _ _ _) as [[e rest]|]; exact Hpop.
  - unfold trackCudaProgram.
    specialize (Hpush ok
                  {| crc := resource_tracker_hashval env
                              RESTRACK_CLASS__GPUPROGRAM program_id;
                     resclass := RESTRACK_CLASS__GPUPROGRAM;
                     u := program program_id |}).
    cbv zeta in Hpush. cbn [crc] in Hpush.
    destruct (resource_tracker_alloc ok tl); exact Hpush.
  - unfold untrackCudaProgram.
    specialize (Hpop (program_tracker_matches
                        (resource_tracker_hashval env
                           RESTRACK_CLASS__GPUPROGRAM program_id)
                        program_id)
                  (restrack_index env
                     (resource_tracker_hashval env
                        RESTRACK_CLASS__GPUPROGRAM program_id))
                  (index_lt env Hsize g _ Hlen)).
    cbv zeta in Hpop.
    destruct (restrack_remove _ _); exact Hpop.
  - unfold trackIOMapMem.
    specialize (Hpush ok
                  {| crc := resource_tracker_hashval env
                              RESTRACK_CLASS__IOMAPMEMORY devptr;
                     resclass := RESTRACK_CLASS__IOMAPMEMORY;
                     u := devmem devptr 0 |}).
    cbv zeta in Hpush. cbn [crc] in Hpush.
    destruct (resource_tracker_alloc ok tl); exact Hpush.
  - unfold untrackIOMapMem.
    specialize (Hpop (iomap_tracker_matches
                        (resource_tracker_hashval env
                           RESTRACK_CLASS__IOMAPMEMORY devptr) devptr)
                  (restrack_index env
                     (resource_tracker_hashval env
                        RESTRACK_CLASS__IOMAPMEMORY devptr))
                  (index_lt env Hsize g _ Hlen)).
    cbv zeta in Hpop.
    destruct (restrack_remove _ _); exact Hpop.
Qed.

Lemma tracker_run_conserves (calls : list TrackerCall) :
  forall tl g,
    length (restrack g) = Z.to_nat (RESTRACK_HASHSIZE env) ->
    let st := tracker_run env calls tl g in
    inactiveResourceTracker tl + length (concat (restrack g))
    <= inactiveResourceTracker (fst st) + length (concat (restrack (snd st))).
Proof.
  induction calls as [|c rest IH]; intros tl g Hlen; cbv zeta;
    cbn [tracker_run fst snd]; [lia|].
  destruct (call_conserves c tl g Hlen) as (Hlen' & Hle).
  specialize (IH (fst (tracker_call env c tl g))
                (snd (tracker_call env c tl g))
                ltac:(rewrite Hlen'; exact Hlen)).
  cbv zeta in IH. lia.
Qed.

(** The notices for trackers of the three classes: never the one of an
    unknown class. *)
Lemma release_notices_known (ans : ReleaseAnswers) (normal_exit : bool)
    (all : list ResourceTracker) :
  (forall t, t ∈ all -> known_class (resclass t)) ->
  imap (release_notice ans normal_exit) all
  = imap (λ k t, leak_notice normal_exit t ++ free_failure ans k t) all.
Proof.
  intros Hk. apply imap_ext. intros k t Ht.
  apply list_elem_of_lookup_2 in Ht.
  unfold release_notice, free_failure.
  destruct (Hk t Ht) as [H | [H | H]]; rewrite H; cbn.
  - destruct (gpuserv_cuda_context ans); reflexivity.
  - rewrite app_nil_r. reflexivity.
  - reflexivity.
Qed.

Lemma free_failure_none (ans : ReleaseAnswers) (k : nat)
    (t : ResourceTracker) :
  release_succeeds ans -> free_failure ans k t = [].
Proof.
  intros (_ & Hextra & Hiomap). unfold free_failure.
  rewrite Hextra, Hiomap. cbn.
  repeat case_match; reflexivity.
Qed.

Lemma concat_imap_leaks (ans : ReleaseAnswers) (normal_exit : bool)
    (all : list ResourceTracker) :
  release_succeeds ans ->
  concat (imap (λ k t, leak_notice normal_exit t ++ free_failure ans k t)
            all)
  = if normal_exit
    then (λ t, LikelyLeaked (resclass t) (u_devmem_ptr t)) <$> all
    else [].
Proof.
  intros Hans.
  rewrite (imap_ext _ (const (leak_notice normal_exit)))
    by (intros k t _; rewrite (free_failure_none ans k t Hans);
        apply app_nil_r).
  rewrite imap_const. unfold leak_notice.
  induction all as [|t all IH]; [destruct normal_exit; reflexivity|].
  rewrite fmap_cons. cbn [concat]. rewrite IH.
  destruct normal_exit; reflexivity.
Qed.

(** X26.  Whatever calls of the track and untrack functions a context
    went through from empty chains, [ReleaseLocalResources] leaves its
    chains empty and its socket closed and puts every tracker the context
    held on the list of idle trackers, which is then no shorter than at
    the start: no tracker is lost.  It writes the notice of a [close]
    that fails, and then for each entry still tracked, in the order of
    the chains, the notice "likely leaked" at a normal exit and the
    notice of its destructor if that fails; never the notice of an
    unknown class.  When [close] and the destructors succeed these are
    the "likely leaked" notices alone, and none at an exit that is not
    normal; a context whose tracks were all matched by untracks writes
    the notice of the [close] at most. *)
Theorem release_returns_trackers (ans : ReleaseAnswers)
    (calls : list TrackerCall)
    (tl0 : ThreadLocal) (g0 : GpuContext) (normal_exit : bool) :
  restrack g0 = replicate (Z.to_nat (RESTRACK_HASHSIZE env)) [] ->
  let st := tracker_run env calls tl0 g0 in
  let r := ReleaseLocalResources ans (fst st) (snd st) normal_exit in
  restrack (snd r) = restrack g0
  /\ sockfd (snd r) = PGINVALID_SOCKET
  /\ inactiveResourceTracker (fst r)
     = inactiveResourceTracker (fst st) + length (concat (restrack (snd st)))
  /\ inactiveResourceTracker tl0 <= inactiveResourceTracker (fst r)
  /\ notices (fst r)
     = notices (fst st) ++ close_notice ans (snd st)
       ++ concat
            (imap (λ k t, leak_notice normal_exit t ++ free_failure ans k t)
               (concat (restrack (snd st))))
  /\ (release_succeeds ans ->
      notices (fst r)
      = notices (fst st)
        ++ (if normal_exit
            then (λ t, LikelyLeaked (resclass t) (u_devmem_ptr t))
                   <$> concat (restrack (snd st))
            else []))
  /\ ((forall class key, tracked_count (snd st) class key = 0) ->
      notices (fst r) = notices (fst st) ++ close_notice ans (snd st)).
Proof.
  intros Hg0. cbv zeta.
  pose proof (tracker_run_placed env Hsize calls tl0 g0
                (fresh_placed env g0 Hg0)) as (Hlen & Hplaced).
  pose proof (tracker_run_conserves calls tl0 g0
                ltac:(rewrite Hg0; apply length_replicate)) as Hcons.
  cbv zeta in Hcons. rewrite Hg0, concat_replicate_nil in Hcons.
  cbn [length] in Hcons.
  set (st := tracker_run env calls tl0 g0) in *.
  assert (Hknown : forall t, t ∈ concat (restrack (snd st)) ->
                             known_class (resclass t)).
  { intros t Ht. apply elem_of_concat in Ht. destruct Ht as (l & Ht & Hl).
    apply list_elem_of_lookup in Hl. destruct Hl as (i & Hi).
    apply (Hplaced i t).
    rewrite (list_lookup_total_correct _ _ _ Hi). exact Ht. }
  unfold ReleaseLocalResources.
  cbn [fst snd restrack sockfd inactiveResourceTracker notices].
  split.
  { rewrite Hg0. rewrite <- Hlen.
    clear. induction (restrack (snd st)) as [|l ls IH]; [reflexivity|].
    rewrite fmap_cons. cbn [length replicate]. rewrite IH. reflexivity. }
  split; [reflexivity|]. split; [lia|]. split; [lia|].
  rewrite (release_notices_known ans normal_exit _ Hknown).
  split; [reflexivity|]. split.
  - intros Hans. rewrite (concat_imap_leaks ans normal_exit _ Hans).
    unfold close_notice. destruct Hans as (Hclose & _).
    rewrite Hclose. cbn.
    destruct (sockfd (snd st) =? PGINVALID_SOCKET)%Z; reflexivity.
  - intros Hzero.
    destruct (concat (restrack (snd st))) as [|t all] eqn:Hall.
    + cbn. rewrite app_nil_r. reflexivity.
    + exfalso. specialize (Hzero (resclass t) (u_devmem_ptr t)).
      unfold tracked_count in Hzero. rewrite Hall in Hzero.
      rewrite filter_cons_True in Hzero by (split; reflexivity).
      cbn [length] in Hzero. lia.
Qed.

End TrackerRelease.

(** ** The end of a transaction that inserted a chunk *)

Section TransactionEnd.

Variable env : XactEnv.
Variable is_commit : bool.
Variable oldestXmin : TransactionId.
Variable capacity : nat.
Variable p : nat.

Lemma same_slot_refl (h : GpuStoreHead) : same_slot p h h.
Proof. split; [reflexivity | intros i; reflexivity]. Qed.

Lemma same_slot_trans (h1 h2 h3 : GpuStoreHead) :
  same_slot p h1 h2 -> same_slot p h2 h3 -> same_slot p h1 h3.
Proof.
  intros (Hc1 & Hb1) (Hc2 & Hb2). split.
  - rewrite Hc2. exact Hc1.
  - intros i. rewrite Hb2. apply Hb1.
Qed.

(** A call of the reclaimer on slot [q] leaves the buckets as they are or
    takes [q] from them. *)
Lemma per_chunk_buckets (m : Machine) (q : nat) :
  active_chunks
    (gstore_head (snd (gstoreOnXactCallbackPerChunk env is_commit m q
                         oldestXmin)))
  = active_chunks (gstore_head m)
  \/ active_chunks
       (gstore_head (snd (gstoreOnXactCallbackPerChunk env is_commit m q
                            oldestXmin)))
     = (dlist_delete q <$> active_chunks (gstore_head m)).
Proof.
  unfold gstoreOnXactCallbackPerChunk.
  destruct (gs_chunks (gstore_head m) !! q) as [c0|] eqn:Hq;
    [|left; reflexivity].
  assert (Hrel : forall c,
            active_chunks
              (gstore_head (gstore_fdw_release_chunk (write_chunk m q c) q))
            = (dlist_delete q <$> active_chunks (gstore_head m))).
  { intros c.
    destruct (release_chunk_lists (write_chunk m q c) q c) as (_ & Ha & _).
    - eapply write_chunk_lookup. exact Hq.
    - rewrite Ha. reflexivity. }
  repeat case_if; cbn [snd]; rewrite ?Hrel; auto.
Qed.

Lemma elem_of_dlist_delete (x q : nat) (l : list nat) :
  x ∈ dlist_delete q l <-> x ∈ l /\ x <> q.
Proof.
  unfold dlist_delete. rewrite list_elem_of_filter. tauto.
Qed.

(** The buckets never gain a node by such a call. *)
Lemma per_chunk_shrinks (m : Machine) (q x i : nat) :
  x ∈ active_chunks
        (gstore_head (snd (gstoreOnXactCallbackPerChunk env is_commit m q
                             oldestXmin))) !!! i ->
  x ∈ active_chunks (gstore_head m) !!! i.
Proof.
  destruct (per_chunk_buckets m q) as [-> | ->]; [auto|].
  rewrite total_lookup_fmap_delete, elem_of_dlist_delete. tauto.
Qed.

(** A call on another slot leaves the slot [p] in its state. *)
Lemma per_chunk_same_slot (m : Machine) (q : nat) :
  q <> p ->
  same_slot p (gstore_head m)
    (gstore_head (snd (gstoreOnXactCallbackPerChunk env is_commit m q
                         oldestXmin))).
Proof.
  intros Hne. split.
  - apply per_chunk_other. exact Hne.
  - intros i. destruct (per_chunk_buckets m q) as [-> | ->]; [reflexivity|].
    rewrite total_lookup_fmap_delete, elem_of_dlist_delete.
    split; [tauto | intros H; split; [exact H | congruence]].
Qed.

Lemma nodes_same_slot (nodes : list nat) :
  p ∉ nodes ->
  forall (m : Machine) (meet : bool),
    same_slot p (gstore_head m)
      (gstore_head
         (snd (callback_nodes env is_commit oldestXmin nodes m meet))).
Proof.
  induction nodes as [|q rest IH]; intros Hnot m meet; cbn [callback_nodes].
  - apply same_slot_refl.
  - eapply same_slot_trans.
    + apply (per_chunk_same_slot m q). intros ->. apply Hnot. left.
    + apply IH. intros Hin. apply Hnot. right. exact Hin.
Qed.

Lemma nodes_shrink (nodes : list nat) :
  forall (m : Machine) (meet : bool) (x i : nat),
    x ∈ active_chunks
          (gstore_head
             (snd (callback_nodes env is_commit oldestXmin nodes m meet)))
        !!! i ->
    x ∈ active_chunks (gstore_head m) !!! i.
Proof.
  induction nodes as [|q rest IH]; intros m meet x i; cbn [callback_nodes].
  - auto.
  - intros H. apply IH in H. eapply per_chunk_shrinks. exact H.
Qed.

(** The loop over a bucket that holds [p] once: the state of the slot at
    the end is the one the call on [p] left, and that call found the slot
    as it was at the start. *)
Lemma nodes_visit (nodes : list nat) :
  NoDup nodes -> p ∈ nodes ->
  forall (m : Machine) (meet : bool),
    exists m1,
      same_slot p (gstore_head m) (gstore_head m1)
      /\ same_slot p
           (gstore_head (snd (gstoreOnXactCallbackPerChunk env is_commit m1
                                p oldestXmin)))
           (gstore_head
              (snd (callback_nodes env is_commit oldestXmin nodes m meet))).
Proof.
  induction 1 as [|q rest Hq Hnd IH]; intros Hin m meet;
    [inversion Hin|].
  cbn [callback_nodes].
  destruct (decide (q = p)) as [-> | Hne].
  - exists m. split; [apply same_slot_refl|].
    apply nodes_same_slot. exact Hq.
  - apply elem_of_cons in Hin. destruct Hin as [-> | Hin]; [congruence|].
    destruct (IH Hin
                (snd (gstoreOnXactCallbackPerChunk env is_commit m q
                        oldestXmin))
                (if fst (gstoreOnXactCallbackPerChunk env is_commit m q
                           oldestXmin) then true else meet))
      as (m1 & H1 & H2).
    exists m1. split; [|exact H2].
    eapply same_slot_trans; [|exact H1].
    apply per_chunk_same_slot. exact Hne.
Qed.

Lemma slots_same_slot (slots : list nat) :
  forall (m : Machine) (meet : bool),
    (forall j, j ∈ slots -> p ∉ active_chunks (gstore_head m) !!! j) ->
    same_slot p (gstore_head m)
      (gstore_head
         (snd (callback_slots env is_commit oldestXmin slots m meet))).
Proof.
  induction slots as [|i rest IH]; intros m meet Hnot;
    cbn [callback_slots].
  - apply same_slot_refl.
  - pose proof (nodes_same_slot (active_chunks (gstore_head m) !!! i)
                  (Hnot i ltac:(left)) m meet) as Hs.
    eapply same_slot_trans; [exact Hs|].
    apply IH. intros j Hj Hin. apply (Hnot j); [right; exact Hj|].
    apply Hs. exact Hin.
Qed.

(** The loop over the buckets, when [p] is linked on the bucket [i0] and
    on no other. *)
Lemma slots_visit (i0 : nat) (slots : list nat) :
  NoDup slots -> i0 ∈ slots ->
  forall (m : Machine) (meet : bool),
    store_ok capacity (gstore_head m) ->
    p ∈ active_chunks (gstore_head m) !!! i0 ->
    (forall j, p ∈ active_chunks (gstore_head m) !!! j -> j = i0) ->
    exists m1,
      same_slot p (gstore_head m) (gstore_head m1)
      /\ same_slot p
           (gstore_head (snd (gstoreOnXactCallbackPerChunk env is_commit m1
                                p oldestXmin)))
           (gstore_head
              (snd (callback_slots env is_commit oldestXmin slots m meet))).
Proof.
  induction 1 as [|i rest Hi Hnd IH]; intros Hin m meet Hok Hp Honly;
    [inversion Hin|].
  cbn [callback_slots].
  set (r := callback_nodes env is_commit oldestXmin
              (active_chunks (gstore_head m) !!! i) m meet).
  destruct (decide (i = i0)) as [-> | Hne].
  - destruct (nodes_visit (active_chunks (gstore_head m) !!! i0)
                (store_ok_bucket capacity _ i0 Hok) Hp m meet)
      as (m1 & H1 & H2).
    fold r in H2.
    exists m1. split; [exact H1|].
    eapply same_slot_trans; [exact H2|].
    apply slots_same_slot. intros j Hj Hinj.
    apply H2 in Hinj. apply per_chunk_shrinks in Hinj.
    apply H1 in Hinj. apply Honly in Hinj. subst j. exact (Hi Hj).
  - apply elem_of_cons in Hin. destruct Hin as [-> | Hin]; [congruence|].
    assert (Hs : same_slot p (gstore_head m) (gstore_head (snd r))).
    { apply nodes_same_slot. intros Hpi. apply Honly in Hpi. congruence. }
    destruct (IH Hin (snd r) (fst r)) as (m1 & H1 & H2).
    + apply callback_nodes_store_ok. exact Hok.
    + apply Hs. exact Hp.
    + intros j Hj. apply Honly. apply Hs. exact Hj.
    + exists m1. split; [|exact H2].
      eapply same_slot_trans; [exact Hs | exact H1].
Qed.

End TransactionEnd.

Section TransactionEndClaims.

Variable env : XactEnv.
Variable capacity : nat.

(** The loop over all the buckets, seen from a linked slot. *)
Lemma all_slots_visit (is_commit : bool) (m : Machine) (p : nat)
    (c : GpuStoreChunk) (slots : list nat) :
  store_ok capacity (gstore_head m) ->
  gs_chunks (gstore_head m) !! p = Some c ->
  NoDup slots ->
  (exists i0, i0 ∈ slots /\ p ∈ active_chunks (gstore_head m) !!! i0) ->
  exists m1,
    same_slot p (gstore_head m) (gstore_head m1)
    /\ same_slot p
         (gstore_head (snd (gstoreOnXactCallbackPerChunk env is_commit m1 p
                              (GetOldestXmin env))))
         (gstore_head
            (snd (callback_slots env is_commit (GetOldestXmin env) slots m
                    false))).
Proof.
  intros Hok Hc Hnd (i0 & Hi0 & Hpl).
  assert (Honly : forall j, p ∈ active_chunks (gstore_head m) !!! j ->
                            j = i0).
  { intros j Hj. destruct Hok as [_ _ _ Hhash].
    rewrite <- (Hhash j p c Hj Hc). apply (Hhash i0 p c Hpl Hc). }
  exact (slots_visit env is_commit (GetOldestXmin env) capacity p i0 slots
           Hnd Hi0 m false Hok Hpl Honly).
Qed.

(** The callback of a commit or of an abort that finds the attention
    counter set, seen from a linked slot. *)
Lemma xact_callback_visit (is_commit : bool) (m : Machine) (p : nat)
    (c : GpuStoreChunk) :
  store_ok capacity (gstore_head m) ->
  has_warm_chunks (gstore_head m) <> 0 ->
  gs_chunks (gstore_head m) !! p = Some c ->
  p ∈ active_nodes (gstore_head m) ->
  exists m1,
    same_slot p (gstore_head m) (gstore_head m1)
    /\ same_slot p
         (gstore_head (snd (gstoreOnXactCallbackPerChunk env is_commit m1 p
                              (GetOldestXmin env))))
         (gstore_head
            (gstoreXactCallback env
               (if is_commit then XACT_EVENT_COMMIT else XACT_EVENT_ABORT)
               m)).
Proof.
  intros Hok Hwarm Hc Hin.
  set (slots := seq 0 (Z.to_nat GSTORE_CHUNK_HASH_NSLOTS)).
  assert (Hrun :
    gstoreXactCallback env
      (if is_commit then XACT_EVENT_COMMIT else XACT_EVENT_ABORT) m
    = let r := callback_slots env is_commit (GetOldestXmin env) slots m
                 false in
      if negb (fst r) then set_has_warm_chunks 0 (snd r) else snd r).
  { unfold gstoreXactCallback, slots.
    apply Z.eqb_neq in Hwarm. rewrite Hwarm.
    destruct is_commit; reflexivity. }
  assert (Hi0 : exists i0,
            i0 ∈ slots /\ p ∈ active_chunks (gstore_head m) !!! i0).
  { unfold active_nodes, nodes_of in Hin. fold slots in Hin.
    apply elem_of_concat in Hin. destruct Hin as (l & Hpl & Hl).
    apply list_elem_of_fmap in Hl. destruct Hl as (i0 & -> & Hi0).
    exists i0. split; assumption. }
  assert (Hnd : NoDup slots) by apply NoDup_seq.
  clearbody slots.
  destruct (all_slots_visit is_commit m p c slots Hok Hc Hnd Hi0)
    as (m1 & H1 & H2).
  exists m1. split; [exact H1|].
  rewrite Hrun. cbv zeta.
  destruct (callback_slots env is_commit (GetOldestXmin env) slots m false)
    as [meet mfin].
  cbn [fst snd] in *.
  destruct (negb meet); [|exact H2].
  eapply same_slot_trans; [exact H2|].
  unfold same_slot, set_has_warm_chunks, with_head.
  cbn [gstore_head gs_chunks active_chunks].
  split; [reflexivity | intros i; reflexivity].
Qed.

(** X27.  The end of a transaction, when the attention counter is set, for
    every linked chunk the transaction inserted.  After the callback of
    the abort the chunk is released: it is on the free list and on no
    bucket, and no lookup returns it.  After the callback of the commit a
    chunk that nobody deleted is still linked on its bucket, with its
    insert marked as committed and its data as before, and every backend
    sees it with every snapshot for which the inserting transaction is
    not in progress. *)
Theorem transaction_end (m : Machine) (p : nat) (c : GpuStoreChunk) :
  store_ok capacity (gstore_head m) ->
  has_warm_chunks (gstore_head m) <> 0 ->
  gs_chunks (gstore_head m) !! p = Some c ->
  p ∈ active_nodes (gstore_head m) ->
  TransactionIdIsCurrentTransactionId env (xmin c) = true ->
  (let m' := gstoreXactCallback env XACT_EVENT_ABORT m in
   p ∈ free_chunks (gstore_head m')
   /\ (forall i, p ∉ active_chunks (gstore_head m') !!! i)
   /\ (forall reader gstore_oid snapshot,
         snd (gstore_fdw_lookup_chunk reader (gstore_head m') gstore_oid
                snapshot) <> Return (Some p)))
  /\ (xmax c = InvalidTransactionId ->
      TransactionIdIsValid (xmin c) = true ->
      TransactionIdIsCurrentTransactionId env InvalidTransactionId = false ->
      let m' := gstoreXactCallback env XACT_EVENT_COMMIT m in
      exists c',
        gs_chunks (gstore_head m') !! p = Some c'
        /\ p ∈ active_chunks (gstore_head m') !!! hash_index (hash c)
        /\ same_payload c c'
        /\ xmin_commited c' = true
        /\ xmax c' = InvalidTransactionId
        /\ (xmin c' = xmin c \/ xmin c' = FrozenTransactionId)
        /\ forall reader snapshot,
             XidInMVCCSnapshot snapshot (xmin c) = false ->
             gstore_fdw_satisfies_visibility reader c' snapshot = (true, c')).
Proof.
  intros Hok Hwarm Hc Hin Hown. split.
  - cbv zeta.
    destruct (xact_callback_visit false m p c Hok Hwarm Hc Hin)
      as (m1 & (Hc1 & Hb1) & (Hc2 & Hb2)).
    cbn [negb] in *.
    rewrite Hc in Hc1.
    set (m' := gstoreXactCallback env XACT_EVENT_ABORT m) in *.
    assert (Hgone : forall i, p ∉ active_chunks (gstore_head m') !!! i).
    { intros i Hi. apply Hb2 in Hi. revert Hi.
      unfold gstoreOnXactCallbackPerChunk. rewrite Hc1.
      set (c1 := if TransactionIdIsCurrentTransactionId env (xmax c)
                 then set_xmax InvalidTransactionId c else c).
      assert (Hx1 : xmin c1 = xmin c) by (unfold c1; case_if; reflexivity).
      rewrite Hx1, Hown. cbn [andb negb snd].
      destruct (release_chunk_effects (write_chunk m1 p c1) p c1)
        as (_ & Hg & _).
      { eapply write_chunk_lookup. exact Hc1. }
      apply Hg. }
    assert (Hok' : store_ok capacity (gstore_head m')).
    { apply xact_callback_store_ok. exact Hok. }
    split; [|split; [exact Hgone|]].
    + destruct (store_ok_slot capacity (gstore_head m') p Hok')
        as (_ & Hp).
      { destruct Hok' as [Hlen' _ _ _]. destruct Hok as [Hlen _ _ _].
        rewrite Hlen', <- Hlen. eapply lookup_lt_Some. exact Hc. }
      apply elem_of_app in Hp. destruct Hp as [Hp | Hp]; [exact Hp|].
      exfalso. apply elem_of_concat in Hp. destruct Hp as (l & Hpl & Hl).
      apply list_elem_of_lookup in Hl. destruct Hl as (i & Hi).
      apply (Hgone i). rewrite (list_lookup_total_correct _ _ _ Hi).
      exact Hpl.
    + intros reader gstore_oid snapshot. apply lookup_unlinked. exact Hgone.
  - intros Hxmax Hvalid Hinv. cbv zeta.
    destruct (xact_callback_visit true m p c Hok Hwarm Hc Hin)
      as (m1 & (Hc1 & Hb1) & (Hc2 & Hb2)).
    rewrite Hc in Hc1.
    set (m' := gstoreXactCallback env XACT_EVENT_COMMIT m) in *.
    assert (Hbucket : p ∈ active_chunks (gstore_head m)
                          !!! hash_index (hash c)).
    { unfold active_nodes, nodes_of in Hin.
      apply elem_of_concat in Hin. destruct Hin as (l & Hpl & Hl).
      apply list_elem_of_fmap in Hl. destruct Hl as (i0 & -> & Hi0).
      destruct Hok as [_ _ _ Hhash].
      rewrite (Hhash i0 p c Hpl Hc). exact Hpl. }
    (* the call on the slot *)
    set (c2 := set_xmin_commited true c).
    assert (Hcall :
      exists c',
        snd (gstoreOnXactCallbackPerChunk env true m1 p (GetOldestXmin env))
        = write_chunk m1 p c'
        /\ (c' = c2 \/ c' = set_xmin FrozenTransactionId c2)).
    { unfold gstoreOnXactCallbackPerChunk. rewrite Hc1.
      rewrite Hxmax, Hinv. rewrite Hown. cbn [andb negb].
      fold c2.
      assert (Hx2 : xmax c2 = InvalidTransactionId) by exact Hxmax.
      rewrite Hx2.
      change (TransactionIdIsValid InvalidTransactionId) with false.
      cbn [xmin_commited c2 set_xmin_commited negb].
      destruct (TransactionIdIsNormal (xmin c2)).
      - destruct (negb (TransactionIdPrecedes env (xmin c2)
                          (GetOldestXmin env)));
          eexists; split; try reflexivity; auto.
      - assert (Hv2 : TransactionIdIsValid (xmin c2) = true) by exact Hvalid.
        rewrite Hv2. cbn [negb]. eexists; split; [reflexivity | auto]. }
    destruct Hcall as (c' & Hcall & Hc').
    rewrite Hcall in Hc2, Hb2.
    assert (Hlook : gs_chunks (gstore_head m') !! p = Some c').
    { rewrite Hc2. eapply write_chunk_lookup. exact Hc1. }
    exists c'. split; [exact Hlook|]. split.
    { apply Hb2. cbn [write_chunk with_head with_chunks gstore_head
                      active_chunks]. apply Hb1. exact Hbucket. }
    assert (Hfacts : same_payload c c'
                     /\ xmin_commited c' = true
                     /\ xmax c' = InvalidTransactionId
                     /\ (xmin c' = xmin c \/ xmin c' = FrozenTransactionId)).
    { destruct Hc' as [-> | ->]; unfold c2; cbn;
        repeat split; auto. }
    destruct Hfacts as (Hpay & Hmc & Hx' & Hxm).
    split; [exact Hpay|]. split; [exact Hmc|]. split; [exact Hx'|].
    split; [exact Hxm|].
    intros reader snapshot Hsnap.
    unfold gstore_fdw_satisfies_visibility, visibility_of_delete.
    rewrite Hmc, Hx'. cbn [negb].
    change (TransactionIdIsValid InvalidTransactionId) with false.
    cbn [negb].
    destruct Hxm as [-> | ->].
    + rewrite Hsnap. rewrite andb_false_r. reflexivity.
    + change (FrozenTransactionId =? FrozenTransactionId) with true.
      reflexivity.
Qed.

End TransactionEndClaims.

(** ** The further properties evaluated on concrete data *)

(** Transaction 100 writes three rows for table 7 into the started store:
    its next command sees them. *)
Lemma write_then_read_witness :
  snd (pgstrom_gstore_fdw_height Sample.backend true
         (gstore_head Sample.written) 7 Sample.later_scan)
  = Return (Some 3).
Proof.
  destruct (write_then_read Sample.backend 4 Sample.cuda_ok Sample.started
              Sample.written 7 Sample.loaded 11 4096 3) as (H & _).
  - exact (startup_store_ok 4 0 0 Sample.idle_device).
  - vm_compute. reflexivity.
  - reflexivity.
  - reflexivity.
  - destruct (H Sample.later_scan) as (Hh & _).
    + vm_compute. reflexivity.
    + exact Hh.
Defined.

(** The lookup of table 7 in the sample store, made twice. *)
Lemma lookup_again_witness :
  gstore_fdw_lookup_chunk Sample.backend
    (fst (gstore_fdw_lookup_chunk Sample.backend Sample.store 7
            Sample.scan)) 7 Sample.scan
  = gstore_fdw_lookup_chunk Sample.backend Sample.store 7 Sample.scan.
Proof.
  destruct (lookup_again Sample.backend Sample.store 7 Sample.scan)
    as (_ & H).
  - apply (bool_decide_unpack _). vm_compute. exact I.
  - exact H.
Defined.

(** Transaction 60, which deleted the chunk of slot 1, commits, and no
    transaction older than 100 is left: the chunk is released. *)
Lemma deleted_chunk_pass_witness :
  fst (gstoreOnXactCallbackPerChunk Sample.deleter true Sample.machine 1%nat
         100) = false
  /\ free_chunks
       (gstore_head
          (snd (gstoreOnXactCallbackPerChunk Sample.deleter true
                  Sample.machine 1%nat 100)))
     = 1%nat :: dlist_delete 1%nat (free_chunks Sample.store).
Proof.
  destruct (deleted_chunk_pass Sample.deleter true 100 Sample.machine 1%nat
              Sample.deleted_unmarked eq_refl eq_refl (λ _, eq_refl)
              (λ _, eq_refl)) as (Hk & _ & Hrel).
  split; [exact Hk|].
  destruct (Hrel eq_refl) as (Hfree & _). exact Hfree.
Defined.

(** Transaction 100 marks the chunk of slot 2 as deleted and aborts. *)
Lemma delete_rolled_back_witness :
  gstoreOnXactCallbackPerChunk Sample.backend false
    (write_chunk Sample.machine 2%nat (set_xmax 100 Sample.old_insert))
    2%nat 100
  = gstoreOnXactCallbackPerChunk Sample.backend false Sample.machine 2%nat
      100.
Proof.
  destruct (delete_rolled_back Sample.backend 100 Sample.machine 2%nat
              Sample.old_insert 100 eq_refl eq_refl eq_refl eq_refl)
    as (_ & H).
  exact H.
Defined.

(** A frozen chunk in slot 2 of the sample store, at a commit. *)
Lemma frozen_chunk_stays_witness :
  gstoreOnXactCallbackPerChunk Sample.backend true
    (write_chunk Sample.machine 2%nat Sample.frozen) 2%nat 100
  = (false, write_chunk Sample.machine 2%nat Sample.frozen).
Proof.
  destruct (frozen_chunk_stays Sample.backend Sample.frozen eq_refl eq_refl
              eq_refl) as (_ & H).
  apply H; reflexivity.
Defined.

(** DROP TABLE of table 7 by transaction 100: the chunk of slot 0 is
    marked, the chunk of slot 1, which transaction 60 deleted, is not. *)
Lemma post_drop_marks_witness :
  gs_chunks (gstore_head (gstore_fdw_post_drop Sample.backend Sample.machine
                            7)) !! 0%nat
  = Some (set_xmax 100 Sample.own_insert)
  /\ gs_chunks (gstore_head (gstore_fdw_post_drop Sample.backend
                               Sample.machine 7)) !! 1%nat
     = Some Sample.deleted_unmarked.
Proof.
  destruct (post_drop_marks Sample.backend 7 Sample.machine)
    as (_ & _ & _ & _ & _ & H).
  - apply (bool_decide_unpack _). vm_compute. exact I.
  - split.
    + exact (H 0%nat Sample.own_insert eq_refl).
    + exact (H 1%nat Sample.deleted_unmarked eq_refl).
Defined.


(** Transaction 100 deletes the chunk of table 8 in its command 5: its
    command 6 sees an empty table. *)
Lemma delete_then_read_witness :
  snd (pgstrom_gstore_fdw_height Sample.backend true
         (gstore_head
            (fst (gstoreIterateDirectModify Sample.backend Sample.machine 8
                    Sample.scan 0)))
         8 Sample.later_scan)
  = Return (Some 0).
Proof.
  destruct (delete_then_read Sample.backend Sample.machine
              (fst (gstoreIterateDirectModify Sample.backend Sample.machine
                      8 Sample.scan 0))
              8 Sample.scan 0 3)
    as (p & c & Hlook & Hc & _ & _ & H).
  - apply (bool_decide_unpack _). vm_compute. exact I.
  - vm_compute. reflexivity.
  - reflexivity.
  - reflexivity.
  - vm_compute in Hlook. injection Hlook as <-.
    vm_compute in Hc. injection Hc as <-.
    destruct H as (Hlater & _).
    + intros q c' Hq Hne _. vm_compute in Hq.
      apply list_elem_of_singleton in Hq. contradiction.
    + reflexivity.
    + destruct (Hlater Sample.later_scan) as (Hh & _).
      * vm_compute. reflexivity.
      * exact Hh.
Defined.

(** The transactions 100 and 101 both wrote a chunk for table 7 and
    committed: the table cannot be read. *)
Lemma concurrent_writes_unreadable_witness :
  snd (pgstrom_gstore_fdw_height Sample.reader true
         (gstore_head Sample.written_twice) 7 Sample.reader_scan)
  = Error ERRCODE_INTERNAL_ERROR.
Proof.
  destruct (concurrent_writes_unreadable 4 Sample.backend Sample.backend2
              Sample.reader Sample.cuda_ok Sample.cuda_ok Sample.started
              Sample.written Sample.written_twice 7 Sample.loaded
              {| gcontext := Some 0; nrooms := 10000; nitems := 2 |}
              11 4096 3 12 2048 2 Sample.reader_scan) as (_ & H).
  - exact (startup_store_ok 4 0 0 Sample.idle_device).
  - split; [reflexivity | intros d t; reflexivity].
  - split; [reflexivity | intros d t; reflexivity].
  - vm_compute. reflexivity.
  - vm_compute. reflexivity.
  - intros xid [-> | ->]; repeat split; reflexivity.
  - exact H.
Defined.

(** A context that tracks device memory and I/O mapped memory of the same
    pointer: untracking the device memory leaves the other entry. *)
Lemma tracker_multiset_witness :
  let st := GpuContext.tracker_run Sample.tracker_env
              [GpuContext.TrackGpuMem true 4096 11;
               GpuContext.TrackIOMapMem true 4096]
              Sample.fresh_thread Sample.fresh_context in
  let r := GpuContext.tracker_call Sample.tracker_env
             (GpuContext.UntrackGpuMem 4096) (fst st) (snd st) in
  GpuContext.tracked_count (snd r) GpuContext.RESTRACK_CLASS__IOMAPMEMORY
    4096
  = GpuContext.tracked_count (snd st) GpuContext.RESTRACK_CLASS__IOMAPMEMORY
      4096
  /\ GpuContext.notices (fst r) = GpuContext.notices (fst st).
Proof.
  destruct (tracker_multiset Sample.tracker_env eq_refl
              [GpuContext.TrackGpuMem true 4096 11;
               GpuContext.TrackIOMapMem true 4096]
              Sample.fresh_thread Sample.fresh_context
              (GpuContext.UntrackGpuMem 4096) eq_refl) as (Hother & _ & Hn).
  split.
  - apply Hother. vm_compute. discriminate.
  - exact Hn.
Defined.

(** Two entries for the pointer 4096, with the extras 11 and 22. *)
Lemma track_twice_fifo_witness :
  let t1 := GpuContext.trackGpuMem Sample.tracker_env true
              Sample.fresh_thread Sample.fresh_context 4096 11 in
  let t2 := GpuContext.trackGpuMem Sample.tracker_env true (snd (fst t1))
              (snd t1) 4096 22 in
  exists tl3 g3 tl4,
    GpuContext.untrackGpuMem Sample.tracker_env (snd (fst t2)) (snd t2) 4096
    = (11, tl3, g3)
    /\ GpuContext.untrackGpuMem Sample.tracker_env tl3 g3 4096
       = (22, tl4, Sample.fresh_context)
    /\ GpuContext.notices tl4 = GpuContext.notices Sample.fresh_thread.
Proof.
  intros t1 t2.
  apply (track_twice_fifo Sample.tracker_env true true Sample.fresh_thread
           Sample.fresh_context 4096 11 22 eq_refl eq_refl)
    with (tl1 := snd (fst t1)) (g1 := snd t1).
  - intros (t & Ht & _). vm_compute in Ht. inversion Ht.
  - reflexivity.
  - reflexivity.
Defined.

(** The backend of the sample pool, which holds the shared context 0 with
    the GPU server, puts all its contexts. *)
Lemma force_put_all_teardown_witness :
  GpuContext.process_contexts
    (fst (fst (GpuContext.ForcePutAllGpuContext (λ _, Sample.release_ok)
                 Sample.pool_backend
                 (GpuContext.sharedGpuContextHead Sample.pool_world))))
  = []
  /\ exists s',
       GpuContext.context_array
         (snd (fst (GpuContext.ForcePutAllGpuContext
                      (λ _, Sample.release_ok) Sample.pool_backend
                      (GpuContext.sharedGpuContextHead Sample.pool_world))))
       !! 0%nat = Some s'
       /\ GpuContext.refcnt s' = 1.
Proof.
  destruct (force_put_all_teardown 2 (λ _, Sample.release_ok)
              Sample.pool_world 0%nat Sample.pool_backend)
    as (_ & Hnil & _ & Hcount & _).
  - exact (run_invariant _ 2 _ _
             (run_invariant _ 2 _ _ (startup_invariant 2 2 _))).
  - vm_compute. reflexivity.
  - split; [exact Hnil|].
    destruct (Hcount 0%nat _ eq_refl) as (s' & Hs' & Hr).
    exists s'. split; [exact Hs'|]. rewrite Hr. vm_compute. reflexivity.
Defined.

(** The resource owner 1 of that backend is released. *)
Lemma cleanup_callback_teardown_witness :
  snd (GpuContext.gpucontext_cleanup_callback (λ _, Sample.release_ok)
         Sample.pool_backend
         (GpuContext.sharedGpuContextHead Sample.pool_world) 1 true true)
  = Return tt
  /\ GpuContext.pool_invariant 2
       {| GpuContext.sharedGpuContextHead :=
            snd (fst (GpuContext.gpucontext_cleanup_callback
                        (λ _, Sample.release_ok) Sample.pool_backend
                        (GpuContext.sharedGpuContextHead Sample.pool_world)
                        1 true true));
          GpuContext.processes :=
            <[0%nat :=
                fst (fst (GpuContext.gpucontext_cleanup_callback
                            (λ _, Sample.release_ok) Sample.pool_backend
                            (GpuContext.sharedGpuContextHead
                               Sample.pool_world) 1 true true))]>
              (GpuContext.processes Sample.pool_world) |}.
Proof.
  destruct (cleanup_callback_teardown 2 (λ _, Sample.release_ok)
              Sample.pool_world 0%nat Sample.pool_backend 1 true)
    as (Hret & _ & Hinv & _).
  - exact (run_invariant _ 2 _ _
             (run_invariant _ 2 _ _ (startup_invariant 2 2 _))).
  - vm_compute. reflexivity.
  - split; [exact Hret | exact Hinv].
Defined.

(** A backend that holds no context acquires one twice and puts it
    twice, in a pool of two shared contexts. *)
Lemma alloc_put_round_trip_witness :
  exists pr1 sh1,
    GpuContext.AllocGpuContext Sample.tracker_env
      (GpuContext.init_process false 0) (GpuContext.startup_head 2) 1 0
      false true (Return 0)
    = (pr1, sh1, Return 0%nat)
    /\ GpuContext.free_list sh1 = [1%nat].
Proof.
  destruct (alloc_put_round_trip Sample.tracker_env 2
              (GpuContext.init_process false 0) (GpuContext.startup_head 2)
              1 0 0 true (Return 0) (Return 0) 0%nat [1%nat]
              Sample.release_ok Sample.release_iomap_fails)
    as (pr1 & sh1 & _ & _ & _ & _ & Ha & Hf & _).
  - apply (GpuContext.inv_process 2 Sample.pool_start
             (startup_invariant 2 2 _) 0%nat).
    reflexivity.
  - reflexivity.
  - reflexivity.
  - reflexivity.
  - intros H. apply list_elem_of_singleton in H. discriminate H.
  - vm_compute. lia.
  - exists pr1, sh1. split; [exact Ha | exact Hf].
Defined.

(** The GPU server attaches to the shared context 0 over socket 5 and
    looks the context up by the socket. *)
Lemma attach_then_lookup_witness :
  snd (GpuContext.GetGpuContextBySockfd Sample.pool_server 5)
  = Return (Some 0%nat).
Proof.
  destruct (attach_then_lookup Sample.tracker_env 2
              (GpuContext.init_process true 1) Sample.pool_server
              (GpuContext.sharedGpuContextHead Sample.pool_alloc)
              (GpuContext.sharedGpuContextHead Sample.pool_world)
              5 0%nat 2 0 true true 0%nat)
    as (_ & pr2 & g & Hget & _).
  - apply (GpuContext.inv_process 2 Sample.pool_start
             (startup_invariant 2 2 _) 1%nat).
    reflexivity.
  - vm_compute. reflexivity.
  - rewrite Hget. reflexivity.
Defined.

(** The handle of the rows transaction 100 wrote for table 7, pinned to
    device 0 of one, exported in its next command. *)
Lemma write_then_export_witness :
  snd (pgstrom_gstore_export_ipchandle Sample.backend true 0 1
         (gstore_head Sample.written) 7 Sample.later_scan)
  = Return (Some 78).
Proof.
  destruct (write_then_export Sample.backend 4 Sample.cuda_ok Sample.started
              Sample.written 7 Sample.loaded 11 4096 3 0 1)
    as (handle & Halloc & _ & H).
  - exact (startup_store_ok 4 0 0 Sample.idle_device).
  - reflexivity.
  - lia.
  - vm_compute. reflexivity.
  - reflexivity.
  - reflexivity.
  - injection Halloc as <-. apply (H Sample.later_scan).
    vm_compute. reflexivity.
Defined.

(** A table pinned to device 1, in the default format. *)
Lemma table_options_parse_witness :
  Options.__gstore_fdw_table_options Sample.option_env Sample.table_options
  = inr (1, 50).
Proof.
  destruct (table_options_parse Sample.option_env Sample.table_options)
    as (H & _).
  - vm_compute. discriminate.
  - apply (H 1 50). split; [|reflexivity].
    split.
    + intros d Hd. apply elem_of_cons in Hd. destruct Hd as [-> | Hd].
      * left. reflexivity.
      * apply list_elem_of_singleton in Hd. subst d. right.
        split; [reflexivity | left; reflexivity].
    + split; [eexists; split; reflexivity|].
      split; [cbn; lia | cbn; lia].
Defined.

(** A scan of table 8 of the sample store: the second call returns the
    second row, and the fourth call returns no row. *)
Lemma scan_returns_rows_witness :
  snd (Scan.gstoreIterateForeignScan Sample.scan_env Sample.backend 8
         Sample.scan
         (Scan.scan_calls Sample.scan_env Sample.backend 8 Sample.scan 1
            Sample.scan_start))
  = Return (Some [Some (Scan.Int32GetDatum 1001);
                  Some (Scan.PointerGetDatum 1101)])
  /\ snd (Scan.gstoreIterateForeignScan Sample.scan_env Sample.backend 8
            Sample.scan
            (Scan.scan_calls Sample.scan_env Sample.backend 8 Sample.scan 3
               Sample.scan_start))
     = Return None.
Proof.
  pose proof (scan_returns_rows Sample.scan_env Sample.backend 8 Sample.scan
                Sample.machine 2%nat Sample.old_insert Sample.kds) as H.
  split.
  - destruct (H eq_refl eq_refl) with (k := 1%nat) as (H1 & _).
    + cbn. lia.
    + reflexivity.
    + cbn. lia.
    + exact H1.
  - destruct (H eq_refl eq_refl) with (k := 3%nat) as (H3 & _).
    + cbn. lia.
    + reflexivity.
    + cbn. lia.
    + exact H3.
Defined.

(** The same scan started again after two calls: the first call returns
    the first row. *)
Lemma rescan_returns_rows_witness :
  snd (Scan.gstoreIterateForeignScan Sample.scan_env Sample.backend 8
         Sample.scan
         (fst (Scan.scan_calls Sample.scan_env Sample.backend 8 Sample.scan
                 2 Sample.scan_start),
          Scan.gstoreReScanForeignScan
            (snd (Scan.scan_calls Sample.scan_env Sample.backend 8
                    Sample.scan 2 Sample.scan_start))))
  = Return (Some [Some (Scan.Int32GetDatum 1000);
                  Some (Scan.PointerGetDatum 1100)]).
Proof.
  apply (rescan_returns_rows Sample.scan_env Sample.backend 8 Sample.scan
           Sample.machine 2%nat Sample.old_insert Sample.kds)
    with (k := 2%nat) (j := 0%nat).
  - apply (bool_decide_unpack _). vm_compute. exact I.
  - reflexivity.
  - reflexivity.
  - cbn. lia.
  - reflexivity.
  - cbn. lia.
Defined.

(** An INSERT of three rows into table 7 of the started store, read by the
    next command. *)
Lemma insert_statement_rows_witness :
  snd (pgstrom_gstore_fdw_height Sample.backend true
         (gstore_head
            (fst (gstoreEndForeignModify Sample.backend Sample.cuda_ok
                    (fst (gstoreBeginForeignModify Sample.backend
                            (λ d, Return d) Sample.started 7 Sample.scan 0))
                    7
                    (insert_rows 3
                       {| gcontext := Some 0; nrooms := 10000;
                          nitems := 0 |})
                    11 4096)))
         7 Sample.later_scan)
  = Return (Some 3).
Proof.
  destruct (insert_statement_rows Sample.backend 4 (λ d, Return d)
              Sample.cuda_ok Sample.started
              (fst (gstoreBeginForeignModify Sample.backend (λ d, Return d)
                      Sample.started 7 Sample.scan 0))
              (fst (gstoreEndForeignModify Sample.backend Sample.cuda_ok
                      (fst (gstoreBeginForeignModify Sample.backend
                              (λ d, Return d) Sample.started 7 Sample.scan
                              0))
                      7
                      (insert_rows 3
                         {| gcontext := Some 0; nrooms := 10000;
                            nitems := 0 |})
                      11 4096))
              7 Sample.scan 0
              {| gcontext := Some 0; nrooms := 10000; nitems := 0 |}
              3%nat 11 4096) as (_ & _ & H).
  - exact (startup_store_ok 4 0 0 Sample.idle_device).
  - vm_compute. reflexivity.
  - cbn. lia.
  - vm_compute. reflexivity.
  - reflexivity.
  - reflexivity.
  - destruct (H Sample.later_scan) as (_ & H3).
    + vm_compute. reflexivity.
    + cbn. lia.
    + apply H3. cbn. lia.
Defined.

(** A context that still tracks device memory and I/O mapped memory is
    released at a normal exit: two notices, and two idle trackers. *)
Lemma release_returns_trackers_witness :
  let st := GpuContext.tracker_run Sample.tracker_env
              [GpuContext.TrackGpuMem true 4096 11;
               GpuContext.TrackIOMapMem true 8192]
              Sample.fresh_thread Sample.fresh_context in
  let r := GpuContext.ReleaseLocalResources Sample.release_iomap_fails
             (fst st) (snd st) true in
  GpuContext.inactiveResourceTracker (fst r) = 2%nat
  /\ GpuContext.notices (fst r)
     = [GpuContext.LikelyLeaked GpuContext.RESTRACK_CLASS__IOMAPMEMORY 8192;
        GpuContext.FreeFailed GpuContext.RESTRACK_CLASS__IOMAPMEMORY 8192;
        GpuContext.LikelyLeaked GpuContext.RESTRACK_CLASS__GPUMEMORY 4096].
Proof.
  destruct (release_returns_trackers Sample.tracker_env eq_refl
              Sample.release_iomap_fails
              [GpuContext.TrackGpuMem true 4096 11;
               GpuContext.TrackIOMapMem true 8192]
              Sample.fresh_thread Sample.fresh_context true eq_refl)
    as (_ & _ & Hidle & _ & Hnotices & _).
  split.
  - rewrite Hidle. vm_compute. reflexivity.
  - rewrite Hnotices. vm_compute. reflexivity.
Defined.

(** Transaction 100 wrote a chunk for table 7 and aborts: the slot of the
    chunk is free again. *)
Lemma transaction_end_witness :
  0%nat ∈ free_chunks
           (gstore_head
              (gstoreXactCallback Sample.backend XACT_EVENT_ABORT
                 Sample.written)).
Proof.
  destruct (transaction_end Sample.backend 4 Sample.written 0%nat
              (Sample.chunk_written)) as ((H & _) & _).
  - exact (writeout_store_ok 4 Sample.backend Sample.cuda_ok Sample.started
             7 Sample.loaded 11 4096 3
             (startup_store_ok 4 0 0 Sample.idle_device)).
  - vm_compute. discriminate.
  - vm_compute. reflexivity.
  - assert (Hn : active_nodes (gstore_head Sample.written) = [0%nat])
      by (vm_compute; reflexivity).
    rewrite Hn. left.
  - reflexivity.
  - exact H.
Defined.
